(** * claude-token-counter: the usage-data aggregation engine

    A shallow embedding of [claude_token_counter/core/token_data.py] and
    the properties of its ingestion and query operations.

    Conventions of the embedding:
    - a Python [int] is a [Z]; a Python [float] is an IEEE-754 binary64
      value, a [spec_float] of the Standard Library at precision 53 and
      maximal exponent 1024, with the library's round-to-nearest-even
      operations;
    - a Python [str] is a [string]; comparison is lexicographic on the
      character codes;
    - a [dict] whose iteration order is observable is an association list
      in insertion order;
    - a call that may raise returns an [option]: [None] is the exception
      reaching the caller. *)

From Stdlib Require Import ZArith List String Ascii Bool Lia.
From Stdlib Require Import Floats.SpecFloat.
From Stdlib Require Import Sorting.Permutation Sorting.Sorted.
Import ListNotations.

Open Scope string_scope.
Open Scope list_scope.
Open Scope Z_scope.

Declare Scope py_scope.
Delimit Scope py_scope with py.

(** ** The exception monad *)

Definition bind {A B : Type} (m : option A) (k : A -> option B) : option B :=
  match m with
  | Some a => k a
  | None => None
  end.

Notation "x <- m ;; k" := (bind m (fun x => k))
  (at level 61, m at next level, right associativity) : py_scope.

Open Scope py_scope.

(** Evaluating [f] on every element in order; the first exception ends it. *)
Fixpoint traverse {A B : Type} (f : A -> option B) (l : list A) : option (list B) :=
  match l with
  | [] => Some []
  | a :: l' => b <- f a ;; bs <- traverse f l' ;; Some (b :: bs)
  end.

(** ** Python floats *)

Module PyFloat.

Definition prec : Z := 53.
Definition emax : Z := 1024.

Definition float : Type := spec_float.

Definition fadd : float -> float -> float := SFadd prec emax.
Definition fsub : float -> float -> float := SFsub prec emax.
Definition fmul : float -> float -> float := SFmul prec emax.
Definition fdiv : float -> float -> float := SFdiv prec emax.
Definition fabs : float -> float := SFabs.

Definition fzero : float := S754_zero false.

(** [x >= y] and [x == y] on floats. *)
Definition fge (x y : float) : bool := SFleb y x.
Definition feq (x y : float) : bool := SFeqb x y.

(** An integer as the operand of a float division: the mantissa is the
    integer itself, the exponent 0; no rounding happens here. *)
Definition of_pos (s : bool) (p : positive) : float := S754_finite s p 0.

(** [a / b] on two [int]s is the correctly rounded quotient;
    [ZeroDivisionError] for [b = 0], and [OverflowError] when the rounded
    quotient is not a finite float. *)
Definition int_true_div (a b : Z) : option float :=
  match a, b with
  | _, Z0 => None
  | Z0, Zpos _ => Some (S754_zero false)
  | Z0, Zneg _ => Some (S754_zero true)
  | Zpos p, Zpos q | Zneg p, Zneg q =>
      match fdiv (of_pos false p) (of_pos false q) with
      | S754_infinity _ => None
      | x => Some x
      end
  | Zpos p, Zneg q | Zneg p, Zpos q =>
      match fdiv (of_pos true p) (of_pos false q) with
      | S754_infinity _ => None
      | x => Some x
      end
  end.

(** The float a decimal literal [n / 10^k] denotes: the binary64 value
    nearest to it. *)
Definition decimal (n : Z) (k : nat) : float :=
  match int_true_div n (10 ^ Z.of_nat k) with
  | Some x => x
  | None => S754_nan
  end.

(** [int(0) + x]: the [int] operand is converted first. *)
Definition of_int_zero : float := fzero.

(** The sum by repeated [+] from [0], left to right: what a loop of
    [total += x] computes. *)
Definition left_sum (l : list float) : float := fold_left fadd l of_int_zero.

(** The builtin [sum] on a list of floats, from its start value [0].
    CPython adds the first item to the start value.  Up to version 3.11
    it goes on adding from the left; from 3.12 on it carries a
    compensation term (Neumaier's summation) that it adds at the end. *)
Inductive sum_algorithm : Type :=
| LeftToRight
| Compensated.

(** [c && isfinite(c)] *)
Definition nonzero_finite (c : float) : bool :=
  match c with
  | S754_finite _ _ _ => true
  | _ => false
  end.

(** The loop of the compensated sum: [f] is the running sum and [c] the
    compensation. *)
Fixpoint compensated (l : list float) (f c : float) : float :=
  match l with
  | [] => if nonzero_finite c then fadd f c else f
  | x :: l' =>
      let t := fadd f x in
      let c' := if fge (fabs f) (fabs x)
                then fadd c (fadd (fsub f t) x)
                else fadd c (fadd (fsub x t) f) in
      compensated l' t c'
  end.

Definition py_sum (alg : sum_algorithm) (l : list float) : float :=
  match l with
  | [] => of_int_zero
  | x :: l' =>
      let first := fadd of_int_zero x in
      match alg with
      | LeftToRight => fold_left fadd l' first
      | Compensated => compensated l' first fzero
      end
  end.

End PyFloat.
Export PyFloat.

(** The builtin [sum] over ints. *)
Definition isum (l : list Z) : Z := fold_left Z.add l 0.

(** [len] *)
Definition len {A : Type} (l : list A) : Z := Z.of_nat (List.length l).

(** ** Dictionaries in insertion order *)

Section Dict.
Context {V : Type}.

Definition dict : Type := list (string * V).

Fixpoint dict_get (k : string) (d : dict) : option V :=
  match d with
  | [] => None
  | (k', v) :: d' => if String.eqb k k' then Some v else dict_get k d'
  end.

(** [k in d] *)
Definition dict_mem (k : string) (d : dict) : bool :=
  match dict_get k d with
  | Some _ => true
  | None => false
  end.

(** [d[k] = v]: an existing key keeps its place, a new one goes last. *)
Fixpoint dict_set (k : string) (v : V) (d : dict) : dict :=
  match d with
  | [] => [(k, v)]
  | (k', v') :: d' =>
      if String.eqb k k' then (k, v) :: d' else (k', v') :: dict_set k v d'
  end.

(** [d[k] = f(d[k])] for a key that is present. *)
Fixpoint dict_adjust (k : string) (f : V -> V) (d : dict) : dict :=
  match d with
  | [] => []
  | (k', v) :: d' =>
      if String.eqb k k' then (k', f v) :: d' else (k', v) :: dict_adjust k f d'
  end.

Definition dict_keys (d : dict) : list string := map fst d.
Definition dict_values (d : dict) : list V := map snd d.

End Dict.
Arguments dict : clear implicits.

(** ** The pricing table *)

Record Rates := mkRates {
  rate_input : float;
  rate_output : float;
  rate_cache_write : float;
  rate_cache_read : float
}.

(** [3.0], [15.0], [3.75], [0.30] *)
Definition sonnet_rates : Rates :=
  mkRates (decimal 30 1) (decimal 150 1) (decimal 375 2) (decimal 30 2).

(** [15.0], [75.0], [18.75], [1.50] *)
Definition opus_rates : Rates :=
  mkRates (decimal 150 1) (decimal 750 1) (decimal 1875 2) (decimal 150 2).

Definition DEFAULT_MODEL : string := "claude-sonnet-4-20250514".

Definition PRICING : dict Rates :=
  [ ("claude-sonnet-4-20250514", sonnet_rates);
    ("claude-3-5-sonnet-20241022", sonnet_rates);
    ("claude-3-opus-20240229", opus_rates) ].

(** [PRICING.get(model, PRICING['claude-sonnet-4-20250514'])] *)
Definition pricing_for (model : string) : Rates :=
  match dict_get model PRICING with
  | Some r => r
  | None =>
      match dict_get DEFAULT_MODEL PRICING with
      | Some r => r
      | None => sonnet_rates
      end
  end.

(** ** Usage records *)

(** An element of [usage_data] whose values have the types of the data
    model. *)
Record UsageRecord := mkUsage {
  model : string;
  timestamp : string;
  input_tokens : Z;
  output_tokens : Z;
  cache_creation_input_tokens : Z;
  cache_read_input_tokens : Z;
  session_id : string;
  project_dir : string
}.

(** The data model's precondition on the four counts. *)
Definition nonneg_counts (r : UsageRecord) : Prop :=
  0 <= input_tokens r /\ 0 <= output_tokens r /\
  0 <= cache_creation_input_tokens r /\ 0 <= cache_read_input_tokens r.

(** [entry['input_tokens'] + entry['output_tokens'] +
     entry['cache_creation_input_tokens'] + entry['cache_read_input_tokens']] *)
Definition total_tokens (r : UsageRecord) : Z :=
  input_tokens r + output_tokens r +
  cache_creation_input_tokens r + cache_read_input_tokens r.

(** ** [TokenData.calculate_cost] *)

Definition MILLION : Z := 1000000.

Definition calculate_cost (usage_entry : UsageRecord) : option float :=
  let pricing := pricing_for (model usage_entry) in
  qi <- int_true_div (input_tokens usage_entry) MILLION ;;
  let input_cost := fmul qi (rate_input pricing) in
  qo <- int_true_div (output_tokens usage_entry) MILLION ;;
  let output_cost := fmul qo (rate_output pricing) in
  qw <- int_true_div (cache_creation_input_tokens usage_entry) MILLION ;;
  let cache_write_cost := fmul qw (rate_cache_write pricing) in
  qr <- int_true_div (cache_read_input_tokens usage_entry) MILLION ;;
  let cache_read_cost := fmul qr (rate_cache_read pricing) in
  Some (fadd (fadd (fadd input_cost output_cost) cache_write_cost) cache_read_cost).

(** ** [TokenData.get_summary_stats] *)

Record ModelStats := mkModelStats {
  requests : Z;
  m_input_tokens : Z;
  m_output_tokens : Z;
  m_cache_creation_input_tokens : Z;
  m_cache_read_input_tokens : Z;
  cost : float
}.

Record SummaryStats := mkSummary {
  total_requests : Z;
  total_input : Z;
  total_output : Z;
  total_cache_creation : Z;
  total_cache_read : Z;
  total_cost : float;
  models : dict ModelStats
}.

(** The value the [defaultdict] creates for a model seen for the first
    time. *)
Definition new_model_stats : ModelStats :=
  mkModelStats 0 0 0 0 0 of_int_zero.

(** The six updates [models[model][...] += ...] of the loop body, on the
    tally [st] of the model of [r]; [c] is [calculate_cost(r)]. *)
Definition add_record (st : ModelStats) (r : UsageRecord) (c : float) : ModelStats :=
  mkModelStats
    (requests st + 1)
    (m_input_tokens st + input_tokens r)
    (m_output_tokens st + output_tokens r)
    (m_cache_creation_input_tokens st + cache_creation_input_tokens r)
    (m_cache_read_input_tokens st + cache_read_input_tokens r)
    (fadd (cost st) c).

(** One pass of the body of the loop over [data]. *)
Definition count_entry (models : dict ModelStats) (entry : UsageRecord)
  : option (dict ModelStats) :=
  let m := model entry in
  let cur := match dict_get m models with
             | Some s => s
             | None => new_model_stats
             end in
  c <- calculate_cost entry ;;
  Some (dict_set m (add_record cur entry c) models).

Fixpoint count_entries (models : dict ModelStats) (data : list UsageRecord)
  : option (dict ModelStats) :=
  match data with
  | [] => Some models
  | entry :: data' =>
      models' <- count_entry models entry ;; count_entries models' data'
  end.

Definition empty_summary : SummaryStats :=
  mkSummary 0 0 0 0 0 fzero [].

(** [alg] is the algorithm of the builtin [sum] on floats. *)
Definition get_summary_stats (alg : sum_algorithm)
    (usage_data : list UsageRecord)
    (filter_data : option (list UsageRecord)) : option SummaryStats :=
  let data := match filter_data with
              | Some d => d
              | None => usage_data
              end in
  match data with
  | [] => Some empty_summary
  | _ :: _ =>
      let total_input := isum (map input_tokens data) in
      let total_output := isum (map output_tokens data) in
      let total_cache_creation := isum (map cache_creation_input_tokens data) in
      let total_cache_read := isum (map cache_read_input_tokens data) in
      costs <- traverse calculate_cost data ;;
      let total_cost := py_sum alg costs in
      models <- count_entries [] data ;;
      Some (mkSummary (len data) total_input total_output
              total_cache_creation total_cache_read total_cost models)
  end.

(** [summarize(records)]: the summary of an explicit list. *)
Definition summarize (alg : sum_algorithm) (records : list UsageRecord)
  : option SummaryStats :=
  get_summary_stats alg [] (Some records).

(** ** [TokenData.get_recent_activity] *)

(** [sorted(..., key=..., reverse=True)]: a stable sort, so the result is
    the one arrangement in descending key order that keeps records of
    equal keys in their original order. *)
Section Sorted.
Context {A : Type}.
Variable key : A -> string.

Fixpoint insert_desc (x : A) (l : list A) : list A :=
  match l with
  | [] => [x]
  | y :: l' =>
      if String.ltb (key x) (key y) then y :: insert_desc x l' else x :: l
  end.

Definition sorted_desc (l : list A) : list A :=
  fold_right insert_desc [] l.

End Sorted.

(** [l[:limit]] *)
Definition slice_to {A : Type} (limit : Z) (l : list A) : list A :=
  if 0 <=? limit then firstn (Z.to_nat limit) l
  else firstn (Z.to_nat (len l + limit)) l.

Definition get_recent_activity (usage_data : list UsageRecord) (limit : Z)
  : list UsageRecord :=
  let recent := slice_to limit (sorted_desc timestamp usage_data) in
  recent.

(** ** [TokenData.get_today_data] *)

Record date := mkDate { year : Z; month : Z; day : Z }.

Definition digit_char (n : Z) : ascii :=
  ascii_of_nat (48 + Z.to_nat (n mod 10)).

(** [n] written with exactly [width] decimal digits, zero-padded (the low
    [width] digits of it). *)
Fixpoint pad_digits (width : nat) (n : Z) : string :=
  match width with
  | O => EmptyString
  | S w => (pad_digits w (n / 10) ++ String (digit_char n) EmptyString)%string
  end.

(** [date.isoformat()], for the years 1 to 9999 a [date] can hold. *)
Definition isoformat (d : date) : string :=
  (pad_digits 4 (year d) ++ "-" ++ pad_digits 2 (month d) ++ "-"
     ++ pad_digits 2 (day d))%string.

(** [today] is [date.today()]. *)
Definition get_today_data (today : date) (usage_data : list UsageRecord)
  : list UsageRecord :=
  let today := isoformat today in
  filter (fun entry => String.prefix today (timestamp entry)) usage_data.

(** ** Dates and times

    A naive [datetime] is the number of microseconds since
    0001-01-01T00:00:00; a [timedelta] is a number of microseconds.  Both
    types are bounded in Python, and leaving the bounds raises
    [OverflowError]. *)

Definition datetime : Type := Z.
Definition timedelta : Type := Z.

Definition US_PER_MINUTE : Z := 60000000.
Definition US_PER_HOUR : Z := 3600000000.
Definition US_PER_DAY : Z := 86400000000.
Definition MAX_ORDINAL : Z := 3652059.
Definition MAX_DELTA_DAYS : Z := 999999999.

Definition valid_datetime (t : datetime) : Prop :=
  0 <= t < MAX_ORDINAL * US_PER_DAY.

Definition valid_datetimeb (t : datetime) : bool :=
  (0 <=? t) && (t <? MAX_ORDINAL * US_PER_DAY).

(** The [timedelta] constructor: at most 999999999 days either way. *)
Definition mk_timedelta (us : Z) : option timedelta :=
  let days := us / US_PER_DAY in
  if (- MAX_DELTA_DAYS <=? days) && (days <=? MAX_DELTA_DAYS)
  then Some us else None.

Definition timedelta_minutes (minutes : Z) : option timedelta :=
  mk_timedelta (minutes * US_PER_MINUTE).

Definition timedelta_hours (hours : Z) : option timedelta :=
  mk_timedelta (hours * US_PER_HOUR).

(** [t + d] and [t - d] *)
Definition dt_add (t : datetime) (d : timedelta) : option datetime :=
  if valid_datetimeb (t + d) then Some (t + d) else None.

Definition dt_sub (t : datetime) (d : timedelta) : option datetime :=
  if valid_datetimeb (t - d) then Some (t - d) else None.

(** A [datetime] with its [tzinfo]: the wall-clock reading, and the offset
    from UTC when it has one ([None] for a naive datetime). *)
Record tz_datetime := mkTz { wall : datetime; utcoffset : option timedelta }.

(** [dt.replace(tzinfo=None)] *)
Definition replace_tzinfo_none (dt : tz_datetime) : datetime := wall dt.

(** The hour of the day, 0 to 23. *)
Definition hour_of (t : datetime) : Z := (t / US_PER_HOUR) mod 24.

(** The labels ["00:00"] to ["23:00"]. *)
Definition hour_label (h : Z) : string := (pad_digits 2 h ++ ":00")%string.

(** [dt.strftime('%H:00')] *)
Definition strftime_hour (dt : tz_datetime) : string :=
  hour_label (hour_of (wall dt)).

(** [s.replace('Z', '+00:00')] *)
Fixpoint replace_Z (s : string) : string :=
  match s with
  | EmptyString => EmptyString
  | String c s' =>
      if Ascii.eqb c "Z"%char then ("+00:00" ++ replace_Z s')%string
      else String c (replace_Z s')
  end.

Record HourStats := mkHourStats {
  h_tokens : Z;
  h_cost : float;
  h_requests : Z
}.

(** The value a new key of [hourly_data] gets. *)
Definition new_hour_stats : HourStats := mkHourStats 0 of_int_zero 0.

Section Clock.
(** The two library calls behind [get_local_datetime]: the parser of
    ISO-8601 strings ([None] for [ValueError]) and the conversion to the
    machine's time zone ([None] when it raises). *)
Variable fromisoformat : string -> option tz_datetime.
Variable astimezone : tz_datetime -> option tz_datetime.

(** *** [TokenData.get_local_datetime] *)
Definition get_local_datetime (timestamp_str : string) : option tz_datetime :=
  match fromisoformat (replace_Z timestamp_str) with
  | Some utc_dt =>
      match astimezone utc_dt with
      | Some local_dt => Some local_dt
      | None => None
      end
  | None => None
  end.

(** *** [TokenData.get_hourly_usage] *)

(** The body of the loop for one entry.  The three tallies are updated
    one after the other and [calculate_cost] is called by the second
    update, so an exception there leaves the first one done. *)
Definition hourly_entry (cutoff : datetime) (hourly_data : dict HourStats)
    (entry : UsageRecord) : dict HourStats :=
  match get_local_datetime (timestamp entry) with
  | Some local_timestamp =>
      if cutoff <=? replace_tzinfo_none local_timestamp then
        let hour_key := strftime_hour local_timestamp in
        let hourly_data :=
          if dict_mem hour_key hourly_data then hourly_data
          else dict_set hour_key new_hour_stats hourly_data in
        let total_tokens := total_tokens entry in
        let hourly_data :=
          dict_adjust hour_key
            (fun b => mkHourStats (h_tokens b + total_tokens) (h_cost b) (h_requests b))
            hourly_data in
        match calculate_cost entry with
        | Some c =>
            dict_adjust hour_key
              (fun b => mkHourStats (h_tokens b) (fadd (h_cost b) c) (h_requests b + 1))
              hourly_data
        | None => hourly_data
        end
      else hourly_data
  | None => hourly_data
  end.

Definition get_hourly_usage (now : datetime) (usage_data : list UsageRecord)
    (hours : Z) : option (dict HourStats) :=
  d <- timedelta_hours hours ;;
  cutoff <- dt_sub now d ;;
  Some (fold_left (hourly_entry cutoff) usage_data []).

(** *** [TokenData.get_recent_trend] *)

(** The body of the inner loop for one entry. *)
Definition bucket_entry (bucket_start bucket_end : datetime)
    (bucket_tokens : Z) (entry : UsageRecord) : Z :=
  match get_local_datetime (timestamp entry) with
  | Some local_timestamp =>
      let local_naive := replace_tzinfo_none local_timestamp in
      if (bucket_start <=? local_naive) && (local_naive <? bucket_end)
      then bucket_tokens + total_tokens entry
      else bucket_tokens
  | None => bucket_tokens
  end.

(** The body of the outer loop for the index [i]. *)
Definition trend_bucket (cutoff : datetime) (usage_data : list UsageRecord)
    (i : Z) : option Z :=
  d <- timedelta_minutes (i * 10) ;;
  bucket_start <- dt_add cutoff d ;;
  d10 <- timedelta_minutes 10 ;;
  bucket_end <- dt_add bucket_start d10 ;;
  Some (fold_left (bucket_entry bucket_start bucket_end) usage_data 0).

(** [range(6)] *)
Definition trend_indices : list Z := [0; 1; 2; 3; 4; 5].

Definition get_recent_trend (now : datetime) (usage_data : list UsageRecord)
    (minutes : Z) : option (list Z) :=
  d <- timedelta_minutes minutes ;;
  cutoff <- dt_sub now d ;;
  traverse (trend_bucket cutoff usage_data) trend_indices.

End Clock.

(** ** Ingestion *)

(** The values [json.loads] builds: [None], [bool], [int], [float], [str],
    [list] and [dict] (keys in order of first occurrence). *)
#[warnings="-register-all"]
Inductive json : Type :=
| JNull
| JBool (b : bool)
| JInt (n : Z)
| JFloat (x : float)
| JString (s : string)
| JArray (items : list json)
| JObject (members : list (string * json)).

(** What a call of [json.loads] does. *)
Inductive loads_result : Type :=
| Loaded (data : json)
| JSONDecodeError
| OtherError.

(** The operations the parser applies to decoded values.  [None] is the
    [AttributeError], [KeyError] or [TypeError] Python raises. *)

(** [obj.get(key, default)]: only a [dict] has the method. *)
Definition py_get (obj : json) (key : string) (default : json) : option json :=
  match obj with
  | JObject d =>
      Some match dict_get key d with
           | Some v => v
           | None => default
           end
  | _ => None
  end.

(** [s1 in s2] on strings. *)
Definition is_substring (s1 s2 : string) : bool :=
  match String.index 0 s1 s2 with
  | Some _ => true
  | None => false
  end.

(** [v == s] for a string [s]. *)
Definition is_str (s : string) (v : json) : bool :=
  match v with
  | JString s' => String.eqb s' s
  | _ => false
  end.

(** [key in obj], for a [str] key: membership among the keys of a [dict]
    and the items of a [list], substring test on a [str]. *)
Definition py_in (key : string) (obj : json) : option bool :=
  match obj with
  | JObject d => Some (dict_mem key d)
  | JArray items => Some (existsb (is_str key) items)
  | JString s => Some (is_substring key s)
  | _ => None
  end.

(** [obj[key]], for a [str] key. *)
Definition py_getitem (obj : json) (key : string) : option json :=
  match obj with
  | JObject d => dict_get key d
  | _ => None
  end.

(** An element of [usage_data], as the parser builds it: the values are
    whatever the line held. *)
Record Entry := mkEntry {
  e_model : json;
  e_timestamp : json;
  e_input_tokens : json;
  e_output_tokens : json;
  e_cache_creation_input_tokens : json;
  e_cache_read_input_tokens : json;
  e_session_id : json;
  e_project_dir : string
}.

Definition as_str (v : json) : option string :=
  match v with
  | JString s => Some s
  | _ => None
  end.

Definition as_int (v : json) : option Z :=
  match v with
  | JInt n => Some n
  | _ => None
  end.

(** An entry whose values have the types of the data model, as a
    [UsageRecord]. *)
Definition usage_record_of (e : Entry) : option UsageRecord :=
  m <- as_str (e_model e) ;;
  t <- as_str (e_timestamp e) ;;
  i <- as_int (e_input_tokens e) ;;
  o <- as_int (e_output_tokens e) ;;
  w <- as_int (e_cache_creation_input_tokens e) ;;
  r <- as_int (e_cache_read_input_tokens e) ;;
  s <- as_str (e_session_id e) ;;
  Some (mkUsage m t i o w r s (e_project_dir e)).

(** The body of the inner [try], after [json.loads]: [Some None] when the
    line is not taken, [Some (Some e)] when [e] is appended, [None] when an
    exception leaves the block. *)
Definition extract_usage (parent_name : string) (data : json)
  : option (option Entry) :=
  ty <- py_get data "type" JNull ;;
  if is_str "assistant" ty then
    has_message <- py_in "message" data ;;
    if (has_message : bool) then
      message <- py_getitem data "message" ;;
      has_usage <- py_in "usage" message ;;
      if (has_usage : bool) then
        usage <- py_getitem message "usage" ;;
        model <- py_get message "model" (JString "unknown") ;;
        timestamp <- py_get data "timestamp" (JString "") ;;
        input_tokens <- py_get usage "input_tokens" (JInt 0) ;;
        output_tokens <- py_get usage "output_tokens" (JInt 0) ;;
        cache_creation <- py_get usage "cache_creation_input_tokens" (JInt 0) ;;
        cache_read <- py_get usage "cache_read_input_tokens" (JInt 0) ;;
        session_id <- py_get data "sessionId" (JString "") ;;
        Some (Some (mkEntry model timestamp input_tokens output_tokens
                      cache_creation cache_read session_id parent_name))
      else Some None
    else Some None
  else Some None.

(** [str.strip()].  A text is held as the bytes of its UTF-8 form.  The
    white space [strip] removes is that of [str.isspace]: the ASCII
    characters 9 to 13 and 28 to 32, and U+0085, U+00A0, U+1680, U+2000
    to U+200A, U+2028, U+2029, U+202F, U+205F and U+3000. *)
Definition is_space (c : ascii) : bool :=
  let n := nat_of_ascii c in
  ((9 <=? n) && (n <=? 13) || (28 <=? n) && (n <=? 32))%nat.

(** The two bytes of U+0085 and U+00A0. *)
Definition is_space2 (c1 c2 : ascii) : bool :=
  let n1 := nat_of_ascii c1 in
  let n2 := nat_of_ascii c2 in
  ((n1 =? 194) && ((n2 =? 133) || (n2 =? 160)))%nat.

(** The three bytes of U+1680, of U+2000 to U+200A, U+2028, U+2029,
    U+202F and U+205F, and of U+3000. *)
Definition is_space3 (c1 c2 c3 : ascii) : bool :=
  let n1 := nat_of_ascii c1 in
  let n2 := nat_of_ascii c2 in
  let n3 := nat_of_ascii c3 in
  ((n1 =? 225) && (n2 =? 154) && (n3 =? 128)
   || (n1 =? 226) && (n2 =? 128)
      && ((128 <=? n3) && (n3 <=? 138) || (n3 =? 168) || (n3 =? 169)
          || (n3 =? 175))
   || (n1 =? 226) && (n2 =? 129) && (n3 =? 159)
   || (n1 =? 227) && (n2 =? 128) && (n3 =? 128))%nat.

Fixpoint lstrip (s : string) : string :=
  match s with
  | EmptyString => EmptyString
  | String c1 s1 =>
      if is_space c1 then lstrip s1
      else
        match s1 with
        | EmptyString => s
        | String c2 s2 =>
            if is_space2 c1 c2 then lstrip s2
            else
              match s2 with
              | EmptyString => s
              | String c3 s3 => if is_space3 c1 c2 c3 then lstrip s3 else s
              end
        end
  end.

(** A text of white space only. *)
Fixpoint all_space (s : string) : bool :=
  match s with
  | EmptyString => true
  | String c1 s1 =>
      if is_space c1 then all_space s1
      else
        match s1 with
        | EmptyString => false
        | String c2 s2 =>
            if is_space2 c1 c2 then all_space s2
            else
              match s2 with
              | EmptyString => false
              | String c3 s3 => is_space3 c1 c2 c3 && all_space s3
              end
        end
  end.

Fixpoint rstrip (s : string) : string :=
  match s with
  | EmptyString => EmptyString
  | String c s' => if all_space s then EmptyString else String c (rstrip s')
  end.

Definition strip (s : string) : string := rstrip (lstrip s).

(** How the iteration over the lines of an open file ends.  The file is
    opened as UTF-8 text and decoded chunk by chunk while the loop runs:
    the reader yields the lines of the chunks that decode, and then the
    file is at its end, or a chunk does not decode and the iteration
    raises [UnicodeDecodeError]. *)
Inductive reading_end : Type :=
| EndOfFile
| UnicodeDecodeError.

(** What the loop gets from an open file: the lines the reader yields,
    and how the iteration ends. *)
Record file_text := mkText {
  text_lines : list string;
  text_end : reading_end
}.

(** A file the glob finds: the name of its directory and what reading it
    gives, [None] when it cannot be opened. *)
Record jsonl_file := mkFile {
  parent_name : string;
  content : option file_text
}.

(** The file system, as the two calls of [load_data] read it: [None] when
    [~/.claude/projects] does not exist, else the files
    [glob('**/*.jsonl')] lists under it. *)
Definition filesystem : Type := option (list jsonl_file).

Section Ingestion.
Variable json_loads : string -> loads_result.

(** The loop over the lines.  [JSONDecodeError] is caught inside the
    loop, which goes on; any other exception is caught outside it, which
    ends the reading with the entries found so far. *)
Fixpoint parse_lines (parent : string) (lines : list string)
    (usage_data : list Entry) : list Entry :=
  match lines with
  | [] => usage_data
  | line :: rest =>
      match json_loads (strip line) with
      | Loaded data =>
          match extract_usage parent data with
          | Some (Some e) => parse_lines parent rest (usage_data ++ [e])
          | Some None => parse_lines parent rest usage_data
          | None => usage_data
          end
      | JSONDecodeError => parse_lines parent rest usage_data
      | OtherError => usage_data
      end
  end.

(** *** [TokenData.parse_jsonl_file]

    [open] raises for a file that cannot be opened, and the iteration
    raises when a chunk does not decode: the outer [except] catches
    both, and the entries found so far are returned. *)
Definition parse_jsonl_file (file_path : jsonl_file) : list Entry :=
  match content file_path with
  | Some text =>
      let usage_data :=
        parse_lines (parent_name file_path) (text_lines text) [] in
      match text_end text with
      | EndOfFile => usage_data
      | UnicodeDecodeError => usage_data
      end
  | None => []
  end.

(** *** [TokenData.find_claude_data_dir] *)
Definition find_claude_data_dir (fs : filesystem) : option (list jsonl_file) :=
  fs.

(** *** [TokenData.load_data], as a transition of [self.usage_data] *)
Definition load_data (fs : filesystem) (usage_data : list Entry) : list Entry :=
  match find_claude_data_dir fs with
  | None => usage_data
  | Some jsonl_files =>
      fold_left (fun usage_data file_path =>
                   usage_data ++ parse_jsonl_file file_path)
                jsonl_files []
  end.

(** *** [TokenData.__init__] *)
Definition init (fs : filesystem) : list Entry := load_data fs [].

End Ingestion.

(** ** A decoder for the examples

    The statements below hold for every behaviour of [json.loads].  To run
    the parser on the text of concrete lines, this decoder covers the
    fragment of JSON the examples are written in: objects, arrays,
    strings with the single-character escapes, integers, [true], [false]
    and [null].  Numbers with a fraction or an exponent and [\u] escapes
    are outside the fragment. *)

Module BasicJson.

Definition dquote : ascii := ascii_of_nat 34.
Definition backslash : ascii := ascii_of_nat 92.

(** Example texts are written with the apostrophe for the double quote. *)
Fixpoint js (s : string) : string :=
  match s with
  | EmptyString => EmptyString
  | String c s' => String (if Ascii.eqb c "'"%char then dquote else c) (js s')
  end.

Definition is_ws (c : ascii) : bool :=
  Ascii.eqb c " "%char || Ascii.eqb c (ascii_of_nat 9)
  || Ascii.eqb c (ascii_of_nat 10) || Ascii.eqb c (ascii_of_nat 13).

Fixpoint skip_ws (s : string) : string :=
  match s with
  | EmptyString => EmptyString
  | String c s' => if is_ws c then skip_ws s' else s
  end.

Definition unescape (c : ascii) : option ascii :=
  if Ascii.eqb c dquote then Some dquote
  else if Ascii.eqb c backslash then Some backslash
  else if Ascii.eqb c "/"%char then Some "/"%char
  else if Ascii.eqb c "b"%char then Some (ascii_of_nat 8)
  else if Ascii.eqb c "f"%char then Some (ascii_of_nat 12)
  else if Ascii.eqb c "n"%char then Some (ascii_of_nat 10)
  else if Ascii.eqb c "r"%char then Some (ascii_of_nat 13)
  else if Ascii.eqb c "t"%char then Some (ascii_of_nat 9)
  else None.

(** The rest of a string literal, after its opening quote. *)
Fixpoint read_string (s : string) (acc : string) : option (string * string) :=
  match s with
  | EmptyString => None
  | String c s' =>
      if Ascii.eqb c dquote then Some (acc, s')
      else if Ascii.eqb c backslash then
        match s' with
        | String e s'' =>
            match unescape e with
            | Some c' => read_string s'' (acc ++ String c' EmptyString)%string
            | None => None
            end
        | EmptyString => None
        end
      else if (nat_of_ascii c <? 32)%nat then None
      else read_string s' (acc ++ String c EmptyString)%string
  end.

Definition is_digit (c : ascii) : bool :=
  let n := nat_of_ascii c in ((48 <=? n) && (n <=? 57))%nat.

Fixpoint read_digits (s : string) (acc : Z) : Z * string :=
  match s with
  | String c s' =>
      if is_digit c
      then read_digits s' (10 * acc + Z.of_nat (nat_of_ascii c - 48))
      else (acc, s)
  | EmptyString => (acc, s)
  end.

(** An integer without sign: one digit at least, no leading zero, and no
    fraction or exponent after it. *)
Definition read_nat (s : string) : option (Z * string) :=
  match s with
  | String c s' =>
      if is_digit c then
        let '(n, rest) :=
          if Ascii.eqb c "0"%char then (0, s') else read_digits s 0 in
        match rest with
        | String d _ =>
            if is_digit d || Ascii.eqb d "."%char || Ascii.eqb d "e"%char
               || Ascii.eqb d "E"%char
            then None else Some (n, rest)
        | EmptyString => Some (n, rest)
        end
      else None
  | EmptyString => None
  end.

Fixpoint drop (n : nat) (s : string) : string :=
  match n, s with
  | S n', String _ s' => drop n' s'
  | _, _ => s
  end.

Definition read_atom (s : string) : option (json * string) :=
  if String.prefix "null" s then Some (JNull, drop 4 s)
  else if String.prefix "true" s then Some (JBool true, drop 4 s)
  else if String.prefix "false" s then Some (JBool false, drop 5 s)
  else match s with
       | String c s' =>
           if Ascii.eqb c "-"%char then
             match read_nat s' with
             | Some (n, rest) => Some (JInt (- n), rest)
             | None => None
             end
           else
             match read_nat s with
             | Some (n, rest) => Some (JInt n, rest)
             | None => None
             end
       | EmptyString => None
       end.

(** What is being read: a value, the items of an array after its
    bracket, the members of an object after its brace. *)
Inductive frame : Type :=
| FValue
| FItems (acc : list json)
| FMembers (acc : list (string * json)).

Fixpoint decode (fuel : nat) (f : frame) (s : string) : option (json * string) :=
  match fuel with
  | O => None
  | S fuel =>
      match f with
      | FValue =>
          match skip_ws s with
          | String c s1 =>
              if Ascii.eqb c "{"%char then
                match skip_ws s1 with
                | String c2 s2 =>
                    if Ascii.eqb c2 "}"%char then Some (JObject [], s2)
                    else decode fuel (FMembers []) s1
                | EmptyString => None
                end
              else if Ascii.eqb c "["%char then
                match skip_ws s1 with
                | String c2 s2 =>
                    if Ascii.eqb c2 "]"%char then Some (JArray [], s2)
                    else decode fuel (FItems []) s1
                | EmptyString => None
                end
              else if Ascii.eqb c dquote then
                match read_string s1 EmptyString with
                | Some (str, s2) => Some (JString str, s2)
                | None => None
                end
              else read_atom (String c s1)
          | EmptyString => None
          end
      | FItems acc =>
          match decode fuel FValue s with
          | Some (v, s1) =>
              match skip_ws s1 with
              | String c s2 =>
                  if Ascii.eqb c ","%char then decode fuel (FItems (acc ++ [v])) s2
                  else if Ascii.eqb c "]"%char then Some (JArray (acc ++ [v]), s2)
                  else None
              | EmptyString => None
              end
          | None => None
          end
      | FMembers acc =>
          match skip_ws s with
          | String c s1 =>
              if Ascii.eqb c dquote then
                match read_string s1 EmptyString with
                | Some (k, s2) =>
                    match skip_ws s2 with
                    | String c3 s3 =>
                        if Ascii.eqb c3 ":"%char then
                          match decode fuel FValue s3 with
                          | Some (v, s4) =>
                              match skip_ws s4 with
                              | String c5 s5 =>
                                  if Ascii.eqb c5 ","%char
                                  then decode fuel (FMembers (dict_set k v acc)) s5
                                  else if Ascii.eqb c5 "}"%char
                                  then Some (JObject (dict_set k v acc), s5)
                                  else None
                              | EmptyString => None
                              end
                          | None => None
                          end
                        else None
                    | EmptyString => None
                    end
                | None => None
                end
              else None
          | EmptyString => None
          end
      end
  end.

Definition json_loads (s : string) : loads_result :=
  match decode (2 * String.length s + 4) FValue s with
  | Some (v, rest) =>
      match skip_ws rest with
      | EmptyString => Loaded v
      | _ => JSONDecodeError
      end
  | None => JSONDecodeError
  end.

End BasicJson.

(** ** A clock for the examples

    The statements below hold for every behaviour of [fromisoformat] and
    [astimezone].  To run the queries on the text of concrete timestamps,
    this clock reads the fixed-width form [YYYY-MM-DDTHH:MM:SS+HH:MM] and
    converts to a zone at a fixed offset from UTC. *)

Module ExampleClock.

Definition is_leap (y : Z) : bool :=
  ((y mod 4 =? 0) && negb (y mod 100 =? 0)) || (y mod 400 =? 0).

Definition days_in_month (y m : Z) : Z :=
  if m =? 2 then (if is_leap y then 29 else 28)
  else if (m =? 4) || (m =? 6) || (m =? 9) || (m =? 11) then 30 else 31.

Definition days_before_year (y : Z) : Z :=
  let y := y - 1 in y * 365 + y / 4 - y / 100 + y / 400.

Fixpoint days_before_month (y : Z) (m : nat) : Z :=
  match m with
  | O => 0
  | S m' =>
      match m' with
      | O => 0
      | S _ => days_before_month y m' + days_in_month y (Z.of_nat m')
      end
  end.

(** Microseconds from 0001-01-01T00:00:00 to the given wall-clock
    reading. *)
Definition wall_of (y m d hh mm ss : Z) : datetime :=
  (days_before_year y + days_before_month y (Z.to_nat m) + d - 1) * US_PER_DAY
  + hh * US_PER_HOUR + mm * US_PER_MINUTE + ss * 1000000.

Definition digit_val (c : ascii) : option Z :=
  let n := nat_of_ascii c in
  if ((48 <=? n) && (n <=? 57))%nat then Some (Z.of_nat (n - 48)) else None.

(** The number a run of digits denotes; [None] if one is not a digit. *)
Fixpoint number (s : string) (acc : Z) : option Z :=
  match s with
  | EmptyString => Some acc
  | String c s' => d <- digit_val c ;; number s' (10 * acc + d)
  end.

Definition field (start n : nat) (s : string) : option Z :=
  number (String.substring start n s) 0.

Definition char_at (i : nat) (s : string) : string := String.substring i 1 s.

Definition fromisoformat (s : string) : option tz_datetime :=
  if (String.length s =? 25)%nat
     && String.eqb (char_at 4 s) "-" && String.eqb (char_at 7 s) "-"
     && String.eqb (char_at 10 s) "T"
     && String.eqb (char_at 13 s) ":" && String.eqb (char_at 16 s) ":"
     && (String.eqb (char_at 19 s) "+" || String.eqb (char_at 19 s) "-")
     && String.eqb (char_at 22 s) ":"
  then
    y <- field 0 4 s ;; m <- field 5 2 s ;; d <- field 8 2 s ;;
    hh <- field 11 2 s ;; mm <- field 14 2 s ;; ss <- field 17 2 s ;;
    oh <- field 20 2 s ;; om <- field 23 2 s ;;
    if (1 <=? y) && (1 <=? m) && (m <=? 12) && (1 <=? d)
       && (d <=? days_in_month y m) && (hh <? 24) && (mm <? 60) && (ss <? 60)
       && (oh <? 24) && (om <? 60)
    then
      let off := oh * US_PER_HOUR + om * US_PER_MINUTE in
      Some (mkTz (wall_of y m d hh mm ss)
              (Some (if String.eqb (char_at 19 s) "-" then - off else off)))
    else None
  else None.

(** The conversion to a zone [offset] away from UTC; a naive datetime is
    taken as local time. *)
Definition astimezone (offset : timedelta) (dt : tz_datetime)
  : option tz_datetime :=
  let t := match utcoffset dt with
           | Some o => wall dt - o + offset
           | None => wall dt
           end in
  if valid_datetimeb t then Some (mkTz t (Some offset)) else None.

(** The machine's zone in the examples: UTC. *)
Definition utc : tz_datetime -> option tz_datetime := astimezone 0.

End ExampleClock.

(** ** Notions the statements use *)

(** The sign of a float that is not a NaN. *)
Definition has_sign (s : bool) (x : float) : Prop :=
  match x with
  | S754_zero s' | S754_infinity s' | S754_finite s' _ _ => s' = s
  | S754_nan => False
  end.

Definition not_inf (x : float) : Prop :=
  match x with
  | S754_infinity _ => False
  | _ => True
  end.

(** [+0.0], a positive finite float or [+inf]. *)
Definition is_nonneg (x : float) : bool :=
  match x with
  | S754_zero false | S754_infinity false | S754_finite false _ _ => true
  | _ => false
  end.

Definition is_pos_finite (x : float) : bool :=
  match x with
  | S754_finite false _ _ => true
  | _ => false
  end.

(** Every count of the record is below [bound]. *)
Definition counts_below (bound : Z) (r : UsageRecord) : Prop :=
  input_tokens r < bound /\ output_tokens r < bound /\
  cache_creation_input_tokens r < bound /\ cache_read_input_tokens r < bound.

(** The bound under which [count / 1_000_000] cannot overflow. *)
Definition COUNT_BOUND : Z := 2 ^ 1042.

(** The cost as the specification words it: the sum, over the four token
    categories, of [count / 1_000_000 * rate]. *)
Definition categories (r : UsageRecord) : list (Z * float) :=
  let rates := pricing_for (model r) in
  [ (input_tokens r, rate_input rates);
    (output_tokens r, rate_output rates);
    (cache_creation_input_tokens r, rate_cache_write rates);
    (cache_read_input_tokens r, rate_cache_read rates) ].

Definition category_cost (c : Z * float) : option float :=
  q <- int_true_div (fst c) MILLION ;; Some (fmul q (snd c)).

Definition cost_formula (r : UsageRecord) : option float :=
  terms <- traverse category_cost (categories r) ;; Some (left_sum terms).

(** The sum of a list of integers, by recursion on the list. *)
Fixpoint zsum (l : list Z) : Z :=
  match l with
  | [] => 0
  | x :: l' => x + zsum l'
  end.

(** The records of one model, and the tally the specification gives
    them. *)
Definition by_model (m : string) (data : list UsageRecord) : list UsageRecord :=
  filter (fun r => String.eqb (model r) m) data.

Definition model_tally (rs : list UsageRecord) : option ModelStats :=
  costs <- traverse calculate_cost rs ;;
  Some (mkModelStats (len rs)
          (zsum (map input_tokens rs)) (zsum (map output_tokens rs))
          (zsum (map cache_creation_input_tokens rs))
          (zsum (map cache_read_input_tokens rs))
          (left_sum costs)).

(** The tally of a model after a list of further records of it. *)
Fixpoint tally_onto (st : ModelStats) (rs : list UsageRecord) : option ModelStats :=
  match rs with
  | [] => Some st
  | r :: rs' => c <- calculate_cost r ;; tally_onto (add_record st r c) rs'
  end.

(** The summary of a one-record list, for each record of [data]. *)
Definition singletons (alg : sum_algorithm) (data : list UsageRecord)
  : option (list SummaryStats) :=
  traverse (fun r => summarize alg [r]) data.

(** [a] comes no later than [b] in descending order of timestamp. *)
Definition ts_ge (a b : UsageRecord) : Prop :=
  String.leb (timestamp b) (timestamp a) = true.

(** The date part of an ISO timestamp: its first ten characters. *)
Definition date_prefix (ts : string) : string := String.substring 0 10 ts.

Section ClockNotions.
Variable fromisoformat : string -> option tz_datetime.
Variable astimezone : tz_datetime -> option tz_datetime.

(** The local wall-clock reading of a timestamp, when it parses. *)
Definition local_naive (ts : string) : option datetime :=
  option_map replace_tzinfo_none (get_local_datetime fromisoformat astimezone ts).

(** The record's local time is in [[lo, hi)]. *)
Definition in_window (lo hi : datetime) (r : UsageRecord) : bool :=
  match local_naive (timestamp r) with
  | Some t => (lo <=? t) && (t <? hi)
  | None => false
  end.

(** The total tokens of the records whose local time is in [[lo, hi)]. *)
Definition window_tokens (lo hi : datetime) (data : list UsageRecord) : Z :=
  zsum (map total_tokens (filter (in_window lo hi) data)).

(** The record's local time is not before [cutoff] and its hour label is
    [k]. *)
Definition in_bucket (cutoff : datetime) (k : string) (r : UsageRecord) : bool :=
  match get_local_datetime fromisoformat astimezone (timestamp r) with
  | Some lt => (cutoff <=? replace_tzinfo_none lt) && String.eqb (strftime_hour lt) k
  | None => false
  end.

Definition bucket_records (cutoff : datetime) (k : string)
    (data : list UsageRecord) : list UsageRecord :=
  filter (in_bucket cutoff k) data.

End ClockNotions.

(** The costs of the records of a list whose cost is computed. *)
Definition known_costs (rs : list UsageRecord) : list float :=
  flat_map (fun r => match calculate_cost r with
                     | Some c => [c]
                     | None => []
                     end) rs.

(** The tally the specification gives a bucket, with the requests and the
    cost over the records whose cost is computed. *)
Definition hour_tally (rs : list UsageRecord) : HourStats :=
  mkHourStats (zsum (map total_tokens rs)) (left_sum (known_costs rs))
    (len (known_costs rs)).

(** The tally of a bucket after one more record, and after a list of
    them. *)
Definition add_hour (b : HourStats) (r : UsageRecord) : HourStats :=
  match calculate_cost r with
  | Some c =>
      mkHourStats (h_tokens b + total_tokens r) (fadd (h_cost b) c) (h_requests b + 1)
  | None => mkHourStats (h_tokens b + total_tokens r) (h_cost b) (h_requests b)
  end.

Definition hour_tally_onto (b : HourStats) (rs : list UsageRecord) : HourStats :=
  fold_left add_hour rs b.

Definition hour_labels : list string :=
  map (fun h => hour_label (Z.of_nat h)) (seq 0 24).

Definition TEN_MINUTES : timedelta := 10 * US_PER_MINUTE.

(** Whether a decoded value is a [dict]. *)
Definition is_object (data : json) : bool :=
  match data with
  | JObject _ => true
  | _ => false
  end.

(** ** Records, times and files of the examples *)

Definition usage (m t : string) (i o w r : Z) : UsageRecord :=
  mkUsage m t i o w r "session" "project".

Definition million_input : UsageRecord :=
  usage "claude-sonnet-4-20250514" "2025-01-01T10:00:00Z" 1000000 0 0 0.

Definition huge_input : UsageRecord :=
  usage "claude-sonnet-4-20250514" "2025-01-01T10:30:00Z" (10 ^ 315) 0 0 0.

Definition typical : UsageRecord :=
  usage "claude-3-opus-20240229" "2025-01-01T10:45:00Z" 1200 350 5000 42000.

Definition mixed_models : list UsageRecord :=
  [ usage "claude-sonnet-4-20250514" "2025-01-01T10:00:00Z" 100 0 0 0;
    usage "claude-3-opus-20240229" "2025-01-01T10:10:00Z" 200 0 0 0;
    usage "claude-sonnet-4-20250514" "2025-01-01T10:20:00Z" 300 0 0 0 ].

Definition mixed_summary : SummaryStats :=
  Eval vm_compute in
    match summarize LeftToRight mixed_models with
    | Some s => s
    | None => empty_summary
    end.

(** A record stamped half an hour before midnight UTC, read two hours
    east of UTC. *)
Definition late_evening : UsageRecord :=
  usage "claude-sonnet-4-20250514" "2025-01-01T23:30:00Z" 10 20 0 0.

Definition two_hours_east : tz_datetime -> option tz_datetime :=
  ExampleClock.astimezone (2 * US_PER_HOUR).

Definition noon : datetime := ExampleClock.wall_of 2025 1 1 12 0 0.

Definition eleven : datetime := ExampleClock.wall_of 2025 1 1 11 0 0.

(** A record half an hour before [noon]. *)
Definition half_past_eleven : UsageRecord :=
  usage "claude-sonnet-4-20250514" "2025-01-01T11:30:00Z" 60 40 0 0.

(** An assistant message with its usage. *)
Definition usage_line : string :=
  BasicJson.js
    ("{'type': 'assistant', 'sessionId': 's1', "
     ++ "'timestamp': '2025-01-01T10:00:00Z', "
     ++ "'message': {'model': 'claude-sonnet-4-20250514', "
     ++ "'usage': {'input_tokens': 1000000, 'output_tokens': 0, "
     ++ "'cache_creation_input_tokens': 0, 'cache_read_input_tokens': 0}}}")%string.

(** A record that is not an assistant message. *)
Definition user_line : string :=
  BasicJson.js "{'type': 'user', 'message': {'role': 'user', 'content': 'hi'}}".

(** A line cut short: not JSON. *)
Definition broken_line : string :=
  BasicJson.js "{'type': 'assistant', 'message': {'usa".

(** Lines that are JSON, but not of the shape of an assistant message with
    usage: an array, [null], and an assistant message whose [message] is
    [null]. *)
Definition array_line : string := "[]".

Definition null_line : string := "null".

Definition null_message_line : string :=
  BasicJson.js "{'type': 'assistant', 'message': null}".

(** The entry of [usage_line] in a file of the directory [project]. *)
Definition usage_entry : Entry :=
  mkEntry (JString "claude-sonnet-4-20250514") (JString "2025-01-01T10:00:00Z")
    (JInt 1000000) (JInt 0) (JInt 0) (JInt 0) (JString "s1") "project".

Definition file_of (lines : list string) : jsonl_file :=
  mkFile "project" (Some (mkText lines EndOfFile)).

(** ** Numbers and their texts *)

From Stdlib Require DecimalString DecimalZ.

(** A value that is an [int] or a [float]: a tally that starts as the
    [int] [0] and has floats added to it. *)
Inductive number : Type :=
| NInt (n : Z)
| NFloat (x : float).

(** [float(n)]: the nearest float, ties to even; [OverflowError] when
    that is not finite. *)
Definition float_of_int (n : Z) : option float :=
  match binary_normalize prec emax n 0 false with
  | S754_infinity _ => None
  | x => Some x
  end.

(** [a + c] for a float [c]: an [int] is converted first. *)
Definition number_add_float (a : number) (c : float) : option number :=
  match a with
  | NInt n => x <- float_of_int n ;; Some (NFloat (fadd x c))
  | NFloat x => Some (NFloat (fadd x c))
  end.

(** [str(n)] *)
Definition str_int (n : Z) : string :=
  DecimalString.NilZero.string_of_int (Z.to_int n).

(** [d[k]] on a [defaultdict]: a missing key is bound to the default
    value first. *)
Definition dict_touch {V : Type} (k : string) (default : V) (d : dict V) : dict V :=
  if dict_mem k d then d else dict_set k default d.

(** ** The calendar

    The proleptic Gregorian calendar of [datetime]: day [0] is
    0001-01-01, and 400 years are 146097 days. *)

Definition DAYS_IN_400_YEARS : Z := 146097.

(** The month and the day of the month of the day [n] of the year [y]
    ([n = 0] is the first of January), looking from the month [m] on. *)
Fixpoint month_and_day (y : Z) (m : Z) (months : nat) (n : Z) : Z * Z :=
  match months with
  | O => (m, n + 1)
  | S months' =>
      let length := ExampleClock.days_in_month y m in
      if n <? length then (m, n + 1)
      else month_and_day y (m + 1) months' (n - length)
  end.

(** The date of the day [r] of a cycle of 400 years that starts with the
    year 1. *)
Definition date_in_cycle (r : Z) : Z * Z * Z :=
  let n100 := Z.min 3 (r / 36524) in
  let r := r - n100 * 36524 in
  let n4 := r / 1461 in
  let r := r - n4 * 1461 in
  let n1 := Z.min 3 (r / 365) in
  let r := r - n1 * 365 in
  let y := n100 * 100 + n4 * 4 + n1 + 1 in
  let '(m, d) := month_and_day y 1 11 r in
  (y, m, d).

(** Year, month and day of the day number [n]. *)
Definition date_of_days (n : Z) : Z * Z * Z :=
  let '(y, m, d) := date_in_cycle (n mod DAYS_IN_400_YEARS) in
  (400 * (n / DAYS_IN_400_YEARS) + y, m, d).

(** The day number of a date. *)
Definition days_of_date (ymd : Z * Z * Z) : Z :=
  let '(y, m, d) := ymd in
  ExampleClock.days_before_year y
  + ExampleClock.days_before_month y (Z.to_nat m) + d - 1.

Definition year_of (t : datetime) : Z := fst (fst (date_of_days (t / US_PER_DAY))).
Definition month_of (t : datetime) : Z := snd (fst (date_of_days (t / US_PER_DAY))).
Definition day_of (t : datetime) : Z := snd (date_of_days (t / US_PER_DAY)).
Definition minute_of (t : datetime) : Z := (t / US_PER_MINUTE) mod 60.
Definition second_of (t : datetime) : Z := (t / 1000000) mod 60.

(** ** [datetime.strftime]

    The directives the program uses: [%Y], [%m], [%d], [%H], [%M], [%S].
    The text of [%Y] for a year below 1000 is the C library's: padded
    with zeros to four digits on some platforms, plain on others. *)
Inductive year_style : Type :=
| PaddedYear
| PlainYear.

Definition strftime_field (style : year_style) (c : ascii) (t : datetime) : string :=
  if Ascii.eqb c "Y"%char then
    match style with
    | PaddedYear => pad_digits 4 (year_of t)
    | PlainYear => str_int (year_of t)
    end
  else if Ascii.eqb c "m"%char then pad_digits 2 (month_of t)
  else if Ascii.eqb c "d"%char then pad_digits 2 (day_of t)
  else if Ascii.eqb c "H"%char then pad_digits 2 (hour_of t)
  else if Ascii.eqb c "M"%char then pad_digits 2 (minute_of t)
  else if Ascii.eqb c "S"%char then pad_digits 2 (second_of t)
  else String "%"%char (String c EmptyString).

Fixpoint strftime (style : year_style) (format : string) (dt : tz_datetime) : string :=
  match format with
  | EmptyString => EmptyString
  | String c rest =>
      if Ascii.eqb c "%"%char then
        match rest with
        | String f rest' =>
            (strftime_field style f (wall dt) ++ strftime style rest' dt)%string
        | EmptyString => String c EmptyString
        end
      else String c (strftime style rest dt)
  end.

(** [dt.replace(minute=0, second=0, microsecond=0)] *)
Definition replace_to_hour (dt : tz_datetime) : tz_datetime :=
  mkTz (wall dt - wall dt mod US_PER_HOUR) (utcoffset dt).

(** [dt.replace(hour=0, minute=0, second=0, microsecond=0)] *)
Definition replace_to_day (dt : tz_datetime) : tz_datetime :=
  mkTz (wall dt - wall dt mod US_PER_DAY) (utcoffset dt).

(** [timedelta(days=days)] *)
Definition timedelta_days (days : Z) : option timedelta :=
  mk_timedelta (days * US_PER_DAY).

(** ** [TokenData.get_time_series_data] *)

Record SeriesStats := mkSeriesStats {
  s_input_tokens : Z;
  s_output_tokens : Z;
  s_total_tokens : Z;
  s_cost : number;
  s_requests : Z
}.

(** The value the [defaultdict] creates for a new key. *)
Definition new_series_stats : SeriesStats := mkSeriesStats 0 0 0 (NInt 0) 0.

Definition HOURLY_FORMAT : string := "%Y-%m-%d %H:00".
Definition DAILY_FORMAT : string := "%Y-%m-%d".

(** The key of a local timestamp: the text of its hour, or of its day
    beyond a range of two days. *)
Definition series_key (style : year_style) (days : Z) (time_format : string)
    (local_timestamp : tz_datetime) : string :=
  let time_key :=
    if days <=? 2 then replace_to_hour local_timestamp
    else replace_to_day local_timestamp in
  strftime style time_format time_key.

Section Series.
Variable fromisoformat : string -> option tz_datetime.
Variable astimezone : tz_datetime -> option tz_datetime.
Variable style : year_style.

(** The body of the loop for one entry.  The five tallies of the bucket
    are updated one after the other; [calculate_cost] is called by the
    fourth update, and an exception there leaves the first three done. *)
Definition series_entry (days : Z) (time_format : string) (cutoff : datetime)
    (time_series : dict SeriesStats) (entry : UsageRecord) : dict SeriesStats :=
  match get_local_datetime fromisoformat astimezone (timestamp entry) with
  | Some local_timestamp =>
      if cutoff <=? replace_tzinfo_none local_timestamp then
        let time_str := series_key style days time_format local_timestamp in
        let time_series := dict_touch time_str new_series_stats time_series in
        let time_series :=
          dict_adjust time_str
            (fun b => mkSeriesStats (s_input_tokens b + input_tokens entry)
                        (s_output_tokens b) (s_total_tokens b) (s_cost b)
                        (s_requests b))
            time_series in
        let time_series :=
          dict_adjust time_str
            (fun b => mkSeriesStats (s_input_tokens b)
                        (s_output_tokens b + output_tokens entry)
                        (s_total_tokens b) (s_cost b) (s_requests b))
            time_series in
        let time_series :=
          dict_adjust time_str
            (fun b => mkSeriesStats (s_input_tokens b) (s_output_tokens b)
                        (s_total_tokens b + total_tokens entry) (s_cost b)
                        (s_requests b))
            time_series in
        match calculate_cost entry with
        | Some c =>
            match dict_get time_str time_series with
            | Some b =>
                match number_add_float (s_cost b) c with
                | Some v =>
                    let time_series :=
                      dict_adjust time_str
                        (fun b => mkSeriesStats (s_input_tokens b)
                                    (s_output_tokens b) (s_total_tokens b) v
                                    (s_requests b))
                        time_series in
                    dict_adjust time_str
                      (fun b => mkSeriesStats (s_input_tokens b)
                                  (s_output_tokens b) (s_total_tokens b)
                                  (s_cost b) (s_requests b + 1))
                      time_series
                | None => time_series
                end
            | None => time_series
            end
        | None => time_series
        end
      else time_series
  | None => time_series
  end.

Definition get_time_series_data (now : datetime) (usage_data : list UsageRecord)
    (days : Z) : option (dict SeriesStats * string) :=
  d <- timedelta_days days ;;
  cutoff <- dt_sub now d ;;
  let time_format := if days <=? 2 then HOURLY_FORMAT else DAILY_FORMAT in
  let time_series :=
    fold_left (series_entry days time_format cutoff) usage_data [] in
  Some (time_series, time_format).

End Series.

(** ** Notions for the time series *)

(** The cost tally of a bucket after the costs [cs] were added to it. *)
Definition cost_tally (cs : list float) : number :=
  match cs with
  | [] => NInt 0
  | _ :: _ => NFloat (left_sum cs)
  end.

(** The tally of the records [rs] of one bucket: the requests and the
    cost are over the records whose cost is computed. *)
Definition series_tally (rs : list UsageRecord) : SeriesStats :=
  mkSeriesStats (zsum (map input_tokens rs)) (zsum (map output_tokens rs))
    (zsum (map total_tokens rs)) (cost_tally (known_costs rs))
    (len (known_costs rs)).

(** The tally of a bucket after one more record, and after a list of
    them. *)
Definition series_add (b : SeriesStats) (r : UsageRecord) : SeriesStats :=
  let cost_and_requests :=
    match calculate_cost r with
    | Some c =>
        match number_add_float (s_cost b) c with
        | Some v => (v, s_requests b + 1)
        | None => (s_cost b, s_requests b)
        end
    | None => (s_cost b, s_requests b)
    end in
  mkSeriesStats (s_input_tokens b + input_tokens r)
    (s_output_tokens b + output_tokens r)
    (s_total_tokens b + total_tokens r)
    (fst cost_and_requests) (snd cost_and_requests).

Definition series_tally_onto (b : SeriesStats) (rs : list UsageRecord) : SeriesStats :=
  fold_left series_add rs b.

(** The cost tally of a bucket is the [int] [0] or a float. *)
Definition cost_started (b : SeriesStats) : Prop :=
  match s_cost b with
  | NInt n => n = 0
  | NFloat _ => True
  end.

(** The hour and the day of an instant, counted from the first instant. *)
Definition hour_number (t : datetime) : Z := t / US_PER_HOUR.
Definition day_number (t : datetime) : Z := t / US_PER_DAY.

Section SeriesNotions.
Variable fromisoformat : string -> option tz_datetime.
Variable astimezone : tz_datetime -> option tz_datetime.
Variable style : year_style.

(** The record's local time is not before [cutoff]. *)
Definition since (cutoff : datetime) (r : UsageRecord) : bool :=
  match local_naive fromisoformat astimezone (timestamp r) with
  | Some t => cutoff <=? t
  | None => false
  end.

(** The record's local time is not before [cutoff] and its key is [k]. *)
Definition in_series_bucket (days : Z) (time_format : string)
    (cutoff : datetime) (k : string) (r : UsageRecord) : bool :=
  match get_local_datetime fromisoformat astimezone (timestamp r) with
  | Some lt =>
      (cutoff <=? replace_tzinfo_none lt)
      && String.eqb (series_key style days time_format lt) k
  | None => false
  end.

Definition series_records (days : Z) (time_format : string)
    (cutoff : datetime) (k : string) (data : list UsageRecord)
  : list UsageRecord :=
  filter (in_series_bucket days time_format cutoff k) data.

End SeriesNotions.

(** Three records of the second of January 2025, two of them in the hour
    from ten, and one of the day before. *)
Definition two_days : list UsageRecord :=
  [ usage "claude-sonnet-4-20250514" "2025-01-01T23:10:00Z" 7 1 0 0;
    usage "claude-sonnet-4-20250514" "2025-01-02T10:05:00Z" 100 20 3 0;
    usage "claude-3-opus-20240229" "2025-01-02T10:55:00Z" 200 0 0 4;
    usage "claude-sonnet-4-20250514" "2025-01-02T11:00:00Z" 1000 0 0 0 ].

(** Noon of the second of January 2025. *)
Definition noon_next_day : datetime := ExampleClock.wall_of 2025 1 2 12 0 0.

Definition local_of (y m d hh mm ss : Z) : tz_datetime :=
  mkTz (ExampleClock.wall_of y m d hh mm ss) (Some 0).

(** The date of the day [r] of the cycle is a date of the calendar, in
    the years 1 to 400, and it is the date whose day number is [r]; the
    days before 145731 are in the years up to 399. *)
Definition date_in_cycle_ok (r : Z) : bool :=
  let '(y, m, d) := date_in_cycle r in
  (days_of_date (y, m, d) =? r)
  && (1 <=? y) && (y <=? 400) && (1 <=? m) && (m <=? 12)
  && (1 <=? d) && (d <=? ExampleClock.days_in_month y m)
  && ((y <=? 399) || (145731 <=? r)).

(** [p] holds of the [n] integers from [i] on. *)
Fixpoint all_from (p : Z -> bool) (n : nat) (i : Z) : bool :=
  match n with
  | O => true
  | S n' => p i && all_from p n' (i + 1)
  end.

(** The text of the year in a key. *)
Definition year_text (style : year_style) (t : datetime) : string :=
  match style with
  | PaddedYear => pad_digits 4 (year_of t)
  | PlainYear => str_int (year_of t)
  end.

(** ** Notions for the ingestion and the queries *)

(** [d.get(key, default)] on the members of a [dict]. *)
Definition get_or (key : string) (default : json) (d : dict json) : json :=
  match dict_get key d with
  | Some v => v
  | None => default
  end.

(** The entry of an assistant message with the members [members], whose
    message has the members [message] and whose usage the members
    [usage]. *)
Definition entry_of (parent : string) (members message usage : dict json) : Entry :=
  mkEntry (get_or "model" (JString "unknown") message)
    (get_or "timestamp" (JString "") members)
    (get_or "input_tokens" (JInt 0) usage)
    (get_or "output_tokens" (JInt 0) usage)
    (get_or "cache_creation_input_tokens" (JInt 0) usage)
    (get_or "cache_read_input_tokens" (JInt 0) usage)
    (get_or "sessionId" (JString "") members)
    parent.

(** The lines read from a file that can be opened. *)
Definition line_count (f : jsonl_file) : nat :=
  match content f with
  | Some text => List.length (text_lines text)
  | None => O
  end.

(** The integer tallies of a model. *)
Definition counts_of (st : ModelStats) : Z * Z * Z * Z * Z :=
  (requests st, m_input_tokens st, m_output_tokens st,
   m_cache_creation_input_tokens st, m_cache_read_input_tokens st).

(** The same three records as [mixed_models], in another order. *)
Definition mixed_models_reordered : list UsageRecord :=
  [ usage "claude-3-opus-20240229" "2025-01-01T10:10:00Z" 200 0 0 0;
    usage "claude-sonnet-4-20250514" "2025-01-01T10:20:00Z" 300 0 0 0;
    usage "claude-sonnet-4-20250514" "2025-01-01T10:00:00Z" 100 0 0 0 ].

(** An assistant message that names no model, no timestamp, no session
    and no count but the input tokens. *)
Definition bare_usage_line : string :=
  BasicJson.js "{'type': 'assistant', 'message': {'usage': {'input_tokens': 12}}}".

(** ** Texts of numbers

    Characters outside ASCII are held as the bytes of their UTF-8
    form. *)

(** [s * n] *)
Fixpoint repeat_string (s : string) (n : nat) : string :=
  match n with
  | O => EmptyString
  | S n' => (s ++ repeat_string s n')%string
  end.

(** The digits of [n >= 0] in groups of three. *)
Fixpoint grouped (fuel : nat) (n : Z) : string :=
  match fuel with
  | O => str_int n
  | S fuel' =>
      if n <? 1000 then str_int n
      else (grouped fuel' (n / 1000) ++ "," ++ pad_digits 3 (n mod 1000))%string
  end.

(** [f"{n:,}"] for an [int]. *)
Definition format_grouped (n : Z) : string :=
  if n <? 0 then ("-" ++ grouped (Z.to_nat (Z.log2 (- n))) (- n))%string
  else grouped (Z.to_nat (Z.log2 n)) n.

(** The integer nearest to [m * 2^e * 10^digits], ties to the even one,
    for a mantissa [m] and an exponent [e]. *)
Definition scaled_round (digits : nat) (m : positive) (e : Z) : Z :=
  let num := Zpos m * 10 ^ Z.of_nat digits in
  if 0 <=? e then num * 2 ^ e
  else
    let den := 2 ^ (- e) in
    let q := num / den in
    let r := num mod den in
    if den <? 2 * r then q + 1
    else if den =? 2 * r then (if Z.even q then q else q + 1)
    else q.

(** The text of [n / 10^digits] for [n >= 0], with the digits of the
    integer part grouped or not. *)
Definition fixed_text (group : bool) (digits : nat) (n : Z) : string :=
  let whole := n / 10 ^ Z.of_nat digits in
  let whole_text := if group then format_grouped whole else str_int whole in
  match digits with
  | O => whole_text
  | S _ => (whole_text ++ "." ++ pad_digits digits (n mod 10 ^ Z.of_nat digits))%string
  end.

(** [f"{x:.Nf}"], and [f"{x:,.Nf}"] with [group], for a float: the
    decimal expansion of the float, rounded to [N] places. *)
Definition format_float (group : bool) (digits : nat) (x : float) : string :=
  match x with
  | S754_nan => "nan"
  | S754_infinity s => if s then "-inf" else "inf"
  | S754_zero s => ((if s then "-" else "") ++ fixed_text group digits 0)%string
  | S754_finite s m e =>
      ((if s then "-" else "") ++ fixed_text group digits (scaled_round digits m e))%string
  end.

Definition format_fixed (digits : nat) (x : float) : string :=
  format_float false digits x.

(** [f"{v:.Nf}"] for a number: an [int] is converted first. *)
Definition format_number_fixed (digits : nat) (v : number) : option string :=
  match v with
  | NInt n => x <- float_of_int n ;; Some (format_fixed digits x)
  | NFloat x => Some (format_fixed digits x)
  end.

(** [int(x)]: the float without its fraction; [ValueError] for a NaN and
    [OverflowError] for an infinity. *)
Definition int_of_float (x : float) : option Z :=
  match x with
  | S754_nan | S754_infinity _ => None
  | S754_zero _ => Some 0
  | S754_finite s m e =>
      let a := if 0 <=? e then Zpos m * 2 ^ e else Zpos m / 2 ^ (- e) in
      Some (if s then - a else a)
  end.

(** [f"{s:>width}"] *)
Definition align_right (width : nat) (s : string) : string :=
  (repeat_string " " (width - String.length s) ++ s)%string.

(** [f"{s:^width}"]: of an odd number of spaces, the one more goes to the
    right. *)
Definition align_center (width : nat) (s : string) : string :=
  let pad := (width - String.length s)%nat in
  let left := Nat.div2 pad in
  (repeat_string " " left ++ s ++ repeat_string " " (pad - left))%string.

(** [s.center(width)]: of an odd number of spaces, the one more goes to
    the left when the width is odd, to the right when it is even. *)
Definition center (width : nat) (s : string) : string :=
  let pad := (width - String.length s)%nat in
  let left := (Nat.div2 pad + if Nat.odd pad && Nat.odd width then 1 else 0)%nat in
  (repeat_string " " left ++ s ++ repeat_string " " (pad - left))%string.

(** [s[:n]] for [n >= 0] *)
Definition take (n : nat) (s : string) : string := String.substring 0 n s.

(** ** Numbers: comparison and division *)

(** [x] compared with the integer [n], exactly. *)
Definition compare_float_int (x : float) (n : Z) : option comparison :=
  match x with
  | S754_nan => None
  | S754_infinity s => Some (if s then Lt else Gt)
  | S754_zero _ => Some (0 ?= n)
  | S754_finite s m e =>
      let a := if s then Zneg m else Zpos m in
      Some (if 0 <=? e then a * 2 ^ e ?= n else a ?= n * 2 ^ (- e))
  end.

Definition compare_numbers (a b : number) : option comparison :=
  match a, b with
  | NInt m, NInt n => Some (m ?= n)
  | NFloat x, NInt n => compare_float_int x n
  | NInt m, NFloat y => option_map CompOpp (compare_float_int y m)
  | NFloat x, NFloat y => SFcompare x y
  end.

(** [a > b], [a >= b] and [a == b] *)
Definition number_gt (a b : number) : bool :=
  match compare_numbers a b with
  | Some Gt => true
  | _ => false
  end.

Definition number_ge (a b : number) : bool :=
  match compare_numbers a b with
  | Some (Gt | Eq) => true
  | _ => false
  end.

Definition number_eq (a b : number) : bool :=
  match compare_numbers a b with
  | Some Eq => true
  | _ => false
  end.

(** [x / y] on floats: [ZeroDivisionError] for a zero divisor. *)
Definition float_div (x y : float) : option float :=
  match y with
  | S754_zero _ => None
  | _ => Some (fdiv x y)
  end.

(** [a / b] *)
Definition number_div (a b : number) : option float :=
  match a, b with
  | NInt m, NInt n => int_true_div m n
  | NInt m, NFloat y => x <- float_of_int m ;; float_div x y
  | NFloat x, NInt n => y <- float_of_int n ;; float_div x y
  | NFloat x, NFloat y => float_div x y
  end.

(** [a * n] for an [int] [n] *)
Definition number_mul_int (a : number) (n : Z) : option number :=
  match a with
  | NInt m => Some (NInt (m * n))
  | NFloat x => y <- float_of_int n ;; Some (NFloat (fmul x y))
  end.

(** [max(values)] for a list that is not empty: the first of the
    greatest values. *)
Definition py_max (first : number) (rest : list number) : number :=
  fold_left (fun best v => if number_gt v best then v else best) rest first.

(** ** Texts: words and integers *)

(** [s.split()]: the runs of characters that are not white space. *)
Fixpoint split_words (s : string) (word : string) : list string :=
  match s with
  | EmptyString =>
      match word with
      | EmptyString => []
      | _ => [word]
      end
  | String c s' =>
      if is_space c then
        match word with
        | EmptyString => split_words s' EmptyString
        | _ => word :: split_words s' EmptyString
        end
      else split_words s' (word ++ String c EmptyString)%string
  end.

(** [s.split(sep)] for a separator of one character. *)
Fixpoint split_at (sep : ascii) (s : string) (field : string) : list string :=
  match s with
  | EmptyString => [field]
  | String c s' =>
      if Ascii.eqb c sep then field :: split_at sep s' EmptyString
      else split_at sep s' (field ++ String c EmptyString)%string
  end.

(** The digits of a decimal literal, with single underscores between
    digits allowed; [after_digit] tells whether the last character was a
    digit. *)
Fixpoint digits_value (s : string) (acc : Z) (after_digit : bool) : option Z :=
  match s with
  | EmptyString => if after_digit then Some acc else None
  | String c s' =>
      if Ascii.eqb c "_"%char then
        if after_digit then digits_value s' acc false else None
      else
        match ExampleClock.digit_val c with
        | Some d => digits_value s' (10 * acc + d) true
        | None => None
        end
  end.

(** [int(s)] for a text of ASCII characters; [None] is [ValueError]. *)
Definition int_of_str (s : string) : option Z :=
  match strip s with
  | String c s' =>
      if Ascii.eqb c "-"%char then option_map Z.opp (digits_value s' 0 false)
      else if Ascii.eqb c "+"%char then digits_value s' 0 false
      else digits_value (String c s') 0 false
  | EmptyString => None
  end.

(** ** [GraphGenerator] *)

(** [num >= n] and [num / n] for a float [num] and an [int] [n]. *)
Definition float_ge_int (num : float) (n : Z) : bool :=
  number_ge (NFloat num) (NInt n).

(** *** [GraphGenerator.format_number] *)
Definition format_number (num : float) (metric : string) : option string :=
  if String.eqb metric "cost" then
    if float_ge_int num 1000000 then
      q <- number_div (NFloat num) (NInt 1000000) ;;
      Some (format_fixed 1 q ++ "M")%string
    else if float_ge_int num 1000 then
      q <- number_div (NFloat num) (NInt 1000) ;;
      Some (format_fixed 1 q ++ "K")%string
    else Some (format_fixed 2 num)
  else
    if float_ge_int num 1000000 then
      q <- number_div (NFloat num) (NInt 1000000) ;;
      Some (format_fixed 1 q ++ "M")%string
    else if float_ge_int num 1000 then
      q <- number_div (NFloat num) (NInt 1000) ;;
      Some (format_fixed 1 q ++ "K")%string
    else
      n <- int_of_float num ;;
      Some (str_int n).

(** [sorted(d.items())] for a dictionary: by key, ascending. *)
Section SortedItems.
Context {V : Type}.

Fixpoint insert_item (x : string * V) (l : list (string * V)) : list (string * V) :=
  match l with
  | [] => [x]
  | y :: l' =>
      if String.ltb (fst y) (fst x) then y :: insert_item x l' else x :: l
  end.

Definition sorted_items (d : dict V) : list (string * V) :=
  fold_right insert_item [] d.

End SortedItems.

(** [bucket[metric]]: [KeyError] for a metric that is no field. *)
Definition series_field (metric : string) (b : SeriesStats) : option number :=
  if String.eqb metric "input_tokens" then Some (NInt (s_input_tokens b))
  else if String.eqb metric "output_tokens" then Some (NInt (s_output_tokens b))
  else if String.eqb metric "total_tokens" then Some (NInt (s_total_tokens b))
  else if String.eqb metric "cost" then Some (s_cost b)
  else if String.eqb metric "requests" then Some (NInt (s_requests b))
  else None.

Definition CHART_HEIGHT : Z := 15.
Definition BAR_WIDTH : nat := 6.

Definition NO_DATA : string := "No data available for the selected time range.".
Definition NO_DATA_POINTS : string := "No data points available.".
Definition NO_ACTIVITY : string := "No activity in the selected time range.".

(** [int((v / max_val) * chart_height) if max_val > 0 else 0] *)
Definition scaled_value (max_val v : number) : option Z :=
  if number_gt max_val (NInt 0) then
    q <- number_div v max_val ;;
    h <- float_of_int CHART_HEIGHT ;;
    int_of_float (fmul q h)
  else Some 0.

(** The title: a metric with none leaves the variable unbound, and
    reading it raises [UnboundLocalError]. *)
Definition chart_title (metric : string) (days : Z) : option string :=
  if String.eqb metric "total_tokens"
  then Some ("Token Usage Over Time (" ++ str_int days ++ "d)")%string
  else if String.eqb metric "cost"
  then Some ("Cost Over Time (" ++ str_int days ++ "d)")%string
  else if String.eqb metric "requests"
  then Some ("Requests Over Time (" ++ str_int days ++ "d)")%string
  else None.

(** The line of the chart for [row]. *)
Definition chart_row (metric : string) (max_val : number)
    (scaled_values : list Z) (row : Z) : option string :=
  scaled <- number_mul_int max_val row ;;
  y_value <- number_div scaled (NInt CHART_HEIGHT) ;;
  formatted_y <- format_number y_value metric ;;
  let line := (align_right 8 formatted_y ++ " │")%string in
  Some (fold_left
          (fun line scaled_val =>
             if row <=? scaled_val
             then (line ++ repeat_string "█" BAR_WIDTH)%string
             else (line ++ repeat_string " " BAR_WIDTH)%string)
          scaled_values line).

(** [range(chart_height, -1, -1)] *)
Definition chart_rows : list Z :=
  map (fun k => CHART_HEIGHT - Z.of_nat k) (seq 0 16).

(** [' ' in label] *)
Definition has_space (label : string) : bool :=
  match String.index 0 " " label with
  | Some _ => true
  | None => false
  end.

(** What the label under the bar [i] adds to the line of labels.  The
    first (or last) word of the label is taken outside the [try]:
    [IndexError] for a label without a word is not caught. *)
Definition chart_label (days : Z) (i : Z) (label : string) : option string :=
  if 2 <? days then
    date_part <- hd_error (split_words label EmptyString) ;;
    let parts := split_at "-"%char date_part EmptyString in
    let short_date :=
      month_text <- nth_error parts 1 ;;
      month <- int_of_str month_text ;;
      day_text <- nth_error parts 2 ;;
      day <- int_of_str day_text ;;
      Some (str_int month ++ "/" ++ str_int day)%string in
    match short_date with
    | Some short_date => Some (align_center BAR_WIDTH short_date)
    | None => Some (align_center BAR_WIDTH (str_int i))
    end
  else
    time_part <-
      (if has_space label
       then hd_error (rev (split_words label EmptyString))
       else Some label) ;;
    let time_str := take 5 time_part in
    Some (align_center BAR_WIDTH time_str).

(** The labels of the bars, from the index [i] on. *)
Fixpoint chart_labels (days : Z) (i : Z) (labels : list string)
    (label_line : string) : option string :=
  match labels with
  | [] => Some label_line
  | label :: labels' =>
      text <- chart_label days i label ;;
      chart_labels days (i + 1) labels' (label_line ++ text)%string
  end.

Definition NEWLINE : string := String (ascii_of_nat 10) EmptyString.

Section Graph.
Variable fromisoformat : string -> option tz_datetime.
Variable astimezone : tz_datetime -> option tz_datetime.
Variable style : year_style.

(** *** [GraphGenerator.generate_graph]

    [now] is the clock and [usage_data] the collection of the
    [TokenData] the generator holds. *)
Definition generate_graph (now : datetime) (usage_data : list UsageRecord)
    (days : Z) (metric : string) : option string :=
  out <- get_time_series_data fromisoformat astimezone style now usage_data days ;;
  let time_series := fst out in
  match time_series with
  | [] => Some NO_DATA
  | _ :: _ =>
      match sorted_items time_series with
      | [] => Some NO_DATA_POINTS
      | sorted_data =>
          values <- traverse (fun item => series_field metric (snd item))
                      sorted_data ;;
          let labels := map fst sorted_data in
          match values with
          | [] => Some NO_ACTIVITY
          | first :: rest =>
              if number_eq (py_max first rest) (NInt 0) then Some NO_ACTIVITY
              else
                let max_val := py_max first rest in
                scaled_values <- traverse (scaled_value max_val) values ;;
                title <- chart_title metric days ;;
                rows <- traverse (chart_row metric max_val scaled_values)
                          chart_rows ;;
                let x_axis :=
                  ("         └"
                   ++ repeat_string "─"
                        (List.length scaled_values * BAR_WIDTH))%string in
                label_line <- chart_labels days 0 labels "          " ;;
                let chart_lines :=
                  [center 110 title; ""] ++ rows ++ [x_axis; label_line] in
                Some (String.concat NEWLINE chart_lines)
          end
      end
  end.

End Graph.

(** ** Notions for the chart *)

(** The metrics [generate_graph] has a title for. *)
Definition titled_metric (metric : string) : bool :=
  String.eqb metric "total_tokens" || String.eqb metric "cost"
  || String.eqb metric "requests".

(** A float that is a NaN or minus infinity. *)
Definition nan_or_minus_infinity (x : float) : bool :=
  match x with
  | S754_nan | S754_infinity true => true
  | _ => false
  end.

(** Records without a token, two days apart. *)
Definition idle_records : list UsageRecord :=
  [ usage "claude-sonnet-4-20250514" "2025-01-01T10:00:00Z" 0 0 0 0;
    usage "claude-sonnet-4-20250514" "2025-01-02T10:00:00Z" 0 0 0 0 ].

(** The record of a line without a timestamp: the empty string. *)
Definition undated : UsageRecord :=
  usage "claude-sonnet-4-20250514" "" 10 20 0 0.

(** ** [MonitorTab.update_monitor] *)

(** [x < n] for a float [x] and an [int] [n]. *)
Definition float_lt_int (x : float) (n : Z) : bool :=
  match compare_float_int x n with
  | Some Lt => true
  | _ => false
  end.

(** [td.total_seconds()] *)
Definition total_seconds (td : timedelta) : option float :=
  int_true_div td 1000000.

(** The status line.  [now] is the clock when the age of the latest
    record is taken; without a local time for it the age is infinite. *)
Section Monitor.
Variable fromisoformat : string -> option tz_datetime.
Variable astimezone : tz_datetime -> option tz_datetime.

Definition monitor_status (now : datetime) (usage_data : list UsageRecord)
  : option string :=
  let recent_data := get_recent_activity usage_data 5 in
  match recent_data with
  | latest :: _ =>
      time_ago <-
        match get_local_datetime fromisoformat astimezone (timestamp latest) with
        | Some local_timestamp =>
            td <- mk_timedelta (now - replace_tzinfo_none local_timestamp) ;;
            total_seconds td
        | None => Some (S754_infinity false)
        end ;;
      if float_lt_int time_ago 60 then
        seconds <- int_of_float time_ago ;;
        Some ("ACTIVE - Last activity: " ++ str_int seconds ++ "s ago")%string
      else if float_lt_int time_ago 3600 then
        q <- number_div (NFloat time_ago) (NInt 60) ;;
        minutes <- int_of_float q ;;
        Some ("Recent activity: " ++ str_int minutes ++ "m ago")%string
      else
        q <- number_div (NFloat time_ago) (NInt 3600) ;;
        hours <- int_of_float q ;;
        Some ("Last activity: " ++ str_int hours ++ "h ago")%string
  | [] => Some "No recent activity"
  end.

(** The text of the live statistics. *)
Definition live_text (status : string) (today_stats : SummaryStats) : string :=
  (NEWLINE ++ "**Current Session Status**: " ++ status ++ NEWLINE
   ++ "**Today's Totals**:" ++ NEWLINE
   ++ "├── Requests: " ++ format_grouped (total_requests today_stats) ++ NEWLINE
   ++ "├── Total Tokens: "
   ++ format_grouped (total_input today_stats + total_output today_stats
                      + total_cache_creation today_stats
                      + total_cache_read today_stats) ++ NEWLINE
   ++ "└── Cost: $" ++ format_fixed 4 (total_cost today_stats) ++ NEWLINE)%string.

(** The text of the hourly breakdown. *)
Definition hourly_text (hourly_data : dict HourStats) : string :=
  match hourly_data with
  | [] => (NEWLINE ++ "No activity in the last 12 hours")%string
  | _ :: _ =>
      fold_left
        (fun text item =>
           (text ++ fst item ++ ": " ++ format_grouped (h_tokens (snd item))
            ++ " tokens, " ++ str_int (h_requests (snd item)) ++ " requests, $"
            ++ format_fixed 3 (h_cost (snd item)) ++ NEWLINE)%string)
        (sorted_items hourly_data)
        (NEWLINE ++ "**Last 12 Hours Breakdown**:" ++ NEWLINE)%string
  end.

(** The two texts the method hands to its widgets, [#live-stats] and
    [#hourly-breakdown], in this order; an exception ends the method, and
    the widgets not reached keep what they show ([None]).  The clock is
    read three times: for the status, for the date of today and for the
    window of the hourly breakdown. *)
Definition update_monitor (alg : sum_algorithm) (now_status : datetime)
    (today : date) (now_hourly : datetime) (usage_data : list UsageRecord)
  : option string * option string :=
  match monitor_status now_status usage_data with
  | Some status =>
      match get_summary_stats alg usage_data
              (Some (get_today_data today usage_data)) with
      | Some today_stats =>
          (Some (live_text status today_stats),
           option_map hourly_text
             (get_hourly_usage fromisoformat astimezone now_hourly usage_data 12))
      | None => (None, None)
      end
  | None => (None, None)
  end.

End Monitor.

(** ** Notions for the values of floats *)

(** A float that is zero or positive and finite, with a value from
    [lo * 2^c] to [hi * 2^c], written at an exponent that is not above
    [c]. *)
Definition float_within (lo hi c : Z) (x : float) : Prop :=
  match x with
  | S754_zero _ => lo <= 0 <= hi
  | S754_finite false m e =>
      e <= c /\ lo * 2 ^ (c - e) <= Zpos m <= hi * 2 ^ (c - e)
  | _ => False
  end.


(** ** [print_summary] of the command line

    What is printed is the list of the texts of the calls of [print], in
    order, with a flag that tells whether the function returned: [false]
    is an exception after the lines before it. *)

Record CliModelStats := mkCliModelStats {
  c_input_tokens : Z;
  c_output_tokens : Z;
  c_cache_creation_input_tokens : Z;
  c_cache_read_input_tokens : Z;
  c_requests : Z;
  c_cost : number
}.

(** The value the [defaultdict] of [print_summary] creates for a model
    seen for the first time. *)
Definition new_cli_model_stats : CliModelStats :=
  mkCliModelStats 0 0 0 0 0 (NInt 0).

(** The body of the loop over the entries: six updates of the tally of
    the model of the entry, one after the other; the last one calls
    [calculate_cost], and an exception there ends [print_summary]. *)
Definition cli_count_entry (model_stats : dict CliModelStats)
    (entry : UsageRecord) : option (dict CliModelStats) :=
  let model := model entry in
  let model_stats := dict_touch model new_cli_model_stats model_stats in
  let model_stats :=
    dict_adjust model
      (fun st => mkCliModelStats (c_input_tokens st + input_tokens entry)
                   (c_output_tokens st) (c_cache_creation_input_tokens st)
                   (c_cache_read_input_tokens st) (c_requests st) (c_cost st))
      model_stats in
  let model_stats :=
    dict_adjust model
      (fun st => mkCliModelStats (c_input_tokens st)
                   (c_output_tokens st + output_tokens entry)
                   (c_cache_creation_input_tokens st)
                   (c_cache_read_input_tokens st) (c_requests st) (c_cost st))
      model_stats in
  let model_stats :=
    dict_adjust model
      (fun st => mkCliModelStats (c_input_tokens st) (c_output_tokens st)
                   (c_cache_creation_input_tokens st
                    + cache_creation_input_tokens entry)
                   (c_cache_read_input_tokens st) (c_requests st) (c_cost st))
      model_stats in
  let model_stats :=
    dict_adjust model
      (fun st => mkCliModelStats (c_input_tokens st) (c_output_tokens st)
                   (c_cache_creation_input_tokens st)
                   (c_cache_read_input_tokens st
                    + cache_read_input_tokens entry)
                   (c_requests st) (c_cost st))
      model_stats in
  let model_stats :=
    dict_adjust model
      (fun st => mkCliModelStats (c_input_tokens st) (c_output_tokens st)
                   (c_cache_creation_input_tokens st)
                   (c_cache_read_input_tokens st) (c_requests st + 1)
                   (c_cost st))
      model_stats in
  st <- dict_get model model_stats ;;
  c <- calculate_cost entry ;;
  v <- number_add_float (c_cost st) c ;;
  Some (dict_adjust model
          (fun st => mkCliModelStats (c_input_tokens st) (c_output_tokens st)
                       (c_cache_creation_input_tokens st)
                       (c_cache_read_input_tokens st) (c_requests st) v)
          model_stats).

Fixpoint cli_count_entries (model_stats : dict CliModelStats)
    (usage_data : list UsageRecord) : option (dict CliModelStats) :=
  match usage_data with
  | [] => Some model_stats
  | entry :: usage_data' =>
      model_stats' <- cli_count_entry model_stats entry ;;
      cli_count_entries model_stats' usage_data'
  end.

(** The six calls of [print] for one model of the breakdown; the text
    of the cost is made by the fifth. *)
Definition print_model (item : string * CliModelStats) : list string * bool :=
  let model := fst item in
  let stats := snd item in
  let total_tokens :=
    c_input_tokens stats + c_output_tokens stats
    + c_cache_creation_input_tokens stats + c_cache_read_input_tokens stats in
  let printed :=
    [ (model ++ ":")%string;
      ("   Requests: " ++ str_int (c_requests stats))%string;
      ("   Tokens: " ++ format_grouped total_tokens
       ++ " (In: " ++ format_grouped (c_input_tokens stats)
       ++ ", Out: " ++ format_grouped (c_output_tokens stats) ++ ")")%string;
      ("   Cache: " ++ format_grouped (c_cache_creation_input_tokens stats)
       ++ " writes, " ++ format_grouped (c_cache_read_input_tokens stats)
       ++ " reads")%string ] in
  match format_number_fixed 4 (c_cost stats) with
  | Some cost_text => (printed ++ [("   Cost: $" ++ cost_text)%string; ""], true)
  | None => (printed, false)
  end.

Fixpoint print_models (items : list (string * CliModelStats))
  : list string * bool :=
  match items with
  | [] => ([], true)
  | item :: items' =>
      let out := print_model item in
      if snd out then
        let out' := print_models items' in (fst out ++ fst out', snd out')
      else out
  end.

(** [print_summary(usage_data, title)]; [alg] is the algorithm of the
    builtin [sum] on floats.  The totals and the tallies of the models
    are computed before the first line is printed. *)
Definition print_summary (alg : sum_algorithm) (usage_data : list UsageRecord)
    (title : string) : list string * bool :=
  match usage_data with
  | [] => ([(NEWLINE ++ title)%string; "No usage data found."], true)
  | _ :: _ =>
      let total_input := isum (map input_tokens usage_data) in
      let total_output := isum (map output_tokens usage_data) in
      let total_cache_creation :=
        isum (map cache_creation_input_tokens usage_data) in
      let total_cache_read := isum (map cache_read_input_tokens usage_data) in
      match traverse calculate_cost usage_data with
      | None => ([], false)
      | Some costs =>
          let total_cost := py_sum alg costs in
          match cli_count_entries [] usage_data with
          | None => ([], false)
          | Some model_stats =>
              let printed :=
                [ (NEWLINE ++ title)%string;
                  repeat_string "=" 60;
                  ("Total Requests: " ++ str_int (len usage_data))%string;
                  ("Input Tokens: " ++ format_grouped total_input)%string;
                  ("Output Tokens: " ++ format_grouped total_output)%string;
                  ("Cache Creation Tokens: "
                   ++ format_grouped total_cache_creation)%string;
                  ("Cache Read Tokens: "
                   ++ format_grouped total_cache_read)%string;
                  ("Total Tokens: "
                   ++ format_grouped (total_input + total_output
                                      + total_cache_creation
                                      + total_cache_read))%string;
                  ("Total Cost: $" ++ format_fixed 4 total_cost)%string;
                  (NEWLINE ++ "Model Breakdown:")%string;
                  repeat_string "-" 60 ] in
              let out := print_models model_stats in
              (printed ++ fst out, snd out)
          end
      end
  end.

(** The lines of a summary of [get_summary_stats], as [print_summary]
    lays them out. *)
Definition report_model (item : string * ModelStats) : list string :=
  let stats := snd item in
  [ (fst item ++ ":")%string;
    ("   Requests: " ++ str_int (requests stats))%string;
    ("   Tokens: "
     ++ format_grouped (m_input_tokens stats + m_output_tokens stats
                        + m_cache_creation_input_tokens stats
                        + m_cache_read_input_tokens stats)
     ++ " (In: " ++ format_grouped (m_input_tokens stats)
     ++ ", Out: " ++ format_grouped (m_output_tokens stats) ++ ")")%string;
    ("   Cache: " ++ format_grouped (m_cache_creation_input_tokens stats)
     ++ " writes, " ++ format_grouped (m_cache_read_input_tokens stats)
     ++ " reads")%string;
    ("   Cost: $" ++ format_fixed 4 (cost stats))%string;
    "" ].

Definition summary_report (title : string) (stats : SummaryStats) : list string :=
  [ (NEWLINE ++ title)%string;
    repeat_string "=" 60;
    ("Total Requests: " ++ str_int (total_requests stats))%string;
    ("Input Tokens: " ++ format_grouped (total_input stats))%string;
    ("Output Tokens: " ++ format_grouped (total_output stats))%string;
    ("Cache Creation Tokens: "
     ++ format_grouped (total_cache_creation stats))%string;
    ("Cache Read Tokens: " ++ format_grouped (total_cache_read stats))%string;
    ("Total Tokens: "
     ++ format_grouped (total_input stats + total_output stats
                        + total_cache_creation stats
                        + total_cache_read stats))%string;
    ("Total Cost: $" ++ format_fixed 4 (total_cost stats))%string;
    (NEWLINE ++ "Model Breakdown:")%string;
    repeat_string "-" 60 ]
  ++ flat_map report_model (models stats).

(** The tally of [get_summary_stats] with the numbers of a tally of
    [print_summary]. *)
Definition model_stats_of (st : CliModelStats) : ModelStats :=
  mkModelStats (c_requests st) (c_input_tokens st) (c_output_tokens st)
    (c_cache_creation_input_tokens st) (c_cache_read_input_tokens st)
    match c_cost st with
    | NInt _ => of_int_zero
    | NFloat x => x
    end.

(** The cost of a tally is the [int] [0] or a float. *)
Definition cli_cost_started (st : CliModelStats) : Prop :=
  match c_cost st with
  | NInt n => n = 0
  | NFloat _ => True
  end.

(** A dictionary with [f] applied to its values. *)
Definition dict_map_values {V W : Type} (f : V -> W) (d : dict V) : dict W :=
  map (fun kv => (fst kv, f (snd kv))) d.

(** ** Notions for the labels of the chart *)

(** A text without white space, and a text without the character [c]. *)
Fixpoint no_space (s : string) : bool :=
  match s with
  | EmptyString => true
  | String x s' => negb (is_space x) && no_space s'
  end.

Fixpoint no_char (c : ascii) (s : string) : bool :=
  match s with
  | EmptyString => true
  | String x s' => negb (Ascii.eqb x c) && no_char c s'
  end.

(** The two texts of the year [y] have no white space and no dash. *)
Definition year_text_ok (y : Z) : bool :=
  no_space (pad_digits 4 y) && no_char "-" (pad_digits 4 y)
  && no_space (str_int y) && no_char "-" (str_int y).

(** The text of the month and the day number [n] of a table of 12 months
    of 31 days splits at the dash into the two numbers. *)
Definition date_label_ok (n : Z) : bool :=
  let m := n / 31 + 1 in
  let d := n mod 31 + 1 in
  match split_at "-" (pad_digits 2 m ++ "-" ++ pad_digits 2 d ++ "") EmptyString with
  | [a; b] =>
      match int_of_str a, int_of_str b with
      | Some m', Some d' => (m' =? m) && (d' =? d)
      | _, _ => false
      end
  | _ => false
  end.

(** The text of the hour [h] is one word of five characters. *)
Definition hour_label_ok (h : Z) : bool :=
  no_space (hour_label h)
  && String.eqb (align_center BAR_WIDTH (take 5 (hour_label h)))
       (hour_label h ++ " ").

(** ** Notions for sums of floats *)

(** The mantissa of a finite float with its sign. *)
Definition signed_mantissa (s : bool) (m : positive) : Z :=
  if s then Zneg m else Zpos m.

(** A float that is a number, of either sign, with a value from
    [lo * 2^c] to [hi * 2^c]: two points of the grid of step [2^c]. *)
Definition float_between (lo hi c : Z) (x : float) : Prop :=
  match x with
  | S754_zero _ => lo <= 0 <= hi
  | S754_finite s m e =>
      lo * 2 ^ Z.max 0 (c - e)
      <= signed_mantissa s m * 2 ^ Z.max 0 (e - c)
      <= hi * 2 ^ Z.max 0 (c - e)
  | _ => False
  end.

(** A float cut down, and up, to the grid of step [2^c]: the number of
    steps. *)
Definition grid_floor (c : Z) (x : float) : Z :=
  match x with
  | S754_finite s m e =>
      if e <=? c then signed_mantissa s m / 2 ^ (c - e)
      else signed_mantissa s m * 2 ^ (e - c)
  | _ => 0
  end.

Definition grid_ceil (c : Z) (x : float) : Z := - grid_floor c (SFopp x).

(** A zero or a finite float. *)
Definition is_number (x : float) : bool :=
  match x with
  | S754_zero _ | S754_finite _ _ _ => true
  | _ => false
  end.

(** How far a sum of [n] floats that are not negative can lie outside the
    sums of their bounds, when the bounds of the items are [width] apart
    in all: the sum from the left stays inside, the compensated sum
    corrects its result by at most the width for each item. *)
Definition sum_slack (alg : sum_algorithm) (n width : Z) : Z :=
  match alg with
  | LeftToRight => 0
  | Compensated => n * width
  end.

(** A record with output tokens only. *)
Definition output_only : list UsageRecord :=
  [ usage "claude-sonnet-4-20250514" "2025-01-02T10:00:00Z" 0 500 0 0 ].

(** The text of a list of UTF-8 bytes. *)
Definition utf8 (bytes : list nat) : string :=
  fold_right (fun n s => String (ascii_of_nat n) s) EmptyString bytes.

(** * Properties *)

(** ** Floats: the sign and the range of rounded results *)

Section Rounding.

Lemma shr_1_value mrs : 0 <= shr_m mrs -> shr_m (shr_1 mrs) = shr_m mrs / 2.
Proof.
  destruct mrs as [m r s]; simpl; intros Hm.
  destruct m as [|p|p]; try lia; [reflexivity|].
  destruct p as [p|p|]; simpl shr_m.
  - rewrite Pos2Z.inj_xI. apply Z.div_unique with (r := 1); lia.
  - rewrite Pos2Z.inj_xO. apply Z.div_unique with (r := 0); lia.
  - reflexivity.
Qed.

Lemma iter_shr_1_value p : forall mrs, 0 <= shr_m mrs ->
  shr_m (iter_pos shr_1 p mrs) = shr_m mrs / 2 ^ Zpos p.
Proof.
  induction p as [p IH|p IH|]; intros mrs Hm; simpl iter_pos.
  - assert (H1 : 0 <= shr_m (shr_1 mrs))
      by (rewrite shr_1_value by assumption; apply Z.div_pos; lia).
    assert (H2 : 0 <= shr_m (iter_pos shr_1 p (shr_1 mrs)))
      by (rewrite IH by assumption; apply Z.div_pos; lia).
    rewrite IH by assumption. rewrite IH by assumption.
    rewrite shr_1_value by assumption.
    rewrite !Z.div_div by lia. f_equal.
    rewrite <- Z.pow_add_r by lia. rewrite <- Z.pow_succ_r by lia. f_equal. lia.
  - assert (H2 : 0 <= shr_m (iter_pos shr_1 p mrs))
      by (rewrite IH by assumption; apply Z.div_pos; lia).
    rewrite IH by assumption. rewrite IH by assumption.
    rewrite !Z.div_div by lia. f_equal.
    rewrite <- Z.pow_add_r by lia. f_equal. lia.
  - rewrite shr_1_value by assumption. reflexivity.
Qed.

Lemma shr_m_of_loc m l : shr_m (shr_record_of_loc m l) = m.
Proof. destruct l as [|[ | | ]]; reflexivity. Qed.

(** A shift by [n] places divides the mantissa by [2^n] and adds [n] to
    the exponent. *)
Lemma shr_value mrs e n : 0 <= shr_m mrs ->
  shr_m (fst (shr mrs e n)) = shr_m mrs / 2 ^ Z.max 0 n
  /\ snd (shr mrs e n) = e + Z.max 0 n.
Proof.
  intros Hm. destruct n as [|p|p]; simpl.
  - rewrite Z.div_1_r. lia.
  - rewrite iter_shr_1_value by assumption. rewrite Z.max_r by lia. lia.
  - rewrite Z.div_1_r. lia.
Qed.

Lemma round_nearest_even_bounds m l : 0 <= m ->
  m <= round_nearest_even m l <= m + 1.
Proof.
  intros Hm. unfold round_nearest_even.
  destruct l as [|[ | | ]]; try lia. destruct (Z.even m); lia.
Qed.

Lemma digits2_pos_size p : digits2_pos p = Pos.size p.
Proof. induction p; simpl; congruence. Qed.

Lemma Zdigits2_nonneg m : 0 <= Zdigits2 m.
Proof. destruct m; simpl; lia. Qed.

Lemma Zdigits2_gt m : 0 <= m -> m < 2 ^ Zdigits2 m.
Proof.
  destruct m as [|p|p]; simpl Zdigits2; intros H; try lia.
  rewrite digits2_pos_size.
  pose proof (Pos.size_gt p) as Hp.
  apply Pos2Z.pos_lt_pos in Hp. rewrite Pos2Z.inj_pow in Hp. exact Hp.
Qed.

Lemma Zdigits2_le m k : 0 <= k -> 0 <= m < 2 ^ k -> Zdigits2 m <= k.
Proof.
  intros Hk [H0 Hm]. destruct m as [|p|p]; simpl Zdigits2; try lia.
  rewrite digits2_pos_size.
  pose proof (Pos.size_le p) as Hp.
  apply Pos2Z.pos_le_pos in Hp. rewrite Pos2Z.inj_pow in Hp.
  change (Z.pos p~0) with (2 * Z.pos p) in Hp.
  destruct (Z_lt_le_dec k (Zpos (Pos.size p))) as [Hlt|]; [|assumption].
  assert (2 ^ (k + 1) <= 2 ^ Zpos (Pos.size p)) by (apply Z.pow_le_mono_r; lia).
  rewrite Z.pow_add_r in H by lia. change (2 ^ 1) with 2 in H. lia.
Qed.

Lemma div_pow2_lt m d k : 0 <= m < 2 ^ d -> 0 <= d -> 0 <= k ->
  0 <= m / 2 ^ k < 2 ^ Z.max 0 (d - k).
Proof.
  intros [H0 Hm] Hd Hk. split; [apply Z.div_pos; lia|].
  destruct (Z_le_gt_dec k d) as [Hle|Hgt].
  - rewrite Z.max_r by lia. apply Z.div_lt_upper_bound; [lia|].
    rewrite <- Z.pow_add_r by lia. replace (k + (d - k)) with d by lia. exact Hm.
  - rewrite Z.max_l by lia. rewrite Z.div_small; [simpl; lia|].
    split; [assumption|]. apply Z.lt_le_trans with (2 ^ d); [assumption|].
    apply Z.pow_le_mono_r; lia.
Qed.

(** Rounding a non-negative mantissa keeps the sign and gives no NaN; it
    stays finite when the value is below [2^1023]. *)
Lemma binary_round_aux_cases s m e l : 0 <= m ->
  has_sign s (binary_round_aux prec emax s m e l) /\
  (e <= 971 -> Zdigits2 m + e <= 1023 ->
   not_inf (binary_round_aux prec emax s m e l)).
Proof.
  intros Hm. unfold binary_round_aux, shr_fexp.
  set (d := Zdigits2 m).
  set (n1 := fexp prec emax (d + e) - e).
  pose proof (shr_value (shr_record_of_loc m l) e n1) as H1.
  rewrite shr_m_of_loc in H1. specialize (H1 Hm).
  destruct (shr (shr_record_of_loc m l) e n1) as [mrs1 e1].
  simpl fst in H1; simpl snd in H1. destruct H1 as [Hv1 He1].
  assert (Hm1 : 0 <= shr_m mrs1) by (rewrite Hv1; apply Z.div_pos; lia).
  set (m2 := round_nearest_even (shr_m mrs1) (loc_of_shr_record mrs1)).
  pose proof (round_nearest_even_bounds (shr_m mrs1) (loc_of_shr_record mrs1) Hm1)
    as Hm2.
  fold m2 in Hm2.
  set (n2 := fexp prec emax (Zdigits2 m2 + e1) - e1).
  pose proof (shr_value (shr_record_of_loc m2 loc_Exact) e1 n2) as H2.
  rewrite shr_m_of_loc in H2. assert (H02 : 0 <= m2) by lia. specialize (H2 H02).
  destruct (shr (shr_record_of_loc m2 loc_Exact) e1 n2) as [mrs2 e2].
  simpl fst in H2; simpl snd in H2. destruct H2 as [Hv2 He2].
  assert (Hm2' : 0 <= shr_m mrs2) by (rewrite Hv2; apply Z.div_pos; lia).
  destruct (shr_m mrs2) as [|p|p] eqn:Ep; try lia.
  - split; simpl; auto.
  - split.
    + destruct (e2 <=? emax - prec); simpl; reflexivity.
    + intros He Hd.
      assert (Hle : e2 <= 971).
      { pose proof (Zdigits2_nonneg m) as Hd0. fold d in Hd0.
        pose proof (Zdigits2_gt m Hm) as Hgt. fold d in Hgt.
        assert (Hk1 : 0 <= Z.max 0 n1) by lia.
        pose proof (div_pow2_lt m d (Z.max 0 n1) (conj Hm Hgt) Hd0 Hk1) as Hq.
        rewrite <- Hv1 in Hq.
        assert (Hd2 : Zdigits2 m2 <= Z.max 0 (d - Z.max 0 n1) + 1).
        { apply Zdigits2_le; [lia|]. split; [lia|].
          rewrite Z.pow_add_r by lia. change (2 ^ 1) with 2. lia. }
        subst n1 n2. unfold fexp, emin, prec, emax in *. lia. }
      apply Z.leb_le in Hle. unfold emax, prec. simpl (1024 - 53).
      rewrite Hle. exact I.
Qed.

(** The quotient digits the division hands to the rounding. *)
Lemma div_core_bounds m1 e1 m2 e2 : 0 < m1 -> 0 < m2 ->
  forall q e' l, SFdiv_core_binary prec emax m1 e1 m2 e2 = (q, e', l) ->
  0 <= q /\ e' <= e1 - e2 /\ q * m2 <= m1 * 2 ^ (e1 - e2 - e').
Proof.
  intros H1 H2 q e' l. unfold SFdiv_core_binary.
  set (e0 := Z.min _ _). set (s := e1 - e2 - e0).
  assert (Hs : 0 <= s) by (subst s e0; lia).
  assert (Hsdef : s = e1 - e2 - e0) by reflexivity. clearbody s.
  set (m' := match s with Z.pos _ => Z.shiftl m1 s | 0 => m1 | Z.neg _ => 0 end).
  assert (Hm' : m' = m1 * 2 ^ s).
  { subst m'. destruct s as [|p|p]; try lia.
    apply Z.shiftl_mul_pow2. lia. }
  clearbody m'.
  pose proof (Z_div_mod m' m2 ltac:(lia)) as Hdm.
  destruct (Z.div_eucl m' m2) as [q0 r0]. intros E.
  inversion E; subst q e' l. clear E.
  destruct Hdm as [Heq Hr].
  assert (0 <= m')
    by (rewrite Hm'; apply Z.mul_nonneg_nonneg; [lia|apply Z.pow_nonneg; lia]).
  assert (Hq0 : 0 <= q0).
  { destruct (Z_lt_le_dec q0 0) as [Hneg|]; [|assumption].
    assert (m2 * q0 <= m2 * (-1)) by (apply Z.mul_le_mono_nonneg_l; lia). lia. }
  split; [assumption|]. split; [subst e0; lia|].
  rewrite <- Hsdef, <- Hm'. rewrite (Z.mul_comm q0 m2). lia.
Qed.

End Rounding.

(** ** Floats: the operations of [calculate_cost] *)

Lemma has_sign_nonneg x : has_sign false x -> is_nonneg x = true.
Proof.
  destruct x as [s|s| |s m e]; simpl; intros H; try contradiction; subst; reflexivity.
Qed.

Lemma fmul_nonneg x y : is_nonneg x = true -> is_pos_finite y = true ->
  is_nonneg (fmul x y) = true.
Proof.
  destruct x as [[|]|[|]| |[|] mx ex]; destruct y as [sy|sy| |[|] my ey];
    simpl; intros Hx Hy; try discriminate; try reflexivity.
  apply has_sign_nonneg.
  apply (binary_round_aux_cases false (Zpos (mx * my)) (ex + ey) loc_Exact). lia.
Qed.

Lemma fadd_nonneg x y : is_nonneg x = true -> is_nonneg y = true ->
  is_nonneg (fadd x y) = true.
Proof.
  destruct x as [[|]|[|]| |[|] mx ex]; destruct y as [[|]|[|]| |[|] my ey];
    simpl; intros Hx Hy; try discriminate; try reflexivity.
  unfold fadd, SFadd, cond_Zopp.
  set (ez := Z.min ex ey).
  destruct (shl_align mx ex ez) as [ma ea]. destruct (shl_align my ey ez) as [mb eb].
  simpl fst. simpl Z.add. unfold binary_normalize, binary_round.
  destruct (shl_align (ma + mb) ez _) as [mz ez'].
  apply has_sign_nonneg. apply binary_round_aux_cases. lia.
Qed.

(** [0 + x] is [x] for the floats a cost can be. *)
Lemma fadd_zero_l x : is_nonneg x = true -> fadd of_int_zero x = x.
Proof.
  destruct x as [[|]|[|]| |[|] mx ex]; simpl; intros Hx; try discriminate; reflexivity.
Qed.

Lemma fge_zero_nonneg x : is_nonneg x = true -> fge x fzero = true.
Proof.
  destruct x as [[|]|[|]| |[|] mx ex]; simpl; intros Hx; try discriminate; reflexivity.
Qed.

Lemma fdiv_million_cases (s : bool) (p : positive) :
  has_sign s (fdiv (of_pos s p) (of_pos false 1000000)) /\
  (Zpos p < COUNT_BOUND -> not_inf (fdiv (of_pos s p) (of_pos false 1000000))).
Proof.
  unfold fdiv, of_pos, SFdiv, COUNT_BOUND.
  destruct (SFdiv_core_binary prec emax (Z.pos p) 0 1000000 0) as [[q e'] l] eqn:E.
  apply div_core_bounds in E; try lia. destruct E as (Hq & He & Hle).
  rewrite xorb_false_r.
  pose proof (binary_round_aux_cases s q e' l Hq) as [Hs Hn].
  split; [exact Hs|]. intros Hp. apply Hn; [lia|].
  assert (Hlt : q < 2 ^ (1023 - e')).
  { assert (Hpow : 2 ^ (1042 + (0 - 0 - e')) = 2 ^ 19 * 2 ^ (1023 - e')).
    { rewrite <- Z.pow_add_r by lia. f_equal. lia. }
    assert (Hb : Z.pos p * 2 ^ (0 - 0 - e') < 2 ^ 1042 * 2 ^ (0 - 0 - e')).
    { apply Z.mul_lt_mono_pos_r; [apply Z.pow_pos_nonneg; lia|assumption]. }
    rewrite <- Z.pow_add_r in Hb by lia. rewrite Hpow in Hb.
    assert (H19 : 2 ^ 19 <= 1000000) by (vm_compute; discriminate).
    assert (0 < 2 ^ (1023 - e')) by (apply Z.pow_pos_nonneg; lia).
    nia. }
  pose proof (Zdigits2_le q (1023 - e') ltac:(lia) (conj Hq Hlt)). lia.
Qed.

(** ** [calculate_cost] *)

Lemma int_true_div_million a : 0 <= a ->
  (forall x, int_true_div a MILLION = Some x -> is_nonneg x = true /\ not_inf x) /\
  (a < COUNT_BOUND -> exists x, int_true_div a MILLION = Some x).
Proof.
  intros Ha. destruct a as [|p|p]; try lia.
  - split.
    + intros x Hx. inversion Hx. split; [reflexivity|exact I].
    + intros _. eexists. reflexivity.
  - unfold int_true_div, MILLION.
    destruct (fdiv_million_cases false p) as [Hs Hn].
    destruct (fdiv (of_pos false p) (of_pos false 1000000)) as [s|s| |s m e] eqn:E;
      simpl in Hs; try contradiction; subst.
    + split; [intros x Hx; inversion Hx; split; [reflexivity|exact I]|].
      intros _. eexists. reflexivity.
    + split; [intros x Hx; discriminate|].
      intros Hp. destruct (Hn Hp).
    + split; [intros x Hx; inversion Hx; split; [reflexivity|exact I]|].
      intros _. eexists. reflexivity.
Qed.

Lemma pricing_for_cases m :
  pricing_for m = sonnet_rates \/ pricing_for m = opus_rates.
Proof.
  unfold pricing_for, PRICING. simpl dict_get.
  destruct (String.eqb m "claude-sonnet-4-20250514"); [left; reflexivity|].
  destruct (String.eqb m "claude-3-5-sonnet-20241022"); [left; reflexivity|].
  destruct (String.eqb m "claude-3-opus-20240229"); [right; reflexivity|].
  left. reflexivity.
Qed.

Lemma rates_pos_finite m :
  is_pos_finite (rate_input (pricing_for m)) = true /\
  is_pos_finite (rate_output (pricing_for m)) = true /\
  is_pos_finite (rate_cache_write (pricing_for m)) = true /\
  is_pos_finite (rate_cache_read (pricing_for m)) = true.
Proof.
  destruct (pricing_for_cases m) as [-> | ->]; vm_compute; repeat split; reflexivity.
Qed.

(** The exact match and the fallback of the rate lookup. *)
Lemma pricing_for_match m rates :
  dict_get m PRICING = Some rates -> pricing_for m = rates.
Proof. unfold pricing_for. intros ->. reflexivity. Qed.

Lemma pricing_for_fallback m :
  dict_get m PRICING = None -> pricing_for m = pricing_for DEFAULT_MODEL.
Proof. unfold pricing_for. intros ->. reflexivity. Qed.

Lemma category_cost_nonneg a rate t : 0 <= a -> is_pos_finite rate = true ->
  category_cost (a, rate) = Some t -> is_nonneg t = true.
Proof.
  intros Ha Hr. unfold category_cost. simpl fst; simpl snd.
  destruct (int_true_div a MILLION) as [q|] eqn:E; simpl; [|discriminate].
  intros H; inversion H; subst t. apply fmul_nonneg; [|assumption].
  apply (int_true_div_million a Ha). assumption.
Qed.

(** [calculate_cost] computes the four products in the order of the
    categories and adds them from the left. *)
Lemma calculate_cost_unfold r :
  calculate_cost r =
    (ti <- category_cost (input_tokens r, rate_input (pricing_for (model r))) ;;
     to <- category_cost (output_tokens r, rate_output (pricing_for (model r))) ;;
     tw <- category_cost (cache_creation_input_tokens r,
                          rate_cache_write (pricing_for (model r))) ;;
     tr <- category_cost (cache_read_input_tokens r,
                          rate_cache_read (pricing_for (model r))) ;;
     Some (fadd (fadd (fadd ti to) tw) tr)).
Proof.
  unfold calculate_cost, category_cost. simpl fst; simpl snd.
  destruct (int_true_div (input_tokens r) MILLION); simpl; [|reflexivity].
  destruct (int_true_div (output_tokens r) MILLION); simpl; [|reflexivity].
  destruct (int_true_div (cache_creation_input_tokens r) MILLION); simpl; [|reflexivity].
  destruct (int_true_div (cache_read_input_tokens r) MILLION); simpl; reflexivity.
Qed.

Lemma calculate_cost_formula r : nonneg_counts r ->
  calculate_cost r = cost_formula r.
Proof.
  intros (Hi & Ho & Hw & Hr). rewrite calculate_cost_unfold.
  unfold cost_formula, categories. cbn [traverse].
  destruct (rates_pos_finite (model r)) as (Ri & Ro & Rw & Rr).
  destruct (category_cost (input_tokens r, _)) as [ti|] eqn:Ei; cbn [bind];
    [|reflexivity].
  destruct (category_cost (output_tokens r, _)) as [to|]; cbn [bind]; [|reflexivity].
  destruct (category_cost (cache_creation_input_tokens r, _)) as [tw|]; cbn [bind];
    [|reflexivity].
  destruct (category_cost (cache_read_input_tokens r, _)) as [tr|]; cbn [bind];
    [|reflexivity].
  unfold left_sum. cbn [fold_left].
  rewrite fadd_zero_l by exact (category_cost_nonneg _ _ _ Hi Ri Ei). reflexivity.
Qed.

Lemma calculate_cost_nonneg r v : nonneg_counts r ->
  calculate_cost r = Some v -> is_nonneg v = true.
Proof.
  intros (Hi & Ho & Hw & Hr). rewrite calculate_cost_unfold.
  destruct (rates_pos_finite (model r)) as (Ri & Ro & Rw & Rr).
  destruct (category_cost (input_tokens r, _)) as [ti|] eqn:Ei; simpl; [|discriminate].
  destruct (category_cost (output_tokens r, _)) as [to|] eqn:Eo; simpl; [|discriminate].
  destruct (category_cost (cache_creation_input_tokens r, _)) as [tw|] eqn:Ew; simpl;
    [|discriminate].
  destruct (category_cost (cache_read_input_tokens r, _)) as [tr|] eqn:Er; simpl;
    [|discriminate].
  intros H; inversion H; subst v.
  repeat apply fadd_nonneg.
  - exact (category_cost_nonneg _ _ _ Hi Ri Ei).
  - exact (category_cost_nonneg _ _ _ Ho Ro Eo).
  - exact (category_cost_nonneg _ _ _ Hw Rw Ew).
  - exact (category_cost_nonneg _ _ _ Hr Rr Er).
Qed.

Lemma category_cost_defined a rate : 0 <= a < COUNT_BOUND ->
  exists t, category_cost (a, rate) = Some t.
Proof.
  intros [Ha Hb]. unfold category_cost. simpl fst; simpl snd.
  destruct (proj2 (int_true_div_million a Ha) Hb) as [q ->]. simpl. eexists. reflexivity.
Qed.

Lemma calculate_cost_defined r : nonneg_counts r -> counts_below COUNT_BOUND r ->
  exists v, calculate_cost r = Some v.
Proof.
  intros (Hi & Ho & Hw & Hr) (Bi & Bo & Bw & Br). rewrite calculate_cost_unfold.
  destruct (category_cost_defined (input_tokens r)
              (rate_input (pricing_for (model r))) (conj Hi Bi)) as [ti ->].
  destruct (category_cost_defined (output_tokens r)
              (rate_output (pricing_for (model r))) (conj Ho Bo)) as [to ->].
  destruct (category_cost_defined (cache_creation_input_tokens r)
              (rate_cache_write (pricing_for (model r))) (conj Hw Bw)) as [tw ->].
  destruct (category_cost_defined (cache_read_input_tokens r)
              (rate_cache_read (pricing_for (model r))) (conj Hr Br)) as [tr ->].
  simpl. eexists. reflexivity.
Qed.

Lemma calculate_cost_zero r :
  input_tokens r = 0 -> output_tokens r = 0 ->
  cache_creation_input_tokens r = 0 -> cache_read_input_tokens r = 0 ->
  calculate_cost r = Some fzero.
Proof.
  intros Hi Ho Hw Hr. unfold calculate_cost. rewrite Hi, Ho, Hw, Hr.
  destruct (pricing_for_cases (model r)) as [-> | ->]; reflexivity.
Qed.

(** The literal [3.0]. *)
Lemma three_point_zero : decimal 30 1 = S754_finite false (3 * 2 ^ 51) (-51).
Proof. reflexivity. Qed.

(** C1, as the code has it.  For a record whose four counts are
    non-negative, [calculate_cost] raises or returns like the
    left-to-right sum over the four categories of
    [count / 1_000_000 * rate]; a cost it returns is [>= 0]; it returns
    whenever the four counts are below [2^1042], and returns [0.0] when
    they are 0.  The rates are those of the record's model when the
    pricing table has it and those of ['claude-sonnet-4-20250514']
    otherwise.  One million input tokens of that model cost [3.0]. *)
Theorem calculate_cost_correct (r : UsageRecord) (Hnonneg : nonneg_counts r) :
  calculate_cost r = cost_formula r
  /\ (forall v, calculate_cost r = Some v -> fge v fzero = true)
  /\ (counts_below COUNT_BOUND r -> exists v, calculate_cost r = Some v)
  /\ (input_tokens r = 0 -> output_tokens r = 0 ->
      cache_creation_input_tokens r = 0 -> cache_read_input_tokens r = 0 ->
      calculate_cost r = Some fzero /\ feq fzero fzero = true)
  /\ (forall rates, dict_get (model r) PRICING = Some rates ->
                    pricing_for (model r) = rates)
  /\ (dict_get (model r) PRICING = None ->
      pricing_for (model r) = pricing_for DEFAULT_MODEL)
  /\ dict_get DEFAULT_MODEL PRICING = Some sonnet_rates
  /\ calculate_cost million_input = Some (decimal 30 1).
Proof.
  split; [apply calculate_cost_formula; assumption|].
  split.
  { intros v Hv. apply fge_zero_nonneg. eapply calculate_cost_nonneg; eassumption. }
  split; [apply calculate_cost_defined; assumption|].
  split.
  { intros Hi Ho Hw Hr. split; [apply calculate_cost_zero; assumption|reflexivity]. }
  split; [apply pricing_for_match|].
  split; [apply pricing_for_fallback|].
  split; reflexivity.
Qed.

Lemma calculate_cost_correct_witness :
  exists v,
    calculate_cost typical = Some v
    /\ cost_formula typical = Some v
    /\ fge v fzero = true.
Proof.
  assert (Hnonneg : nonneg_counts typical) by (unfold nonneg_counts; simpl; lia).
  destruct (calculate_cost_correct typical Hnonneg) as (Hformula & Hge & Hdef & _).
  destruct Hdef as [v Hv]; [unfold counts_below, COUNT_BOUND; simpl; lia|].
  exists v. split; [exact Hv|]. split; [rewrite <- Hformula; exact Hv|].
  apply Hge. exact Hv.
Defined.

(** The cost of the example record is [0.201]. *)
Example calculate_cost_typical :
  calculate_cost typical = Some (decimal 201 3).
Proof. vm_compute. reflexivity. Qed.

(** C1 as stated fails where a count is so large that
    [count / 1_000_000] is not a float: the division raises, and no cost
    is returned. *)
Lemma calculate_cost_overflow :
  nonneg_counts huge_input
  /\ ~ (exists v, calculate_cost huge_input = Some v /\ fge v fzero = true).
Proof.
  split.
  - unfold nonneg_counts. simpl. lia.
  - intros [v [Hv _]]. vm_compute in Hv. discriminate.
Qed.

(** ** Dictionaries *)

Section DictFacts.
Context {V : Type}.
Implicit Types (d : dict V) (k : string) (v : V).

Lemma dict_get_set_same k v d : dict_get k (dict_set k v d) = Some v.
Proof.
  induction d as [|[k' v'] d IH]; simpl.
  - rewrite String.eqb_refl. reflexivity.
  - destruct (String.eqb k k') eqn:E; simpl.
    + rewrite String.eqb_refl. reflexivity.
    + rewrite E. exact IH.
Qed.

Lemma dict_get_set_other k k' v d : k' <> k ->
  dict_get k' (dict_set k v d) = dict_get k' d.
Proof.
  intros Hne. induction d as [|[k0 v0] d IH]; simpl.
  - apply String.eqb_neq in Hne. rewrite Hne. reflexivity.
  - destruct (String.eqb k k0) eqn:E; simpl.
    + apply String.eqb_eq in E. subst k0.
      apply String.eqb_neq in Hne. rewrite Hne. reflexivity.
    + destruct (String.eqb k' k0); [reflexivity|exact IH].
Qed.

Lemma dict_get_adjust_same k (f : V -> V) d :
  dict_get k (dict_adjust k f d) = option_map f (dict_get k d).
Proof.
  induction d as [|[k' v'] d IH]; simpl; [reflexivity|].
  destruct (String.eqb k k') eqn:E; simpl; rewrite E; [reflexivity|exact IH].
Qed.

Lemma dict_get_adjust_other k k' (f : V -> V) d : k' <> k ->
  dict_get k' (dict_adjust k f d) = dict_get k' d.
Proof.
  intros Hne. induction d as [|[k0 v0] d IH]; simpl; [reflexivity|].
  destruct (String.eqb k k0) eqn:E; simpl.
  - apply String.eqb_eq in E. subst k0.
    apply String.eqb_neq in Hne. rewrite Hne. reflexivity.
  - destruct (String.eqb k' k0); [reflexivity|exact IH].
Qed.

Lemma dict_keys_adjust k (f : V -> V) d :
  dict_keys (dict_adjust k f d) = dict_keys d.
Proof.
  unfold dict_keys. induction d as [|[k' v'] d IH]; simpl; [reflexivity|].
  destruct (String.eqb k k'); simpl; [reflexivity|]. rewrite IH. reflexivity.
Qed.

Lemma dict_get_In k d : dict_get k d <> None <-> In k (dict_keys d).
Proof.
  unfold dict_keys. induction d as [|[k' v'] d IH]; simpl.
  - split; [intros H; contradiction H; reflexivity|intros []].
  - destruct (String.eqb k k') eqn:E.
    + apply String.eqb_eq in E. subst. split; [auto|discriminate].
    + apply String.eqb_neq in E. rewrite IH. split; [auto|].
      intros [H|H]; [congruence|assumption].
Qed.

(** Setting a key that is present changes no key; setting a new one
    appends it. *)
Lemma dict_keys_set k v d :
  dict_keys (dict_set k v d) =
    if dict_mem k d then dict_keys d else dict_keys d ++ [k].
Proof.
  unfold dict_keys, dict_mem. induction d as [|[k' v'] d IH]; simpl; [reflexivity|].
  destruct (String.eqb k k') eqn:E; simpl.
  - apply String.eqb_eq in E. subst. reflexivity.
  - rewrite IH. destruct (dict_get k d); reflexivity.
Qed.

Lemma dict_keys_set_NoDup k v d :
  NoDup (dict_keys d) -> NoDup (dict_keys (dict_set k v d)).
Proof.
  intros Hnd. rewrite dict_keys_set. unfold dict_mem.
  destruct (dict_get k d) eqn:E; [assumption|].
  assert (Hn : ~ In k (dict_keys d)).
  { intros Hin. apply dict_get_In in Hin. congruence. }
  clear E. induction (dict_keys d) as [|a l IH]; simpl.
  - constructor; [intros []|constructor].
  - inversion Hnd; subst. constructor.
    + rewrite in_app_iff. simpl. intros [H|[H|[]]]; [contradiction|].
      subst. apply Hn. left. reflexivity.
    + apply IH; [assumption|]. intros H. apply Hn. right. exact H.
Qed.

(** The effect of an update on the sum of a field over the values. *)
Lemma zsum_dict_set (f : V -> Z) k v d :
  zsum (map f (dict_values (dict_set k v d))) =
    zsum (map f (dict_values d)) + f v
    - match dict_get k d with Some o => f o | None => 0 end.
Proof.
  unfold dict_values. induction d as [|[k' v'] d IH]; simpl; [lia|].
  destruct (String.eqb k k'); simpl; [lia|]. rewrite IH. lia.
Qed.
End DictFacts.

(** ** Sums and traversals *)

Lemma fold_left_add_zsum l : forall a, fold_left Z.add l a = a + zsum l.
Proof.
  induction l as [|x l IH]; intros a; simpl; [lia|]. rewrite IH. lia.
Qed.

(** The builtin [sum] over ints is the sum of the list. *)
Lemma isum_zsum l : isum l = zsum l.
Proof. unfold isum. rewrite fold_left_add_zsum. lia. Qed.

Lemma traverse_length {A B} (f : A -> option B) l bs :
  traverse f l = Some bs -> List.length bs = List.length l.
Proof.
  revert bs. induction l as [|a l IH]; simpl; intros bs H.
  - inversion H. reflexivity.
  - destruct (f a); simpl in H; [|discriminate].
    destruct (traverse f l); simpl in H; [|discriminate].
    inversion H. simpl. f_equal. apply IH. reflexivity.
Qed.

Lemma traverse_none {A B} (f : A -> option B) l :
  traverse f l = None <-> exists a, In a l /\ f a = None.
Proof.
  induction l as [|a l IH]; simpl.
  - split; [discriminate|intros [a [[] _]]].
  - destruct (f a) eqn:E; simpl.
    + destruct (traverse f l) eqn:T; simpl.
      * split; [discriminate|]. intros [a' [[H|H] Hf]]; [congruence|].
        assert (Hn : Some l0 = None) by (apply (proj2 IH); exists a'; split; assumption).
        discriminate.
      * split; [|reflexivity]. intros _.
        destruct (proj1 IH eq_refl) as [a' [Hin Hf]]. exists a'.
        split; [right|]; assumption.
    + split; [|reflexivity]. intros _. exists a. split; [left; reflexivity|assumption].
Qed.

Lemma traverse_filter {A B} (f : A -> option B) (p : A -> bool) l bs :
  traverse f l = Some bs -> exists bs', traverse f (filter p l) = Some bs'.
Proof.
  revert bs. induction l as [|a l IH]; simpl; intros bs H.
  - eexists. reflexivity.
  - destruct (f a) eqn:E; simpl in H; [|discriminate].
    destruct (traverse f l) eqn:T; simpl in H; [|discriminate].
    destruct (IH _ eq_refl) as [bs' Hbs'].
    destruct (p a); simpl; [rewrite E, Hbs'; simpl|]; eexists; eauto.
Qed.

(** ** [get_summary_stats] *)

Lemma len_cons {A} (a : A) l : len (a :: l) = 1 + len l.
Proof. unfold len. simpl List.length. lia. Qed.

Lemma len_nil {A} : len (@nil A) = 0.
Proof. reflexivity. Qed.

(** The tally after a run of records, field by field. *)
Lemma tally_onto_spec rs : forall st,
  tally_onto st rs =
    (costs <- traverse calculate_cost rs ;;
     Some (mkModelStats
             (requests st + len rs)
             (m_input_tokens st + zsum (map input_tokens rs))
             (m_output_tokens st + zsum (map output_tokens rs))
             (m_cache_creation_input_tokens st
              + zsum (map cache_creation_input_tokens rs))
             (m_cache_read_input_tokens st + zsum (map cache_read_input_tokens rs))
             (fold_left fadd costs (cost st)))).
Proof.
  induction rs as [|r rs IH]; intros st.
  - destruct st. cbn [tally_onto traverse bind map zsum fold_left].
    rewrite len_nil. simpl. rewrite !Z.add_0_r. reflexivity.
  - cbn [tally_onto traverse map zsum].
    destruct (calculate_cost r) as [c|]; cbn [bind]; [|reflexivity].
    rewrite IH. destruct (traverse calculate_cost rs) as [cs|]; cbn [bind];
      [|reflexivity].
    rewrite len_cons. cbn [add_record requests m_input_tokens m_output_tokens
      m_cache_creation_input_tokens m_cache_read_input_tokens cost fold_left].
    f_equal. f_equal; lia.
Qed.

Lemma tally_onto_new rs : tally_onto new_model_stats rs = model_tally rs.
Proof.
  rewrite tally_onto_spec. unfold model_tally, new_model_stats, left_sum.
  destruct (traverse calculate_cost rs); reflexivity.
Qed.

Lemma by_model_cons_same r data :
  by_model (model r) (r :: data) = r :: by_model (model r) data.
Proof. unfold by_model. simpl. rewrite String.eqb_refl. reflexivity. Qed.

Lemma by_model_cons_other m r data : m <> model r ->
  by_model m (r :: data) = by_model m data.
Proof.
  intros Hne. unfold by_model. simpl.
  destruct (String.eqb (model r) m) eqn:E; [|reflexivity].
  apply String.eqb_eq in E. congruence.
Qed.

(** What the loop leaves under each key. *)
Lemma count_entries_get data : forall d0 d, count_entries d0 data = Some d ->
  forall m,
    dict_get m d =
      match dict_get m d0 with
      | Some st => tally_onto st (by_model m data)
      | None =>
          match by_model m data with
          | [] => None
          | rs => tally_onto new_model_stats rs
          end
      end.
Proof.
  induction data as [|r data IH]; intros d0 d H m.
  - simpl in H. inversion H; subst d. unfold by_model. simpl.
    destruct (dict_get m d0); reflexivity.
  - cbn [count_entries] in H. unfold count_entry in H.
    destruct (calculate_cost r) as [c|] eqn:Ec; cbn [bind] in H; [|discriminate].
    rewrite (IH _ _ H m).
    destruct (string_dec m (model r)) as [->|Hne].
    + rewrite dict_get_set_same, by_model_cons_same.
      cbn [tally_onto]. rewrite Ec. cbn [bind].
      destruct (dict_get (model r) d0); reflexivity.
    + rewrite dict_get_set_other by assumption.
      rewrite by_model_cons_other by assumption. reflexivity.
Qed.

Lemma count_entries_defined data : forall d0,
  count_entries d0 data = None <-> traverse calculate_cost data = None.
Proof.
  induction data as [|r data IH]; intros d0; cbn [count_entries traverse].
  - split; discriminate.
  - unfold count_entry. destruct (calculate_cost r) as [c|]; cbn [bind];
      [|split; reflexivity].
    rewrite IH. destruct (traverse calculate_cost data); cbn [bind];
      split; congruence.
Qed.

Lemma count_entries_NoDup data : forall d0 d, count_entries d0 data = Some d ->
  NoDup (dict_keys d0) -> NoDup (dict_keys d).
Proof.
  induction data as [|r data IH]; intros d0 d H Hnd; cbn [count_entries] in H.
  - inversion H; subst. assumption.
  - unfold count_entry in H.
    destruct (calculate_cost r) as [c|]; cbn [bind] in H; [|discriminate].
    eapply IH; [exact H|]. apply dict_keys_set_NoDup. assumption.
Qed.

(** The sum of an integer field over the tallies grows, with each record,
    by what the record adds. *)
Section FieldSum.
Variable fm : ModelStats -> Z.
Variable fr : UsageRecord -> Z.
Hypothesis fm_new : fm new_model_stats = 0.
Hypothesis fm_add : forall st r c, fm (add_record st r c) = fm st + fr r.

Lemma count_entries_zsum data : forall d0 d, count_entries d0 data = Some d ->
  zsum (map fm (dict_values d)) = zsum (map fm (dict_values d0)) + zsum (map fr data).
Proof.
  induction data as [|r data IH]; intros d0 d H; cbn [count_entries] in H.
  - inversion H; subst. simpl. lia.
  - unfold count_entry in H.
    destruct (calculate_cost r) as [c|]; cbn [bind] in H; [|discriminate].
    rewrite (IH _ _ H). rewrite zsum_dict_set, fm_add. cbn [map zsum].
    destruct (dict_get (model r) d0); [lia|]. rewrite fm_new. lia.
Qed.
End FieldSum.

(** [get_summary_stats] on a non-empty list, in one equation. *)
Lemma summarize_cons alg r data :
  summarize alg (r :: data) =
    (costs <- traverse calculate_cost (r :: data) ;;
     models <- count_entries [] (r :: data) ;;
     Some (mkSummary (len (r :: data))
             (isum (map input_tokens (r :: data)))
             (isum (map output_tokens (r :: data)))
             (isum (map cache_creation_input_tokens (r :: data)))
             (isum (map cache_read_input_tokens (r :: data)))
             (py_sum alg costs) models)).
Proof. reflexivity. Qed.

(** With no explicit subset, the summary is that of the whole
    collection. *)
Lemma get_summary_stats_default alg usage_data :
  get_summary_stats alg usage_data None = summarize alg usage_data.
Proof. reflexivity. Qed.

Lemma by_model_nil_iff m data :
  by_model m data = [] <-> ~ exists r, In r data /\ model r = m.
Proof.
  unfold by_model. split.
  - intros H [r [Hin Hm]].
    assert (Hf : In r (filter (fun r => String.eqb (model r) m) data)).
    { apply filter_In. split; [assumption|]. apply String.eqb_eq. assumption. }
    rewrite H in Hf. destruct Hf.
  - intros H. destruct (filter _ data) as [|r l] eqn:E; [reflexivity|].
    exfalso. apply H. exists r.
    assert (Hf : In r (filter (fun r => String.eqb (model r) m) data))
      by (rewrite E; left; reflexivity).
    apply filter_In in Hf. destruct Hf as [Hin Hm]. apply String.eqb_eq in Hm. auto.
Qed.

(** The two outcomes of [summarize]. *)
Lemma summarize_some alg data costs : traverse calculate_cost data = Some costs ->
  exists d,
    count_entries [] data = Some d
    /\ summarize alg data =
         Some (mkSummary (len data)
                 (zsum (map input_tokens data)) (zsum (map output_tokens data))
                 (zsum (map cache_creation_input_tokens data))
                 (zsum (map cache_read_input_tokens data))
                 (py_sum alg costs) d).
Proof.
  intros Ec. destruct data as [|r data].
  - cbn [traverse] in Ec. inversion Ec; subst. exists []. split; reflexivity.
  - rewrite summarize_cons, Ec. cbn [bind].
    destruct (count_entries [] (r :: data)) as [d|] eqn:Ed.
    2:{ apply count_entries_defined in Ed. congruence. }
    cbn [bind]. exists d. split; [reflexivity|]. rewrite !isum_zsum. reflexivity.
Qed.

Lemma summarize_none alg data : traverse calculate_cost data = None ->
  summarize alg data = None.
Proof.
  intros Ec. destruct data as [|r data]; [discriminate|].
  rewrite summarize_cons, Ec. reflexivity.
Qed.

(** C2, as the code has it.  The summary of the empty list is all zeros
    with no model.  [summarize data] raises exactly when [calculate_cost]
    raises on a record of [data]; otherwise its request count is the
    length of the list, its four token totals and its cost are the sums
    of the corresponding values over the list, and its per-model map has,
    under each model that occurs and under no other key, the request
    count, the four token sums and the cost of the records of that
    model.  With no explicit subset the summary is that of the whole
    collection. *)
Theorem summarize_correct (alg : sum_algorithm) (data : list UsageRecord) :
  summarize alg [] = Some (mkSummary 0 0 0 0 0 fzero [])
  /\ get_summary_stats alg data None = summarize alg data
  /\ match traverse calculate_cost data with
     | None => summarize alg data = None
     | Some costs =>
         exists s,
           summarize alg data = Some s
           /\ total_requests s = len data
           /\ total_input s = zsum (map input_tokens data)
           /\ total_output s = zsum (map output_tokens data)
           /\ total_cache_creation s = zsum (map cache_creation_input_tokens data)
           /\ total_cache_read s = zsum (map cache_read_input_tokens data)
           /\ total_cost s = py_sum alg costs
           /\ NoDup (dict_keys (models s))
           /\ (forall m, In m (dict_keys (models s)) <->
                         exists r, In r data /\ model r = m)
           /\ (forall m, dict_get m (models s) =
                           match by_model m data with
                           | [] => None
                           | rs => model_tally rs
                           end)
     end.
Proof.
  split; [reflexivity|]. split; [reflexivity|].
  destruct (traverse calculate_cost data) as [costs|] eqn:Ec;
    [|apply summarize_none; assumption].
  destruct (summarize_some alg data costs Ec) as (d & Ed & Hs).
  eexists. split; [exact Hs|].
  cbn [total_requests total_input total_output total_cache_creation
       total_cache_read total_cost models].
  assert (Hget : forall m, dict_get m d =
                   match by_model m data with
                   | [] => None
                   | rs => model_tally rs
                   end).
  { intros m. rewrite (count_entries_get _ _ _ Ed m). cbn [dict_get].
    destruct (by_model m data) eqn:E; [reflexivity|]. apply tally_onto_new. }
  repeat split; try reflexivity.
  - eapply count_entries_NoDup; [exact Ed|constructor].
  - intros Hin. apply dict_get_In in Hin. rewrite Hget in Hin.
    destruct (by_model m data) as [|u rs] eqn:E; [contradiction Hin; reflexivity|].
    assert (Hu : In u (by_model m data)) by (rewrite E; left; reflexivity).
    apply filter_In in Hu. destruct Hu as [Hu Hm]. apply String.eqb_eq in Hm.
    exists u. split; assumption.
  - intros Hex. apply dict_get_In. rewrite Hget.
    destruct (by_model m data) eqn:E.
    + apply by_model_nil_iff in E. contradiction.
    + rewrite <- E. unfold model_tally, by_model.
      destruct (traverse_filter calculate_cost
                  (fun r => String.eqb (model r) m) _ _ Ec) as [bs' ->].
      discriminate.
  - exact Hget.
Qed.

(** Two records of an unknown model with 500000 input tokens each: one
    million input tokens in total, at the fallback rate, [3.0]. *)
Example summarize_unknown_model :
  let r := usage "unknown" "2025-01-01T10:00:00Z" 500000 0 0 0 in
  let r' := usage "unknown" "2025-01-01T10:30:00Z" 500000 0 0 0 in
  option_map (fun s => (total_requests s, total_input s, total_cost s))
    (summarize LeftToRight [r; r'])
  = Some (2, 1000000, decimal 30 1).
Proof. vm_compute. reflexivity. Qed.

(** C2 as stated fails on a list with a record whose cost cannot be
    computed: the list has one record, and [summarize] raises instead of
    returning a request count of 1. *)
Lemma summarize_overflow :
  len [huge_input] = 1
  /\ nonneg_counts huge_input
  /\ summarize LeftToRight [huge_input] = None
  /\ summarize Compensated [huge_input] = None
  /\ ~ (exists s, summarize LeftToRight [huge_input] = Some s
                  /\ total_requests s = len [huge_input]).
Proof.
  split; [reflexivity|]. split; [unfold nonneg_counts; simpl; lia|].
  split; [vm_compute; reflexivity|]. split; [vm_compute; reflexivity|].
  intros [s [Hs _]]. vm_compute in Hs. discriminate.
Qed.

(** ** Additivity of the summary *)

Lemma summarize_single alg r :
  summarize alg [r] =
    (c <- calculate_cost r ;;
     Some (mkSummary 1 (input_tokens r) (output_tokens r)
             (cache_creation_input_tokens r) (cache_read_input_tokens r)
             (fadd of_int_zero c)
             [(model r, add_record new_model_stats r c)])).
Proof.
  rewrite summarize_cons. cbn [traverse count_entries]. unfold count_entry.
  destruct (calculate_cost r) as [c|]; [destruct alg|]; reflexivity.
Qed.

Lemma zsum_ones {A} (l : list A) : zsum (map (fun _ => 1) l) = len l.
Proof.
  induction l as [|a l IH]; [reflexivity|]. cbn [map zsum]. rewrite len_cons, IH. lia.
Qed.

(** The one-record summaries carry the fields and the cost of their
    record. *)
Lemma singletons_spec alg data : Forall nonneg_counts data ->
  match traverse calculate_cost data with
  | None => singletons alg data = None
  | Some costs =>
      exists singles,
        singletons alg data = Some singles
        /\ map total_requests singles = map (fun _ => 1) data
        /\ map total_input singles = map input_tokens data
        /\ map total_output singles = map output_tokens data
        /\ map total_cache_creation singles = map cache_creation_input_tokens data
        /\ map total_cache_read singles = map cache_read_input_tokens data
        /\ map total_cost singles = costs
  end.
Proof.
  unfold singletons. induction 1 as [|r data Hr Hdata IH]; cbn [traverse].
  - exists []. repeat split; reflexivity.
  - rewrite summarize_single.
    destruct (calculate_cost r) as [c|] eqn:Ec; cbn [bind]; [|reflexivity].
    destruct (traverse calculate_cost data) as [costs|]; cbn [bind].
    + destruct IH as (singles & -> & H1 & H2 & H3 & H4 & H5 & H6). cbn [bind].
      eexists. split; [reflexivity|]. cbn [map total_requests total_input
        total_output total_cache_creation total_cache_read total_cost].
      rewrite H1, H2, H3, H4, H5, H6.
      rewrite fadd_zero_l by (eapply calculate_cost_nonneg; eassumption).
      repeat split; reflexivity.
    + rewrite IH. reflexivity.
Qed.

(** C7.  For records with non-negative counts, [summarize data] raises
    exactly when the summary of some one-record list [[r]] does;
    otherwise each of its totals (request count, the four token totals,
    the cost) is the [sum], over the records in order, of the same total
    of [summarize [r]]. *)
Theorem summarize_additive (alg : sum_algorithm) (data : list UsageRecord)
    (Hnonneg : Forall nonneg_counts data) :
  match singletons alg data with
  | None => summarize alg data = None
  | Some singles =>
      exists s,
        summarize alg data = Some s
        /\ total_requests s = isum (map total_requests singles)
        /\ total_input s = isum (map total_input singles)
        /\ total_output s = isum (map total_output singles)
        /\ total_cache_creation s = isum (map total_cache_creation singles)
        /\ total_cache_read s = isum (map total_cache_read singles)
        /\ total_cost s = py_sum alg (map total_cost singles)
  end.
Proof.
  pose proof (singletons_spec alg data Hnonneg) as H.
  destruct (traverse calculate_cost data) as [costs|] eqn:Ec.
  - destruct H as (singles & -> & H1 & H2 & H3 & H4 & H5 & H6).
    destruct (summarize_some alg data costs Ec) as (d & _ & Hs).
    eexists. split; [exact Hs|].
    cbn [total_requests total_input total_output total_cache_creation
         total_cache_read total_cost].
    rewrite !isum_zsum, H1, H2, H3, H4, H5, H6, zsum_ones.
    repeat split; reflexivity.
  - rewrite H. apply summarize_none. assumption.
Qed.

Lemma summarize_additive_witness :
  match singletons Compensated mixed_models with
  | None => summarize Compensated mixed_models = None
  | Some singles =>
      exists s,
        summarize Compensated mixed_models = Some s
        /\ total_requests s = isum (map total_requests singles)
        /\ total_input s = isum (map total_input singles)
        /\ total_output s = isum (map total_output singles)
        /\ total_cache_creation s = isum (map total_cache_creation singles)
        /\ total_cache_read s = isum (map total_cache_read singles)
        /\ total_cost s = py_sum Compensated (map total_cost singles)
  end.
Proof.
  apply (summarize_additive Compensated mixed_models).
  repeat constructor; simpl; lia.
Defined.

(** C10 as stated fails on the cost: float addition is not associative, so
    adding the per-model costs need not give [total_cost].  Here the
    costs are 0.0003, 0.003 and 0.0009 (rounded); their sum in list order
    is 0.0042 with either algorithm of [sum], the sum of the two per-model
    costs is 0.004200000000000001. *)
Lemma per_model_cost_rounding :
  (exists s,
      summarize LeftToRight mixed_models = Some s
      /\ py_sum LeftToRight (map cost (dict_values (models s))) <> total_cost s
      /\ feq (py_sum LeftToRight (map cost (dict_values (models s))))
             (total_cost s) = false)
  /\ (exists s,
         summarize Compensated mixed_models = Some s
         /\ py_sum Compensated (map cost (dict_values (models s))) <> total_cost s
         /\ feq (py_sum Compensated (map cost (dict_values (models s))))
                (total_cost s) = false).
Proof.
  split; exists mixed_summary;
    (split; [vm_compute; reflexivity|]);
    (split; [vm_compute; discriminate|vm_compute; reflexivity]).
Qed.

(** ** [get_recent_activity] *)

Section StringOrder.

Lemma ascii_compare_lt_trans x y z :
  Ascii.compare x y = Lt -> Ascii.compare y z = Lt -> Ascii.compare x z = Lt.
Proof.
  unfold Ascii.compare. rewrite !N.compare_lt_iff. lia.
Qed.

Lemma string_compare_trans a : forall b c,
  String.compare a b <> Gt -> String.compare b c <> Gt -> String.compare a c <> Gt.
Proof.
  induction a as [|x a IH]; intros [|y b] [|z c]; simpl; try congruence.
  destruct (Ascii.compare x y) eqn:Exy; try congruence;
    destruct (Ascii.compare y z) eqn:Eyz; try congruence.
  - apply Ascii.compare_eq_iff in Exy. subst y. rewrite Eyz. apply IH.
  - apply Ascii.compare_eq_iff in Exy. subst y. rewrite Eyz. congruence.
  - apply Ascii.compare_eq_iff in Eyz. subst z. rewrite Exy. congruence.
  - rewrite (ascii_compare_lt_trans x y z Exy Eyz). congruence.
Qed.

Lemma leb_trans a b c :
  String.leb a b = true -> String.leb b c = true -> String.leb a c = true.
Proof.
  unfold String.leb. intros Hab Hbc.
  pose proof (string_compare_trans a b c) as H.
  destruct (String.compare a b); try discriminate;
    destruct (String.compare b c); try discriminate;
    destruct (String.compare a c); try reflexivity;
    exfalso; apply H; congruence.
Qed.

Lemma string_compare_refl a : String.compare a a = Eq.
Proof.
  induction a as [|x a IH]; simpl; [reflexivity|].
  unfold Ascii.compare. rewrite N.compare_refl. exact IH.
Qed.

Lemma ltb_irrefl a : String.ltb a a = false.
Proof. unfold String.ltb. rewrite string_compare_refl. reflexivity. Qed.

(** [not (a < b)] is [b <= a]. *)
Lemma ltb_false_leb a b : String.ltb a b = false -> String.leb b a = true.
Proof.
  unfold String.ltb, String.leb. rewrite (String.compare_antisym b a).
  destruct (String.compare a b); simpl; congruence.
Qed.

Lemma ltb_true_leb a b : String.ltb a b = true -> String.leb a b = true.
Proof.
  unfold String.ltb, String.leb. destruct (String.compare a b); congruence.
Qed.

End StringOrder.

Section SortedDesc.
Context {A : Type}.
Variable key : A -> string.

Let ge (a b : A) : Prop := String.leb (key b) (key a) = true.

Lemma insert_desc_perm x l : Permutation (insert_desc key x l) (x :: l).
Proof.
  induction l as [|y l IH]; simpl; [reflexivity|].
  destruct (String.ltb (key x) (key y)); [|reflexivity].
  rewrite IH. apply perm_swap.
Qed.

Lemma sorted_desc_perm l : Permutation (sorted_desc key l) l.
Proof.
  induction l as [|x l IH]; simpl; [reflexivity|].
  rewrite insert_desc_perm. constructor. exact IH.
Qed.

Lemma insert_desc_sorted x l :
  StronglySorted ge l -> StronglySorted ge (insert_desc key x l).
Proof.
  induction 1 as [|y l Hl IH Hy]; simpl.
  - constructor; constructor.
  - destruct (String.ltb (key x) (key y)) eqn:E.
    + constructor; [exact IH|].
      apply Forall_forall. intros z Hz.
      apply (Permutation_in _ (insert_desc_perm x l)) in Hz.
      destruct Hz as [<-|Hz].
      * apply ltb_true_leb. exact E.
      * rewrite Forall_forall in Hy. apply Hy. exact Hz.
    + apply ltb_false_leb in E.
      constructor; [constructor; assumption|].
      constructor; [exact E|].
      apply Forall_forall. intros z Hz. rewrite Forall_forall in Hy.
      unfold ge. apply leb_trans with (key y); [apply Hy; exact Hz|exact E].
Qed.

Lemma sorted_desc_sorted l : StronglySorted ge (sorted_desc key l).
Proof.
  induction l as [|x l IH]; simpl; [constructor|].
  apply insert_desc_sorted. exact IH.
Qed.

(** The sort is stable: the records of one key keep their order. *)
Lemma insert_desc_filter k x l :
  filter (fun y => String.eqb (key y) k) (insert_desc key x l)
  = filter (fun y => String.eqb (key y) k) (x :: l).
Proof.
  induction l as [|y l IH]; [reflexivity|].
  cbn [insert_desc]. destruct (String.ltb (key x) (key y)) eqn:E; [|reflexivity].
  cbn [filter] in *. rewrite IH.
  destruct (String.eqb (key x) k) eqn:Ex, (String.eqb (key y) k) eqn:Ey;
    try reflexivity.
  apply String.eqb_eq in Ex, Ey. rewrite Ex, Ey, ltb_irrefl in E. discriminate.
Qed.

Lemma sorted_desc_stable k l :
  filter (fun y => String.eqb (key y) k) (sorted_desc key l)
  = filter (fun y => String.eqb (key y) k) l.
Proof.
  induction l as [|x l IH]; [reflexivity|].
  cbn [sorted_desc fold_right]. rewrite insert_desc_filter.
  cbn [filter]. fold (sorted_desc key l). rewrite IH. reflexivity.
Qed.

Lemma firstn_In (x : A) n l : In x (firstn n l) -> In x l.
Proof.
  intros H. rewrite <- (firstn_skipn n l). apply in_or_app. left. exact H.
Qed.

Lemma firstn_sorted n : forall l,
  StronglySorted ge l -> StronglySorted ge (firstn n l).
Proof.
  induction n as [|n IH]; intros l Hl; [constructor|].
  destruct Hl as [|y l Hl Hy]; simpl; [constructor|].
  constructor; [apply IH; exact Hl|].
  apply Forall_forall. intros z Hz. rewrite Forall_forall in Hy.
  apply Hy. apply (firstn_In z n l Hz).
Qed.
End SortedDesc.

(** C9.  For a limit [n >= 0], [get_recent_activity] returns at most [n]
    records, in descending lexicographic order of their timestamp
    strings, and they are records of the collection: with some rest they
    are a permutation of it.  They are the first [n] of the collection
    sorted. *)
Theorem recent_activity_correct (usage_data : list UsageRecord) (n : Z)
    (Hn : 0 <= n) :
  let out := get_recent_activity usage_data n in
  len out <= n
  /\ len out = Z.min n (len usage_data)
  /\ StronglySorted ts_ge out
  /\ (exists rest, Permutation (out ++ rest) usage_data)
  /\ out = firstn (Z.to_nat n) (sorted_desc timestamp usage_data)
  /\ Permutation (sorted_desc timestamp usage_data) usage_data.
Proof.
  unfold get_recent_activity, slice_to.
  assert (Hle : (0 <=? n) = true) by (apply Z.leb_le; assumption).
  rewrite Hle. cbv zeta.
  pose proof (sorted_desc_perm timestamp usage_data) as Hperm.
  assert (Hlen : len (firstn (Z.to_nat n) (sorted_desc timestamp usage_data))
                 = Z.min n (len usage_data)).
  { unfold len. rewrite length_firstn. rewrite (Permutation_length Hperm). lia. }
  split; [rewrite Hlen; lia|]. split; [exact Hlen|]. split.
  - apply firstn_sorted. apply sorted_desc_sorted.
  - split; [|split; [reflexivity|exact Hperm]].
    exists (skipn (Z.to_nat n) (sorted_desc timestamp usage_data)).
    rewrite firstn_skipn. exact Hperm.
Qed.

Lemma recent_activity_correct_witness :
  let out := get_recent_activity mixed_models 2 in
  len out <= 2
  /\ len out = Z.min 2 (len mixed_models)
  /\ StronglySorted ts_ge out
  /\ (exists rest, Permutation (out ++ rest) mixed_models)
  /\ out = firstn (Z.to_nat 2) (sorted_desc timestamp mixed_models)
  /\ Permutation (sorted_desc timestamp mixed_models) mixed_models.
Proof.
  apply (recent_activity_correct mixed_models 2). lia.
Defined.

(** The two latest of the three example records, latest first. *)
Example recent_activity_two :
  map timestamp (get_recent_activity mixed_models 2)
  = ["2025-01-01T10:20:00Z"; "2025-01-01T10:10:00Z"].
Proof. reflexivity. Qed.

(** ** [get_today_data] *)

Lemma length_append s1 s2 :
  String.length (s1 ++ s2) = (String.length s1 + String.length s2)%nat.
Proof. induction s1 as [|c s1 IH]; simpl; [reflexivity|]. rewrite IH. reflexivity. Qed.

Lemma length_pad_digits w : forall n, String.length (pad_digits w n) = w.
Proof.
  induction w as [|w IH]; intros n; simpl; [reflexivity|].
  rewrite length_append, IH. simpl. lia.
Qed.

Lemma length_isoformat d : String.length (isoformat d) = 10%nat.
Proof.
  unfold isoformat. rewrite !length_append, !length_pad_digits. reflexivity.
Qed.

Lemma prefix_isoformat d ts :
  String.prefix (isoformat d) ts = true <-> date_prefix ts = isoformat d.
Proof.
  rewrite String.prefix_correct, length_isoformat. reflexivity.
Qed.

(** C8.  [get_today_data] returns, in their order, exactly the records of
    the collection whose timestamp string starts with the ISO form of the
    caller's local date: those whose first ten characters are that date.
    No time zone enters, so a record stamped 23:30 UTC on the first of
    January, which two hours east of UTC is the second, is among those of
    the first and not of the second.  The empty collection gives the empty
    list. *)
Theorem today_slice (today : date) (usage_data : list UsageRecord) :
  get_today_data today usage_data
  = filter (fun r => String.eqb (date_prefix (timestamp r)) (isoformat today))
           usage_data
  /\ (forall r, In r (get_today_data today usage_data) <->
                In r usage_data /\ date_prefix (timestamp r) = isoformat today)
  /\ get_today_data today [] = []
  /\ (exists local_dt,
        get_local_datetime ExampleClock.fromisoformat two_hours_east
          (timestamp late_evening) = Some local_dt
        /\ ExampleClock.wall_of 2025 1 2 0 0 0 <= wall local_dt
        /\ get_today_data (mkDate 2025 1 1) [late_evening] = [late_evening]
        /\ get_today_data (mkDate 2025 1 2) [late_evening] = []).
Proof.
  assert (Hf : forall r,
             String.prefix (isoformat today) (timestamp r)
             = String.eqb (date_prefix (timestamp r)) (isoformat today)).
  { intros r. destruct (String.eqb _ _) eqn:E.
    - apply String.eqb_eq in E. apply prefix_isoformat. exact E.
    - apply String.eqb_neq in E.
      destruct (String.prefix _ _) eqn:P; [|reflexivity].
      apply prefix_isoformat in P. contradiction. }
  split; [|split; [|split]].
  - unfold get_today_data. apply filter_ext. exact Hf.
  - intros r. unfold get_today_data. rewrite filter_In, prefix_isoformat. reflexivity.
  - reflexivity.
  - eexists. split; [vm_compute; reflexivity|].
    split; [vm_compute; discriminate|]. split; reflexivity.
Qed.

(** ** Dates and times *)

Lemma valid_datetimeb_spec t : valid_datetimeb t = true <-> valid_datetime t.
Proof.
  unfold valid_datetimeb, valid_datetime.
  rewrite andb_true_iff, Z.leb_le, Z.ltb_lt. reflexivity.
Qed.

Lemma dt_add_valid t d : valid_datetime (t + d) -> dt_add t d = Some (t + d).
Proof.
  intros H. unfold dt_add. apply valid_datetimeb_spec in H. rewrite H. reflexivity.
Qed.

Lemma dt_sub_valid t d : valid_datetime (t - d) -> dt_sub t d = Some (t - d).
Proof.
  intros H. unfold dt_sub. apply valid_datetimeb_spec in H. rewrite H. reflexivity.
Qed.

(** The difference of two datetimes is a timedelta. *)
Lemma mk_timedelta_between a b : valid_datetime a -> valid_datetime b ->
  mk_timedelta (a - b) = Some (a - b).
Proof.
  unfold valid_datetime, mk_timedelta, MAX_ORDINAL, MAX_DELTA_DAYS, US_PER_DAY.
  intros Ha Hb.
  pose proof (Z.div_mod (a - b) 86400000000 ltac:(lia)) as Hdm.
  pose proof (Z.mod_pos_bound (a - b) 86400000000 ltac:(lia)) as Hr.
  destruct (_ && _) eqn:E; [reflexivity|].
  apply andb_false_iff in E. rewrite !Z.leb_gt in E. lia.
Qed.

Lemma timedelta_minutes_small i : 0 <= i < 6 ->
  timedelta_minutes (i * 10) = Some (i * TEN_MINUTES).
Proof.
  intros Hi. unfold timedelta_minutes, mk_timedelta, TEN_MINUTES,
    US_PER_MINUTE, US_PER_DAY, MAX_DELTA_DAYS.
  rewrite Z.div_small by lia. cbn [Z.opp Z.leb Z.compare andb]. f_equal. lia.
Qed.

Lemma timedelta_minutes_ten : timedelta_minutes 10 = Some TEN_MINUTES.
Proof. reflexivity. Qed.

(** ** [get_recent_trend] *)

Section Trend.
Variable fromisoformat : string -> option tz_datetime.
Variable astimezone : tz_datetime -> option tz_datetime.

Local Abbreviation inside := (in_window fromisoformat astimezone).
Local Abbreviation tokens_in := (window_tokens fromisoformat astimezone).
Local Abbreviation add_entry := (bucket_entry fromisoformat astimezone).
Local Abbreviation bucket := (trend_bucket fromisoformat astimezone).
Local Abbreviation trend := (get_recent_trend fromisoformat astimezone).

Lemma bucket_entry_spec lo hi acc r :
  add_entry lo hi acc r
  = acc + (if inside lo hi r then total_tokens r else 0).
Proof.
  unfold bucket_entry, in_window, local_naive.
  destruct (get_local_datetime fromisoformat astimezone (timestamp r)) as [lt|];
    simpl; [|lia].
  destruct ((lo <=? replace_tzinfo_none lt) && (replace_tzinfo_none lt <? hi)); lia.
Qed.

Lemma fold_bucket_entry lo hi data : forall acc,
  fold_left (add_entry lo hi) data acc = acc + tokens_in lo hi data.
Proof.
  unfold window_tokens.
  induction data as [|r data IH]; intros acc; cbn [fold_left filter].
  - simpl. lia.
  - rewrite IH, bucket_entry_spec.
    destruct (inside lo hi r); cbn [map zsum]; lia.
Qed.

(** Two adjacent windows add up to the window that spans them. *)
Lemma window_tokens_split lo mid hi data : lo <= mid <= hi ->
  tokens_in lo hi data = tokens_in lo mid data + tokens_in mid hi data.
Proof.
  intros Hm. unfold window_tokens.
  induction data as [|r data IH]; cbn [filter]; [reflexivity|].
  assert (Hr : (if inside lo hi r then total_tokens r else 0)
               = (if inside lo mid r then total_tokens r else 0)
                 + (if inside mid hi r then total_tokens r else 0)).
  { unfold in_window.
    destruct (local_naive fromisoformat astimezone (timestamp r)) as [t|]; [|lia].
    destruct (lo <=? t) eqn:E1, (t <? hi) eqn:E2, (t <? mid) eqn:E3,
      (mid <=? t) eqn:E4; simpl; try lia;
      rewrite ?Z.leb_le, ?Z.leb_gt, ?Z.ltb_lt, ?Z.ltb_ge in *; lia. }
  destruct (inside lo hi r), (inside lo mid r), (inside mid hi r);
    cbn [map zsum]; lia.
Qed.

Lemma trend_bucket_spec cutoff data i : 0 <= i < 6 ->
  valid_datetime cutoff -> valid_datetime (cutoff + 6 * TEN_MINUTES) ->
  bucket cutoff data i
  = Some (tokens_in (cutoff + i * TEN_MINUTES)
            (cutoff + (i + 1) * TEN_MINUTES) data).
Proof.
  intros Hi Hc He. unfold trend_bucket.
  rewrite timedelta_minutes_small by assumption. cbn [bind].
  rewrite dt_add_valid
    by (unfold valid_datetime, TEN_MINUTES, US_PER_MINUTE in *; lia).
  cbn [bind]. rewrite timedelta_minutes_ten. cbn [bind].
  rewrite dt_add_valid
    by (unfold valid_datetime, TEN_MINUTES, US_PER_MINUTE in *; lia).
  cbn [bind]. rewrite fold_bucket_entry. f_equal.
  replace (cutoff + i * TEN_MINUTES + TEN_MINUTES)
    with (cutoff + (i + 1) * TEN_MINUTES) by lia.
  lia.
Qed.

(** C5, as the code has it.  When [now - minutes] and the hour after it
    are datetimes, [get_recent_trend] returns six integers: in
    chronological order, the total tokens of the records whose parseable
    local time falls in each of the six consecutive ten-minute intervals
    [[start + 10 i, start + 10 (i + 1))] from [start = now - minutes].
    Their sum is the total tokens of the records whose local time is in
    [[start, start + 60 min)]; for [minutes = 60] that is
    [[now - 60 min, now)].  Records outside or with a timestamp that does
    not parse add nothing. *)
Theorem recent_trend_correct (now : datetime) (minutes : Z)
    (usage_data : list UsageRecord)
    (Hnow : valid_datetime now)
    (Hstart : valid_datetime (now - minutes * US_PER_MINUTE))
    (Hend : valid_datetime (now - minutes * US_PER_MINUTE + 6 * TEN_MINUTES)) :
  let start := now - minutes * US_PER_MINUTE in
  exists buckets,
    get_recent_trend fromisoformat astimezone now usage_data minutes = Some buckets
    /\ List.length buckets = 6%nat
    /\ buckets
       = map (fun i => window_tokens fromisoformat astimezone
                         (start + i * TEN_MINUTES)
                         (start + (i + 1) * TEN_MINUTES) usage_data)
             trend_indices
    /\ isum buckets
       = window_tokens fromisoformat astimezone start (start + 6 * TEN_MINUTES)
           usage_data
    /\ (minutes = 60 ->
        isum buckets
        = window_tokens fromisoformat astimezone (now - 60 * US_PER_MINUTE) now
            usage_data).
Proof.
  intros start.
  assert (Hrun : trend now usage_data minutes
                 = Some (map (fun i => tokens_in (start + i * TEN_MINUTES)
                                         (start + (i + 1) * TEN_MINUTES) usage_data)
                           trend_indices)).
  { unfold get_recent_trend, timedelta_minutes.
    replace (minutes * US_PER_MINUTE) with (now - start) by (subst start; lia).
    rewrite mk_timedelta_between by assumption. cbn [bind].
    rewrite dt_sub_valid
      by (replace (now - (now - start)) with start by lia; assumption).
    cbn [bind]. replace (now - (now - start)) with start by lia.
    unfold trend_indices. cbn [traverse].
    rewrite !trend_bucket_spec by (assumption || lia). reflexivity. }
  assert (Hsum : isum (map (fun i => tokens_in (start + i * TEN_MINUTES)
                                       (start + (i + 1) * TEN_MINUTES) usage_data)
                         trend_indices)
                 = tokens_in start (start + 6 * TEN_MINUTES) usage_data).
  { rewrite isum_zsum. cbn [trend_indices map zsum].
    assert (H10 : 0 <= TEN_MINUTES) by (unfold TEN_MINUTES, US_PER_MINUTE; lia).
    rewrite (window_tokens_split start (start + 1 * TEN_MINUTES)
               (start + 6 * TEN_MINUTES)) by lia.
    rewrite (window_tokens_split (start + 1 * TEN_MINUTES) (start + 2 * TEN_MINUTES)
               (start + 6 * TEN_MINUTES)) by lia.
    rewrite (window_tokens_split (start + 2 * TEN_MINUTES) (start + 3 * TEN_MINUTES)
               (start + 6 * TEN_MINUTES)) by lia.
    rewrite (window_tokens_split (start + 3 * TEN_MINUTES) (start + 4 * TEN_MINUTES)
               (start + 6 * TEN_MINUTES)) by lia.
    rewrite (window_tokens_split (start + 4 * TEN_MINUTES) (start + 5 * TEN_MINUTES)
               (start + 6 * TEN_MINUTES)) by lia.
    replace (start + 0 * TEN_MINUTES) with start by lia.
    simpl Z.add. lia. }
  eexists. split; [exact Hrun|]. split; [reflexivity|]. split; [reflexivity|].
  split; [exact Hsum|].
  intros H60. rewrite Hsum. subst start. subst minutes. f_equal.
  unfold TEN_MINUTES. lia.
Qed.
End Trend.

Lemma recent_trend_correct_witness :
  let start := noon - 90 * US_PER_MINUTE in
  exists buckets,
    get_recent_trend ExampleClock.fromisoformat ExampleClock.utc noon
      mixed_models 90 = Some buckets
    /\ List.length buckets = 6%nat
    /\ buckets
       = map (fun i => window_tokens ExampleClock.fromisoformat ExampleClock.utc
                         (start + i * TEN_MINUTES)
                         (start + (i + 1) * TEN_MINUTES) mixed_models)
             trend_indices
    /\ isum buckets
       = window_tokens ExampleClock.fromisoformat ExampleClock.utc
           start (start + 6 * TEN_MINUTES) mixed_models
    /\ (90 = 60 ->
        isum buckets
        = window_tokens ExampleClock.fromisoformat ExampleClock.utc
            (noon - 60 * US_PER_MINUTE) noon mixed_models).
Proof.
  apply (recent_trend_correct ExampleClock.fromisoformat ExampleClock.utc
           noon 90 mixed_models).
  - vm_compute. split; [discriminate|reflexivity].
  - vm_compute. split; [discriminate|reflexivity].
  - vm_compute. split; [discriminate|reflexivity].
Defined.

(** C5 as stated fails for a window other than 60 minutes.  At noon, with
    a window of 120 minutes, a record stamped 11:30 is inside the trailing
    window [[10:00, 12:00)], yet the six buckets cover [[10:00, 11:00)]
    only and their sum is 0. *)
Lemma recent_trend_two_hours :
  exists buckets,
    get_recent_trend ExampleClock.fromisoformat ExampleClock.utc noon
      [half_past_eleven] 120 = Some buckets
    /\ buckets = [0; 0; 0; 0; 0; 0]
    /\ window_tokens ExampleClock.fromisoformat ExampleClock.utc
         (noon - 120 * US_PER_MINUTE) noon [half_past_eleven] = 100
    /\ isum buckets
       <> window_tokens ExampleClock.fromisoformat ExampleClock.utc
            (noon - 120 * US_PER_MINUTE) noon [half_past_eleven].
Proof.
  eexists. split; [vm_compute; reflexivity|]. split; [reflexivity|].
  split; [vm_compute; reflexivity|]. vm_compute. discriminate.
Qed.

(** ** [get_hourly_usage] *)

Lemma known_costs_cons r rs :
  known_costs (r :: rs)
  = match calculate_cost r with
    | Some c => c :: known_costs rs
    | None => known_costs rs
    end.
Proof. unfold known_costs. cbn [flat_map]. destruct (calculate_cost r); reflexivity. Qed.

(** When every cost is computed, there are as many costs as records. *)
Lemma known_costs_all rs : Forall (fun r => calculate_cost r <> None) rs ->
  len (known_costs rs) = len rs.
Proof.
  induction 1 as [|r rs Hr Hrs IH]; [reflexivity|].
  rewrite known_costs_cons. destruct (calculate_cost r); [|contradiction Hr; reflexivity].
  rewrite !len_cons, IH. reflexivity.
Qed.

Lemma hour_tally_onto_spec rs : forall b,
  hour_tally_onto b rs =
    mkHourStats (h_tokens b + zsum (map total_tokens rs))
      (fold_left fadd (known_costs rs) (h_cost b))
      (h_requests b + len (known_costs rs)).
Proof.
  unfold hour_tally_onto.
  induction rs as [|r rs IH]; intros b; cbn [fold_left].
  - destruct b. cbn [map zsum known_costs flat_map fold_left h_tokens h_cost h_requests].
    unfold len. cbn [List.length Z.of_nat]. rewrite !Z.add_0_r. reflexivity.
  - rewrite IH, known_costs_cons. cbn [map zsum]. unfold add_hour.
    destruct (calculate_cost r) as [c|];
      cbn [h_tokens h_cost h_requests fold_left]; rewrite ?len_cons;
      f_equal; lia.
Qed.

Lemma hour_tally_onto_new rs : hour_tally_onto new_hour_stats rs = hour_tally rs.
Proof. rewrite hour_tally_onto_spec. reflexivity. Qed.

Lemma hour_of_range t : 0 <= hour_of t < 24.
Proof. unfold hour_of. apply Z.mod_pos_bound. lia. Qed.

Lemma hour_label_In h : 0 <= h < 24 -> In (hour_label h) hour_labels.
Proof.
  intros Hh. unfold hour_labels.
  apply in_map_iff. exists (Z.to_nat h). split.
  - f_equal. lia.
  - apply in_seq. lia.
Qed.

Section Hourly.
Variable fromisoformat : string -> option tz_datetime.
Variable astimezone : tz_datetime -> option tz_datetime.

Local Abbreviation local_dt := (get_local_datetime fromisoformat astimezone).
Local Abbreviation entry_step := (hourly_entry fromisoformat astimezone).
Local Abbreviation into := (in_bucket fromisoformat astimezone).
Local Abbreviation records_of := (bucket_records fromisoformat astimezone).

(** What one pass of the loop leaves under a key. *)
Lemma hourly_entry_get cutoff d r k :
  dict_get k (entry_step cutoff d r) =
    if into cutoff k r
    then Some (add_hour match dict_get k d with
                        | Some b => b
                        | None => new_hour_stats
                        end r)
    else dict_get k d.
Proof.
  unfold hourly_entry, in_bucket, add_hour.
  destruct (local_dt (timestamp r)) as [lt|]; [|reflexivity].
  destruct (cutoff <=? replace_tzinfo_none lt); [|reflexivity].
  cbn [andb]. cbv zeta.
  destruct (String.eqb (strftime_hour lt) k) eqn:E.
  - apply String.eqb_eq in E. subst k.
    destruct (calculate_cost r) as [c|];
      rewrite !dict_get_adjust_same; unfold dict_mem;
      destruct (dict_get (strftime_hour lt) d) as [b|] eqn:G;
      rewrite ?G, ?dict_get_set_same; reflexivity.
  - apply String.eqb_neq in E.
    destruct (calculate_cost r) as [c|];
      rewrite !dict_get_adjust_other by congruence;
      (destruct (dict_mem (strftime_hour lt) d); [reflexivity|]);
      apply dict_get_set_other; congruence.
Qed.

Lemma hourly_entry_NoDup cutoff d r :
  NoDup (dict_keys d) -> NoDup (dict_keys (entry_step cutoff d r)).
Proof.
  intros Hnd. unfold hourly_entry.
  destruct (local_dt (timestamp r)) as [lt|]; [|assumption].
  destruct (cutoff <=? replace_tzinfo_none lt); [|assumption].
  cbv zeta.
  assert (H1 : NoDup (dict_keys
                        (if dict_mem (strftime_hour lt) d then d
                         else dict_set (strftime_hour lt) new_hour_stats d))).
  { destruct (dict_mem (strftime_hour lt) d); [assumption|].
    apply dict_keys_set_NoDup. assumption. }
  destruct (calculate_cost r); rewrite ?dict_keys_adjust; assumption.
Qed.

Lemma bucket_records_cons cutoff k r data :
  records_of cutoff k (r :: data) =
    if into cutoff k r then r :: records_of cutoff k data
    else records_of cutoff k data.
Proof. reflexivity. Qed.

Lemma hourly_fold_get cutoff data : forall d k,
  dict_get k (fold_left (entry_step cutoff) data d) =
    match dict_get k d with
    | Some b => Some (hour_tally_onto b (records_of cutoff k data))
    | None =>
        match records_of cutoff k data with
        | [] => None
        | rs => Some (hour_tally_onto new_hour_stats rs)
        end
    end.
Proof.
  induction data as [|r data IH]; intros d k; cbn [fold_left].
  - unfold bucket_records. simpl. destruct (dict_get k d); reflexivity.
  - rewrite (IH _ k), (hourly_entry_get cutoff d r k), bucket_records_cons.
    destruct (into cutoff k r); [|reflexivity].
    destruct (dict_get k d); reflexivity.
Qed.

Lemma hourly_fold_NoDup cutoff data : forall d,
  NoDup (dict_keys d) -> NoDup (dict_keys (fold_left (entry_step cutoff) data d)).
Proof.
  induction data as [|r data IH]; intros d Hnd; cbn [fold_left]; [assumption|].
  apply IH. apply hourly_entry_NoDup. assumption.
Qed.

(** The records of a bucket carry its label, and their local time is not
    before the cutoff. *)
Lemma bucket_records_In cutoff k data r :
  In r (records_of cutoff k data) <->
  In r data /\ exists lt, local_dt (timestamp r) = Some lt
                          /\ cutoff <= replace_tzinfo_none lt
                          /\ hour_label (hour_of (replace_tzinfo_none lt)) = k.
Proof.
  unfold bucket_records. rewrite filter_In. unfold in_bucket.
  destruct (local_dt (timestamp r)) as [lt|].
  - rewrite andb_true_iff, Z.leb_le, String.eqb_eq. split.
    + intros [Hin [Hle Hk]]. split; [assumption|]. exists lt. auto.
    + intros [Hin [lt' [E [Hle Hk]]]]. inversion E; subst lt'. auto.
  - split; [intros [_ H]; discriminate|].
    intros [_ [lt' [E _]]]. discriminate.
Qed.

(** The hourly buckets when every step runs.  When [now - hours] is a
    datetime, [get_hourly_usage] returns a map of at most 24 keys, each a
    label ["HH:00"] without a date.  A record is mapped into the bucket
    of [k] when its timestamp parses, its local time is not before
    [now - hours], and the hour of its local time has the label [k]:
    records from different days with the same hour share a bucket.  A key
    is present when some record is mapped into it; its tokens are the sum
    of the total tokens of those records, and its requests the number of
    those whose cost is computed: all of them, when no cost overflows. *)
Theorem hourly_usage_correct (now : datetime) (hours : Z)
    (usage_data : list UsageRecord)
    (Hnow : valid_datetime now)
    (Hcutoff : valid_datetime (now - hours * US_PER_HOUR)) :
  let cutoff := now - hours * US_PER_HOUR in
  exists hourly,
    get_hourly_usage fromisoformat astimezone now usage_data hours = Some hourly
    /\ (forall k,
          dict_get k hourly =
            match bucket_records fromisoformat astimezone cutoff k usage_data with
            | [] => None
            | rs => Some (hour_tally rs)
            end)
    /\ (forall k b,
          dict_get k hourly = Some b ->
          let rs := bucket_records fromisoformat astimezone cutoff k usage_data in
          h_tokens b = zsum (map total_tokens rs)
          /\ h_requests b = len (known_costs rs)
          /\ (Forall (fun r => calculate_cost r <> None) rs ->
              h_requests b = len rs))
    /\ (forall k r,
          In r (bucket_records fromisoformat astimezone cutoff k usage_data) <->
          In r usage_data
          /\ exists lt,
               get_local_datetime fromisoformat astimezone (timestamp r) = Some lt
               /\ cutoff <= replace_tzinfo_none lt
               /\ hour_label (hour_of (replace_tzinfo_none lt)) = k)
    /\ NoDup (dict_keys hourly)
    /\ incl (dict_keys hourly) hour_labels
    /\ (List.length hourly <= 24)%nat.
Proof.
  intros cutoff.
  assert (Hrun : get_hourly_usage fromisoformat astimezone now usage_data hours
                 = Some (fold_left (entry_step cutoff) usage_data [])).
  { unfold get_hourly_usage, timedelta_hours.
    replace (hours * US_PER_HOUR) with (now - cutoff) by (subst cutoff; lia).
    rewrite mk_timedelta_between by assumption. cbn [bind].
    rewrite dt_sub_valid
      by (replace (now - (now - cutoff)) with cutoff by lia; assumption).
    cbn [bind]. replace (now - (now - cutoff)) with cutoff by lia. reflexivity. }
  set (hourly := fold_left (entry_step cutoff) usage_data []) in *.
  assert (Hget : forall k,
             dict_get k hourly =
               match records_of cutoff k usage_data with
               | [] => None
               | rs => Some (hour_tally rs)
               end).
  { intros k. subst hourly. rewrite (hourly_fold_get cutoff usage_data [] k).
    cbn [dict_get]. destruct (records_of cutoff k usage_data); [reflexivity|].
    rewrite hour_tally_onto_new. reflexivity. }
  assert (Hnd : NoDup (dict_keys hourly))
    by (subst hourly; apply hourly_fold_NoDup; constructor).
  assert (Hincl : incl (dict_keys hourly) hour_labels).
  { intros k Hk. apply dict_get_In in Hk. rewrite Hget in Hk.
    destruct (records_of cutoff k usage_data) as [|r rs] eqn:E;
      [contradiction Hk; reflexivity|].
    assert (Hr : In r (records_of cutoff k usage_data))
      by (rewrite E; left; reflexivity).
    apply bucket_records_In in Hr. destruct Hr as [_ [lt [_ [_ <-]]]].
    apply hour_label_In. apply hour_of_range. }
  exists hourly. split; [exact Hrun|]. split; [exact Hget|]. split.
  { intros k b Hb rs. rewrite Hget in Hb. fold rs in Hb.
    destruct rs as [|r rs'] eqn:E; [discriminate|].
    inversion Hb; subst b. cbn [hour_tally h_tokens h_requests].
    split; [reflexivity|]. split; [reflexivity|]. apply known_costs_all. }
  split; [intros k r; apply bucket_records_In|].
  split; [exact Hnd|]. split; [exact Hincl|].
  pose proof (NoDup_incl_length Hnd Hincl) as Hlen.
  unfold dict_keys in Hlen. rewrite length_map in Hlen. exact Hlen.
Qed.
End Hourly.

Lemma hourly_usage_correct_witness :
  let cutoff := noon - 24 * US_PER_HOUR in
  exists hourly,
    get_hourly_usage ExampleClock.fromisoformat ExampleClock.utc noon
      mixed_models 24 = Some hourly
    /\ (forall k,
          dict_get k hourly =
            match bucket_records ExampleClock.fromisoformat ExampleClock.utc
                    cutoff k mixed_models with
            | [] => None
            | rs => Some (hour_tally rs)
            end)
    /\ (forall k b,
          dict_get k hourly = Some b ->
          let rs := bucket_records ExampleClock.fromisoformat ExampleClock.utc
                      cutoff k mixed_models in
          h_tokens b = zsum (map total_tokens rs)
          /\ h_requests b = len (known_costs rs)
          /\ (Forall (fun r => calculate_cost r <> None) rs ->
              h_requests b = len rs))
    /\ (forall k r,
          In r (bucket_records ExampleClock.fromisoformat ExampleClock.utc
                  cutoff k mixed_models) <->
          In r mixed_models
          /\ exists lt,
               get_local_datetime ExampleClock.fromisoformat ExampleClock.utc
                 (timestamp r) = Some lt
               /\ cutoff <= replace_tzinfo_none lt
               /\ hour_label (hour_of (replace_tzinfo_none lt)) = k)
    /\ NoDup (dict_keys hourly)
    /\ incl (dict_keys hourly) hour_labels
    /\ (List.length hourly <= 24)%nat.
Proof.
  apply (hourly_usage_correct ExampleClock.fromisoformat ExampleClock.utc
           noon 24 mixed_models).
  - vm_compute. split; [discriminate|reflexivity].
  - vm_compute. split; [discriminate|reflexivity].
Defined.

(** The three example records fall in the hour from ten to eleven. *)
Example hourly_usage_morning :
  option_map (map (fun kv => (fst kv, h_tokens (snd kv), h_requests (snd kv))))
    (get_hourly_usage ExampleClock.fromisoformat ExampleClock.utc noon
       mixed_models 24)
  = Some [("10:00", 600, 3)].
Proof. vm_compute. reflexivity. Qed.

(** C6.  The bucket of a record whose cost cannot be computed is left
    half updated.  The loop body adds the tokens of the record to its
    bucket, then calls [calculate_cost], then counts the request, all
    inside the [try] whose [except] skips the record.  For a record of
    10^315 input tokens [calculate_cost] raises, the tokens are already
    added and the request is not counted: one record is mapped into the
    bucket ["10:00"], which holds its tokens, and the request count of
    the bucket is 0 where the number of its records is 1. *)
Lemma hourly_usage_partial_update :
  exists hourly b,
    get_hourly_usage ExampleClock.fromisoformat ExampleClock.utc eleven
      [huge_input] 24 = Some hourly
    /\ dict_get "10:00" hourly = Some b
    /\ h_tokens b = total_tokens huge_input
    /\ bucket_records ExampleClock.fromisoformat ExampleClock.utc
         (eleven - 24 * US_PER_HOUR) "10:00" [huge_input] = [huge_input]
    /\ h_requests b = 0
    /\ h_requests b
       <> len (bucket_records ExampleClock.fromisoformat ExampleClock.utc
                 (eleven - 24 * US_PER_HOUR) "10:00" [huge_input]).
Proof.
  eexists. eexists. split; [vm_compute; reflexivity|].
  split; [reflexivity|]. split; [reflexivity|].
  split; [vm_compute; reflexivity|]. split; [reflexivity|].
  vm_compute. discriminate.
Qed.

(** ** Ingestion *)

Section Parsing.
Variable json_loads : string -> loads_result.

Local Abbreviation lines_from := (parse_lines json_loads).
Local Abbreviation parse := (parse_jsonl_file json_loads).
Local Abbreviation load := (load_data json_loads).

(** A line that is not JSON is passed over, and the reading goes on. *)
Lemma parse_lines_decode_error parent line rest acc :
  json_loads (strip line) = JSONDecodeError ->
  lines_from parent (line :: rest) acc = lines_from parent rest acc.
Proof. intros H. cbn [parse_lines]. rewrite H. reflexivity. Qed.

(** So is a [dict] whose type is not ['assistant']. *)
Lemma parse_lines_other_type parent line rest acc members :
  json_loads (strip line) = Loaded (JObject members) ->
  (forall ty, dict_get "type" members = Some ty -> is_str "assistant" ty = false) ->
  lines_from parent (line :: rest) acc = lines_from parent rest acc.
Proof.
  intros H Hty. cbn [parse_lines]. rewrite H. unfold extract_usage.
  cbn [py_get bind].
  destruct (dict_get "type" members) as [ty|]; [rewrite (Hty ty eq_refl)|];
    reflexivity.
Qed.

(** A line that decodes to anything but a [dict] ends the reading: the
    lines after it are not read. *)
Lemma parse_lines_not_object parent line rest acc data :
  json_loads (strip line) = Loaded data -> is_object data = false ->
  lines_from parent (line :: rest) acc = acc.
Proof.
  intros H Hobj. cbn [parse_lines]. rewrite H.
  destruct data; try discriminate; reflexivity.
Qed.

(** A line whose entry is taken adds it at the end. *)
Lemma parse_lines_entry parent line rest acc data e :
  json_loads (strip line) = Loaded data ->
  extract_usage parent data = Some (Some e) ->
  lines_from parent (line :: rest) acc = lines_from parent rest (acc ++ [e]).
Proof. intros H He. cbn [parse_lines]. rewrite H, He. reflexivity. Qed.

(** A file that cannot be opened gives no entry. *)
Lemma parse_unreadable parent : parse (mkFile parent None) = [].
Proof. reflexivity. Qed.

(** A usage line, a record of another type and a broken line, in this
    order: one entry. *)
Lemma parse_three_lines parent a b c data e members ending :
  json_loads (strip a) = Loaded data ->
  extract_usage parent data = Some (Some e) ->
  json_loads (strip b) = Loaded (JObject members) ->
  (forall ty, dict_get "type" members = Some ty -> is_str "assistant" ty = false) ->
  json_loads (strip c) = JSONDecodeError ->
  parse (mkFile parent (Some (mkText [a; b; c] ending))) = [e].
Proof.
  intros Ha He Hb Hty Hc. unfold parse_jsonl_file.
  cbn [content parent_name text_lines text_end].
  rewrite (parse_lines_entry _ _ _ _ _ _ Ha He).
  rewrite (parse_lines_other_type _ _ _ _ _ Hb Hty).
  rewrite (parse_lines_decode_error _ _ _ _ Hc).
  destruct ending; reflexivity.
Qed.

(** With the root present, [load_data] forgets the entries it had and
    holds those of the files, in the order of the files. *)
Lemma fold_parse_concat files : forall acc,
  fold_left (fun usage_data file_path => usage_data ++ parse file_path) files acc
  = acc ++ List.concat (map parse files).
Proof.
  induction files as [|f files IH]; intros acc; cbn [fold_left map List.concat].
  - rewrite app_nil_r. reflexivity.
  - rewrite IH, app_assoc. reflexivity.
Qed.

Lemma load_data_rescan files usage_data :
  load (Some files) usage_data = List.concat (map parse files).
Proof.
  unfold load_data, find_claude_data_dir. rewrite fold_parse_concat. reflexivity.
Qed.

(** With the root absent, [load_data] returns before it touches the
    entries. *)
Lemma load_data_no_root usage_data : load None usage_data = usage_data.
Proof. reflexivity. Qed.
End Parsing.

(** The scenario of the specification: three lines, one entry, and the
    record of that entry costs [3.0]. *)
Example parse_scenario :
  parse_jsonl_file BasicJson.json_loads (file_of [usage_line; user_line; broken_line])
  = [usage_entry]
  /\ (r <- usage_record_of usage_entry ;; calculate_cost r) = Some (decimal 30 1).
Proof. split; vm_compute; reflexivity. Qed.

(** C3, on the code.  A line that is JSON but not a [dict] raises an
    [AttributeError] in the body of the inner [try], which catches
    [JSONDecodeError] only; the outer [except] ends the reading.  With
    such a line first, the usage line after it is not read: no entry,
    where the file without that line has one. *)
Theorem parse_stops_at_non_object :
  parse_jsonl_file BasicJson.json_loads (file_of [usage_line]) = [usage_entry]
  /\ BasicJson.json_loads (strip array_line) = Loaded (JArray [])
  /\ parse_jsonl_file BasicJson.json_loads (file_of [array_line; usage_line]) = []
  /\ parse_jsonl_file BasicJson.json_loads (file_of [null_line; usage_line]) = []
  /\ parse_jsonl_file BasicJson.json_loads (file_of [null_message_line; usage_line])
     = [].
Proof. repeat split; vm_compute; reflexivity. Qed.

(** C4, on the code.  When the data root is absent, [load_data] returns
    early and the entries of the previous load stay; when the root is
    there and holds no file, they are dropped. *)
Theorem load_data_keeps_entries_without_root :
  load_data BasicJson.json_loads None [usage_entry] = [usage_entry]
  /\ load_data BasicJson.json_loads (Some []) [usage_entry] = []
  /\ init BasicJson.json_loads None = [].
Proof. repeat split; reflexivity. Qed.

(** ** Dictionaries: one value replaced *)

Section DictReplace.
Context {V : Type}.
Implicit Types (d : dict V) (k : string) (v : V).

Lemma dict_set_set k v1 v2 d : dict_set k v2 (dict_set k v1 d) = dict_set k v2 d.
Proof.
  induction d as [|[k' v'] d IH]; simpl.
  - rewrite String.eqb_refl. reflexivity.
  - destruct (String.eqb k k') eqn:E; simpl.
    + rewrite String.eqb_refl. reflexivity.
    + rewrite E, IH. reflexivity.
Qed.

(** An update of the value under a key that is present puts the new
    value in its place. *)
Lemma dict_adjust_set k (f : V -> V) d :
  dict_adjust k f d = match dict_get k d with
                      | Some b => dict_set k (f b) d
                      | None => d
                      end.
Proof.
  induction d as [|[k' v'] d IH]; simpl; [reflexivity|].
  destruct (String.eqb k k') eqn:E.
  - apply String.eqb_eq in E. subst k'. reflexivity.
  - rewrite IH. destruct (dict_get k d); reflexivity.
Qed.

Lemma dict_touch_get k v d :
  dict_get k (dict_touch k v d)
  = Some match dict_get k d with Some b => b | None => v end.
Proof.
  unfold dict_touch, dict_mem. destruct (dict_get k d) eqn:E; [exact E|].
  apply dict_get_set_same.
Qed.

(** The first access and an update after it, as one assignment. *)
Lemma dict_touch_adjust k v (f : V -> V) d :
  dict_adjust k f (dict_touch k v d)
  = dict_set k (f match dict_get k d with Some b => b | None => v end) d.
Proof.
  rewrite dict_adjust_set, dict_touch_get.
  unfold dict_touch, dict_mem. destruct (dict_get k d); [reflexivity|].
  apply dict_set_set.
Qed.

Lemma dict_set_adjust k v (f : V -> V) d :
  dict_adjust k f (dict_set k v d) = dict_set k (f v) d.
Proof. rewrite dict_adjust_set, dict_get_set_same. apply dict_set_set. Qed.

Lemma dict_get_default_values k d b (P : V -> Prop) :
  Forall P (dict_values d) -> dict_get k d = Some b -> P b.
Proof.
  unfold dict_values. induction d as [|[k' v'] d IH]; simpl; [discriminate|].
  intros HP. inversion HP; subst.
  destruct (String.eqb k k'); [intros E; inversion E; subst; assumption|auto].
Qed.

Lemma dict_set_values k v d (P : V -> Prop) :
  Forall P (dict_values d) -> P v -> Forall P (dict_values (dict_set k v d)).
Proof.
  unfold dict_values. induction d as [|[k' v'] d IH]; simpl; intros HP Hv.
  - constructor; [assumption|constructor].
  - inversion HP; subst. destruct (String.eqb k k'); simpl; constructor; auto.
Qed.

End DictReplace.

(** ** [get_time_series_data] *)

Lemma float_of_int_zero : float_of_int 0 = Some fzero.
Proof. reflexivity. Qed.

Lemma left_sum_app cs c : left_sum (cs ++ [c]) = fadd (left_sum cs) c.
Proof. unfold left_sum. rewrite fold_left_app. reflexivity. Qed.

Lemma known_costs_app rs1 rs2 :
  known_costs (rs1 ++ rs2) = known_costs rs1 ++ known_costs rs2.
Proof. unfold known_costs. apply flat_map_app. Qed.

Lemma zsum_app l1 l2 : zsum (l1 ++ l2) = zsum l1 + zsum l2.
Proof. induction l1 as [|x l1 IH]; simpl; [reflexivity|]. rewrite IH. lia. Qed.

Lemma len_app {A} (l1 l2 : list A) : len (l1 ++ l2) = len l1 + len l2.
Proof. unfold len. rewrite length_app. lia. Qed.

(** Adding the cost of a record to the cost tally of a bucket. *)
Lemma cost_tally_add cs c :
  number_add_float (cost_tally cs) c = Some (cost_tally (cs ++ [c])).
Proof.
  destruct cs as [|c0 cs]; [reflexivity|].
  cbn [cost_tally number_add_float app]. rewrite <- left_sum_app. reflexivity.
Qed.

(** One more record on the tally of a list of records. *)
Lemma series_add_tally rs r :
  series_add (series_tally rs) r = series_tally (rs ++ [r]).
Proof.
  unfold series_add, series_tally.
  cbn [s_input_tokens s_output_tokens s_total_tokens s_cost s_requests].
  rewrite known_costs_app, !map_app, !zsum_app.
  cbn [map zsum]. rewrite (known_costs_cons r []). cbn [known_costs flat_map].
  destruct (calculate_cost r) as [c|].
  - rewrite cost_tally_add. cbn [fst snd]. rewrite len_app.
    unfold len at 3. cbn [List.length Z.of_nat Pos.of_succ_nat].
    f_equal; lia.
  - rewrite app_nil_r. cbn [fst snd]. f_equal; lia.
Qed.

Lemma series_tally_onto_new rs :
  series_tally_onto new_series_stats rs = series_tally rs.
Proof.
  unfold series_tally_onto.
  induction rs as [|r rs IH] using rev_ind; [reflexivity|].
  rewrite fold_left_app. cbn [fold_left]. rewrite IH. apply series_add_tally.
Qed.

Lemma series_add_started b r : cost_started b -> cost_started (series_add b r).
Proof.
  unfold cost_started, series_add. cbn [s_cost].
  destruct (calculate_cost r) as [c|]; [|auto].
  destruct (s_cost b) as [n|x] eqn:E; cbn [number_add_float].
  - intros ->. rewrite float_of_int_zero. exact I.
  - intros _. exact I.
Qed.

(** The requests of a bucket count the records whose cost is computed. *)
Lemma series_add_requests b r : cost_started b ->
  s_requests (series_add b r)
  = s_requests b + match calculate_cost r with Some _ => 1 | None => 0 end.
Proof.
  unfold cost_started, series_add. cbn [s_requests].
  destruct (calculate_cost r) as [c|]; [|cbn [snd]; lia].
  destruct (s_cost b) as [n|x]; cbn [number_add_float].
  - intros ->. rewrite float_of_int_zero. reflexivity.
  - intros _. reflexivity.
Qed.

Section SeriesFacts.
Variable fromisoformat : string -> option tz_datetime.
Variable astimezone : tz_datetime -> option tz_datetime.
Variable style : year_style.

Local Abbreviation series_step := (series_entry fromisoformat astimezone style).
Local Abbreviation in_series := (in_series_bucket fromisoformat astimezone style).
Local Abbreviation series_of := (series_records fromisoformat astimezone style).
Local Abbreviation not_before := (since fromisoformat astimezone).
Local Abbreviation time_series_data :=
  (get_time_series_data fromisoformat astimezone style).

(** One pass of the loop: the bucket of the entry gets its tally with the
    entry added, in its place or as the last key. *)
Lemma series_entry_set days fmt cutoff d r :
  series_step days fmt cutoff d r =
    match get_local_datetime fromisoformat astimezone (timestamp r) with
    | Some lt =>
        if cutoff <=? replace_tzinfo_none lt then
          let k := series_key style days fmt lt in
          dict_set k (series_add match dict_get k d with
                                 | Some b => b
                                 | None => new_series_stats
                                 end r) d
        else d
    | None => d
    end.
Proof.
  unfold series_entry.
  destruct (get_local_datetime fromisoformat astimezone (timestamp r)) as [lt|];
    [|reflexivity].
  destruct (cutoff <=? replace_tzinfo_none lt); [|reflexivity].
  cbv zeta. set (k := series_key style days fmt lt).
  set (b := match dict_get k d with Some b => b | None => new_series_stats end).
  rewrite dict_touch_adjust. fold b. rewrite !dict_set_adjust.
  cbn [s_input_tokens s_output_tokens s_total_tokens s_cost s_requests].
  unfold series_add.
  destruct (calculate_cost r) as [c|]; [|reflexivity].
  rewrite dict_get_set_same. cbn [s_cost].
  destruct (number_add_float (s_cost b) c) as [v|]; [|reflexivity].
  rewrite !dict_set_adjust. reflexivity.
Qed.

Lemma series_entry_get days fmt cutoff d r k :
  dict_get k (series_step days fmt cutoff d r) =
    if in_series days fmt cutoff k r
    then Some (series_add match dict_get k d with
                          | Some b => b
                          | None => new_series_stats
                          end r)
    else dict_get k d.
Proof.
  rewrite series_entry_set. unfold in_series_bucket.
  destruct (get_local_datetime fromisoformat astimezone (timestamp r)) as [lt|];
    [|reflexivity].
  destruct (cutoff <=? replace_tzinfo_none lt); [|reflexivity].
  cbn [andb]. cbv zeta.
  destruct (String.eqb (series_key style days fmt lt) k) eqn:E.
  - apply String.eqb_eq in E. subst k. apply dict_get_set_same.
  - apply String.eqb_neq in E. apply dict_get_set_other. congruence.
Qed.

Lemma series_entry_NoDup days fmt cutoff d r :
  NoDup (dict_keys d) -> NoDup (dict_keys (series_step days fmt cutoff d r)).
Proof.
  intros Hnd. rewrite series_entry_set.
  destruct (get_local_datetime fromisoformat astimezone (timestamp r)) as [lt|];
    [|assumption].
  destruct (cutoff <=? replace_tzinfo_none lt); [|assumption].
  apply dict_keys_set_NoDup. assumption.
Qed.

Lemma series_fold_get days fmt cutoff data : forall d k,
  dict_get k (fold_left (series_step days fmt cutoff) data d) =
    match dict_get k d with
    | Some b => Some (series_tally_onto b (series_of days fmt cutoff k data))
    | None =>
        match series_of days fmt cutoff k data with
        | [] => None
        | rs => Some (series_tally_onto new_series_stats rs)
        end
    end.
Proof.
  induction data as [|r data IH]; intros d k; cbn [fold_left].
  - unfold series_records. simpl. destruct (dict_get k d); reflexivity.
  - rewrite (IH _ k), (series_entry_get days fmt cutoff d r k).
    unfold series_records. cbn [filter].
    destruct (in_series days fmt cutoff k r); [|reflexivity].
    destruct (dict_get k d); reflexivity.
Qed.

Lemma series_fold_NoDup days fmt cutoff data : forall d,
  NoDup (dict_keys d) ->
  NoDup (dict_keys (fold_left (series_step days fmt cutoff) data d)).
Proof.
  induction data as [|r data IH]; intros d Hnd; cbn [fold_left]; [assumption|].
  apply IH. apply series_entry_NoDup. assumption.
Qed.

(** The sum of a field over the buckets grows, with each pass, by what
    the entry adds to its bucket. *)
Lemma series_entry_sum (f : SeriesStats -> Z) (g : UsageRecord -> Z)
    days fmt cutoff d r :
  f new_series_stats = 0 ->
  (forall b, In b (new_series_stats :: dict_values d) ->
             f (series_add b r) = f b + g r) ->
  zsum (map f (dict_values (series_step days fmt cutoff d r)))
  = zsum (map f (dict_values d)) + if not_before cutoff r then g r else 0.
Proof.
  intros Hnew Hadd. rewrite series_entry_set. unfold since, local_naive.
  destruct (get_local_datetime fromisoformat astimezone (timestamp r)) as [lt|];
    cbn [option_map]; [|lia].
  destruct (cutoff <=? replace_tzinfo_none lt); [|lia].
  cbv zeta. rewrite zsum_dict_set.
  destruct (dict_get (series_key style days fmt lt) d) as [b|] eqn:E.
  - rewrite Hadd; [lia|]. right.
    unfold dict_values. clear - E.
    induction d as [|[k' v'] d IH]; simpl in *; [discriminate|].
    destruct (String.eqb _ k'); [inversion E; auto|auto].
  - rewrite Hadd by (left; reflexivity). lia.
Qed.

Lemma series_entry_started days fmt cutoff d r :
  Forall cost_started (dict_values d) ->
  Forall cost_started (dict_values (series_step days fmt cutoff d r)).
Proof.
  intros Hd. rewrite series_entry_set.
  destruct (get_local_datetime fromisoformat astimezone (timestamp r)) as [lt|];
    [|assumption].
  destruct (cutoff <=? replace_tzinfo_none lt); [|assumption].
  cbv zeta. apply dict_set_values; [assumption|].
  apply series_add_started.
  destruct (dict_get (series_key style days fmt lt) d) as [b|] eqn:E.
  - apply (dict_get_default_values _ _ _ _ Hd E).
  - exact eq_refl.
Qed.

Lemma series_fold_sum (f : SeriesStats -> Z) (g : UsageRecord -> Z)
    days fmt cutoff data :
  f new_series_stats = 0 ->
  (forall b r, cost_started b -> f (series_add b r) = f b + g r) ->
  forall d, Forall cost_started (dict_values d) ->
  zsum (map f (dict_values (fold_left (series_step days fmt cutoff) data d)))
  = zsum (map f (dict_values d))
    + zsum (map g (filter (not_before cutoff) data)).
Proof.
  intros Hnew Hadd.
  induction data as [|r data IH]; intros d Hd; cbn [fold_left filter map zsum];
    [lia|].
  rewrite IH by (apply series_entry_started; assumption).
  rewrite (series_entry_sum f g days fmt cutoff d r Hnew).
  - destruct (not_before cutoff r); cbn [map zsum]; lia.
  - intros b [Hb|Hb]; apply Hadd.
    + subst b. exact eq_refl.
    + exact (proj1 (Forall_forall _ _) Hd b Hb).
Qed.

Lemma get_time_series_data_runs now days data :
  valid_datetime now -> valid_datetime (now - days * US_PER_DAY) ->
  time_series_data now data days
  = Some (fold_left
            (series_step days (if days <=? 2 then HOURLY_FORMAT else DAILY_FORMAT)
               (now - days * US_PER_DAY)) data [],
          if days <=? 2 then HOURLY_FORMAT else DAILY_FORMAT).
Proof.
  intros Hnow Hcut. set (cutoff := now - days * US_PER_DAY) in *.
  unfold get_time_series_data, timedelta_days.
  replace (days * US_PER_DAY) with (now - cutoff) by (subst cutoff; lia).
  rewrite mk_timedelta_between by assumption. cbn [bind].
  rewrite dt_sub_valid
    by (replace (now - (now - cutoff)) with cutoff by lia; assumption).
  cbn [bind]. replace (now - (now - cutoff)) with cutoff by lia. reflexivity.
Qed.

(** X1.  When [now - days] is a datetime, [get_time_series_data] returns
    the format of the keys, ['%Y-%m-%d %H:00'] for a range of at most two
    days and ['%Y-%m-%d'] beyond, and a map without repeated keys.  A
    record is mapped to a key when its timestamp parses, its local time
    is not before [now - days] and the text of its local hour (or day) is
    the key.  A key is present when some record is mapped to it.  Its
    input, output and total tokens are the sums over those records; its
    requests are the number of them whose cost is computed, and its cost
    is the [int] [0] when there is none, else their costs added from the
    left. *)
Theorem time_series_buckets (now : datetime) (days : Z)
    (usage_data : list UsageRecord)
    (Hnow : valid_datetime now)
    (Hcutoff : valid_datetime (now - days * US_PER_DAY)) :
  let cutoff := now - days * US_PER_DAY in
  let time_format := if days <=? 2 then HOURLY_FORMAT else DAILY_FORMAT in
  exists time_series,
    get_time_series_data fromisoformat astimezone style now usage_data days
    = Some (time_series, time_format)
    /\ NoDup (dict_keys time_series)
    /\ (forall k,
          dict_get k time_series =
            match series_records fromisoformat astimezone style days time_format
                    cutoff k usage_data with
            | [] => None
            | rs => Some (series_tally rs)
            end)
    /\ (forall k r,
          In r (series_records fromisoformat astimezone style days time_format
                  cutoff k usage_data) <->
          In r usage_data
          /\ exists lt,
               get_local_datetime fromisoformat astimezone (timestamp r) = Some lt
               /\ cutoff <= replace_tzinfo_none lt
               /\ series_key style days time_format lt = k).
Proof.
  intros cutoff time_format. eexists.
  split; [apply get_time_series_data_runs; assumption|].
  fold cutoff time_format.
  split; [apply series_fold_NoDup; constructor|]. split.
  - intros k. rewrite series_fold_get. cbn [dict_get].
    destruct (series_of days time_format cutoff k usage_data); [reflexivity|].
    rewrite series_tally_onto_new. reflexivity.
  - intros k r. unfold series_records. rewrite filter_In. unfold in_series_bucket.
    destruct (get_local_datetime fromisoformat astimezone (timestamp r)) as [lt|].
    + rewrite andb_true_iff, Z.leb_le, String.eqb_eq. split.
      * intros [Hin [Hle Hk]]. split; [assumption|]. exists lt. auto.
      * intros [Hin [lt' [E [Hle Hk]]]]. inversion E; subst lt'. auto.
    + split; [intros [_ H]; discriminate|].
      intros [_ [lt' [E _]]]. discriminate.
Qed.

(** X2.  The buckets of [get_time_series_data] lose and invent nothing:
    summed over the keys, the input, output and total tokens are those of
    the records whose timestamp parses and whose local time is not before
    [now - days], and the requests are the number of those records whose
    cost is computed. *)
Theorem time_series_totals (now : datetime) (days : Z)
    (usage_data : list UsageRecord)
    (Hnow : valid_datetime now)
    (Hcutoff : valid_datetime (now - days * US_PER_DAY)) :
  let window :=
    filter (since fromisoformat astimezone (now - days * US_PER_DAY)) usage_data in
  exists time_series time_format,
    get_time_series_data fromisoformat astimezone style now usage_data days
    = Some (time_series, time_format)
    /\ zsum (map s_input_tokens (dict_values time_series))
       = zsum (map input_tokens window)
    /\ zsum (map s_output_tokens (dict_values time_series))
       = zsum (map output_tokens window)
    /\ zsum (map s_total_tokens (dict_values time_series))
       = zsum (map total_tokens window)
    /\ zsum (map s_requests (dict_values time_series))
       = len (known_costs window).
Proof.
  intros window. eexists. eexists.
  split; [apply get_time_series_data_runs; assumption|].
  assert (Hnil : Forall cost_started (@dict_values SeriesStats []))
    by constructor.
  split; [|split; [|split]].
  - rewrite (series_fold_sum s_input_tokens input_tokens);
      [reflexivity|reflexivity|reflexivity|exact Hnil].
  - rewrite (series_fold_sum s_output_tokens output_tokens);
      [reflexivity|reflexivity|reflexivity|exact Hnil].
  - rewrite (series_fold_sum s_total_tokens total_tokens);
      [reflexivity|reflexivity|reflexivity|exact Hnil].
  - rewrite (series_fold_sum s_requests
               (fun r => match calculate_cost r with Some _ => 1 | None => 0 end));
      [|reflexivity|intros b r Hb; apply series_add_requests; exact Hb|exact Hnil].
    cbn [dict_values map zsum]. fold window. rewrite Z.add_0_l. clear.
    induction window as [|r rs IH]; [reflexivity|].
    cbn [map zsum]. rewrite known_costs_cons, IH.
    destruct (calculate_cost r); rewrite ?len_cons; lia.
Qed.

End SeriesFacts.

(** ** Texts of fixed width *)

Lemma append_inj (a c b d : string) :
  String.length a = String.length c ->
  (a ++ b = c ++ d)%string -> a = c /\ b = d.
Proof.
  revert c. induction a as [|x a IH]; intros [|y c]; simpl; try discriminate.
  - auto.
  - intros Hl H. inversion H; subst. inversion Hl as [Hl'].
    destruct (IH c Hl' H2) as [-> ->]. auto.
Qed.

Lemma string_tail_inj c (a b : string) : String c a = String c b -> a = b.
Proof. intros H. injection H as H. exact H. Qed.

(** Two texts with ends of the same length are equal part by part. *)
Lemma append_inj_end (a c b d : string) :
  String.length b = String.length d ->
  (a ++ b = c ++ d)%string -> a = c /\ b = d.
Proof.
  intros Hl H. apply append_inj; [|exact H].
  apply (f_equal String.length) in H. rewrite !length_append in H. lia.
Qed.

Lemma digit_char_inj a b : digit_char a = digit_char b -> a mod 10 = b mod 10.
Proof.
  unfold digit_char. intros H.
  pose proof (Z.mod_pos_bound a 10 ltac:(lia)) as Ha.
  pose proof (Z.mod_pos_bound b 10 ltac:(lia)) as Hb.
  apply (f_equal nat_of_ascii) in H.
  rewrite !nat_ascii_embedding in H by lia. lia.
Qed.

Lemma pad_digits_inj w : forall a b,
  0 <= a < 10 ^ Z.of_nat w -> 0 <= b < 10 ^ Z.of_nat w ->
  pad_digits w a = pad_digits w b -> a = b.
Proof.
  induction w as [|w IH]; intros a b Ha Hb H.
  - simpl in Ha, Hb. lia.
  - cbn [pad_digits] in H.
    apply append_inj_end in H; [|reflexivity]. destruct H as [H1 H2].
    inversion H2 as [Hd]. apply digit_char_inj in Hd.
    rewrite Nat2Z.inj_succ, Z.pow_succ_r in Ha, Hb by lia.
    assert (Hq : a / 10 = b / 10).
    { apply IH; [| |exact H1]; split;
        try (apply Z.div_pos; lia); apply Z.div_lt_upper_bound; lia. }
    rewrite (Z.div_mod a 10), (Z.div_mod b 10) by lia. lia.
Qed.

Lemma str_int_inj a b : str_int a = str_int b -> a = b.
Proof.
  unfold str_int. intros H. apply DecimalZ.to_int_inj.
  assert (Hn : forall z, Z.to_int z <> Decimal.Pos Decimal.Nil
                         /\ Z.to_int z <> Decimal.Neg Decimal.Nil).
  { intros [|p|p]; simpl; split; try discriminate;
      intros E; inversion E as [E'];
      exact (DecimalPos.Unsigned.to_uint_nonnil p E'). }
  apply (f_equal DecimalString.NilZero.int_of_string) in H.
  rewrite !DecimalString.NilZero.isi in H by apply Hn.
  inversion H. reflexivity.
Qed.

(** ** The calendar *)

Lemma all_from_spec p n : forall i r,
  all_from p n i = true -> i <= r < i + Z.of_nat n -> p r = true.
Proof.
  induction n as [|n IH]; intros i r H Hr; [lia|].
  cbn [all_from] in H. apply andb_true_iff in H. destruct H as [Hi Hn].
  destruct (Z.eq_dec r i) as [->|Hne]; [exact Hi|].
  apply (IH (i + 1)); [exact Hn|lia].
Qed.

(** Every day of the cycle, one by one. *)
Lemma date_in_cycle_all :
  all_from date_in_cycle_ok (Z.to_nat DAYS_IN_400_YEARS) 0 = true.
Proof. vm_cast_no_check (eq_refl true). Qed.

Lemma date_in_cycle_spec r : 0 <= r < DAYS_IN_400_YEARS ->
  forall y m d, date_in_cycle r = (y, m, d) ->
  days_of_date (y, m, d) = r /\ 1 <= y <= 400 /\ 1 <= m <= 12 /\ 1 <= d <= 31
  /\ (r < 145731 -> y <= 399).
Proof.
  intros Hr y m d E.
  pose proof (all_from_spec _ _ 0 r date_in_cycle_all) as H.
  rewrite Z2Nat.id in H by (unfold DAYS_IN_400_YEARS; lia).
  specialize (H ltac:(lia)). unfold date_in_cycle_ok in H. rewrite E in H.
  repeat (apply andb_true_iff in H; destruct H as [H ?]).
  repeat match goal with
         | h : (_ <=? _) = true |- _ => apply Z.leb_le in h
         | h : (_ =? _) = true |- _ => apply Z.eqb_eq in h
         end.
  assert (Hdim : ExampleClock.days_in_month y m <= 31).
  { unfold ExampleClock.days_in_month.
    repeat match goal with
           | |- context [if ?c then _ else _] => destruct c
           end; lia. }
  repeat split; lia.
Qed.

(** The date determines the day. *)
Lemma date_of_days_inj n1 n2 : date_of_days n1 = date_of_days n2 -> n1 = n2.
Proof.
  unfold date_of_days.
  pose proof (Z.mod_pos_bound n1 DAYS_IN_400_YEARS ltac:(unfold DAYS_IN_400_YEARS; lia))
    as H1.
  pose proof (Z.mod_pos_bound n2 DAYS_IN_400_YEARS ltac:(unfold DAYS_IN_400_YEARS; lia))
    as H2.
  destruct (date_in_cycle (n1 mod DAYS_IN_400_YEARS)) as [[y1 m1] d1] eqn:E1.
  destruct (date_in_cycle (n2 mod DAYS_IN_400_YEARS)) as [[y2 m2] d2] eqn:E2.
  pose proof (date_in_cycle_spec _ H1 _ _ _ E1) as (I1 & Y1 & _).
  pose proof (date_in_cycle_spec _ H2 _ _ _ E2) as (I2 & Y2 & _).
  intros H.
  pose proof (f_equal (fun p => fst (fst p)) H) as Hy.
  pose proof (f_equal (fun p => snd (fst p)) H) as Hm.
  pose proof (f_equal snd H) as Hd. cbn [fst snd] in Hy, Hm, Hd.
  assert (Hq : n1 / DAYS_IN_400_YEARS = n2 / DAYS_IN_400_YEARS).
  { generalize dependent (n1 / DAYS_IN_400_YEARS).
    generalize dependent (n2 / DAYS_IN_400_YEARS). intros; lia. }
  assert (y1 = y2) by (rewrite Hq in Hy; lia). subst y2 m2 d2.
  rewrite (Z.div_mod n1 DAYS_IN_400_YEARS), (Z.div_mod n2 DAYS_IN_400_YEARS)
    by (unfold DAYS_IN_400_YEARS; lia).
  rewrite Hq, <- I1, <- I2. reflexivity.
Qed.

(** The fields of the date of a datetime. *)
Lemma date_of_days_range n : 0 <= n < MAX_ORDINAL ->
  forall y m d, date_of_days n = (y, m, d) ->
  1 <= y <= 9999 /\ 1 <= m <= 12 /\ 1 <= d <= 31.
Proof.
  intros Hn y m d. unfold date_of_days.
  pose proof (Z.mod_pos_bound n DAYS_IN_400_YEARS ltac:(unfold DAYS_IN_400_YEARS; lia))
    as Hr.
  destruct (date_in_cycle (n mod DAYS_IN_400_YEARS)) as [[y0 m0] d0] eqn:E.
  pose proof (date_in_cycle_spec _ Hr _ _ _ E) as (_ & Hy & Hm & Hd & Hlast).
  intros H.
  pose proof (f_equal (fun p => fst (fst p)) H) as Hy'.
  pose proof (f_equal (fun p => snd (fst p)) H) as Hm'.
  pose proof (f_equal snd H) as Hd'. cbn [fst snd] in Hy', Hm', Hd'.
  subst y m d.
  pose proof (Z.div_mod n DAYS_IN_400_YEARS ltac:(unfold DAYS_IN_400_YEARS; lia))
    as Hdm.
  unfold MAX_ORDINAL, DAYS_IN_400_YEARS in *.
  assert (0 <= n / 146097 <= 24) by
    (split; [apply Z.div_pos; lia|apply Z.lt_succ_r, Z.div_lt_upper_bound; lia]).
  assert (n / 146097 = 24 -> y0 <= 399) by (intros E24; apply Hlast; lia).
  repeat split; lia.
Qed.

Lemma day_number_valid t : valid_datetime t -> 0 <= day_number t < MAX_ORDINAL.
Proof.
  unfold valid_datetime, day_number, US_PER_DAY. intros H. split.
  - apply Z.div_pos; lia.
  - apply Z.div_lt_upper_bound; lia.
Qed.

(** ** The keys of the time series *)

Lemma strftime_hourly style dt :
  strftime style HOURLY_FORMAT dt
  = (year_text style (wall dt) ++ "-" ++ pad_digits 2 (month_of (wall dt))
     ++ "-" ++ pad_digits 2 (day_of (wall dt))
     ++ " " ++ pad_digits 2 (hour_of (wall dt)) ++ ":00")%string.
Proof. destruct style; reflexivity. Qed.

Lemma strftime_daily style dt :
  strftime style DAILY_FORMAT dt
  = (year_text style (wall dt) ++ "-" ++ pad_digits 2 (month_of (wall dt))
     ++ "-" ++ pad_digits 2 (day_of (wall dt)) ++ "")%string.
Proof. destruct style; reflexivity. Qed.

(** The text of a date determines the day. *)
Lemma date_text_inj style t1 t2 rest1 rest2 :
  valid_datetime t1 -> valid_datetime t2 ->
  String.length rest1 = String.length rest2 ->
  (year_text style t1 ++ "-" ++ pad_digits 2 (month_of t1)
     ++ "-" ++ pad_digits 2 (day_of t1) ++ rest1
   = year_text style t2 ++ "-" ++ pad_digits 2 (month_of t2)
     ++ "-" ++ pad_digits 2 (day_of t2) ++ rest2)%string ->
  day_number t1 = day_number t2 /\ rest1 = rest2.
Proof.
  intros V1 V2 Hl H.
  apply day_number_valid in V1, V2.
  unfold year_text, year_of, month_of, day_of in H. fold (day_number t1) in H.
  fold (day_number t2) in H.
  destruct (date_of_days (day_number t1)) as [[y1 m1] d1] eqn:E1.
  destruct (date_of_days (day_number t2)) as [[y2 m2] d2] eqn:E2.
  pose proof (date_of_days_range _ V1 _ _ _ E1) as (Y1 & M1 & D1).
  pose proof (date_of_days_range _ V2 _ _ _ E2) as (Y2 & M2 & D2).
  cbn [fst snd] in H.
  apply append_inj_end in H;
    [|cbn [String.length append]; rewrite !length_append, !length_pad_digits;
      cbn [String.length append]; rewrite !length_append, !length_pad_digits;
      rewrite Hl; reflexivity].
  destruct H as [Hy H]. apply string_tail_inj in H.
  apply append_inj in H; [|rewrite !length_pad_digits; reflexivity].
  destruct H as [Hm H]. apply string_tail_inj in H.
  apply append_inj in H; [|rewrite !length_pad_digits; reflexivity].
  destruct H as [Hd Hrest].
  apply pad_digits_inj in Hm; [|simpl; lia|simpl; lia].
  apply pad_digits_inj in Hd; [|simpl; lia|simpl; lia].
  assert (y1 = y2).
  { destruct style; [apply pad_digits_inj in Hy; simpl; lia|].
    apply str_int_inj. exact Hy. }
  split; [|exact Hrest].
  apply date_of_days_inj. rewrite E1, E2. congruence.
Qed.

Lemma truncate_hour t : (t - t mod US_PER_HOUR) / US_PER_HOUR = t / US_PER_HOUR.
Proof.
  unfold US_PER_HOUR.
  rewrite (Z.div_mod t 3600000000) at 1 by lia.
  replace (3600000000 * (t / 3600000000) + t mod 3600000000 - t mod 3600000000)
    with (t / 3600000000 * 3600000000) by lia.
  apply Z.div_mul. lia.
Qed.

Lemma truncate_day t : (t - t mod US_PER_DAY) / US_PER_DAY = t / US_PER_DAY.
Proof.
  unfold US_PER_DAY.
  rewrite (Z.div_mod t 86400000000) at 1 by lia.
  replace (86400000000 * (t / 86400000000) + t mod 86400000000 - t mod 86400000000)
    with (t / 86400000000 * 86400000000) by lia.
  apply Z.div_mul. lia.
Qed.

Lemma hour_number_split t :
  hour_number t = 24 * day_number t + hour_of t.
Proof.
  unfold hour_number, day_number, hour_of, US_PER_DAY, US_PER_HOUR.
  replace 86400000000 with (3600000000 * 24) by lia.
  rewrite <- Z.div_div by lia.
  apply Z.div_mod. lia.
Qed.

Lemma truncate_valid t u : 0 < u -> valid_datetime t -> valid_datetime (t - t mod u).
Proof.
  unfold valid_datetime. intros Hu [H0 H1].
  pose proof (Z.mod_pos_bound t u Hu). pose proof (Z.div_mod t u ltac:(lia)).
  assert (0 <= t / u) by (apply Z.div_pos; lia).
  split; [nia|lia].
Qed.

(** X3.  Two local times get the same key of the time series exactly when
    they are in the same hour of the same day, for a range of at most two
    days, and in the same day beyond: the buckets are the local hours or
    the local days, whichever way the platform writes the year. *)
Theorem series_key_same_bucket (style : year_style) (days : Z)
    (a b : tz_datetime)
    (Ha : valid_datetime (wall a)) (Hb : valid_datetime (wall b)) :
  let time_format := if days <=? 2 then HOURLY_FORMAT else DAILY_FORMAT in
  series_key style days time_format a = series_key style days time_format b
  <-> if days <=? 2 then hour_number (wall a) = hour_number (wall b)
      else day_number (wall a) = day_number (wall b).
Proof.
  intros time_format. subst time_format. unfold series_key.
  destruct (days <=? 2).
  - rewrite !strftime_hourly. unfold replace_to_hour. cbn [wall].
    set (ta := wall a - wall a mod US_PER_HOUR).
    set (tb := wall b - wall b mod US_PER_HOUR).
    assert (Hta : hour_number ta = hour_number (wall a)) by apply truncate_hour.
    assert (Htb : hour_number tb = hour_number (wall b)) by apply truncate_hour.
    assert (Va : valid_datetime ta)
      by (apply truncate_valid; [unfold US_PER_HOUR; lia|assumption]).
    assert (Vb : valid_datetime tb)
      by (apply truncate_valid; [unfold US_PER_HOUR; lia|assumption]).
    rewrite <- Hta, <- Htb. split.
    + intros H. apply date_text_inj in H; [|assumption|assumption|].
      * destruct H as [Hday Hh]. apply string_tail_inj in Hh.
        apply append_inj in Hh; [|rewrite !length_pad_digits; reflexivity].
        destruct Hh as [Hh _].
        apply pad_digits_inj in Hh;
          [|pose proof (hour_of_range ta); simpl; lia
           |pose proof (hour_of_range tb); simpl; lia].
        rewrite !hour_number_split. lia.
      * cbn [String.length append]. rewrite !length_append, !length_pad_digits.
        reflexivity.
    + intros H.
      assert (E : ta = tb).
      { subst ta tb. unfold hour_number in Hta, Htb, H.
        pose proof (Z.div_mod (wall a) US_PER_HOUR ltac:(unfold US_PER_HOUR; lia)).
        pose proof (Z.div_mod (wall b) US_PER_HOUR ltac:(unfold US_PER_HOUR; lia)).
        rewrite Hta, Htb in H. rewrite H in *. lia. }
      rewrite E. reflexivity.
  - rewrite !strftime_daily. unfold replace_to_day. cbn [wall].
    set (ta := wall a - wall a mod US_PER_DAY).
    set (tb := wall b - wall b mod US_PER_DAY).
    assert (Hta : day_number ta = day_number (wall a)) by apply truncate_day.
    assert (Htb : day_number tb = day_number (wall b)) by apply truncate_day.
    assert (Va : valid_datetime ta)
      by (apply truncate_valid; [unfold US_PER_DAY; lia|assumption]).
    assert (Vb : valid_datetime tb)
      by (apply truncate_valid; [unfold US_PER_DAY; lia|assumption]).
    rewrite <- Hta, <- Htb. split.
    + intros H. apply date_text_inj in H; [|assumption|assumption|reflexivity].
      apply H.
    + intros H.
      assert (E : ta = tb).
      { subst ta tb. unfold day_number in Hta, Htb, H.
        pose proof (Z.div_mod (wall a) US_PER_DAY ltac:(unfold US_PER_DAY; lia)).
        pose proof (Z.div_mod (wall b) US_PER_DAY ltac:(unfold US_PER_DAY; lia)).
        rewrite Hta, Htb in H. rewrite H in *. lia. }
      rewrite E. reflexivity.
Qed.

Lemma series_key_same_bucket_witness :
  series_key PlainYear 7 DAILY_FORMAT (local_of 2025 1 2 10 5 0)
  = series_key PlainYear 7 DAILY_FORMAT (local_of 2025 1 2 23 59 59)
  <-> day_number (wall (local_of 2025 1 2 10 5 0))
      = day_number (wall (local_of 2025 1 2 23 59 59)).
Proof.
  apply (series_key_same_bucket PlainYear 7 (local_of 2025 1 2 10 5 0)
           (local_of 2025 1 2 23 59 59)).
  - vm_compute. split; [discriminate|reflexivity].
  - vm_compute. split; [discriminate|reflexivity].
Defined.

Lemma time_series_buckets_witness :
  let cutoff := noon_next_day - 7 * US_PER_DAY in
  exists time_series,
    get_time_series_data ExampleClock.fromisoformat ExampleClock.utc PlainYear
      noon_next_day two_days 7 = Some (time_series, DAILY_FORMAT)
    /\ NoDup (dict_keys time_series)
    /\ (forall k,
          dict_get k time_series =
            match series_records ExampleClock.fromisoformat ExampleClock.utc
                    PlainYear 7 DAILY_FORMAT cutoff k two_days with
            | [] => None
            | rs => Some (series_tally rs)
            end)
    /\ (forall k r,
          In r (series_records ExampleClock.fromisoformat ExampleClock.utc
                  PlainYear 7 DAILY_FORMAT cutoff k two_days) <->
          In r two_days
          /\ exists lt,
               get_local_datetime ExampleClock.fromisoformat ExampleClock.utc
                 (timestamp r) = Some lt
               /\ cutoff <= replace_tzinfo_none lt
               /\ series_key PlainYear 7 DAILY_FORMAT lt = k).
Proof.
  apply (time_series_buckets ExampleClock.fromisoformat ExampleClock.utc
           PlainYear noon_next_day 7 two_days).
  - vm_compute. split; [discriminate|reflexivity].
  - vm_compute. split; [discriminate|reflexivity].
Defined.

Lemma time_series_totals_witness :
  let window :=
    filter (since ExampleClock.fromisoformat ExampleClock.utc
              (noon_next_day - 1 * US_PER_DAY)) two_days in
  exists time_series time_format,
    get_time_series_data ExampleClock.fromisoformat ExampleClock.utc PlainYear
      noon_next_day two_days 1 = Some (time_series, time_format)
    /\ zsum (map s_input_tokens (dict_values time_series))
       = zsum (map input_tokens window)
    /\ zsum (map s_output_tokens (dict_values time_series))
       = zsum (map output_tokens window)
    /\ zsum (map s_total_tokens (dict_values time_series))
       = zsum (map total_tokens window)
    /\ zsum (map s_requests (dict_values time_series))
       = len (known_costs window).
Proof.
  apply (time_series_totals ExampleClock.fromisoformat ExampleClock.utc
           PlainYear noon_next_day 1 two_days).
  - vm_compute. split; [discriminate|reflexivity].
  - vm_compute. split; [discriminate|reflexivity].
Defined.

(** The four example records by day, and the last day of them by hour. *)
Example time_series_by_day :
  option_map
    (fun out => (map (fun kv => (fst kv, s_total_tokens (snd kv),
                                 s_requests (snd kv))) (fst out), snd out))
    (get_time_series_data ExampleClock.fromisoformat ExampleClock.utc PlainYear
       noon_next_day two_days 7)
  = Some ([("2025-01-01", 8, 1); ("2025-01-02", 1327, 3)], "%Y-%m-%d").
Proof. vm_compute. reflexivity. Qed.

Example time_series_by_hour :
  option_map
    (fun out => (map (fun kv => (fst kv, s_total_tokens (snd kv),
                                 s_requests (snd kv))) (fst out), snd out))
    (get_time_series_data ExampleClock.fromisoformat ExampleClock.utc PlainYear
       noon_next_day two_days 1)
  = Some ([("2025-01-01 23:00", 8, 1); ("2025-01-02 10:00", 327, 2);
           ("2025-01-02 11:00", 1000, 1)], "%Y-%m-%d %H:00").
Proof. vm_compute. reflexivity. Qed.

(** A record whose cost cannot be computed is in its bucket with its
    tokens, and is no request of it; the cost of the bucket stays the
    [int] [0]. *)
Example time_series_partial_update :
  option_map fst
    (get_time_series_data ExampleClock.fromisoformat ExampleClock.utc PlainYear
       eleven [huge_input] 7)
  = Some [("2025-01-01", mkSeriesStats (10 ^ 315) 0 (10 ^ 315) (NInt 0) 0)].
Proof. vm_compute. reflexivity. Qed.

(** ** The start of a window outside the calendar *)

Lemma dt_sub_invalid t d : ~ valid_datetime (t - d) -> dt_sub t d = None.
Proof.
  unfold dt_sub. intros H. destruct (valid_datetimeb (t - d)) eqn:E; [|reflexivity].
  apply valid_datetimeb_spec in E. contradiction.
Qed.

Lemma window_start_none (now amount unit : Z) :
  ~ valid_datetime (now - amount * unit) ->
  (d <- mk_timedelta (amount * unit) ;; dt_sub now d) = None.
Proof.
  intros H. unfold mk_timedelta.
  destruct (_ && _); cbn [bind]; [|reflexivity]. apply dt_sub_invalid. exact H.
Qed.

Section WindowStart.
Variable fromisoformat : string -> option tz_datetime.
Variable astimezone : tz_datetime -> option tz_datetime.

(** X4.  The three queries over a window back from [now] raise when the
    start of the window, [now] less the hours, minutes or days asked for,
    is not a datetime of the calendar: for each of them no result is
    returned, whatever the collection holds. *)
Theorem window_start_outside_calendar (now : datetime) (amount : Z)
    (usage_data : list UsageRecord) (style : year_style) :
  (~ valid_datetime (now - amount * US_PER_HOUR) ->
   get_hourly_usage fromisoformat astimezone now usage_data amount = None)
  /\ (~ valid_datetime (now - amount * US_PER_MINUTE) ->
      get_recent_trend fromisoformat astimezone now usage_data amount = None)
  /\ (~ valid_datetime (now - amount * US_PER_DAY) ->
      get_time_series_data fromisoformat astimezone style now usage_data amount
      = None).
Proof.
  split; [|split]; intros H.
  - unfold get_hourly_usage, timedelta_hours.
    pose proof (window_start_none now amount US_PER_HOUR H) as E.
    destruct (mk_timedelta (amount * US_PER_HOUR)) as [d|]; cbn [bind] in *;
      [rewrite E|]; reflexivity.
  - unfold get_recent_trend, timedelta_minutes.
    pose proof (window_start_none now amount US_PER_MINUTE H) as E.
    destruct (mk_timedelta (amount * US_PER_MINUTE)) as [d|]; cbn [bind] in *;
      [rewrite E|]; reflexivity.
  - unfold get_time_series_data, timedelta_days.
    pose proof (window_start_none now amount US_PER_DAY H) as E.
    destruct (mk_timedelta (amount * US_PER_DAY)) as [d|]; cbn [bind] in *;
      [rewrite E|]; reflexivity.
Qed.

End WindowStart.

(** A window of 800000 days back from noon of the first of January 2025
    would start before the year 1. *)
Example time_series_before_year_one :
  get_time_series_data ExampleClock.fromisoformat ExampleClock.utc PlainYear
    noon mixed_models 800000 = None.
Proof. reflexivity. Qed.

(** ** The parser, line by line *)

Section ParsingFacts.
Variable json_loads : string -> loads_result.

Local Abbreviation read_lines := (parse_lines json_loads).
Local Abbreviation read_file := (parse_jsonl_file json_loads).
Local Abbreviation reload := (load_data json_loads).

(** The entries found so far stay in front. *)
Lemma parse_lines_acc parent lines : forall acc,
  read_lines parent lines acc = acc ++ read_lines parent lines [].
Proof.
  induction lines as [|line rest IH]; intros acc; cbn [parse_lines].
  - rewrite app_nil_r. reflexivity.
  - destruct (json_loads (strip line)) as [data| |].
    + destruct (extract_usage parent data) as [[e|]|].
      * rewrite (IH (acc ++ [e])), (IH ([] ++ [e])), app_assoc. reflexivity.
      * apply IH.
      * rewrite app_nil_r. reflexivity.
    + apply IH.
    + rewrite app_nil_r. reflexivity.
Qed.

Lemma parse_lines_length parent lines :
  (List.length (read_lines parent lines []) <= List.length lines)%nat.
Proof.
  induction lines as [|line rest IH]; cbn [parse_lines List.length]; [lia|].
  destruct (json_loads (strip line)) as [data| |];
    [destruct (extract_usage parent data) as [[e|]|]| |];
    cbn [List.length]; try lia.
  rewrite parse_lines_acc, length_app. cbn [app List.length]. lia.
Qed.

Lemma parse_lines_more parent lines more : forall acc,
  exists extra,
    read_lines parent (lines ++ more) acc = read_lines parent lines acc ++ extra
    /\ (List.length extra <= List.length more)%nat.
Proof.
  induction lines as [|line rest IH]; intros acc; cbn [parse_lines app].
  - exists (read_lines parent more []). split; [apply parse_lines_acc|].
    apply parse_lines_length.
  - destruct (json_loads (strip line)) as [data| |].
    + destruct (extract_usage parent data) as [[e|]|]; [apply IH|apply IH|].
      exists []. rewrite app_nil_r. split; [reflexivity|simpl; lia].
    + apply IH.
    + exists []. rewrite app_nil_r. split; [reflexivity|simpl; lia].
Qed.

Lemma parse_lines_parent parent lines : forall acc,
  Forall (fun e => e_project_dir e = parent) acc ->
  Forall (fun e => e_project_dir e = parent) (read_lines parent lines acc).
Proof.
  induction lines as [|line rest IH]; intros acc Hacc; cbn [parse_lines];
    [assumption|].
  destruct (json_loads (strip line)) as [data| |]; auto.
  destruct (extract_usage parent data) as [[e|]|] eqn:E; auto.
  apply IH. apply Forall_app. split; [assumption|].
  constructor; [|constructor].
  unfold extract_usage in E.
  repeat match type of E with
         | bind ?m _ = _ => destruct m; cbn [bind] in E; [|discriminate]
         | (if ?c then _ else _) = _ => destruct c; [|discriminate]
         end.
  inversion E. reflexivity.
Qed.

(** The way the iteration ends does not change what was found. *)
Lemma parse_jsonl_file_lines parent lines ending :
  read_file (mkFile parent (Some (mkText lines ending)))
  = read_lines parent lines [].
Proof. unfold parse_jsonl_file. destruct ending; reflexivity. Qed.

(** X5.  A session file read twice.  When the second reading yields the
    lines the first one yielded, followed by further lines, the entries
    of the second reading are the entries of the first, in the same
    order, followed by at most one further entry for each further line,
    whether a reading ends at the end of the file or with a chunk that
    does not decode.  This is about what the reader yields: bytes that do
    not decode, appended to a file, can make the reader yield fewer lines
    than it did before. *)
Theorem parse_grows_with_file (parent : string) (lines more : list string)
    (ending ending' : reading_end) :
  exists extra,
    parse_jsonl_file json_loads
      (mkFile parent (Some (mkText (lines ++ more) ending')))
    = parse_jsonl_file json_loads (mkFile parent (Some (mkText lines ending)))
      ++ extra
    /\ (List.length extra <= List.length more)%nat.
Proof.
  rewrite !parse_jsonl_file_lines. apply parse_lines_more.
Qed.

(** X6.  Every entry after a load with the root present comes from a file
    under the root and carries the name of the directory of that file as
    its project; a file gives at most one entry for each of its lines,
    and none when it cannot be opened. *)
Theorem load_data_provenance (files : list jsonl_file) (usage_data : list Entry) :
  (forall e, In e (load_data json_loads (Some files) usage_data) ->
             exists f, In f files /\ In e (parse_jsonl_file json_loads f)
                       /\ e_project_dir e = parent_name f)
  /\ (forall f, (List.length (parse_jsonl_file json_loads f) <= line_count f)%nat)
  /\ (List.length (load_data json_loads (Some files) usage_data)
      <= list_sum (map line_count files))%nat.
Proof.
  assert (Hlen : forall f, (List.length (read_file f) <= line_count f)%nat).
  { intros [parent [[lines ending]|]]; [|cbn; lia].
    rewrite parse_jsonl_file_lines. apply parse_lines_length. }
  split; [|split; [exact Hlen|]].
  - intros e He. rewrite load_data_rescan in He.
    apply in_concat in He. destruct He as [es [Hes He]].
    apply in_map_iff in Hes. destruct Hes as [f [<- Hf]].
    exists f. split; [assumption|]. split; [assumption|].
    destruct f as [parent [[lines ending]|]]; [|destruct He].
    rewrite parse_jsonl_file_lines in He. cbn [parent_name].
    pose proof (parse_lines_parent parent lines [] (Forall_nil _)) as Hp.
    exact (proj1 (Forall_forall _ _) Hp e He).
  - rewrite load_data_rescan. clear usage_data.
    induction files as [|f files IH]; cbn [map List.concat list_sum fold_right List.length];
      [lia|].
    rewrite length_app. specialize (Hlen f). unfold list_sum in IH. lia.
Qed.

(** X7.  A line gives an entry exactly when it decodes to an object whose
    ["type"] is ["assistant"] and whose ["message"] is an object with an
    object under ["usage"].  The entry takes the model from the message,
    the four counts from the usage, the timestamp and the session from
    the line, as they are, with ["unknown"], [0] and the empty string for
    what is missing, and the name of the directory of the file. *)
Theorem extract_usage_entry (parent : string) (data : json) (e : Entry) :
  extract_usage parent data = Some (Some e)
  <-> exists members message usage,
        data = JObject members
        /\ dict_get "type" members = Some (JString "assistant")
        /\ dict_get "message" members = Some (JObject message)
        /\ dict_get "usage" message = Some (JObject usage)
        /\ e = entry_of parent members message usage.
Proof.
  split.
  - unfold extract_usage.
    destruct data as [| | | | | |members]; try discriminate.
    cbn [py_get bind py_in py_getitem].
    destruct (dict_get "type" members) as [ty|] eqn:Ety;
      [|cbn [is_str]; discriminate].
    destruct ty as [| | | |s| |]; cbn [is_str]; try discriminate.
    destruct (String.eqb s "assistant") eqn:Es; [|discriminate].
    apply String.eqb_eq in Es. subst s.
    unfold dict_mem. destruct (dict_get "message" members) as [msg|] eqn:Em;
      [|discriminate].
    cbn [bind].
    destruct msg as [| | | |s|items|message]; cbn [py_in bind py_getitem];
      try discriminate.
    + destruct (is_substring "usage" s); discriminate.
    + destruct (existsb (is_str "usage") items); discriminate.
    + unfold dict_mem. destruct (dict_get "usage" message) as [u|] eqn:Eu;
        [|discriminate].
      cbn [bind py_get].
      destruct u as [| | | | | |usage]; cbn [py_get bind]; try discriminate.
      intros H. inversion H. exists members, message, usage.
      split; [reflexivity|]. split; [exact Ety|]. split; [exact Em|].
      split; [exact Eu|]. reflexivity.
  - intros (members & message & usage & -> & Ety & Em & Eu & ->).
    unfold extract_usage, entry_of, get_or.
    cbn [py_get bind py_in py_getitem]. unfold dict_mem. rewrite Ety, Em.
    cbn [is_str]. rewrite String.eqb_refl. cbn [bind py_in py_getitem].
    unfold dict_mem. rewrite Eu. cbn [bind py_get]. reflexivity.
Qed.

End ParsingFacts.

(** What a line leaves out gets its default. *)
Example parse_bare_usage_line :
  parse_jsonl_file BasicJson.json_loads (file_of [bare_usage_line])
  = [ mkEntry (JString "unknown") (JString "") (JInt 12) (JInt 0) (JInt 0)
        (JInt 0) (JString "") "project" ].
Proof. vm_compute. reflexivity. Qed.

(** A file of two lines, and the same file after a third line was
    appended. *)
Example parse_grown_file :
  parse_jsonl_file BasicJson.json_loads
    (file_of ([usage_line; user_line] ++ [bare_usage_line]))
  = parse_jsonl_file BasicJson.json_loads (file_of [usage_line; user_line])
    ++ [ mkEntry (JString "unknown") (JString "") (JInt 12) (JInt 0) (JInt 0)
           (JInt 0) (JString "") "project" ].
Proof. vm_compute. reflexivity. Qed.

(** ** [get_hourly_usage]: the buckets together *)

Section HourlyTotals.
Variable fromisoformat : string -> option tz_datetime.
Variable astimezone : tz_datetime -> option tz_datetime.

Local Abbreviation hour_step := (hourly_entry fromisoformat astimezone).
Local Abbreviation from := (since fromisoformat astimezone).

(** One pass of the loop: the bucket of the entry gets its tally with the
    entry added, in its place or as the last key. *)
Lemma hourly_entry_set cutoff d r :
  hour_step cutoff d r =
    match get_local_datetime fromisoformat astimezone (timestamp r) with
    | Some lt =>
        if cutoff <=? replace_tzinfo_none lt then
          let k := strftime_hour lt in
          dict_set k (add_hour match dict_get k d with
                               | Some b => b
                               | None => new_hour_stats
                               end r) d
        else d
    | None => d
    end.
Proof.
  unfold hourly_entry.
  destruct (get_local_datetime fromisoformat astimezone (timestamp r)) as [lt|];
    [|reflexivity].
  destruct (cutoff <=? replace_tzinfo_none lt); [|reflexivity].
  cbv zeta. set (k := strftime_hour lt).
  change (if dict_mem k d then d else dict_set k new_hour_stats d)
    with (dict_touch k new_hour_stats d).
  rewrite dict_touch_adjust. unfold add_hour.
  destruct (calculate_cost r) as [c|]; [|reflexivity].
  rewrite dict_set_adjust. reflexivity.
Qed.

Lemma hourly_fold_sum (f : HourStats -> Z) (g : UsageRecord -> Z) cutoff data :
  f new_hour_stats = 0 ->
  (forall b r, f (add_hour b r) = f b + g r) ->
  forall d,
  zsum (map f (dict_values (fold_left (hour_step cutoff) data d)))
  = zsum (map f (dict_values d)) + zsum (map g (filter (from cutoff) data)).
Proof.
  intros Hnew Hadd.
  induction data as [|r data IH]; intros d; cbn [fold_left filter map zsum];
    [lia|].
  rewrite IH, hourly_entry_set. unfold since, local_naive.
  destruct (get_local_datetime fromisoformat astimezone (timestamp r)) as [lt|];
    cbn [option_map]; [|lia].
  destruct (cutoff <=? replace_tzinfo_none lt); [|lia].
  cbv zeta. rewrite zsum_dict_set, Hadd. cbn [map zsum].
  destruct (dict_get (strftime_hour lt) d); lia.
Qed.

Lemma add_hour_requests b r :
  h_requests (add_hour b r)
  = h_requests b + match calculate_cost r with Some _ => 1 | None => 0 end.
Proof. unfold add_hour. destruct (calculate_cost r); cbn [h_requests]; lia. Qed.

Lemma add_hour_tokens b r : h_tokens (add_hour b r) = h_tokens b + total_tokens r.
Proof. unfold add_hour. destruct (calculate_cost r); reflexivity. Qed.

Lemma computed_count rs :
  zsum (map (fun r => match calculate_cost r with Some _ => 1 | None => 0 end) rs)
  = len (known_costs rs).
Proof.
  induction rs as [|r rs IH]; [reflexivity|].
  cbn [map zsum]. rewrite known_costs_cons, IH.
  destruct (calculate_cost r); rewrite ?len_cons; lia.
Qed.

(** X8.  The buckets of [get_hourly_usage] lose and invent nothing: summed
    over the keys, the tokens are the total tokens of the records whose
    timestamp parses and whose local time is not before [now - hours],
    and the requests are the number of those records whose cost is
    computed.  Over the same window, [hours = 24 * days], the buckets of
    [get_time_series_data] add up to the same tokens and requests. *)
Theorem hourly_usage_totals (now : datetime) (hours : Z)
    (usage_data : list UsageRecord)
    (Hnow : valid_datetime now)
    (Hcutoff : valid_datetime (now - hours * US_PER_HOUR)) :
  let window :=
    filter (since fromisoformat astimezone (now - hours * US_PER_HOUR))
      usage_data in
  exists hourly,
    get_hourly_usage fromisoformat astimezone now usage_data hours = Some hourly
    /\ zsum (map h_tokens (dict_values hourly)) = zsum (map total_tokens window)
    /\ zsum (map h_requests (dict_values hourly)) = len (known_costs window)
    /\ (forall style days, hours = 24 * days ->
        exists time_series time_format,
          get_time_series_data fromisoformat astimezone style now usage_data days
          = Some (time_series, time_format)
          /\ zsum (map s_total_tokens (dict_values time_series))
             = zsum (map h_tokens (dict_values hourly))
          /\ zsum (map s_requests (dict_values time_series))
             = zsum (map h_requests (dict_values hourly))).
Proof.
  intros window. set (cutoff := now - hours * US_PER_HOUR) in *.
  assert (Hrun : get_hourly_usage fromisoformat astimezone now usage_data hours
                 = Some (fold_left (hour_step cutoff) usage_data [])).
  { unfold get_hourly_usage, timedelta_hours.
    replace (hours * US_PER_HOUR) with (now - cutoff) by (subst cutoff; lia).
    rewrite mk_timedelta_between by assumption. cbn [bind].
    rewrite dt_sub_valid
      by (replace (now - (now - cutoff)) with cutoff by lia; assumption).
    cbn [bind]. replace (now - (now - cutoff)) with cutoff by lia. reflexivity. }
  assert (Htok : zsum (map h_tokens
                         (dict_values (fold_left (hour_step cutoff) usage_data [])))
                 = zsum (map total_tokens window)).
  { rewrite (hourly_fold_sum h_tokens total_tokens);
      [reflexivity|reflexivity|apply add_hour_tokens]. }
  assert (Hreq : zsum (map h_requests
                         (dict_values (fold_left (hour_step cutoff) usage_data [])))
                 = len (known_costs window)).
  { rewrite (hourly_fold_sum h_requests
               (fun r => match calculate_cost r with Some _ => 1 | None => 0 end));
      [|reflexivity|apply add_hour_requests].
    cbn [dict_values map zsum]. rewrite Z.add_0_l. apply computed_count. }
  eexists. split; [exact Hrun|]. split; [exact Htok|]. split; [exact Hreq|].
  intros style days Hd.
  assert (Ecut : now - days * US_PER_DAY = cutoff)
    by (subst cutoff hours; unfold US_PER_DAY, US_PER_HOUR; lia).
  eexists. eexists.
  split; [apply get_time_series_data_runs; [assumption|rewrite Ecut; assumption]|].
  assert (Hnil : Forall cost_started (@dict_values SeriesStats []))
    by constructor.
  rewrite Htok, Hreq, Ecut. split.
  - rewrite (series_fold_sum _ _ _ s_total_tokens total_tokens);
      [reflexivity|reflexivity|reflexivity|exact Hnil].
  - rewrite (series_fold_sum _ _ _ s_requests
               (fun r => match calculate_cost r with Some _ => 1 | None => 0 end));
      [|reflexivity|intros b r Hb; apply series_add_requests; exact Hb|exact Hnil].
    cbn [dict_values map zsum]. rewrite Z.add_0_l. apply computed_count.
Qed.

End HourlyTotals.

Lemma hourly_usage_totals_witness :
  let window :=
    filter (since ExampleClock.fromisoformat ExampleClock.utc
              (noon_next_day - 24 * US_PER_HOUR)) two_days in
  exists hourly,
    get_hourly_usage ExampleClock.fromisoformat ExampleClock.utc noon_next_day
      two_days 24 = Some hourly
    /\ zsum (map h_tokens (dict_values hourly)) = zsum (map total_tokens window)
    /\ zsum (map h_requests (dict_values hourly)) = len (known_costs window)
    /\ (forall style days, 24 = 24 * days ->
        exists time_series time_format,
          get_time_series_data ExampleClock.fromisoformat ExampleClock.utc style
            noon_next_day two_days days = Some (time_series, time_format)
          /\ zsum (map s_total_tokens (dict_values time_series))
             = zsum (map h_tokens (dict_values hourly))
          /\ zsum (map s_requests (dict_values time_series))
             = zsum (map h_requests (dict_values hourly))).
Proof.
  apply (hourly_usage_totals ExampleClock.fromisoformat ExampleClock.utc
           noon_next_day 24 two_days).
  - vm_compute. split; [discriminate|reflexivity].
  - vm_compute. split; [discriminate|reflexivity].
Defined.

(** The four example records in the last 24 hours before noon of the
    second of January: 1335 tokens in 4 requests. *)
Example hourly_usage_total_tokens :
  option_map (fun hourly => (zsum (map h_tokens (dict_values hourly)),
                             zsum (map h_requests (dict_values hourly))))
    (get_hourly_usage ExampleClock.fromisoformat ExampleClock.utc noon_next_day
       two_days 24)
  = Some (1335, 4).
Proof. vm_compute. reflexivity. Qed.

(** ** [get_recent_activity] with a negative limit *)

(** X9.  A negative limit does not mean no record: the slice [[:limit]]
    then leaves out the last [- limit] records of the sorted collection,
    the oldest ones, and returns the others; it is empty only when the
    collection has no more than [- limit] records. *)
Theorem recent_activity_negative_limit (usage_data : list UsageRecord)
    (limit : Z) (Hneg : limit < 0) :
  let out := get_recent_activity usage_data limit in
  len out = Z.max 0 (len usage_data + limit)
  /\ (exists left_out,
        sorted_desc timestamp usage_data = out ++ left_out
        /\ len left_out = Z.min (- limit) (len usage_data))
  /\ (out = [] <-> len usage_data <= - limit).
Proof.
  unfold get_recent_activity, slice_to.
  assert (Hlt : (0 <=? limit) = false) by (apply Z.leb_gt; assumption).
  rewrite Hlt. cbv zeta.
  pose proof (Permutation_length (sorted_desc_perm timestamp usage_data)) as Hlen.
  set (sorted := sorted_desc timestamp usage_data) in *.
  assert (Hl : len sorted = len usage_data) by (unfold len; rewrite Hlen; reflexivity).
  rewrite Hl.
  set (n := Z.to_nat (len usage_data + limit)).
  assert (Hout : len (firstn n sorted) = Z.max 0 (len usage_data + limit)).
  { unfold len in *. rewrite length_firstn. subst n. lia. }
  split; [exact Hout|]. split.
  - exists (skipn n sorted). split; [symmetry; apply firstn_skipn|].
    unfold len in *. rewrite length_skipn. subst n. lia.
  - split.
    + intros E. rewrite E in Hout. unfold len in Hout at 1.
      cbn [List.length Z.of_nat] in Hout. lia.
    + intros Hle. destruct (firstn n sorted) as [|r rs] eqn:E; [reflexivity|].
      unfold len in Hout at 1. cbn [List.length] in Hout. lia.
Qed.

Lemma recent_activity_negative_limit_witness :
  get_recent_activity mixed_models (-1)
  = [ usage "claude-sonnet-4-20250514" "2025-01-01T10:20:00Z" 300 0 0 0;
      usage "claude-3-opus-20240229" "2025-01-01T10:10:00Z" 200 0 0 0 ]
  /\ len (get_recent_activity mixed_models (-1)) = Z.max 0 (len mixed_models + -1).
Proof.
  split; [reflexivity|].
  apply (recent_activity_negative_limit mixed_models (-1)). lia.
Defined.

(** ** [get_summary_stats] and the order of the records *)

Lemma zsum_perm l l' : Permutation l l' -> zsum l = zsum l'.
Proof. induction 1; simpl; lia. Qed.

Lemma filter_perm {A} (p : A -> bool) l l' :
  Permutation l l' -> Permutation (filter p l) (filter p l').
Proof.
  induction 1 as [|x l l' H IH|x y l|l l' l'' H1 IH1 H2 IH2]; cbn [filter].
  - constructor.
  - destruct (p x); [constructor|]; assumption.
  - destruct (p x), (p y); try apply Permutation_refl. constructor.
  - eapply Permutation_trans; eassumption.
Qed.

Lemma traverse_perm {A B} (f : A -> option B) l l' bs :
  Permutation l l' -> traverse f l = Some bs -> exists bs', traverse f l' = Some bs'.
Proof.
  intros Hp Hs. destruct (traverse f l') as [bs'|] eqn:E; [eexists; reflexivity|].
  apply traverse_none in E. destruct E as [a [Hin Hf]].
  assert (Hn : traverse f l = None).
  { apply traverse_none. exists a. split; [|assumption].
    apply (Permutation_in a (Permutation_sym Hp)). assumption. }
  congruence.
Qed.

(** The integer tallies of the records of a model, in any order. *)
Lemma model_tally_counts rs rs' : Permutation rs rs' ->
  option_map counts_of (model_tally rs) = option_map counts_of (model_tally rs').
Proof.
  intros Hp. unfold model_tally.
  destruct (traverse calculate_cost rs) as [cs|] eqn:E.
  - destruct (traverse_perm _ _ _ _ Hp E) as [cs' ->]. cbn [bind option_map].
    unfold counts_of, len. cbn [requests m_input_tokens m_output_tokens
      m_cache_creation_input_tokens m_cache_read_input_tokens].
    rewrite (Permutation_length Hp).
    rewrite (zsum_perm _ _ (Permutation_map input_tokens Hp)).
    rewrite (zsum_perm _ _ (Permutation_map output_tokens Hp)).
    rewrite (zsum_perm _ _ (Permutation_map cache_creation_input_tokens Hp)).
    rewrite (zsum_perm _ _ (Permutation_map cache_read_input_tokens Hp)).
    reflexivity.
  - destruct (traverse calculate_cost rs') as [cs'|] eqn:E'; [|reflexivity].
    destruct (traverse_perm _ _ _ _ (Permutation_sym Hp) E') as [cs Hcs].
    congruence.
Qed.

(** X10.  The files under the root are read in the order the file system
    lists them.  When the same records are summarized in another order,
    the summary is computed as well, with the same request count and the
    same four token totals, and under every model the same request count
    and token sums; the models are the same, possibly in another order.
    (The costs are sums of floats and may differ in the last place.) *)
Theorem summarize_order_independent (alg : sum_algorithm)
    (data data' : list UsageRecord) (s : SummaryStats)
    (Hperm : Permutation data data') (Hs : summarize alg data = Some s) :
  exists s',
    summarize alg data' = Some s'
    /\ total_requests s' = total_requests s
    /\ total_input s' = total_input s
    /\ total_output s' = total_output s
    /\ total_cache_creation s' = total_cache_creation s
    /\ total_cache_read s' = total_cache_read s
    /\ (forall m, option_map counts_of (dict_get m (models s'))
                  = option_map counts_of (dict_get m (models s)))
    /\ Permutation (dict_keys (models s')) (dict_keys (models s)).
Proof.
  destruct (traverse calculate_cost data) as [costs|] eqn:Ec;
    [|rewrite (summarize_none alg data Ec) in Hs; discriminate].
  destruct (traverse_perm _ _ _ _ Hperm Ec) as [costs' Ec'].
  destruct (summarize_some alg data costs Ec) as (d & Ed & Hd).
  destruct (summarize_some alg data' costs' Ec') as (d' & Ed' & Hd').
  rewrite Hd in Hs. inversion Hs; subst s. clear Hs.
  eexists. split; [exact Hd'|].
  cbn [total_requests total_input total_output total_cache_creation
       total_cache_read models].
  assert (Hget : forall m, option_map counts_of (dict_get m d')
                           = option_map counts_of (dict_get m d)).
  { intros m.
    rewrite (count_entries_get _ _ _ Ed m), (count_entries_get _ _ _ Ed' m).
    cbn [dict_get].
    pose proof (filter_perm (fun r => String.eqb (model r) m) _ _ Hperm) as Hm.
    fold (by_model m data) in Hm. fold (by_model m data') in Hm.
    destruct (by_model m data) as [|r rs] eqn:E.
    - apply Permutation_nil in Hm. rewrite Hm. reflexivity.
    - destruct (by_model m data') as [|r' rs'] eqn:E'.
      + apply Permutation_sym, Permutation_nil in Hm. discriminate.
      + rewrite !tally_onto_new. symmetry. apply model_tally_counts. exact Hm. }
  unfold len. rewrite (Permutation_length Hperm).
  rewrite (zsum_perm _ _ (Permutation_map input_tokens Hperm)).
  rewrite (zsum_perm _ _ (Permutation_map output_tokens Hperm)).
  rewrite (zsum_perm _ _ (Permutation_map cache_creation_input_tokens Hperm)).
  rewrite (zsum_perm _ _ (Permutation_map cache_read_input_tokens Hperm)).
  repeat split; try reflexivity; [exact Hget|].
  apply NoDup_Permutation.
  - eapply count_entries_NoDup; [exact Ed'|constructor].
  - eapply count_entries_NoDup; [exact Ed|constructor].
  - intros m. rewrite <- !dict_get_In. specialize (Hget m).
    destruct (dict_get m d'), (dict_get m d); cbn [option_map] in Hget;
      try discriminate; split; intros H; try discriminate; exact H.
Qed.

Lemma summarize_order_independent_witness :
  exists s',
    summarize LeftToRight mixed_models_reordered = Some s'
    /\ total_requests s' = total_requests mixed_summary
    /\ total_input s' = total_input mixed_summary
    /\ total_output s' = total_output mixed_summary
    /\ total_cache_creation s' = total_cache_creation mixed_summary
    /\ total_cache_read s' = total_cache_read mixed_summary
    /\ (forall m, option_map counts_of (dict_get m (models s'))
                  = option_map counts_of (dict_get m (models mixed_summary)))
    /\ Permutation (dict_keys (models s')) (dict_keys (models mixed_summary)).
Proof.
  apply (summarize_order_independent LeftToRight mixed_models
           mixed_models_reordered mixed_summary).
  - unfold mixed_models, mixed_models_reordered.
    eapply Permutation_trans; [apply perm_swap|].
    apply perm_skip. apply perm_swap.
  - vm_compute. reflexivity.
Defined.

(** In the other order the models come in the other order. *)
Example summarize_reordered_models :
  option_map (fun s => dict_keys (models s))
    (summarize LeftToRight mixed_models_reordered)
  = Some ["claude-3-opus-20240229"; "claude-sonnet-4-20250514"]
  /\ dict_keys (models mixed_summary)
     = ["claude-sonnet-4-20250514"; "claude-3-opus-20240229"].
Proof. split; vm_compute; reflexivity. Qed.

(** ** [GraphGenerator.generate_graph] *)

Lemma some_inj {A} (a b : A) : Some a = Some b -> a = b.
Proof. intros H. injection H as H. exact H. Qed.

Lemma length_repeat_space n : String.length (repeat_string " " n) = n.
Proof. induction n as [|n IH]; simpl; [reflexivity|]. rewrite IH. reflexivity. Qed.

(** A centred text is as wide as asked, at least. *)
Lemma length_center w s : (w <= String.length (center w s))%nat.
Proof.
  unfold center. rewrite !length_append, !length_repeat_space.
  set (pad := (w - String.length s)%nat).
  assert (H : (Nat.div2 pad + (if Nat.odd pad && Nat.odd w then 1 else 0)
               <= pad)%nat).
  { destruct (Nat.odd pad) eqn:E; cbn [andb].
    - pose proof (Nat.div2_odd pad) as Hd. rewrite E in Hd. cbn [Nat.b2n] in Hd.
      destruct (Nat.odd w); lia.
    - pose proof (Nat.div2_odd pad) as Hd. lia. }
  lia.
Qed.

Lemma length_concat_head sep s rest :
  (String.length s <= String.length (String.concat sep (s :: rest)))%nat.
Proof.
  destruct rest as [|s' rest]; cbn [String.concat]; [lia|].
  rewrite length_append. lia.
Qed.

Section SortedItemsFacts.
Context {V : Type}.

Lemma insert_item_perm (x : string * V) l : Permutation (insert_item x l) (x :: l).
Proof.
  induction l as [|y l IH]; cbn [insert_item]; [apply Permutation_refl|].
  destruct (String.ltb (fst y) (fst x)); [|apply Permutation_refl].
  eapply Permutation_trans; [apply perm_skip; exact IH|apply perm_swap].
Qed.

Lemma sorted_items_perm (d : dict V) : Permutation (sorted_items d) d.
Proof.
  unfold sorted_items. induction d as [|x d IH]; cbn [fold_right]; [constructor|].
  eapply Permutation_trans; [apply insert_item_perm|]. constructor. exact IH.
Qed.

Lemma dict_get_In_pair k (b : V) (d : dict V) :
  NoDup (dict_keys d) -> In (k, b) d -> dict_get k d = Some b.
Proof.
  unfold dict_keys. induction d as [|[k' v'] d IH]; cbn [map In dict_get fst].
  - intros _ [].
  - intros Hnd [H|H].
    + inversion H; subst. rewrite String.eqb_refl. reflexivity.
    + inversion Hnd as [|? ? Hnotin Hnd']; subst.
      destruct (String.eqb k k') eqn:E; [|apply IH; assumption].
      apply String.eqb_eq in E. subst k'. exfalso. apply Hnotin.
      apply in_map_iff. exists (k, b). split; [reflexivity|assumption].
Qed.

Lemma dict_get_pair_In k (b : V) (d : dict V) :
  dict_get k d = Some b -> In (k, b) d.
Proof.
  induction d as [|[k' v'] d IH]; cbn [dict_get In]; [discriminate|].
  destruct (String.eqb k k') eqn:E.
  - apply String.eqb_eq in E. intros H. inversion H; subst. left. reflexivity.
  - intros H. right. apply IH. exact H.
Qed.

End SortedItemsFacts.

(** The greatest of integers, as [max] finds it. *)
Lemma py_max_ints l : forall a,
  py_max (NInt a) (map NInt l) = NInt (fold_left Z.max l a).
Proof.
  unfold py_max. induction l as [|v l IH]; intros a; cbn [map fold_left];
    [reflexivity|].
  unfold number_gt at 2. cbn [compare_numbers].
  destruct (v ?= a) eqn:E.
  - apply Z.compare_eq in E. subst. rewrite Z.max_id. apply IH.
  - rewrite Z.compare_lt_iff in E. rewrite Z.max_l by lia. apply IH.
  - rewrite Z.compare_gt_iff in E. rewrite Z.max_r by lia. apply IH.
Qed.

Lemma max_zero l : forall a, 0 <= a -> Forall (fun v => 0 <= v) l ->
  (fold_left Z.max l a = 0 <-> a = 0 /\ Forall (fun v => v = 0) l).
Proof.
  induction l as [|v l IH]; intros a Ha Hl; cbn [fold_left].
  - split; [intros ->; split; [reflexivity|constructor]|intros [-> _]; reflexivity].
  - inversion Hl as [|? ? Hv Hl']; subst.
    rewrite IH by (assumption || lia). split.
    + intros [Hm Hall]. split; [lia|]. constructor; [lia|assumption].
    + intros [-> Hall]. inversion Hall; subst. split; [reflexivity|assumption].
Qed.

Lemma zsum_nonneg l : Forall (fun v => 0 <= v) l -> 0 <= zsum l.
Proof. induction 1; simpl; lia. Qed.

Lemma zsum_zero l : Forall (fun v => 0 <= v) l ->
  (zsum l = 0 <-> Forall (fun v => v = 0) l).
Proof.
  induction 1 as [|v l Hv Hl IH]; cbn [zsum].
  - split; [constructor|reflexivity].
  - pose proof (zsum_nonneg l Hl). split.
    + intros H0. constructor; [lia|]. apply IH. lia.
    + intros Hall. inversion Hall; subst. apply IH in H3. lia.
Qed.

Section GraphFacts.
Variable fromisoformat : string -> option tz_datetime.
Variable astimezone : tz_datetime -> option tz_datetime.
Variable style : year_style.

Local Abbreviation graph := (generate_graph fromisoformat astimezone style).
Local Abbreviation series_fold := (series_entry fromisoformat astimezone style).
Local Abbreviation after := (since fromisoformat astimezone).
Local Abbreviation bucket_of := (series_records fromisoformat astimezone style).

(** The series has no key exactly when no record is in the window. *)
Lemma series_fold_unchanged days fmt cutoff data : forall d,
  filter (after cutoff) data = [] ->
  fold_left (series_fold days fmt cutoff) data d = d.
Proof.
  induction data as [|r data IH]; intros d H; cbn [fold_left]; [reflexivity|].
  cbn [filter] in H. destruct (after cutoff r) eqn:E; [discriminate|].
  rewrite IH by assumption. rewrite series_entry_set.
  unfold since, local_naive in E.
  destruct (get_local_datetime fromisoformat astimezone (timestamp r)) as [lt|];
    [|reflexivity].
  cbn [option_map] in E. rewrite E. reflexivity.
Qed.

Lemma series_records_window days fmt cutoff r data :
  In r (filter (after cutoff) data) ->
  exists k, In r (bucket_of days fmt cutoff k data).
Proof.
  intros H. apply filter_In in H. destruct H as [Hin Hs].
  unfold since, local_naive in Hs.
  destruct (get_local_datetime fromisoformat astimezone (timestamp r)) as [lt|] eqn:E;
    [|discriminate].
  cbn [option_map] in Hs.
  exists (series_key style days fmt lt). unfold series_records.
  apply filter_In. split; [assumption|].
  unfold in_series_bucket. rewrite E, Hs, String.eqb_refl. reflexivity.
Qed.

Lemma series_records_in_window days fmt cutoff k r data :
  In r (bucket_of days fmt cutoff k data) -> In r (filter (after cutoff) data).
Proof.
  unfold series_records. rewrite !filter_In. intros [Hin Hb].
  split; [assumption|]. unfold in_series_bucket in Hb. unfold since, local_naive.
  destruct (get_local_datetime fromisoformat astimezone (timestamp r)) as [lt|];
    [|discriminate].
  cbn [option_map]. apply andb_true_iff in Hb. apply Hb.
Qed.

Lemma series_fold_nil days fmt cutoff data :
  fold_left (series_fold days fmt cutoff) data [] = []
  <-> filter (after cutoff) data = [].
Proof.
  split; [|apply series_fold_unchanged].
  intros H. destruct (filter (after cutoff) data) as [|r rs] eqn:E; [reflexivity|].
  exfalso.
  assert (Hr : In r (filter (after cutoff) data)) by (rewrite E; left; reflexivity).
  destruct (series_records_window days fmt cutoff r data Hr) as [k Hk].
  pose proof (series_fold_get fromisoformat astimezone style days fmt cutoff data [] k)
    as Hget.
  rewrite H in Hget. cbn [dict_get] in Hget.
  destruct (bucket_of days fmt cutoff k data); [destruct Hk|discriminate].
Qed.

(** The buckets of the fold, as pairs. *)
Lemma series_fold_pair days fmt cutoff data k b :
  In (k, b) (fold_left (series_fold days fmt cutoff) data [])
  <-> bucket_of days fmt cutoff k data <> []
      /\ b = series_tally (bucket_of days fmt cutoff k data).
Proof.
  pose proof (series_fold_get fromisoformat astimezone style days fmt cutoff data [] k)
    as Hget.
  cbn [dict_get] in Hget. split.
  - intros Hin.
    apply dict_get_In_pair in Hin;
      [|apply series_fold_NoDup; constructor].
    rewrite Hget in Hin.
    destruct (bucket_of days fmt cutoff k data) as [|r rs]; [discriminate|].
    rewrite series_tally_onto_new in Hin. inversion Hin.
    split; [discriminate|reflexivity].
  - intros [Hne ->]. apply dict_get_pair_In. rewrite Hget.
    destruct (bucket_of days fmt cutoff k data) as [|r rs]; [contradiction|].
    rewrite series_tally_onto_new. reflexivity.
Qed.

Lemma graph_runs now days data metric :
  valid_datetime now -> valid_datetime (now - days * US_PER_DAY) ->
  graph now data days metric =
    let time_series :=
      fold_left (series_fold days (if days <=? 2 then HOURLY_FORMAT else DAILY_FORMAT)
                   (now - days * US_PER_DAY)) data [] in
    match time_series with
    | [] => Some NO_DATA
    | _ :: _ =>
        match sorted_items time_series with
        | [] => Some NO_DATA_POINTS
        | sorted_data =>
            values <- traverse (fun item => series_field metric (snd item))
                        sorted_data ;;
            match values with
            | [] => Some NO_ACTIVITY
            | first :: rest =>
                if number_eq (py_max first rest) (NInt 0) then Some NO_ACTIVITY
                else
                  scaled_values <- traverse (scaled_value (py_max first rest))
                                     values ;;
                  title <- chart_title metric days ;;
                  rows <- traverse (chart_row metric (py_max first rest)
                                      scaled_values) chart_rows ;;
                  label_line <- chart_labels days 0 (map fst sorted_data)
                                  "          " ;;
                  Some (String.concat NEWLINE
                          ([center 110 title; ""] ++ rows
                           ++ [("         └"
                                ++ repeat_string "─"
                                     (List.length scaled_values * BAR_WIDTH))%string;
                               label_line]))
            end
        end
    end.
Proof.
  intros Hnow Hcut. unfold generate_graph.
  rewrite get_time_series_data_runs by assumption. reflexivity.
Qed.

(** A chart is longer than the two messages. *)
Lemma chart_text_long title rest :
  (110 <= String.length (String.concat NEWLINE (center 110 title :: rest)))%nat.
Proof.
  eapply Nat.le_trans; [apply length_center|apply length_concat_head].
Qed.

(** What [generate_graph] returns in place of a chart. *)
Lemma graph_cases now days data metric text :
  valid_datetime now -> valid_datetime (now - days * US_PER_DAY) ->
  graph now data days metric = Some text ->
  (text = NO_DATA /\ filter (after (now - days * US_PER_DAY)) data = [])
  \/ (filter (after (now - days * US_PER_DAY)) data <> []
      /\ (text = NO_ACTIVITY
          \/ ((110 <= String.length text)%nat /\ titled_metric metric = true))).
Proof.
  intros Hnow Hcut. rewrite graph_runs by assumption. cbv zeta.
  set (fmt := if days <=? 2 then HOURLY_FORMAT else DAILY_FORMAT).
  set (cutoff := now - days * US_PER_DAY).
  pose proof (series_fold_nil days fmt cutoff data) as Hnil.
  destruct (fold_left (series_fold days fmt cutoff) data []) as [|kv ts] eqn:Ets.
  - intros H. inversion H. left. split; [reflexivity|]. apply Hnil. reflexivity.
  - assert (Hwin : filter (after cutoff) data <> []).
    { intros E. apply Hnil in E. discriminate. }
    pose proof (sorted_items_perm (kv :: ts)) as Hperm.
    destruct (sorted_items (kv :: ts)) as [|item items] eqn:Es.
    { apply Permutation_nil in Hperm. discriminate. }
    destruct (traverse _ (item :: items)) as [values|]; cbn [bind]; [|discriminate].
    destruct values as [|first rest].
    { intros H. inversion H. right. split; [assumption|]. left. reflexivity. }
    destruct (number_eq (py_max first rest) (NInt 0)).
    { intros H. inversion H. right. split; [assumption|]. left. reflexivity. }
    destruct (traverse (scaled_value _) _) as [scaled|]; cbn [bind]; [|discriminate].
    unfold titled_metric, chart_title.
    destruct (String.eqb metric "total_tokens");
      [|destruct (String.eqb metric "cost");
        [|destruct (String.eqb metric "requests"); [|discriminate]]];
      cbn [bind orb];
      (destruct (traverse (chart_row _ _ _) _) as [rows|]; cbn [bind];
       [|discriminate]);
      (destruct (chart_labels _ _ _ _) as [label_line|]; cbn [bind];
       [|discriminate]);
      intros H; apply some_inj in H; subst text; right;
      (split; [assumption|]); right;
      (split; [cbn [app]; apply chart_text_long|reflexivity]).
Qed.

(** X11.  [generate_graph] returns the text that there is no data exactly
    when no record of the collection has a timestamp that parses and a
    local time not before [now - days]; this whatever the metric is, a
    field of the buckets or not. *)
Theorem generate_graph_no_data (now : datetime) (days : Z)
    (usage_data : list UsageRecord) (metric : string)
    (Hnow : valid_datetime now)
    (Hcutoff : valid_datetime (now - days * US_PER_DAY)) :
  generate_graph fromisoformat astimezone style now usage_data days metric
  = Some NO_DATA
  <-> filter (since fromisoformat astimezone (now - days * US_PER_DAY)) usage_data
      = [].
Proof.
  split.
  - intros H. apply graph_cases in H; try assumption.
    destruct H as [[_ H]|[_ [H|[H _]]]]; [exact H|discriminate|].
    vm_compute in H. lia.
  - intros H. rewrite graph_runs by assumption. cbv zeta.
    rewrite series_fold_unchanged by assumption. reflexivity.
Qed.

Lemma total_tokens_values (items : list (string * SeriesStats)) :
  traverse (fun item => series_field "total_tokens" (snd item)) items
  = Some (map (fun item => NInt (s_total_tokens (snd item))) items).
Proof.
  induction items as [|item items IH]; cbn [traverse map]; [reflexivity|].
  rewrite IH. reflexivity.
Qed.

(** X13.  For the metric ['total_tokens'] and records with counts that
    are not negative, [generate_graph] returns the text that there is no
    activity exactly when some record is in the window and every record
    in the window has no token at all. *)
Theorem generate_graph_no_activity (now : datetime) (days : Z)
    (usage_data : list UsageRecord)
    (Hnow : valid_datetime now)
    (Hcutoff : valid_datetime (now - days * US_PER_DAY))
    (Hnonneg : Forall nonneg_counts usage_data) :
  let window :=
    filter (since fromisoformat astimezone (now - days * US_PER_DAY)) usage_data in
  generate_graph fromisoformat astimezone style now usage_data days "total_tokens"
  = Some NO_ACTIVITY
  <-> window <> [] /\ Forall (fun r => total_tokens r = 0) window.
Proof.
  intros window.
  set (fmt := if days <=? 2 then HOURLY_FORMAT else DAILY_FORMAT).
  set (cutoff := now - days * US_PER_DAY) in *.
  set (ts := fold_left (series_fold days fmt cutoff) usage_data []).
  assert (Hrec : forall r, In r window -> 0 <= total_tokens r).
  { intros r Hr. apply filter_In in Hr. destruct Hr as [Hr _].
    pose proof (proj1 (Forall_forall _ _) Hnonneg r Hr) as Hn.
    unfold nonneg_counts in Hn. unfold total_tokens. lia. }
  assert (Hbucket : forall k b, In (k, b) ts ->
            0 <= s_total_tokens b
            /\ (s_total_tokens b = 0 <->
                Forall (fun r => total_tokens r = 0) (bucket_of days fmt cutoff k usage_data))).
  { intros k b Hin. apply series_fold_pair in Hin. destruct Hin as [_ ->].
    cbn [series_tally s_total_tokens].
    assert (Hnn : Forall (fun v => 0 <= v)
                    (map total_tokens (bucket_of days fmt cutoff k usage_data))).
    { apply Forall_forall. intros v Hv. apply in_map_iff in Hv.
      destruct Hv as [r [<- Hr]]. apply Hrec.
      apply (series_records_in_window days fmt cutoff k). exact Hr. }
    split; [apply zsum_nonneg; exact Hnn|].
    rewrite (zsum_zero _ Hnn). rewrite Forall_map. reflexivity. }
  assert (Hall : Forall (fun kv => s_total_tokens (snd kv) = 0) ts
                 <-> Forall (fun r => total_tokens r = 0) window).
  { rewrite !Forall_forall. split.
    - intros H r Hr.
      destruct (series_records_window days fmt cutoff r usage_data Hr) as [k Hk].
      assert (Hin : In (k, series_tally (bucket_of days fmt cutoff k usage_data)) ts).
      { apply series_fold_pair. split; [|reflexivity]. intros E. rewrite E in Hk.
        destruct Hk. }
      pose proof (H _ Hin) as H0. cbn [snd] in H0.
      apply (proj1 (proj2 (Hbucket _ _ Hin))) in H0.
      exact (proj1 (Forall_forall _ _) H0 r Hk).
    - intros H [k b] Hin. cbn [snd]. apply (Hbucket k b Hin).
      apply Forall_forall. intros r Hr. apply H.
      apply (series_records_in_window days fmt cutoff k). exact Hr. }
  rewrite <- Hall. clear Hall.
  rewrite graph_runs by assumption. cbv zeta. fold fmt cutoff ts.
  pose proof (series_fold_nil days fmt cutoff usage_data) as Hnil. fold ts in Hnil.
  fold window in Hnil.
  destruct ts as [|kv ts'] eqn:Ets.
  { split; [discriminate|]. intros [Hne _]. contradiction Hne. apply Hnil.
    reflexivity. }
  assert (Hwin : window <> []) by (intros E; apply Hnil in E; discriminate).
  pose proof (sorted_items_perm (kv :: ts')) as Hperm.
  destruct (sorted_items (kv :: ts')) as [|item items] eqn:Es.
  { apply Permutation_nil in Hperm. discriminate. }
  rewrite total_tokens_values. cbn [bind map].
  change (map (fun item0 => NInt (s_total_tokens (snd item0))) items)
    with (map (fun item0 : string * SeriesStats => NInt ((fun kv0 => s_total_tokens (snd kv0)) item0)) items).
  rewrite <- (map_map (fun kv0 : string * SeriesStats => s_total_tokens (snd kv0)) NInt).
  rewrite py_max_ints. unfold number_eq at 1. cbn [compare_numbers].
  assert (Hnn : Forall (fun kv0 : string * SeriesStats => 0 <= s_total_tokens (snd kv0))
                  (item :: items)).
  { apply Forall_forall. intros [k b] Hin. cbn [snd].
    apply (Hbucket k b). apply (Permutation_in _ Hperm). exact Hin. }
  inversion Hnn as [|? ? Hitem Hitems]; subst.
  pose proof (max_zero (map (fun kv0 : string * SeriesStats => s_total_tokens (snd kv0)) items)
                (s_total_tokens (snd item)) Hitem
                (proj2 (Forall_map _ _ _) Hitems)) as Hmax.
  assert (Hzero : Forall (fun kv0 : string * SeriesStats => s_total_tokens (snd kv0) = 0)
                    (kv :: ts')
                  <-> fold_left Z.max
                        (map (fun kv0 : string * SeriesStats => s_total_tokens (snd kv0)) items)
                        (s_total_tokens (snd item)) = 0).
  { rewrite Hmax. rewrite Forall_map.
    rewrite <- (Forall_cons_iff (fun kv0 : string * SeriesStats => s_total_tokens (snd kv0) = 0)).
    split; intros H; rewrite Forall_forall in *; intros x Hx; apply H.
    - apply (Permutation_in _ Hperm). exact Hx.
    - apply (Permutation_in _ (Permutation_sym Hperm)). exact Hx. }
  rewrite Hzero.
  destruct (fold_left Z.max _ _ ?= 0) eqn:E.
  - apply Z.compare_eq in E. split; [intros _; split; assumption|reflexivity].
  - split; [|intros [_ H0]; rewrite H0 in E; discriminate].
    intros H. exfalso. revert H.
    destruct (traverse (scaled_value _) _); cbn [bind]; [|discriminate].
    destruct (traverse (chart_row _ _ _) _); cbn [bind]; [|discriminate].
    destruct (chart_labels _ _ _ _); cbn [bind]; [|discriminate].
    intros H. apply some_inj in H. rename H into H'.
    pose proof (chart_text_long
                  ("Token Usage Over Time (" ++ str_int days ++ "d)")%string
                  ("" :: l0 ++ [("         └" ++ repeat_string "─"
                                   (List.length l * BAR_WIDTH))%string; s])) as Hlong.
    cbn [app] in H'. rewrite H' in Hlong. vm_compute in Hlong. lia.
  - split; [|intros [_ H0]; rewrite H0 in E; discriminate].
    intros H. exfalso. revert H.
    destruct (traverse (scaled_value _) _); cbn [bind]; [|discriminate].
    destruct (traverse (chart_row _ _ _) _); cbn [bind]; [|discriminate].
    destruct (chart_labels _ _ _ _); cbn [bind]; [|discriminate].
    intros H. apply some_inj in H. rename H into H'.
    pose proof (chart_text_long
                  ("Token Usage Over Time (" ++ str_int days ++ "d)")%string
                  ("" :: l0 ++ [("         └" ++ repeat_string "─"
                                   (List.length l * BAR_WIDTH))%string; s])) as Hlong.
    cbn [app] in H'. rewrite H' in Hlong. vm_compute in Hlong. lia.
Qed.

End GraphFacts.

Lemma generate_graph_no_data_witness :
  generate_graph ExampleClock.fromisoformat ExampleClock.utc PlainYear
    noon_next_day [] 7 "cost" = Some NO_DATA
  <-> filter (since ExampleClock.fromisoformat ExampleClock.utc
                (noon_next_day - 7 * US_PER_DAY)) [] = [].
Proof.
  apply (generate_graph_no_data ExampleClock.fromisoformat ExampleClock.utc
           PlainYear noon_next_day 7 [] "cost").
  - vm_compute. split; [discriminate|reflexivity].
  - vm_compute. split; [discriminate|reflexivity].
Defined.

Lemma generate_graph_no_activity_witness :
  let window :=
    filter (since ExampleClock.fromisoformat ExampleClock.utc
              (noon_next_day - 7 * US_PER_DAY)) idle_records in
  generate_graph ExampleClock.fromisoformat ExampleClock.utc PlainYear
    noon_next_day idle_records 7 "total_tokens" = Some NO_ACTIVITY
  <-> window <> [] /\ Forall (fun r => total_tokens r = 0) window.
Proof.
  apply (generate_graph_no_activity ExampleClock.fromisoformat ExampleClock.utc
           PlainYear noon_next_day 7 idle_records).
  - vm_compute. split; [discriminate|reflexivity].
  - vm_compute. split; [discriminate|reflexivity].
  - repeat constructor; vm_compute; discriminate.
Defined.

(** With activity in the window, the metric ['input_tokens'] raises. *)
Example generate_graph_input_tokens_raises :
  generate_graph ExampleClock.fromisoformat ExampleClock.utc PlainYear
    noon_next_day two_days 7 "input_tokens" = None
  /\ generate_graph ExampleClock.fromisoformat ExampleClock.utc PlainYear
       noon_next_day two_days 7 "tokens" = None.
Proof. split; vm_compute; reflexivity. Qed.

(** The chart of the four example records by day has 20 lines; the bar of
    the first of January, 8 tokens of 1335, has its foot in the last row
    only. *)
Example generate_graph_by_day :
  option_map (fun text => List.length (split_at (ascii_of_nat 10) text EmptyString))
    (generate_graph ExampleClock.fromisoformat ExampleClock.utc PlainYear
       noon_next_day two_days 7 "total_tokens")
  = Some 20%nat
  /\ option_map (fun text => nth 17 (split_at (ascii_of_nat 10) text EmptyString) "")
       (generate_graph ExampleClock.fromisoformat ExampleClock.utc PlainYear
          noon_next_day two_days 7 "total_tokens")
     = Some "       0 │████████████"
  /\ option_map (fun text => nth 16 (split_at (ascii_of_nat 10) text EmptyString) "")
       (generate_graph ExampleClock.fromisoformat ExampleClock.utc PlainYear
          noon_next_day two_days 7 "total_tokens")
     = Some "      88 │      ██████"
  /\ option_map (fun text => nth 19 (split_at (ascii_of_nat 10) text EmptyString) "")
       (generate_graph ExampleClock.fromisoformat ExampleClock.utc PlainYear
          noon_next_day two_days 7 "total_tokens")
     = Some "           1/1   1/2  ".
Proof. repeat split; vm_compute; reflexivity. Qed.

(** ** [GraphGenerator.format_number] *)

Lemma float_of_million :
  exists m e, float_of_int 1000000 = Some (S754_finite false m e).
Proof. eexists. eexists. vm_compute. reflexivity. Qed.

Lemma float_of_thousand :
  exists m e, float_of_int 1000 = Some (S754_finite false m e).
Proof. eexists. eexists. vm_compute. reflexivity. Qed.

(** X14.  [format_number] raises in one case only: for a metric other
    than ['cost'], on a value that is a NaN ([ValueError] of [int]) or
    minus infinity ([OverflowError]).  Plus infinity is not below one
    million, and is written with the suffix [M]; for ['cost'] every float
    has a text. *)
Theorem format_number_raises (num : float) (metric : string) :
  (format_number num metric = None
   <-> metric <> "cost" /\ nan_or_minus_infinity num = true)
  /\ format_number (S754_infinity false) metric = Some "infM".
Proof.
  destruct float_of_million as (mm & em & Em).
  destruct float_of_thousand as (mt & et & Et).
  assert (Hdiv : forall n m e, float_of_int n = Some (S754_finite false m e) ->
                 number_div (NFloat num) (NInt n)
                 = Some (fdiv num (S754_finite false m e))).
  { intros n m e E. cbn [number_div]. rewrite E. reflexivity. }
  split.
  - unfold format_number.
    rewrite (Hdiv _ _ _ Em), (Hdiv _ _ _ Et). cbn [bind].
    destruct (String.eqb metric "cost") eqn:Ec.
    + apply String.eqb_eq in Ec.
      split; [|intros [H _]; contradiction].
      destruct (float_ge_int num 1000000); [discriminate|].
      destruct (float_ge_int num 1000); discriminate.
    + apply String.eqb_neq in Ec.
      destruct num as [s|[|]| |s m e]; cbn [nan_or_minus_infinity];
        unfold float_ge_int, number_ge; cbn [compare_numbers compare_float_int].
      * repeat match goal with
               | |- context [match ?c with Eq => _ | Lt => _ | Gt => _ end] =>
                   destruct c
               end;
          cbn [int_of_float bind]; (split; [discriminate|intros [_ H]; discriminate]).
      * cbn [int_of_float bind].
        split; [intros _; split; [assumption|reflexivity]|reflexivity].
      * split; [discriminate|intros [_ H]; discriminate].
      * cbn [int_of_float bind].
        split; [intros _; split; [assumption|reflexivity]|reflexivity].
      * repeat match goal with
               | |- context [match ?c with Eq => _ | Lt => _ | Gt => _ end] =>
                   destruct c
               end;
          cbn [int_of_float bind]; (split; [discriminate|intros [_ H]; discriminate]).
  - destruct (String.eqb metric "cost") eqn:Ec; unfold format_number; rewrite Ec;
      vm_compute; reflexivity.
Qed.

(** The three ranges of [format_number], and the rounding of each. *)
Example format_number_ranges :
  format_number (decimal 12345678 1) "total_tokens" = Some "1.2M"
  /\ format_number (decimal 9996 1) "total_tokens" = Some "999"
  /\ format_number (decimal 99996 2) "cost" = Some "999.96"
  /\ format_number (decimal 999999 0) "requests" = Some "1000.0K"
  /\ format_number S754_nan "cost" = Some "nan"
  /\ format_number S754_nan "requests" = None.
Proof. repeat split; vm_compute; reflexivity. Qed.

(** ** Floats: rounding between two points of a grid

    A value between [lo * 2^c] and [hi * 2^c] below [2^(53 + c)] is
    rounded on a grid at least as fine as [2^c], so the rounded value is
    between the same two points. *)

Section Grid.

Lemma pow2_pos k : 0 < 2 ^ k \/ 2 ^ k = 0.
Proof.
  destruct (Z_le_gt_dec 0 k); [left; apply Z.pow_pos_nonneg; lia|].
  right. apply Z.pow_neg_r. lia.
Qed.

Lemma pow2_gt0 k : 0 <= k -> 0 < 2 ^ k.
Proof. intros. apply Z.pow_pos_nonneg; lia. Qed.

Lemma pow2_add a b : 0 <= a -> 0 <= b -> 2 ^ (a + b) = 2 ^ a * 2 ^ b.
Proof. intros. apply Z.pow_add_r; assumption. Qed.

(** A shift of a mantissa with enough zeros at its end loses nothing. *)
Lemma shr_1_exact mrs : 0 <= shr_m mrs -> shr_r mrs = false -> shr_s mrs = false ->
  shr_m mrs mod 2 = 0 ->
  shr_r (shr_1 mrs) = false /\ shr_s (shr_1 mrs) = false.
Proof.
  destruct mrs as [m r s]; cbn [shr_m shr_r shr_s]. intros Hm -> -> Hmod.
  destruct m as [|p|p]; try lia; [split; reflexivity|].
  destruct p as [p|p|]; cbn [shr_1 orb shr_r shr_s]; try (split; reflexivity).
  - replace (Z.pos p~1) with (1 + Z.pos p * 2) in Hmod by lia.
    rewrite Z.mod_add in Hmod by lia. discriminate.
  - discriminate.
Qed.

Lemma iter_shr_1_exact p : forall mrs,
  0 <= shr_m mrs -> shr_r mrs = false -> shr_s mrs = false ->
  shr_m mrs mod 2 ^ Zpos p = 0 ->
  shr_r (iter_pos shr_1 p mrs) = false /\ shr_s (iter_pos shr_1 p mrs) = false.
Proof.
  assert (Hhalf : forall m k, 0 <= m -> 0 < k -> m mod 2 ^ (k + k) = 0 ->
            m mod 2 ^ k = 0 /\ (m / 2 ^ k) mod 2 ^ k = 0).
  { intros m k Hm Hk Hmod.
    apply Z.mod_divide in Hmod; [|apply Z.pow_nonzero; lia].
    destruct Hmod as [t Ht]. rewrite pow2_add in Ht by lia.
    assert (H2 : 0 < 2 ^ k) by (apply pow2_gt0; lia).
    split.
    - subst m. rewrite Z.mul_assoc. apply Z.mod_mul. lia.
    - subst m. rewrite Z.mul_assoc, Z.div_mul by lia. apply Z.mod_mul. lia. }
  induction p as [p IH|p IH|]; intros mrs Hm Hr Hs Hmod; cbn [iter_pos].
  - replace (Z.pos p~1) with (1 + (Z.pos p + Z.pos p)) in Hmod by lia.
    rewrite pow2_add in Hmod by lia. change (2 ^ 1) with 2 in Hmod.
    assert (H2 : 0 < 2 ^ (Z.pos p + Z.pos p)) by (apply pow2_gt0; lia).
    apply Z.mod_divide in Hmod; [|lia]. destruct Hmod as [t Ht].
    assert (Hm2 : shr_m mrs mod 2 = 0).
    { rewrite Ht.
      replace (t * (2 * 2 ^ (Z.pos p + Z.pos p)))
        with (t * 2 ^ (Z.pos p + Z.pos p) * 2) by lia.
      apply Z.mod_mul. lia. }
    destruct (shr_1_exact mrs Hm Hr Hs Hm2) as [Hr1 Hs1].
    assert (Hv1 : shr_m (shr_1 mrs) = t * 2 ^ (Z.pos p + Z.pos p)).
    { rewrite shr_1_value by assumption. rewrite Ht.
      replace (t * (2 * 2 ^ (Z.pos p + Z.pos p)))
        with (t * 2 ^ (Z.pos p + Z.pos p) * 2) by lia.
      apply Z.div_mul. lia. }
    assert (H01 : 0 <= shr_m (shr_1 mrs))
      by (rewrite shr_1_value by assumption; apply Z.div_pos; lia).
    destruct (Hhalf (shr_m (shr_1 mrs)) (Z.pos p) H01 ltac:(lia)) as [Ha Hb].
    { rewrite Hv1. apply Z.mod_mul. lia. }
    destruct (IH (shr_1 mrs) H01 Hr1 Hs1 Ha) as [Hr2 Hs2].
    apply IH; try assumption.
    + rewrite iter_shr_1_value by assumption. apply Z.div_pos; [assumption|].
      apply pow2_gt0. lia.
    + rewrite iter_shr_1_value by assumption. exact Hb.
  - replace (Z.pos p~0) with (Z.pos p + Z.pos p) in Hmod by lia.
    destruct (Hhalf (shr_m mrs) (Z.pos p) Hm ltac:(lia) Hmod) as [Ha Hb].
    destruct (IH mrs Hm Hr Hs Ha) as [Hr2 Hs2].
    apply IH; try assumption.
    + rewrite iter_shr_1_value by assumption. apply Z.div_pos; [assumption|].
      apply pow2_gt0. lia.
    + rewrite iter_shr_1_value by assumption. exact Hb.
  - apply shr_1_exact; assumption.
Qed.

Lemma loc_exact mrs : shr_r mrs = false -> shr_s mrs = false ->
  loc_of_shr_record mrs = loc_Exact.
Proof. destruct mrs as [m r s]; cbn [shr_r shr_s]. intros -> ->. reflexivity. Qed.

(** The shift of an exact mantissa that is a multiple of [2^n]. *)
Lemma shr_exact m e n : 0 <= m -> m mod 2 ^ Z.max 0 n = 0 ->
  loc_of_shr_record (fst (shr (shr_record_of_loc m loc_Exact) e n)) = loc_Exact.
Proof.
  intros Hm Hmod. destruct n as [|p|p]; cbn [shr fst]; try reflexivity.
  rewrite Z.max_r in Hmod by lia.
  destruct (iter_shr_1_exact p (shr_record_of_loc m loc_Exact)) as [Hr Hs];
    try reflexivity; try assumption.
  apply loc_exact; assumption.
Qed.

Lemma fexp_le x c : -1074 <= c -> x - 53 <= c -> fexp prec emax x <= c.
Proof. unfold fexp, emin, prec, emax. lia. Qed.

Lemma fexp_ge x : x - 53 <= fexp prec emax x.
Proof. unfold fexp, emin, prec, emax. lia. Qed.

(** The rounding of a mantissa between two points of the grid. *)
Lemma round_within m e l lo hi c :
  0 <= m -> e <= c -> -1074 <= c <= 971 -> 0 <= lo -> hi < 2 ^ 53 ->
  lo * 2 ^ (c - e) <= m <= hi * 2 ^ (c - e) ->
  l = loc_Exact \/ m < hi * 2 ^ (c - e) ->
  float_within lo hi c (binary_round_aux prec emax false m e l).
Proof.
  intros Hm Hec Hc Hlo Hhi [Hlom Hmhi] Hstrict.
  unfold binary_round_aux, shr_fexp.
  set (d := Zdigits2 m).
  set (n1 := fexp prec emax (d + e) - e).
  pose proof (shr_value (shr_record_of_loc m l) e n1) as H1.
  rewrite shr_m_of_loc in H1. specialize (H1 Hm).
  assert (Hexact : l = loc_Exact -> m mod 2 ^ Z.max 0 n1 = 0 ->
            loc_of_shr_record (fst (shr (shr_record_of_loc m l) e n1)) = loc_Exact).
  { intros -> Hmod. apply shr_exact; assumption. }
  destruct (shr (shr_record_of_loc m l) e n1) as [mrs1 e1].
  cbn [fst snd] in H1, Hexact. destruct H1 as [Hv1 He1].
  set (k1 := Z.max 0 n1) in *.
  assert (Hk1 : 0 <= k1) by (subst k1; lia).
  assert (H2c : 0 < 2 ^ (c - e)) by (apply pow2_gt0; lia).
  assert (Hhi0 : 0 <= hi).
  { destruct (Z_lt_le_dec hi 0) as [Hneg|]; [|assumption].
    assert (hi * 2 ^ (c - e) < 0) by (apply Z.mul_neg_pos; assumption). lia. }
  (* the first exponent is not above [c] *)
  assert (Hd : d + e - 53 <= c).
  { assert (Hlt : m < 2 ^ (53 + c - e)).
    { apply Z.le_lt_trans with (hi * 2 ^ (c - e)); [assumption|].
      replace (53 + c - e) with (53 + (c - e)) by lia.
      rewrite pow2_add by lia.
      apply Z.mul_lt_mono_pos_r; assumption. }
    pose proof (Zdigits2_le m (53 + c - e) ltac:(lia) (conj Hm Hlt)).
    subst d. lia. }
  assert (He1c : e1 <= c).
  { subst e1 k1 n1. pose proof (fexp_le (d + e) c ltac:(lia) Hd). lia. }
  assert (Hsplit : 2 ^ (c - e) = 2 ^ (c - e1) * 2 ^ k1).
  { rewrite <- pow2_add by lia. f_equal. lia. }
  set (P := 2 ^ (c - e1)) in *.
  assert (HP : 0 < P) by (subst P; apply pow2_gt0; lia).
  assert (HK : 0 < 2 ^ k1) by (apply pow2_gt0; lia).
  assert (Hm1lo : lo * P <= shr_m mrs1).
  { rewrite Hv1. apply Z.div_le_lower_bound; [assumption|].
    rewrite Hsplit in Hlom. lia. }
  assert (Hm1hi : shr_m mrs1 <= hi * P).
  { rewrite Hv1. apply Z.div_le_upper_bound; [assumption|].
    rewrite Hsplit in Hmhi. lia. }
  set (m2 := round_nearest_even (shr_m mrs1) (loc_of_shr_record mrs1)).
  assert (Hm1 : 0 <= shr_m mrs1) by (rewrite Hv1; apply Z.div_pos; lia).
  pose proof (round_nearest_even_bounds (shr_m mrs1) (loc_of_shr_record mrs1) Hm1)
    as Hm2.
  fold m2 in Hm2.
  assert (Hm2hi : m2 <= hi * P).
  { destruct (Z_lt_le_dec m (hi * 2 ^ (c - e))) as [Hlt|Hge].
    - assert (shr_m mrs1 < hi * P); [|lia].
      rewrite Hv1. apply Z.div_lt_upper_bound; [assumption|].
      rewrite Hsplit in Hlt. lia.
    - destruct Hstrict as [Hl|Hlt]; [|lia].
      assert (Hmeq : m = hi * P * 2 ^ k1) by (rewrite Hsplit in Hge, Hmhi; lia).
      assert (Hmod : m mod 2 ^ k1 = 0) by (rewrite Hmeq; apply Z.mod_mul; lia).
      subst m2. rewrite (Hexact Hl Hmod). cbn [round_nearest_even]. assumption. }
  assert (H02 : 0 <= m2) by lia.
  set (n2 := fexp prec emax (Zdigits2 m2 + e1) - e1).
  pose proof (shr_value (shr_record_of_loc m2 loc_Exact) e1 n2) as H2.
  rewrite shr_m_of_loc in H2. specialize (H2 H02).
  destruct (shr (shr_record_of_loc m2 loc_Exact) e1 n2) as [mrs2 e2].
  cbn [fst snd] in H2. destruct H2 as [Hv2 He2].
  set (k2 := Z.max 0 n2) in *.
  assert (Hk2 : 0 <= k2) by (subst k2; lia).
  assert (Hd2 : Zdigits2 m2 + e1 - 53 <= c).
  { assert (Hlt : m2 < 2 ^ (53 + c - e1)).
    { apply Z.le_lt_trans with (hi * P); [assumption|].
      replace (53 + c - e1) with (53 + (c - e1)) by lia.
      rewrite pow2_add by lia. fold P.
      apply Z.mul_lt_mono_pos_r; assumption. }
    pose proof (Zdigits2_le m2 (53 + c - e1) ltac:(lia) (conj H02 Hlt)). lia. }
  assert (He2c : e2 <= c).
  { subst e2 k2 n2. pose proof (fexp_le (Zdigits2 m2 + e1) c ltac:(lia) Hd2). lia. }
  assert (Hsplit2 : P = 2 ^ (c - e2) * 2 ^ k2).
  { subst P. rewrite <- pow2_add by lia. f_equal. lia. }
  assert (HP2 : 0 < 2 ^ (c - e2)) by (apply pow2_gt0; lia).
  assert (HK2 : 0 < 2 ^ k2) by (apply pow2_gt0; lia).
  assert (Hm3lo : lo * 2 ^ (c - e2) <= shr_m mrs2).
  { rewrite Hv2. apply Z.div_le_lower_bound; [assumption|].
    rewrite Hsplit2 in Hm1lo. lia. }
  assert (Hm3hi : shr_m mrs2 <= hi * 2 ^ (c - e2)).
  { rewrite Hv2. apply Z.div_le_upper_bound; [assumption|].
    rewrite Hsplit2 in Hm2hi. lia. }
  destruct (shr_m mrs2) as [|p|p] eqn:Ep.
  - cbn [float_within]. split; [|assumption].
    destruct (Z_lt_le_dec 0 lo) as [Hpos|]; [|assumption].
    assert (0 < lo * 2 ^ (c - e2)) by (apply Z.mul_pos_pos; assumption). lia.
  - assert (Hle : (e2 <=? emax - prec) = true)
      by (apply Z.leb_le; unfold emax, prec; lia).
    rewrite Hle. cbn [float_within]. split; [assumption|]. split; assumption.
  - assert (0 <= m2 / 2 ^ k2) by (apply Z.div_pos; assumption). lia.
Qed.

End Grid.

(** ** Floats: quotients and products between two points of a grid *)

Lemma Zdigits2_lower m : 0 < m -> 2 ^ (Zdigits2 m - 1) <= m.
Proof.
  destruct m as [|p|p]; try lia. intros _. cbn [Zdigits2].
  rewrite digits2_pos_size.
  pose proof (Pos.size_le p) as Hp.
  apply Pos2Z.pos_le_pos in Hp. rewrite Pos2Z.inj_pow in Hp.
  change (Z.pos p~0) with (2 * Z.pos p) in Hp.
  replace (Z.pos (Pos.size p)) with (1 + (Z.pos (Pos.size p) - 1)) in Hp by lia.
  rewrite pow2_add in Hp by lia. change (2 ^ 1) with 2 in Hp. lia.
Qed.

Lemma pow2_lt_exp a b : 0 <= a -> 0 <= b -> 2 ^ a < 2 ^ b -> a < b.
Proof. intros Ha Hb H. apply (Z.pow_lt_mono_r_iff 2); lia. Qed.

(** The quotient the division hands to the rounding, exactly. *)
Lemma div_core_quotient m1 e1 m2 e2 : 0 < m1 -> 0 < m2 ->
  forall q e' l, SFdiv_core_binary prec emax m1 e1 m2 e2 = (q, e', l) ->
  e' = Z.min (fexp prec emax (Zdigits2 m1 + e1 - (Zdigits2 m2 + e2))) (e1 - e2)
  /\ 0 <= q
  /\ q * m2 <= m1 * 2 ^ (e1 - e2 - e') < (q + 1) * m2
  /\ (m1 * 2 ^ (e1 - e2 - e') = q * m2 -> l = loc_Exact).
Proof.
  intros H1 H2 q e' l. unfold SFdiv_core_binary.
  set (e0 := Z.min _ _). set (s := e1 - e2 - e0).
  assert (Hs : 0 <= s) by (subst s e0; lia).
  assert (Hsdef : s = e1 - e2 - e0) by reflexivity. clearbody s.
  set (m' := match s with Z.pos _ => Z.shiftl m1 s | 0 => m1 | Z.neg _ => 0 end).
  assert (Hm' : m' = m1 * 2 ^ s).
  { subst m'. destruct s as [|p|p]; try lia.
    apply Z.shiftl_mul_pow2. lia. }
  clearbody m'.
  pose proof (Z_div_mod m' m2 ltac:(lia)) as Hdm.
  destruct (Z.div_eucl m' m2) as [q0 r0]. intros E.
  inversion E; subst q e' l. clear E.
  destruct Hdm as [Heq Hr].
  assert (0 <= m')
    by (rewrite Hm'; apply Z.mul_nonneg_nonneg; [lia|apply Z.pow_nonneg; lia]).
  assert (Hq0 : 0 <= q0).
  { destruct (Z_lt_le_dec q0 0) as [Hneg|]; [|assumption].
    assert (m2 * q0 <= m2 * (-1)) by (apply Z.mul_le_mono_nonneg_l; lia). lia. }
  split; [reflexivity|]. split; [assumption|].
  rewrite <- Hsdef, <- Hm'. split; [lia|].
  intros Hex. assert (r0 = 0) by lia. subst r0.
  unfold new_location, new_location_even, new_location_odd.
  destruct (Z.even m2); reflexivity.
Qed.

(** The quotient of two positive floats. *)
Lemma fdiv_within (m1 m2 : positive) e1 e2 lo hi c :
  -1074 <= c <= 971 -> 0 <= lo -> hi < 2 ^ 53 ->
  lo * Zpos m2 * 2 ^ Z.max 0 (- (e1 - e2 - c))
    <= Zpos m1 * 2 ^ Z.max 0 (e1 - e2 - c)
    <= hi * Zpos m2 * 2 ^ Z.max 0 (- (e1 - e2 - c)) ->
  float_within lo hi c (fdiv (S754_finite false m1 e1) (S754_finite false m2 e2)).
Proof.
  intros Hc Hlo Hhi [Hlow Hupp].
  set (g := e1 - e2 - c) in *.
  unfold fdiv, SFdiv.
  destruct (SFdiv_core_binary prec emax (Z.pos m1) e1 (Z.pos m2) e2)
    as [[q e'] l] eqn:E.
  apply div_core_quotient in E; try lia.
  destruct E as (He' & Hq & [Hqlo Hqhi] & Hex).
  cbn [xorb].
  set (d1 := Zdigits2 (Z.pos m1)) in *. set (d2 := Zdigits2 (Z.pos m2)) in *.
  assert (Hd1 : 2 ^ (d1 - 1) <= Z.pos m1) by (apply Zdigits2_lower; lia).
  assert (Hd2 : Z.pos m2 < 2 ^ d2) by (apply Zdigits2_gt; lia).
  assert (Hd1p : 1 <= d1) by (subst d1; cbn [Zdigits2]; lia).
  assert (Hd2p : 1 <= d2) by (subst d2; cbn [Zdigits2]; lia).
  assert (Hhi0 : 0 < hi).
  { destruct (Z_lt_le_dec 0 hi) as [|Hle]; [assumption|].
    assert (0 < 2 ^ Z.max 0 (- g)) by (apply pow2_gt0; lia).
    assert (0 < Z.pos m1 * 2 ^ Z.max 0 g)
      by (apply Z.mul_pos_pos; [lia|apply pow2_gt0; lia]).
    assert (hi * Z.pos m2 * 2 ^ Z.max 0 (- g) <= 0).
    { apply Z.mul_nonpos_nonneg; [|lia]. apply Z.mul_nonpos_nonneg; lia. }
    lia. }
  assert (Hec : e' <= c).
  { destruct (Z_le_gt_dec g 0) as [Hg|Hg]; [subst g; lia|].
    assert (Hf : fexp prec emax (d1 + e1 - (d2 + e2)) <= c); [|lia].
    apply fexp_le; [lia|].
    rewrite Z.max_r in Hupp by lia.
    rewrite (Z.max_l 0 (- g)) in Hupp by lia. rewrite Z.mul_1_r in Hupp.
    assert (H1 : 2 ^ (d1 - 1 + g) <= Z.pos m1 * 2 ^ g).
    { rewrite pow2_add by lia. apply Z.mul_le_mono_nonneg_r; [|assumption].
      apply Z.pow_nonneg. lia. }
    assert (H2 : hi * Z.pos m2 < 2 ^ (53 + d2)).
    { rewrite pow2_add by lia.
      apply Z.lt_trans with (2 ^ 53 * Z.pos m2).
      - apply Z.mul_lt_mono_pos_r; lia.
      - apply Z.mul_lt_mono_pos_l; [reflexivity|assumption]. }
    assert (H3 : d1 - 1 + g < 53 + d2) by (apply pow2_lt_exp; lia).
    subst g. lia. }
  set (s := e1 - e2 - e') in *.
  assert (Hs : 0 <= s) by (subst s; lia).
  assert (Hsg : c - e' = s - g) by (subst s g; lia).
  (* both bounds, at the exponent of the quotient *)
  set (X := 2 ^ (c - e')).
  assert (HX : 0 < X) by (subst X; apply pow2_gt0; lia).
  assert (Hscale : 2 ^ s * 2 ^ Z.max 0 (- g) = 2 ^ Z.max 0 g * X).
  { subst X. rewrite <- !pow2_add by lia. f_equal. lia. }
  assert (Hgp : 0 < 2 ^ Z.max 0 g) by (apply pow2_gt0; lia).
  assert (Hgn : 0 < 2 ^ Z.max 0 (- g)) by (apply pow2_gt0; lia).
  assert (H2s : 0 < 2 ^ s) by (apply pow2_gt0; lia).
  set (A := Z.pos m1 * 2 ^ s) in *.
  assert (HAlo : lo * X * Z.pos m2 <= A).
  { apply (Z.mul_le_mono_pos_r _ _ (2 ^ Z.max 0 g * 2 ^ Z.max 0 (- g)));
      [apply Z.mul_pos_pos; assumption|].
    subst A.
    replace (Z.pos m1 * 2 ^ s * (2 ^ Z.max 0 g * 2 ^ Z.max 0 (- g)))
      with (Z.pos m1 * 2 ^ Z.max 0 g * (2 ^ s * 2 ^ Z.max 0 (- g))) by ring.
    rewrite Hscale.
    replace (lo * X * Z.pos m2 * (2 ^ Z.max 0 g * 2 ^ Z.max 0 (- g)))
      with (lo * Z.pos m2 * 2 ^ Z.max 0 (- g) * (2 ^ Z.max 0 g * X)) by ring.
    apply Z.mul_le_mono_nonneg_r; [|assumption].
    apply Z.mul_nonneg_nonneg; lia. }
  assert (HAhi : A <= hi * X * Z.pos m2).
  { apply (Z.mul_le_mono_pos_r _ _ (2 ^ Z.max 0 g * 2 ^ Z.max 0 (- g)));
      [apply Z.mul_pos_pos; assumption|].
    subst A.
    replace (Z.pos m1 * 2 ^ s * (2 ^ Z.max 0 g * 2 ^ Z.max 0 (- g)))
      with (Z.pos m1 * 2 ^ Z.max 0 g * (2 ^ s * 2 ^ Z.max 0 (- g))) by ring.
    rewrite Hscale.
    replace (hi * X * Z.pos m2 * (2 ^ Z.max 0 g * 2 ^ Z.max 0 (- g)))
      with (hi * Z.pos m2 * 2 ^ Z.max 0 (- g) * (2 ^ Z.max 0 g * X)) by ring.
    apply Z.mul_le_mono_nonneg_r; [|assumption].
    apply Z.mul_nonneg_nonneg; lia. }
  assert (Hqlow : lo * X <= q).
  { assert (lo * X < q + 1); [|lia].
    apply (Z.mul_lt_mono_pos_r (Z.pos m2)); lia. }
  assert (Hqupp : q <= hi * X).
  { apply (Z.mul_le_mono_pos_r _ _ (Z.pos m2)); lia. }
  apply round_within;
    [assumption|assumption|assumption|assumption|assumption|split; assumption|].
  destruct (Z_lt_le_dec q (hi * X)) as [Hlt|Hge]; [right; exact Hlt|].
  left. apply Hex. assert (q = hi * X) by lia. subst q. lia.
Qed.

(** The quotient of two integers, as Python rounds it. *)
Lemma int_true_div_within a b lo hi c :
  0 <= a -> 0 < b -> -1074 <= c <= 0 -> 0 <= lo -> hi < 2 ^ 53 ->
  lo * b <= a * 2 ^ (- c) <= hi * b ->
  exists x, int_true_div a b = Some x /\ float_within lo hi c x.
Proof.
  intros Ha Hb Hc Hlo Hhi [Hl Hu].
  destruct b as [|q|q]; try lia.
  destruct a as [|p|p]; try lia.
  - exists (S754_zero false). split; [reflexivity|]. cbn [float_within].
    rewrite Z.mul_0_l in *. split; [nia|nia].
  - cbn [int_true_div of_pos].
    pose proof (fdiv_within p q 0 0 lo hi c ltac:(lia) Hlo Hhi) as Hw.
    replace (0 - 0 - c) with (- c) in Hw by lia.
    rewrite (Z.max_r 0 (- c)) in Hw by lia.
    replace (- - c) with c in Hw by lia.
    rewrite (Z.max_l 0 c) in Hw by lia. rewrite !Z.mul_1_r in Hw.
    specialize (Hw (conj Hl Hu)).
    unfold of_pos.
    destruct (fdiv (S754_finite false p 0) (S754_finite false q 0)) as [s|s| |s m e];
      cbn [float_within] in Hw; try contradiction; eexists; split;
      try reflexivity; exact Hw.
Qed.

(** The product of two positive floats. *)
Lemma fmul_within (m1 m2 : positive) e1 e2 lo hi c :
  -1074 <= c <= 971 -> 0 <= lo -> hi < 2 ^ 53 -> e1 + e2 <= c ->
  lo * 2 ^ (c - (e1 + e2)) <= Zpos m1 * Zpos m2 <= hi * 2 ^ (c - (e1 + e2)) ->
  float_within lo hi c (fmul (S754_finite false m1 e1) (S754_finite false m2 e2)).
Proof.
  intros Hc Hlo Hhi He Hb. unfold fmul. cbn [SFmul xorb].
  apply round_within; try assumption; try lia.
  left. reflexivity.
Qed.

(** [int] of a float between two points of the grid. *)
Lemma int_of_float_within lo hi c x L H :
  float_within lo hi c x -> c <= 0 ->
  L * 2 ^ (- c) <= lo -> hi < (H + 1) * 2 ^ (- c) ->
  exists n, int_of_float x = Some n /\ L <= n <= H.
Proof.
  intros Hw Hc HL HH.
  assert (H2c : 0 < 2 ^ (- c)) by (apply pow2_gt0; lia).
  destruct x as [s|s| |[|] m e]; cbn [float_within] in Hw; try contradiction.
  - exists 0. split; [reflexivity|]. nia.
  - destruct Hw as [He [Hlo Hhi]]. cbn [int_of_float].
    destruct (0 <=? e) eqn:E0.
    + apply Z.leb_le in E0. assert (e = 0) by lia. assert (c = 0) by lia.
      subst e c. cbn in *. eexists. split; [reflexivity|]. lia.
    + apply Z.leb_gt in E0. eexists. split; [reflexivity|].
      assert (He2 : 0 < 2 ^ (- e)) by (apply pow2_gt0; lia).
      assert (Hsplit : 2 ^ (- e) = 2 ^ (- c) * 2 ^ (c - e)).
      { rewrite <- pow2_add by lia. f_equal. lia. }
      assert (Hce : 0 < 2 ^ (c - e)) by (apply pow2_gt0; lia).
      split.
      * apply Z.div_le_lower_bound; [assumption|]. rewrite Hsplit.
        apply Z.le_trans with (lo * 2 ^ (c - e)); [|assumption].
        replace (2 ^ (- c) * 2 ^ (c - e) * L) with (L * 2 ^ (- c) * 2 ^ (c - e))
          by ring.
        apply Z.mul_le_mono_nonneg_r; lia.
      * apply Z.lt_succ_r. apply Z.div_lt_upper_bound; [assumption|].
        rewrite Hsplit.
        apply Z.le_lt_trans with (hi * 2 ^ (c - e)); [assumption|].
        replace (2 ^ (- c) * 2 ^ (c - e) * Z.succ H)
          with ((H + 1) * 2 ^ (- c) * 2 ^ (c - e)) by ring.
        apply Z.mul_lt_mono_pos_r; assumption.
Qed.


(** ** The heights of the bars *)

Lemma float_of_int_15 :
  float_of_int CHART_HEIGHT = Some (S754_finite false (15 * 2 ^ 49) (-49)).
Proof. reflexivity. Qed.

(** [int((v / max_val) * 15)] for two integers. *)
Lemma scaled_value_ints max_val v :
  0 <= v <= max_val -> 0 < max_val <= 2 ^ 47 ->
  exists h, scaled_value (NInt max_val) (NInt v) = Some h
    /\ 0 <= h
    /\ h * max_val <= 15 * v <= (h + 1) * max_val
    /\ (v = max_val -> h = 15).
Proof.
  intros Hv Hmax. unfold scaled_value, number_gt.
  cbn [compare_numbers number_div].
  replace (max_val ?= 0) with Gt by (symmetry; apply Z.compare_gt_iff; lia).
  rewrite float_of_int_15.
  destruct (Z.eq_dec v 0) as [Hv0|Hv0]; [|destruct (Z.eq_dec v max_val) as [Hvm|Hvm]].
  - (* an empty bucket *)
    subst v. destruct max_val as [|p|p]; try lia.
    exists 0. split; [reflexivity|]. repeat split; lia.
  - (* the greatest bucket *)
    subst v.
    destruct (int_true_div_within max_val max_val 1 1 0) as [q [Eq Hq]];
      try (change (2 ^ (- 0)) with 1; change (2 ^ 53) with 9007199254740992; lia).
    rewrite Eq. cbn [bind].
    destruct q as [s|s| |[|] m e]; cbn [float_within] in Hq; try contradiction;
      try lia.
    destruct Hq as [He Hm].
    destruct (int_of_float_within 15 15 0
                (fmul (S754_finite false m e)
                   (S754_finite false (15 * 2 ^ 49) (-49))) 15 15)
      as [n [En Hn]]; try lia.
    + apply fmul_within; try (change (2 ^ 53) with 9007199254740992; lia).
      replace (0 - (e + -49)) with ((0 - e) + 49) by lia.
      rewrite pow2_add by lia.
      change (Z.pos (15 * 2 ^ 49)) with (15 * 2 ^ 49). lia.
    + exists n. rewrite En. split; [reflexivity|]. repeat split; try lia.
      all: assert (n = 15) by lia; subst n; lia.
  - (* a bucket between the two *)
    set (lo := v * 2 ^ 52 / max_val).
    assert (Hlo : lo * max_val <= v * 2 ^ 52 < (lo + 1) * max_val).
    { subst lo. pose proof (Z.div_mod (v * 2 ^ 52) max_val ltac:(lia)) as Hd.
      pose proof (Z.mod_pos_bound (v * 2 ^ 52) max_val ltac:(lia)) as Hr. lia. }
    assert (Hlo0 : 0 < lo).
    { subst lo. apply Z.div_str_pos. change (2 ^ 47) with 140737488355328 in Hmax.
      change (2 ^ 52) with 4503599627370496. lia. }
    assert (Hlo1 : lo + 1 <= 2 ^ 52).
    { assert (lo < 2 ^ 52); [|lia]. subst lo.
      apply Z.div_lt_upper_bound; [lia|].
      change (2 ^ 52) with 4503599627370496. lia. }
    destruct (int_true_div_within v max_val lo (lo + 1) (-52)) as [q [Eq Hq]];
      try (change (- -52) with 52; lia).
    rewrite Eq. cbn [bind]. clearbody lo.
    destruct q as [s|s| |[|] m e]; cbn [float_within] in Hq; try contradiction;
      try lia.
    destruct Hq as [He Hm].
    set (lo' := 15 * lo / 16). set (hi' := (15 * (lo + 1) + 15) / 16).
    assert (Hlo' : 16 * lo' <= 15 * lo < 16 * lo' + 16).
    { subst lo'. pose proof (Z.div_mod (15 * lo) 16 ltac:(lia)) as Hd.
      pose proof (Z.mod_pos_bound (15 * lo) 16 ltac:(lia)) as Hr. lia. }
    assert (Hhi' : 15 * (lo + 1) <= 16 * hi' <= 15 * (lo + 1) + 15).
    { subst hi'. pose proof (Z.div_mod (15 * (lo + 1) + 15) 16 ltac:(lia)) as Hd.
      pose proof (Z.mod_pos_bound (15 * (lo + 1) + 15) 16 ltac:(lia)) as Hr. lia. }
    clearbody lo' hi'.
    change (2 ^ 52) with 4503599627370496 in *.
    change (2 ^ 47) with 140737488355328 in *.
    set (L := lo' / 2 ^ 48). set (H := hi' / 2 ^ 48).
    assert (HL : L * 2 ^ 48 <= lo' < (L + 1) * 2 ^ 48).
    { subst L. pose proof (Z.div_mod lo' (2 ^ 48) ltac:(lia)) as Hd.
      pose proof (Z.mod_pos_bound lo' (2 ^ 48) ltac:(lia)) as Hr. lia. }
    assert (HH : H * 2 ^ 48 <= hi' < (H + 1) * 2 ^ 48).
    { subst H. pose proof (Z.div_mod hi' (2 ^ 48) ltac:(lia)) as Hd.
      pose proof (Z.mod_pos_bound hi' (2 ^ 48) ltac:(lia)) as Hr. lia. }
    clearbody L H.
    destruct (int_of_float_within lo' hi' (-48)
                (fmul (S754_finite false m e)
                   (S754_finite false (15 * 2 ^ 49) (-49))) L H)
      as [n [En Hn]]; try (change (- -48) with 48; lia).
    + apply fmul_within; try lia.
      replace (-48 - (e + -49)) with ((-52 - e) + 53) by lia.
      rewrite pow2_add by lia.
      change (Z.pos (15 * 2 ^ 49)) with (15 * 2 ^ 49).
      assert (0 < 2 ^ (-52 - e)) by (apply pow2_gt0; lia).
      change (2 ^ 53) with (16 * 2 ^ 49). change (2 ^ 49) with 562949953421312.
      nia.
    + exists n. rewrite En. split; [reflexivity|].
      change (2 ^ 48) with 281474976710656 in *.
      assert (Hn0 : 0 <= n) by lia.
      split; [assumption|]. split; [|lia].
      assert (Hup : n * 4503599627370496 <= 15 * lo + 30) by lia.
      assert (Hdn : 15 * lo + 1 <= (n + 1) * 4503599627370496) by lia.
      assert (Hup' : n * max_val * 4503599627370496 <= (15 * lo + 30) * max_val)
        by nia.
      assert (Hdn' : (15 * lo + 1) * max_val <= (n + 1) * max_val * 4503599627370496)
        by nia.
      split; nia.
Qed.

(** ** The chart of the tokens *)

Lemma traverse_total {A B} (f : A -> option B) l :
  (forall a, In a l -> exists b, f a = Some b) ->
  exists bs, traverse f l = Some bs.
Proof.
  intros H. destruct (traverse f l) as [bs|] eqn:E; [exists bs; reflexivity|].
  apply traverse_none in E. destruct E as [a [Hin Hf]].
  destruct (H a Hin) as [b Hb]. congruence.
Qed.

(** A float that is a number has a text. *)
Lemma format_number_within lo hi c x metric :
  float_within lo hi c x -> exists text, format_number x metric = Some text.
Proof.
  intros Hx.
  destruct float_of_million as (mm & em & Em).
  destruct float_of_thousand as (mt & et & Et).
  unfold format_number. cbn [number_div]. rewrite Em, Et. cbn [bind float_div].
  assert (Hint : exists n, int_of_float x = Some n).
  { destruct x as [s|s| |[|] m e]; cbn [float_within] in Hx; try contradiction;
      eexists; reflexivity. }
  destruct Hint as [n Hn]. rewrite Hn. cbn [bind].
  destruct (String.eqb metric "cost");
    destruct (float_ge_int x 1000000); try (eexists; reflexivity);
    destruct (float_ge_int x 1000); eexists; reflexivity.
Qed.

(** Every line of the chart of integers is drawn. *)
Lemma chart_row_total metric max_val scaled_values row :
  0 < max_val <= 2 ^ 52 -> In row chart_rows ->
  exists line, chart_row metric (NInt max_val) scaled_values row = Some line.
Proof.
  intros Hmax Hrow.
  assert (Hr : 0 <= row <= 15).
  { change chart_rows with [15; 14; 13; 12; 11; 10; 9; 8; 7; 6; 5; 4; 3; 2; 1; 0]
      in Hrow.
    cbn [In] in Hrow.
    repeat (destruct Hrow as [Hrow|Hrow]; [lia|]). destruct Hrow. }
  unfold chart_row. cbn [number_mul_int number_div bind].
  destruct (int_true_div_within (max_val * row) CHART_HEIGHT 0 max_val 0)
    as [y [Ey Hy]];
    try (unfold CHART_HEIGHT; change (2 ^ (- 0)) with 1; nia).
  rewrite Ey. cbn [bind].
  destruct (format_number_within _ _ _ _ metric Hy) as [text Et].
  rewrite Et. cbn [bind]. eexists. reflexivity.
Qed.

(** The words of a text with a character that is no white space. *)
Lemma split_words_word s : forall w, w <> EmptyString -> split_words s w <> [].
Proof.
  induction s as [|c s IH]; intros w Hw; cbn [split_words].
  - destruct w; [contradiction|discriminate].
  - destruct (is_space c).
    + destruct w; [contradiction|discriminate].
    + apply IH. destruct w; discriminate.
Qed.

Lemma split_words_some a c b : is_space c = false ->
  forall w, split_words (a ++ String c b) w <> [].
Proof.
  intros Hc. induction a as [|x a IH]; intros w; cbn [append split_words].
  - rewrite Hc. apply split_words_word. destruct w; discriminate.
  - destruct (is_space x); [|apply IH].
    destruct w; [apply IH|discriminate].
Qed.

(** A key of the series has a word. *)
Lemma series_key_words style days lt :
  split_words
    (series_key style days (if days <=? 2 then HOURLY_FORMAT else DAILY_FORMAT) lt)
    EmptyString <> [].
Proof.
  unfold series_key.
  destruct (days <=? 2); [rewrite strftime_hourly|rewrite strftime_daily];
    apply split_words_some; reflexivity.
Qed.

Lemma chart_label_total days i label :
  split_words label EmptyString <> [] ->
  exists text, chart_label days i label = Some text.
Proof.
  intros Hw. unfold chart_label.
  destruct (2 <? days).
  - destruct (split_words label EmptyString) as [|w ws]; [contradiction|].
    cbn [hd_error bind].
    match goal with
    | |- context [match ?o with Some _ => _ | None => _ end] => destruct o
    end; eexists; reflexivity.
  - destruct (has_space label); [|eexists; reflexivity].
    destruct (rev (split_words label EmptyString)) as [|w ws] eqn:E.
    + apply (f_equal (@rev string)) in E. rewrite rev_involutive in E.
      contradiction.
    + eexists. reflexivity.
Qed.

Lemma chart_labels_total days labels :
  Forall (fun label => split_words label EmptyString <> []) labels ->
  forall i line, exists label_line, chart_labels days i labels line = Some label_line.
Proof.
  induction 1 as [|label labels Hl _ IH]; intros i line; cbn [chart_labels].
  - eexists. reflexivity.
  - destruct (chart_label_total days i label Hl) as [text Et].
    rewrite Et. cbn [bind]. apply IH.
Qed.

(** The greatest of a list of integers. *)
Lemma fold_max_spec l : forall a,
  In (fold_left Z.max l a) (a :: l)
  /\ Forall (fun v => v <= fold_left Z.max l a) (a :: l).
Proof.
  induction l as [|v l IH]; intros a; cbn [fold_left].
  - split; [left; reflexivity|]. constructor; [lia|constructor].
  - destruct (IH (Z.max a v)) as [Hin Hall].
    inversion Hall as [|? ? Hm Hl]; subst. split.
    + destruct Hin as [Hin|Hin]; [|right; right; exact Hin].
      destruct (Z.max_spec a v) as [[_ E]|[_ E]].
      * right. left. rewrite <- Hin. symmetry. exact E.
      * left. rewrite <- Hin. symmetry. exact E.
    + constructor; [lia|]. constructor; [lia|exact Hl].
Qed.

Lemma zsum_filter_le {A} (g : A -> Z) (p : A -> bool) l :
  Forall (fun a => 0 <= g a) l ->
  0 <= zsum (map g (filter p l)) <= zsum (map g l).
Proof.
  induction 1 as [|a l Ha _ IH]; cbn [filter map zsum]; [lia|].
  destruct (p a); cbn [map zsum]; lia.
Qed.

Lemma zsum_In_le l v : Forall (fun x => 0 <= x) l -> In v l -> v <= zsum l.
Proof.
  induction 1 as [|x l Hx Hl IH]; cbn [In zsum]; [intros []|].
  pose proof (zsum_nonneg l Hl). intros [->|Hin]; [lia|].
  specialize (IH Hin). lia.
Qed.

(** X15.  The height of a bar.  For a bucket with [v] tokens (or
    requests) and a greatest bucket with [max_val], integers with
    [0 <= v <= max_val] and [0 < max_val <= 2^47], the expression
    [int((v / max_val) * chart_height)] of [generate_graph] does not
    raise, and its value [h], computed through two roundings of floats,
    is within the chart and is the exact height [15 * v / max_val] cut
    to an integer, or one less than it when the exact height is an
    integer: [h * max_val <= 15 * v <= (h + 1) * max_val].  The bar of
    the greatest bucket has the full height 15, and an empty bucket the
    height 0. *)
Theorem bar_height (max_val v : Z)
    (Hv : 0 <= v <= max_val) (Hmax : 0 < max_val <= 2 ^ 47) :
  exists h, scaled_value (NInt max_val) (NInt v) = Some h
    /\ 0 <= h <= CHART_HEIGHT
    /\ h * max_val <= CHART_HEIGHT * v <= (h + 1) * max_val
    /\ (v = max_val -> h = CHART_HEIGHT)
    /\ (v = 0 -> h = 0).
Proof.
  destruct (scaled_value_ints max_val v Hv Hmax) as (h & Eh & H0 & Hb & Hfull).
  exists h. unfold CHART_HEIGHT. split; [exact Eh|].
  split; [nia|]. split; [exact Hb|]. split; [exact Hfull|]. nia.
Qed.

Lemma bar_height_witness :
  exists h, scaled_value (NInt 1335) (NInt 8) = Some h
    /\ 0 <= h <= CHART_HEIGHT
    /\ h * 1335 <= CHART_HEIGHT * 8 <= (h + 1) * 1335
    /\ (8 = 1335 -> h = CHART_HEIGHT)
    /\ (8 = 0 -> h = 0).
Proof.
  apply (bar_height 1335 8).
  - lia.
  - split; [lia|]. vm_compute. discriminate.
Defined.

(** The heights of the bars of 8, 445 and 1335 tokens under a greatest
    bucket of 1335. *)
Example scaled_value_examples :
  map (scaled_value (NInt 1335)) [NInt 8; NInt 445; NInt 1335]
  = [Some 0; Some 5; Some 15].
Proof. vm_compute. reflexivity. Qed.

Section GraphChart.
Variable fromisoformat : string -> option tz_datetime.
Variable astimezone : tz_datetime -> option tz_datetime.
Variable style : year_style.

Local Abbreviation series_fold := (series_entry fromisoformat astimezone style).
Local Abbreviation after := (since fromisoformat astimezone).
Local Abbreviation bucket_of := (series_records fromisoformat astimezone style).

(** The keys of the series are texts of dates. *)
Lemma series_fold_keys days cutoff data k b :
  In (k, b)
    (fold_left
       (series_fold days (if days <=? 2 then HOURLY_FORMAT else DAILY_FORMAT) cutoff)
       data []) ->
  split_words k EmptyString <> [].
Proof.
  intros Hin. apply series_fold_pair in Hin. destruct Hin as [Hne _].
  destruct (bucket_of days _ cutoff k data) as [|r rs] eqn:E; [contradiction|].
  assert (Hr : In r (bucket_of days (if days <=? 2 then HOURLY_FORMAT else DAILY_FORMAT)
                       cutoff k data)) by (rewrite E; left; reflexivity).
  unfold series_records in Hr. apply filter_In in Hr. destruct Hr as [_ Hb].
  unfold in_series_bucket in Hb.
  destruct (get_local_datetime fromisoformat astimezone (timestamp r)) as [lt|];
    [|discriminate].
  apply andb_true_iff in Hb. destruct Hb as [_ Hk]. apply String.eqb_eq in Hk.
  subst k. apply series_key_words.
Qed.

(** X16.  For the metric ['total_tokens'], [generate_graph] draws the
    chart and does not raise when [now - days] is a datetime, no count
    of a record is negative, the tokens of the collection are at most
    [2^47] in all and some record in the window has a token.  The chart
    is the title ['Token Usage Over Time (<days>d)'] centred on 110
    columns, an empty line, 16 rows, the axis with six dashes for each
    key of the time series, and the line of the labels, joined by line
    feeds. *)
Theorem generate_graph_token_chart (now : datetime) (days : Z)
    (usage_data : list UsageRecord)
    (Hnow : valid_datetime now)
    (Hcutoff : valid_datetime (now - days * US_PER_DAY))
    (Hnonneg : Forall nonneg_counts usage_data)
    (Hbound : zsum (map total_tokens usage_data) <= 2 ^ 47)
    (Hactive : exists r,
       In r (filter (since fromisoformat astimezone (now - days * US_PER_DAY))
               usage_data)
       /\ 0 < total_tokens r) :
  exists time_series time_format rows label_line,
    get_time_series_data fromisoformat astimezone style now usage_data days
    = Some (time_series, time_format)
    /\ List.length rows = 16%nat
    /\ generate_graph fromisoformat astimezone style now usage_data days
         "total_tokens"
       = Some (String.concat NEWLINE
                 ([center 110 ("Token Usage Over Time (" ++ str_int days ++ "d)");
                   ""]
                  ++ rows
                  ++ [("         └"
                       ++ repeat_string "─" (List.length time_series * 6))%string;
                      label_line])).
Proof.
  set (fmt := if days <=? 2 then HOURLY_FORMAT else DAILY_FORMAT).
  set (cutoff := now - days * US_PER_DAY) in *.
  set (ts := fold_left (series_fold days fmt cutoff) usage_data []).
  exists ts, fmt.
  assert (Hrec : Forall (fun r => 0 <= total_tokens r) usage_data).
  { apply Forall_forall. intros r Hr.
    pose proof (proj1 (Forall_forall _ _) Hnonneg r Hr) as Hn.
    unfold nonneg_counts in Hn. unfold total_tokens. lia. }
  assert (Hbucket : forall k b, In (k, b) ts ->
            0 <= s_total_tokens b <= 2 ^ 47).
  { intros k b Hin. apply series_fold_pair in Hin. destruct Hin as [_ ->].
    cbn [series_tally s_total_tokens]. unfold series_records.
    pose proof (zsum_filter_le total_tokens
                  (in_series_bucket fromisoformat astimezone style days fmt cutoff k)
                  usage_data Hrec). lia. }
  destruct Hactive as [r0 [Hr0 Hpos]].
  assert (Hsome : exists k b, In (k, b) ts /\ 0 < s_total_tokens b).
  { destruct (series_records_window fromisoformat astimezone style days fmt cutoff
                r0 usage_data Hr0) as [k Hk].
    exists k, (series_tally (bucket_of days fmt cutoff k usage_data)). split.
    - apply series_fold_pair. split; [|reflexivity]. intros E. rewrite E in Hk.
      destruct Hk.
    - cbn [series_tally s_total_tokens].
      apply Z.lt_le_trans with (total_tokens r0); [assumption|].
      apply zsum_In_le; [|apply in_map; exact Hk].
      apply Forall_forall. intros v Hv. apply in_map_iff in Hv.
      destruct Hv as [r [<- Hr]]. unfold series_records in Hr.
      apply filter_In in Hr. destruct Hr as [Hr _].
      exact (proj1 (Forall_forall _ _) Hrec r Hr). }
  assert (Hkeys : forall k b, In (k, b) ts -> split_words k EmptyString <> []).
  { intros k b Hin. exact (series_fold_keys days cutoff usage_data k b Hin). }
  rewrite graph_runs by assumption.
  rewrite (get_time_series_data_runs fromisoformat astimezone style now days
             usage_data Hnow Hcutoff).
  cbv zeta. fold fmt cutoff ts.
  pose proof (sorted_items_perm ts) as Hperm.
  assert (Hlen : List.length (sorted_items ts) = List.length ts)
    by (apply Permutation_length; exact Hperm).
  destruct ts as [|kv ts'] eqn:Ets.
  { destruct Hsome as (k & b & [] & _). }
  rewrite <- Ets in *. clear Ets.
  destruct (sorted_items ts) as [|item items] eqn:Es.
  { destruct Hsome as (k & b & Hin & _).
    apply (Permutation_in _ (Permutation_sym Hperm)) in Hin. destruct Hin. }
  rewrite total_tokens_values. cbn [bind map].
  set (total := fun kv0 : string * SeriesStats => s_total_tokens (snd kv0)).
  change (map (fun item0 => NInt (s_total_tokens (snd item0))) items)
    with (map (fun item0 : string * SeriesStats => NInt (total item0)) items).
  rewrite <- (map_map total NInt).
  change (s_total_tokens (snd item)) with (total item).
  rewrite py_max_ints.
  set (max_val := fold_left Z.max (map total items) (total item)).
  destruct (fold_max_spec (map total items) (total item)) as [Hmin Hmall].
  fold max_val in Hmin, Hmall.
  change (total item :: map total items) with (map total (item :: items))
    in Hmin, Hmall.
  assert (Hsorted : forall it, In it (item :: items) ->
            0 <= total it <= 2 ^ 47 /\ total it <= max_val
            /\ split_words (fst it) EmptyString <> []).
  { intros [k b] Hin.
    pose proof (Permutation_in _ Hperm Hin) as Hin'.
    split; [apply (Hbucket k b Hin')|]. split.
    - apply (proj1 (Forall_forall _ _) Hmall). apply (in_map total) in Hin.
      exact Hin.
    - exact (Hkeys k b Hin'). }
  assert (Hmax : 0 < max_val <= 2 ^ 47).
  { apply in_map_iff in Hmin. destruct Hmin as [it [Eit Hit]].
    destruct (Hsorted it Hit) as [Hb _]. rewrite Eit in Hb. split; [|lia].
    destruct Hsome as (k & b & Hin & Hb0).
    apply (Permutation_in _ (Permutation_sym Hperm)) in Hin.
    destruct (Hsorted _ Hin) as (_ & Hle & _). unfold total in Hle at 1.
    cbn [snd] in Hle. lia. }
  unfold number_eq. cbn [compare_numbers].
  replace (max_val ?= 0) with Gt by (symmetry; apply Z.compare_gt_iff; lia).
  change (NInt (total item) :: map NInt (map total items))
    with (map NInt (map total (item :: items))).
  destruct (traverse_total (scaled_value (NInt max_val))
              (map NInt (map total (item :: items)))) as [scaled Escaled].
  { intros a Ha. apply in_map_iff in Ha. destruct Ha as [v [<- Hv]].
    apply in_map_iff in Hv. destruct Hv as [it [<- Hit]].
    destruct (Hsorted it Hit) as (Hb & Hle & _).
    destruct (scaled_value_ints max_val (total it) ltac:(lia) Hmax) as [h [Eh _]].
    exists h. exact Eh. }
  rewrite Escaled. cbn [bind].
  assert (Hscaled : List.length scaled = List.length ts).
  { apply traverse_length in Escaled. rewrite Escaled, !length_map. exact Hlen. }
  unfold chart_title. cbn [String.eqb Ascii.eqb Bool.eqb bind].
  destruct (traverse_total (chart_row "total_tokens" (NInt max_val) scaled)
              chart_rows) as [rows Erows].
  { intros row Hrow. apply chart_row_total; [|exact Hrow].
    change (2 ^ 52) with 4503599627370496.
    change (2 ^ 47) with 140737488355328 in Hmax. lia. }
  rewrite Erows. cbn [bind].
  destruct (chart_labels_total days (map fst (item :: items))) with (i := 0)
    (line := "          ") as [label_line Elabels].
  { apply Forall_forall. intros label Hl. apply in_map_iff in Hl.
    destruct Hl as [it [<- Hit]]. apply (Hsorted it Hit). }
  change (fst item :: map fst items) with (map fst (item :: items)).
  rewrite Elabels. cbn [bind].
  exists rows, label_line. split; [reflexivity|]. split.
  - apply traverse_length in Erows. exact Erows.
  - rewrite Hscaled. reflexivity.
Qed.

End GraphChart.

Lemma generate_graph_token_chart_witness :
  exists time_series time_format rows label_line,
    get_time_series_data ExampleClock.fromisoformat ExampleClock.utc PlainYear
      noon_next_day two_days 7
    = Some (time_series, time_format)
    /\ List.length rows = 16%nat
    /\ generate_graph ExampleClock.fromisoformat ExampleClock.utc PlainYear
         noon_next_day two_days 7 "total_tokens"
       = Some (String.concat NEWLINE
                 ([center 110 ("Token Usage Over Time (" ++ str_int 7 ++ "d)");
                   ""]
                  ++ rows
                  ++ [("         └"
                       ++ repeat_string "─" (List.length time_series * 6))%string;
                      label_line])).
Proof.
  apply (generate_graph_token_chart ExampleClock.fromisoformat ExampleClock.utc
           PlainYear noon_next_day 7 two_days).
  - vm_compute. split; [discriminate|reflexivity].
  - vm_compute. split; [discriminate|reflexivity].
  - repeat constructor; vm_compute; discriminate.
  - vm_compute. discriminate.
  - exists (usage "claude-sonnet-4-20250514" "2025-01-01T23:10:00Z" 7 1 0 0).
    split; [vm_compute; left; reflexivity|reflexivity].
Defined.

(** ** [MonitorTab.update_monitor] *)


(** [int] of a float in the unit from [n], on a grid of step [2^-k]. *)
Lemma int_of_float_floor n k x : 0 <= k ->
  float_within (n * 2 ^ k) ((n + 1) * 2 ^ k - 1) (- k) x ->
  int_of_float x = Some n.
Proof.
  intros Hk Hx.
  assert (H2k : 0 < 2 ^ k) by (apply pow2_gt0; assumption).
  destruct (int_of_float_within _ _ _ x n n Hx) as [n' [En Hn]];
    try (replace (- - k) with k by lia; lia).
  rewrite En. f_equal. lia.
Qed.






Section MonitorFacts.
Variable fromisoformat : string -> option tz_datetime.
Variable astimezone : tz_datetime -> option tz_datetime.



(** X18.  When the timestamp of the latest record, the first of
    [get_recent_activity(5)], does not parse, its age is infinite and
    [update_monitor] raises ([int] of an infinite float) before it
    writes to a widget: neither the live statistics nor the hourly
    breakdown is updated, whatever else the collection holds. *)
Theorem update_monitor_unparsable_latest (alg : sum_algorithm) (now : datetime)
    (today : date) (now_hourly : datetime) (usage_data : list UsageRecord)
    (latest : UsageRecord)
    (Hlatest : hd_error (get_recent_activity usage_data 5) = Some latest)
    (Hlocal : get_local_datetime fromisoformat astimezone (timestamp latest)
              = None) :
  update_monitor fromisoformat astimezone alg now today now_hourly usage_data
  = (None, None).
Proof.
  unfold update_monitor, monitor_status. cbv zeta.
  destruct (get_recent_activity usage_data 5) as [|l rest]; [discriminate|].
  cbn [hd_error] in Hlatest. apply some_inj in Hlatest. subst l.
  rewrite Hlocal. reflexivity.
Qed.

End MonitorFacts.


Lemma update_monitor_unparsable_latest_witness :
  update_monitor ExampleClock.fromisoformat ExampleClock.utc Compensated
    noon_next_day (mkDate 2025 1 2) noon_next_day [undated; undated]
  = (None, None).
Proof.
  apply (update_monitor_unparsable_latest ExampleClock.fromisoformat
           ExampleClock.utc Compensated noon_next_day (mkDate 2025 1 2)
           noon_next_day [undated; undated] undated).
  - reflexivity.
  - reflexivity.
Defined.

(** ** [print_summary] of the command line *)

Section DictMapValues.
Context {V W : Type}.
Variable f : V -> W.

Lemma dict_get_map_values k (d : dict V) :
  dict_get k (dict_map_values f d) = option_map f (dict_get k d).
Proof.
  induction d as [|[k' v'] d IH]; cbn [dict_map_values map dict_get fst snd];
    [reflexivity|].
  destruct (String.eqb k k'); [reflexivity|exact IH].
Qed.

Lemma dict_set_map_values k v (d : dict V) :
  dict_set k (f v) (dict_map_values f d) = dict_map_values f (dict_set k v d).
Proof.
  induction d as [|[k' v'] d IH]; cbn [dict_map_values map dict_set fst snd];
    [reflexivity|].
  destruct (String.eqb k k'); cbn [map fst snd]; [reflexivity|].
  f_equal. exact IH.
Qed.

End DictMapValues.

(** One pass of the loop of [print_summary], as one assignment. *)
Lemma cli_count_entry_set d e :
  cli_count_entry d e =
    let cur := match dict_get (model e) d with
               | Some st => st
               | None => new_cli_model_stats
               end in
    c <- calculate_cost e ;;
    v <- number_add_float (c_cost cur) c ;;
    Some (dict_set (model e)
            (mkCliModelStats (c_input_tokens cur + input_tokens e)
               (c_output_tokens cur + output_tokens e)
               (c_cache_creation_input_tokens cur + cache_creation_input_tokens e)
               (c_cache_read_input_tokens cur + cache_read_input_tokens e)
               (c_requests cur + 1) v) d).
Proof.
  unfold cli_count_entry. cbv zeta.
  set (cur := match dict_get (model e) d with
              | Some st => st
              | None => new_cli_model_stats
              end).
  rewrite dict_touch_adjust. fold cur. rewrite !dict_set_adjust.
  rewrite dict_get_set_same. cbn [bind].
  cbn [c_input_tokens c_output_tokens c_cache_creation_input_tokens
       c_cache_read_input_tokens c_requests c_cost].
  destruct (calculate_cost e) as [c|]; cbn [bind]; [|reflexivity].
  destruct (number_add_float (c_cost cur) c) as [v|]; cbn [bind]; [|reflexivity].
  rewrite dict_set_adjust. reflexivity.
Qed.

(** The loop of [print_summary] keeps the tallies of the loop of
    [get_summary_stats]. *)
Lemma cli_count_entry_sim d e :
  Forall cli_cost_started (dict_values d) ->
  count_entry (dict_map_values model_stats_of d) e
  = option_map (dict_map_values model_stats_of) (cli_count_entry d e)
  /\ forall d', cli_count_entry d e = Some d' ->
       Forall cli_cost_started (dict_values d').
Proof.
  intros Hd. rewrite cli_count_entry_set. cbv zeta. unfold count_entry.
  rewrite dict_get_map_values.
  set (cur := match dict_get (model e) d with
              | Some st => st
              | None => new_cli_model_stats
              end).
  assert (Hcur : cli_cost_started cur).
  { subst cur. destruct (dict_get (model e) d) as [st|] eqn:E; [|reflexivity].
    exact (dict_get_default_values _ _ _ _ Hd E). }
  assert (Hsame : match option_map model_stats_of (dict_get (model e) d) with
                  | Some s => s
                  | None => new_model_stats
                  end = model_stats_of cur).
  { subst cur. destruct (dict_get (model e) d); reflexivity. }
  cbv zeta. rewrite Hsame.
  destruct (calculate_cost e) as [c|]; cbn [bind option_map];
    [|split; [reflexivity|discriminate]].
  unfold cli_cost_started in Hcur.
  destruct (c_cost cur) as [n|x] eqn:Ec; cbn [number_add_float].
  - subst n. rewrite float_of_int_zero. cbn [bind option_map]. split.
    + rewrite <- dict_set_map_values. unfold model_stats_of at 2, add_record.
      cbn [c_input_tokens c_output_tokens c_cache_creation_input_tokens
           c_cache_read_input_tokens c_requests c_cost requests m_input_tokens
           m_output_tokens m_cache_creation_input_tokens
           m_cache_read_input_tokens cost model_stats_of].
      rewrite Ec. reflexivity.
    + intros d' H. apply some_inj in H. subst d'.
      apply dict_set_values; [assumption|exact I].
  - cbn [bind option_map]. split.
    + rewrite <- dict_set_map_values. unfold model_stats_of at 2, add_record.
      cbn [c_input_tokens c_output_tokens c_cache_creation_input_tokens
           c_cache_read_input_tokens c_requests c_cost requests m_input_tokens
           m_output_tokens m_cache_creation_input_tokens
           m_cache_read_input_tokens cost model_stats_of].
      rewrite Ec. reflexivity.
    + intros d' H. apply some_inj in H. subst d'.
      apply dict_set_values; [assumption|exact I].
Qed.

Lemma cli_count_entries_sim data : forall d,
  Forall cli_cost_started (dict_values d) ->
  count_entries (dict_map_values model_stats_of d) data
  = option_map (dict_map_values model_stats_of) (cli_count_entries d data)
  /\ forall d', cli_count_entries d data = Some d' ->
       Forall cli_cost_started (dict_values d').
Proof.
  induction data as [|e data IH]; intros d Hd;
    cbn [count_entries cli_count_entries].
  - split; [reflexivity|]. intros d' H. apply some_inj in H. subst d'. exact Hd.
  - destruct (cli_count_entry_sim d e Hd) as [Hstep Hinv]. rewrite Hstep.
    destruct (cli_count_entry d e) as [d1|]; cbn [option_map bind];
      [|split; [reflexivity|discriminate]].
    apply IH. apply Hinv. reflexivity.
Qed.

(** The breakdown printed for tallies whose cost is a number. *)
Lemma print_models_report d :
  Forall cli_cost_started (dict_values d) ->
  print_models d = (flat_map report_model (dict_map_values model_stats_of d), true).
Proof.
  unfold dict_values.
  induction d as [|[k st] d IH]; cbn [map snd]; intros Hd; [reflexivity|].
  inversion Hd as [|? ? Hst Hd']; subst.
  cbn [print_models dict_map_values map flat_map fst snd].
  assert (Hitem : print_model (k, st) = (report_model (k, model_stats_of st), true)).
  { unfold print_model, report_model. cbn [fst snd]. unfold cli_cost_started in Hst.
    unfold model_stats_of at 6.
    cbn [requests m_input_tokens m_output_tokens m_cache_creation_input_tokens
         m_cache_read_input_tokens cost model_stats_of].
    destruct (c_cost st) as [n|x]; cbn [format_number_fixed].
    - subst n. rewrite float_of_int_zero. reflexivity.
    - reflexivity. }
  rewrite Hitem. cbn [fst snd]. rewrite (IH Hd'). reflexivity.
Qed.

(** X19.  [print_summary] and [TokenData.get_summary_stats] agree.  For
    no record, [print_summary] prints the title and that no usage data
    was found.  For a list of records, it raises before it prints a line
    exactly when [get_summary_stats] raises on that list, which is when
    the cost of some record cannot be computed; otherwise every number
    it prints is the one of the summary of [get_summary_stats]: the
    requests, the four token totals and their sum, the total cost to
    four places, and for each model, in the order of first appearance,
    its requests, tokens and cost. *)
Theorem print_summary_agrees (alg : sum_algorithm)
    (usage_data : list UsageRecord) (title : string) :
  print_summary alg usage_data title =
    match usage_data with
    | [] => ([(NEWLINE ++ title)%string; "No usage data found."], true)
    | _ :: _ =>
        match get_summary_stats alg usage_data (Some usage_data) with
        | Some stats => (summary_report title stats, true)
        | None => ([], false)
        end
    end.
Proof.
  destruct usage_data as [|e data]; [reflexivity|].
  unfold print_summary, get_summary_stats. cbv zeta.
  set (l := e :: data).
  destruct (traverse calculate_cost l) as [costs|]; cbn [bind]; [|reflexivity].
  assert (Hnil : Forall cli_cost_started (@dict_values CliModelStats []))
    by constructor.
  destruct (cli_count_entries_sim l [] Hnil) as [Hsim Hinv].
  change (dict_map_values model_stats_of []) with (@nil (string * ModelStats))
    in Hsim.
  rewrite Hsim.
  destruct (cli_count_entries [] l) as [d|]; cbn [option_map bind];
    [|reflexivity].
  rewrite (print_models_report d (Hinv d eq_refl)). reflexivity.
Qed.

(** The report of the three example records of two models. *)
Example print_summary_mixed_models :
  print_summary LeftToRight mixed_models "All Time Token Usage Summary"
  = (summary_report "All Time Token Usage Summary" mixed_summary, true)
  /\ nth 8 (fst (print_summary LeftToRight mixed_models "Summary")) ""
     = ("Total Cost: $" ++ format_fixed 4 (total_cost mixed_summary))%string.
Proof. split; vm_compute; reflexivity. Qed.

(** A count beyond the floats: nothing is printed. *)
Example print_summary_overflow :
  print_summary Compensated [huge_input] "Summary" = ([], false).
Proof. vm_compute. reflexivity. Qed.

(** ** A latest record of the future *)

Lemma binary_round_aux_opp m e l :
  binary_round_aux prec emax true m e l
  = SFopp (binary_round_aux prec emax false m e l).
Proof.
  unfold binary_round_aux.
  destruct (shr_fexp prec emax m e l) as [mrs1 e1].
  destruct (shr_fexp prec emax _ e1 loc_Exact) as [mrs2 e2].
  destruct (shr_m mrs2); [reflexivity| |reflexivity].
  destruct (e2 <=? emax - prec); reflexivity.
Qed.

(** The quotient of a negative integer by a positive one. *)
Lemma int_true_div_opp (p q : positive) :
  int_true_div (Zneg p) (Zpos q)
  = option_map SFopp (int_true_div (Zpos p) (Zpos q)).
Proof.
  cbn [int_true_div]. unfold fdiv, of_pos. cbn [SFdiv xorb].
  destruct (SFdiv_core_binary prec emax (Z.pos p) 0 (Z.pos q) 0) as [[mz ez] lz].
  rewrite binary_round_aux_opp.
  destruct (binary_round_aux prec emax false mz ez lz); reflexivity.
Qed.

(** The seconds of an age, whole. *)
Lemma seconds_floor age : 0 <= age < 365 * US_PER_DAY ->
  exists t, total_seconds age = Some t
    /\ int_of_float t = Some (age / 1000000)
    /\ float_within 0 (2 ^ 45) (-20) t.
Proof.
  unfold US_PER_DAY. intros Hage. set (n := age / 1000000).
  assert (Hn : n * 1000000 <= age < (n + 1) * 1000000).
  { subst n. pose proof (Z.div_mod age 1000000 ltac:(lia)) as Hd.
    pose proof (Z.mod_pos_bound age 1000000 ltac:(lia)) as Hr. lia. }
  clearbody n. unfold total_seconds.
  destruct (int_true_div_within age 1000000 (n * 2 ^ 20) ((n + 1) * 2 ^ 20 - 1)
              (- (20))) as [t [Et Ht]];
    try (change (- - (20)) with 20; change (2 ^ 20) with 1048576;
         change (2 ^ 53) with 9007199254740992; lia).
  exists t. split; [exact Et|]. split.
  - apply (int_of_float_floor n 20); [lia|exact Ht].
  - change (2 ^ 20) with 1048576 in Ht. change (2 ^ 45) with 35184372088832.
    destruct t as [s|s| |[|] m e]; cbn [float_within] in Ht |- *;
      try contradiction; [lia|].
    destruct Ht as [He [Hl Hu]]. split; [exact He|].
    assert (0 < 2 ^ (-20 - e)) by (apply pow2_gt0; lia).
    change (- (20)) with (-20) in *. nia.
Qed.

(** A float that is not positive, against a positive integer. *)
Lemma float_lt_int_opp lo hi c t n : float_within lo hi c t -> 0 < n ->
  float_lt_int (SFopp t) n = true.
Proof.
  intros Ht Hn. unfold float_lt_int.
  destruct t as [s|s| |[|] m e]; cbn [float_within] in Ht; try contradiction;
    cbn [SFopp negb compare_float_int].
  - replace (0 ?= n) with Lt by (symmetry; apply Z.compare_lt_iff; lia).
    reflexivity.
  - destruct (0 <=? e) eqn:E.
    + apply Z.leb_le in E.
      assert (0 < 2 ^ e) by (apply pow2_gt0; assumption).
      replace (Z.neg m * 2 ^ e ?= n) with Lt; [reflexivity|].
      symmetry. apply Z.compare_lt_iff. nia.
    + apply Z.leb_gt in E.
      assert (0 < 2 ^ (- e)) by (apply pow2_gt0; lia).
      replace (Z.neg m ?= n * 2 ^ (- e)) with Lt; [reflexivity|].
      symmetry. apply Z.compare_lt_iff. nia.
Qed.

Lemma int_of_float_opp lo hi c t n : float_within lo hi c t ->
  int_of_float t = Some n -> int_of_float (SFopp t) = Some (- n).
Proof.
  intros Ht. destruct t as [s|s| |[|] m e]; cbn [float_within] in Ht;
    try contradiction; cbn [SFopp negb int_of_float]; intros H;
    apply some_inj in H; subst n; reflexivity.
Qed.

Section MonitorFuture.
Variable fromisoformat : string -> option tz_datetime.
Variable astimezone : tz_datetime -> option tz_datetime.

(** X20.  A latest record of the future.  When the local time of the
    latest record, the first of [get_recent_activity(5)], is after the
    clock, by less than 365 days, the monitor shows it as active with a
    negative number of seconds, cut toward zero: the status is
    ['ACTIVE - Last activity: <seconds>s ago'] with the seconds
    [-((-age) / 1000000)] for the age in microseconds, a minus sign
    before them when they are not zero. *)
Theorem update_monitor_future_latest (alg : sum_algorithm) (now : datetime)
    (today : date) (now_hourly : datetime) (usage_data : list UsageRecord)
    (latest : UsageRecord) (lt : tz_datetime)
    (Hlatest : hd_error (get_recent_activity usage_data 5) = Some latest)
    (Hlocal : get_local_datetime fromisoformat astimezone (timestamp latest)
              = Some lt)
    (Hage : - (365 * US_PER_DAY) < now - replace_tzinfo_none lt < 0) :
  let status :=
    ("ACTIVE - Last activity: "
     ++ str_int (Z.quot (now - replace_tzinfo_none lt) 1000000) ++ "s ago")%string in
  monitor_status fromisoformat astimezone now usage_data = Some status
  /\ forall today_stats,
       get_summary_stats alg usage_data (Some (get_today_data today usage_data))
       = Some today_stats ->
       fst (update_monitor fromisoformat astimezone alg now today now_hourly
              usage_data)
       = Some (live_text status today_stats).
Proof.
  intros status.
  assert (Hstatus : monitor_status fromisoformat astimezone now usage_data
                    = Some status).
  { subst status. unfold monitor_status. cbv zeta.
    destruct (get_recent_activity usage_data 5) as [|l rest]; [discriminate|].
    cbn [hd_error] in Hlatest. apply some_inj in Hlatest. subst l.
    rewrite Hlocal. set (age := now - replace_tzinfo_none lt) in *.
    assert (Htd : mk_timedelta age = Some age).
    { unfold mk_timedelta. cbv zeta.
      assert (Hd : -365 <= age / US_PER_DAY < 0).
      { unfold US_PER_DAY in *. split.
        - apply Z.div_le_lower_bound; lia.
        - apply Z.div_lt_upper_bound; lia. }
      replace (- MAX_DELTA_DAYS <=? age / US_PER_DAY) with true
        by (symmetry; apply Z.leb_le; unfold MAX_DELTA_DAYS; lia).
      replace (age / US_PER_DAY <=? MAX_DELTA_DAYS) with true
        by (symmetry; apply Z.leb_le; unfold MAX_DELTA_DAYS; lia).
      reflexivity. }
    rewrite Htd. cbn [bind].
    destruct (seconds_floor (- age) ltac:(lia)) as (t & Et & Hint & Ht).
    assert (Eneg : total_seconds age = Some (SFopp t)).
    { unfold total_seconds in *. destruct age as [|p|p]; try lia.
      change (Z.neg p) with (- Z.pos p) in Et. rewrite Z.opp_involutive in Et.
      change 1000000 with (Z.pos 1000000) in Et |- *.
      rewrite int_true_div_opp, Et. reflexivity. }
    rewrite Eneg. cbn [bind].
    rewrite (float_lt_int_opp _ _ _ t 60 Ht ltac:(lia)).
    rewrite (int_of_float_opp _ _ _ t _ Ht Hint). cbn [bind].
    replace (Z.quot age 1000000) with (- (- age / 1000000)); [reflexivity|].
    rewrite <- (Z.quot_div_nonneg (- age) 1000000) by lia.
    rewrite Z.quot_opp_l by lia. lia. }
  split; [exact Hstatus|].
  intros today_stats Hstats. unfold update_monitor.
  rewrite Hstatus, Hstats. reflexivity.
Qed.

End MonitorFuture.

Lemma update_monitor_future_latest_witness :
  let status :=
    ("ACTIVE - Last activity: "
     ++ str_int (Z.quot (ExampleClock.wall_of 2025 1 2 10 0 0
                         - ExampleClock.wall_of 2025 1 2 11 0 0) 1000000)
     ++ "s ago")%string in
  monitor_status ExampleClock.fromisoformat ExampleClock.utc
    (ExampleClock.wall_of 2025 1 2 10 0 0) two_days = Some status
  /\ forall today_stats,
       get_summary_stats Compensated two_days
         (Some (get_today_data (mkDate 2025 1 2) two_days))
       = Some today_stats ->
       fst (update_monitor ExampleClock.fromisoformat ExampleClock.utc Compensated
              (ExampleClock.wall_of 2025 1 2 10 0 0) (mkDate 2025 1 2)
              noon_next_day two_days)
       = Some (live_text status today_stats).
Proof.
  apply (update_monitor_future_latest ExampleClock.fromisoformat ExampleClock.utc
           Compensated (ExampleClock.wall_of 2025 1 2 10 0 0) (mkDate 2025 1 2)
           noon_next_day two_days
           (usage "claude-sonnet-4-20250514" "2025-01-02T11:00:00Z" 1000 0 0 0)
           (local_of 2025 1 2 11 0 0)).
  - reflexivity.
  - reflexivity.
  - vm_compute. split; reflexivity.
Defined.

(** An hour before the latest record, and half a second before it. *)
Example monitor_status_future :
  monitor_status ExampleClock.fromisoformat ExampleClock.utc
    (ExampleClock.wall_of 2025 1 2 10 0 0) two_days
  = Some "ACTIVE - Last activity: -3600s ago"
  /\ monitor_status ExampleClock.fromisoformat ExampleClock.utc
       (ExampleClock.wall_of 2025 1 2 11 0 0 - 500000) two_days
     = Some "ACTIVE - Last activity: 0s ago".
Proof. split; vm_compute; reflexivity. Qed.

(** ** The labels under the bars *)

Lemma string_app_assoc (a b c : string) : ((a ++ b) ++ c = a ++ (b ++ c))%string.
Proof. induction a as [|x a IH]; simpl; [reflexivity|]. rewrite IH. reflexivity. Qed.

Lemma string_app_nil_r (a : string) : (a ++ "")%string = a.
Proof. induction a as [|x a IH]; simpl; [reflexivity|]. rewrite IH. reflexivity. Qed.

Lemma no_space_app a b : no_space (a ++ b) = no_space a && no_space b.
Proof.
  induction a as [|x a IH]; simpl; [reflexivity|]. rewrite IH.
  rewrite andb_assoc. reflexivity.
Qed.

Lemma is_space_digit n : is_space (digit_char n) = false.
Proof.
  unfold digit_char.
  pose proof (Z.mod_pos_bound n 10 ltac:(lia)) as H.
  assert (Hk : (Z.to_nat (n mod 10) < 10)%nat) by lia.
  clear H. generalize dependent (Z.to_nat (n mod 10)). intros k Hk.
  do 10 (destruct k as [|k]; [reflexivity|]). lia.
Qed.

Lemma no_space_pad_digits w : forall n, no_space (pad_digits w n) = true.
Proof.
  induction w as [|w IH]; intros n; cbn [pad_digits]; [reflexivity|].
  rewrite no_space_app, IH. cbn [no_space]. rewrite is_space_digit. reflexivity.
Qed.

(** The words of a text that starts without white space. *)
Lemma split_words_skip a : forall s w, no_space a = true ->
  split_words (a ++ s) w = split_words s (w ++ a).
Proof.
  induction a as [|x a IH]; intros s w H; cbn [append].
  - rewrite string_app_nil_r. reflexivity.
  - cbn [no_space] in H. apply andb_true_iff in H. destruct H as [Hx Ha].
    apply negb_true_iff in Hx. cbn [split_words]. rewrite Hx.
    rewrite IH by assumption. rewrite string_app_assoc. reflexivity.
Qed.

Lemma split_words_one a : no_space a = true -> a <> EmptyString ->
  split_words a EmptyString = [a].
Proof.
  intros H Hne. rewrite <- (string_app_nil_r a) at 1.
  rewrite split_words_skip by assumption. cbn [split_words append].
  destruct a; [contradiction|reflexivity].
Qed.

(** The fields of a text, the first one without the separator. *)
Lemma split_at_first c a : forall rest field, no_char c a = true ->
  split_at c (a ++ String c rest) field
  = (field ++ a)%string :: split_at c rest EmptyString.
Proof.
  induction a as [|x a IH]; intros rest field H; cbn [append split_at].
  - rewrite Ascii.eqb_refl, string_app_nil_r. reflexivity.
  - cbn [no_char] in H. apply andb_true_iff in H. destruct H as [Hx Ha].
    apply negb_true_iff in Hx. rewrite Hx. rewrite IH by assumption.
    rewrite string_app_assoc. reflexivity.
Qed.

(** [' ' in label] for a text with a space. *)
Lemma has_space_some a b : has_space (a ++ String " " b) = true.
Proof.
  unfold has_space. induction a as [|x a IH]; cbn [append index].
  - cbn [prefix]. destruct (ascii_dec " " " ") as [_|Hne]; [|contradiction].
    destruct b; reflexivity.
  - destruct (prefix " " (String x (a ++ String " " b))); [reflexivity|].
    destruct (index 0 " " (a ++ String " " b)); [reflexivity|discriminate].
Qed.

(** The texts of the years of the calendar, one by one. *)
Lemma year_text_all : all_from year_text_ok (Z.to_nat 9999) 1 = true.
Proof. vm_cast_no_check (eq_refl true). Qed.

Lemma date_label_all : all_from date_label_ok 372 0 = true.
Proof. vm_cast_no_check (eq_refl true). Qed.

Lemma hour_label_all : all_from hour_label_ok 24 0 = true.
Proof. vm_cast_no_check (eq_refl true). Qed.

Lemma year_text_plain style t : valid_datetime t ->
  no_space (year_text style t) = true /\ no_char "-" (year_text style t) = true.
Proof.
  intros Ht. apply day_number_valid in Ht. unfold year_text, year_of.
  fold (day_number t).
  destruct (date_of_days (day_number t)) as [[y m] d] eqn:E.
  pose proof (date_of_days_range _ Ht _ _ _ E) as (Hy & _). cbn [fst].
  pose proof (all_from_spec _ _ 1 y year_text_all) as H.
  rewrite Z2Nat.id in H by lia. specialize (H ltac:(lia)).
  unfold year_text_ok in H.
  do 3 (apply andb_true_iff in H; destruct H as [H ?]).
  destruct style; split; assumption.
Qed.

(** The day of a time cut to its hour. *)
Lemma truncate_hour_day t :
  (t - t mod US_PER_HOUR) / US_PER_DAY = t / US_PER_DAY.
Proof.
  pose proof (hour_number_split (t - t mod US_PER_HOUR)) as H1.
  pose proof (hour_number_split t) as H2.
  unfold hour_number in H1, H2. rewrite truncate_hour in H1.
  pose proof (hour_of_range (t - t mod US_PER_HOUR)).
  pose proof (hour_of_range t).
  unfold day_number in H1, H2. lia.
Qed.

(** X21.  The label under a bar is read back from the key of its
    bucket.  For the key [get_time_series_data] gives a local time of
    the calendar, the label [generate_graph] writes under the bar is,
    for a range beyond two days, the month and the day of that time as
    numbers without leading zeros, ['<month>/<day>'] centred on six
    columns, and for a range of at most two days its hour ['HH:00'] and
    a space; the fallback to the index of the bar is never taken, and
    this whichever way the platform writes the year. *)
Theorem chart_label_of_key (style : year_style) (days i : Z) (lt : tz_datetime)
    (Hvalid : valid_datetime (wall lt)) :
  chart_label days i
    (series_key style days (if days <=? 2 then HOURLY_FORMAT else DAILY_FORMAT) lt)
  = Some (if days <=? 2 then (hour_label (hour_of (wall lt)) ++ " ")%string
          else align_center BAR_WIDTH
                 (str_int (month_of (wall lt)) ++ "/"
                  ++ str_int (day_of (wall lt)))%string).
Proof.
  unfold series_key, chart_label.
  assert (Hdate : forall t, valid_datetime t ->
            1 <= month_of t <= 12 /\ 1 <= day_of t <= 31).
  { intros t Ht. apply day_number_valid in Ht. unfold month_of, day_of.
    fold (day_number t).
    destruct (date_of_days (day_number t)) as [[y m] d] eqn:E.
    pose proof (date_of_days_range _ Ht _ _ _ E) as (_ & Hm & Hd).
    cbn [fst snd]. split; assumption. }
  destruct (Z.leb_spec days 2) as [Hd|Hd].
  - (* the hour *)
    replace (2 <? days) with false by (symmetry; apply Z.ltb_ge; lia).
    rewrite strftime_hourly. unfold replace_to_hour. cbn [wall].
    set (t := wall lt) in *. set (ta := t - t mod US_PER_HOUR).
    assert (Va : valid_datetime ta)
      by (apply truncate_valid; [unfold US_PER_HOUR; lia|assumption]).
    destruct (year_text_plain style ta Va) as [Hys _].
    assert (Hh : hour_of ta = hour_of t)
      by (unfold hour_of; subst ta; rewrite truncate_hour; reflexivity).
    rewrite Hh.
    pose proof (all_from_spec _ _ 0 (hour_of t) hour_label_all
                  ltac:(pose proof (hour_of_range t); lia)) as Hok.
    unfold hour_label_ok in Hok. apply andb_true_iff in Hok.
    destruct Hok as [Hns Hal]. apply String.eqb_eq in Hal.
    fold (hour_label (hour_of t)).
    set (B := hour_label (hour_of t)) in *.
    set (Y := year_text style ta). set (MM := pad_digits 2 (month_of ta)).
    set (DD := pad_digits 2 (day_of ta)).
    change (Y ++ "-" ++ MM ++ "-" ++ DD ++ " " ++ B)%string
      with (Y ++ String "-" (MM ++ String "-" (DD ++ String " " B)))%string.
    replace (Y ++ String "-" (MM ++ String "-" (DD ++ String " " B)))%string
      with ((Y ++ String "-" (MM ++ String "-" DD)) ++ String " " B)%string
      by (rewrite !string_app_assoc; cbn [append]; rewrite string_app_assoc;
          reflexivity).
    rewrite has_space_some.
    rewrite split_words_skip.
    + cbn [split_words]. change (is_space " ") with true. cbv iota.
      assert (HB : split_words B EmptyString = [B]).
      { apply split_words_one; [assumption|]. subst B. unfold hour_label.
        cbn [pad_digits append]. discriminate. }
      rewrite HB.
      destruct (("" ++ Y ++ String "-" (MM ++ String "-" DD))%string);
        cbn [rev app hd_error bind]; rewrite Hal; reflexivity.
    + rewrite !no_space_app. cbn [no_space]. rewrite !no_space_app.
      cbn [no_space]. subst Y MM DD. rewrite Hys, !no_space_pad_digits.
      reflexivity.
  - (* the day *)
    replace (2 <? days) with true by (symmetry; apply Z.ltb_lt; lia).
    rewrite strftime_daily. unfold replace_to_day. cbn [wall].
    set (t := wall lt) in *. set (ta := t - t mod US_PER_DAY).
    assert (Va : valid_datetime ta)
      by (apply truncate_valid; [unfold US_PER_DAY; lia|assumption]).
    destruct (year_text_plain style ta Va) as [Hys Hyd].
    assert (Hm : month_of ta = month_of t)
      by (unfold month_of; subst ta; rewrite truncate_day; reflexivity).
    assert (Hday : day_of ta = day_of t)
      by (unfold day_of; subst ta; rewrite truncate_day; reflexivity).
    rewrite Hm, Hday. destruct (Hdate t Hvalid) as [Hmr Hdr].
    set (m := month_of t) in *. set (d := day_of t) in *.
    pose proof (all_from_spec _ _ 0 ((m - 1) * 31 + (d - 1)) date_label_all
                  ltac:(lia)) as Hok.
    unfold date_label_ok in Hok.
    rewrite <- (Z.div_unique_pos ((m - 1) * 31 + (d - 1)) 31 (m - 1) (d - 1))
      in Hok by lia.
    rewrite <- (Z.mod_unique_pos ((m - 1) * 31 + (d - 1)) 31 (m - 1) (d - 1))
      in Hok by lia.
    replace (m - 1 + 1) with m in Hok by lia.
    replace (d - 1 + 1) with d in Hok by lia.
    set (Y := year_text style ta) in *.
    set (rest := (pad_digits 2 m ++ "-" ++ pad_digits 2 d ++ "")%string) in *.
    change (Y ++ "-" ++ rest)%string with (Y ++ String "-" rest)%string.
    rewrite split_words_one.
    + cbn [hd_error bind]. rewrite split_at_first by assumption.
      cbn [append nth_error].
      destruct (split_at "-" rest "") as [|a [|b [|c parts]]]; try discriminate.
      cbn [nth_error bind].
      destruct (int_of_str a) as [m'|]; [|discriminate].
      destruct (int_of_str b) as [d'|]; [|discriminate].
      apply andb_true_iff in Hok. destruct Hok as [Em Ed].
      apply Z.eqb_eq in Em, Ed. subst m' d'. reflexivity.
    + rewrite no_space_app. cbn [no_space]. subst rest.
      rewrite !no_space_app, !no_space_pad_digits. cbn [no_space].
      rewrite Hys. reflexivity.
    + destruct Y; discriminate.
Qed.

Lemma chart_label_of_key_witness :
  chart_label 7 0
    (series_key PlainYear 7 (if 7 <=? 2 then HOURLY_FORMAT else DAILY_FORMAT)
       (local_of 2025 1 2 10 5 0))
  = Some (if 7 <=? 2
          then (hour_label (hour_of (wall (local_of 2025 1 2 10 5 0))) ++ " ")%string
          else align_center BAR_WIDTH
                 (str_int (month_of (wall (local_of 2025 1 2 10 5 0))) ++ "/"
                  ++ str_int (day_of (wall (local_of 2025 1 2 10 5 0))))%string).
Proof.
  apply (chart_label_of_key PlainYear 7 0 (local_of 2025 1 2 10 5 0)).
  vm_compute. split; [discriminate|reflexivity].
Defined.

(** The labels of the second of January 2025, five past ten. *)
Example chart_label_examples :
  chart_label 7 0 (series_key PlainYear 7 DAILY_FORMAT (local_of 2025 1 2 10 5 0))
  = Some " 1/2  "
  /\ chart_label 1 0
       (series_key PaddedYear 1 HOURLY_FORMAT (local_of 2025 1 2 10 5 0))
     = Some "10:00 "
  /\ chart_label 7 3 "week 1" = Some "  3   ".
Proof. repeat split; vm_compute; reflexivity. Qed.

(** ** Floats: sums between two points of a grid

    The sum or the difference of two floats that lie between points of
    the grid of step [2^c] is rounded on a grid at least as fine, as long
    as it stays below [2^(53 + c)]: the rounded value lies between the
    sums of the points. *)

(** The bounds of [float_between], in units of [2^g]. *)
Lemma between_units lo hi c M e g : g <= c -> g <= e ->
  (lo * 2 ^ Z.max 0 (c - e) <= M * 2 ^ Z.max 0 (e - c) <= hi * 2 ^ Z.max 0 (c - e))
  <-> (lo * 2 ^ (c - g) <= M * 2 ^ (e - g) <= hi * 2 ^ (c - g)).
Proof.
  intros Hc He. set (k := Z.min c e - g).
  assert (Hk : 0 <= k) by (subst k; lia).
  assert (H2k : 0 < 2 ^ k) by (apply pow2_gt0; assumption).
  replace (c - g) with (Z.max 0 (c - e) + k) by (subst k; lia).
  replace (e - g) with (Z.max 0 (e - c) + k) by (subst k; lia).
  rewrite !pow2_add by lia. rewrite !Z.mul_assoc.
  set (A := lo * 2 ^ Z.max 0 (c - e)). set (B := M * 2 ^ Z.max 0 (e - c)).
  set (C := hi * 2 ^ Z.max 0 (c - e)).
  split; intros [H1 H2].
  - split; apply Z.mul_le_mono_nonneg_r; lia.
  - split; apply (Z.mul_le_mono_pos_r _ _ (2 ^ k)); assumption.
Qed.

Lemma float_between_weaken lo hi lo' hi' c x :
  float_between lo hi c x -> lo' <= lo -> hi <= hi' -> float_between lo' hi' c x.
Proof.
  destruct x as [s|s| |s m e]; cbn [float_between]; try contradiction;
    intros H Hl Hh; [lia|].
  assert (0 < 2 ^ Z.max 0 (c - e)) by (apply pow2_gt0; lia).
  destruct H as [H1 H2]. split.
  - apply Z.le_trans with (lo * 2 ^ Z.max 0 (c - e)); [|assumption].
    apply Z.mul_le_mono_nonneg_r; lia.
  - apply Z.le_trans with (hi * 2 ^ Z.max 0 (c - e)); [assumption|].
    apply Z.mul_le_mono_nonneg_r; lia.
Qed.

Lemma float_between_opp lo hi c x :
  float_between lo hi c x -> float_between (- hi) (- lo) c (SFopp x).
Proof.
  destruct x as [s|s| |s m e]; cbn [float_between SFopp]; try contradiction;
    [lia|].
  assert (Hs : signed_mantissa (negb s) m = - signed_mantissa s m)
    by (destruct s; reflexivity).
  rewrite Hs. intros [H1 H2]. split; lia.
Qed.

Lemma float_within_between lo hi c x :
  float_within lo hi c x -> float_between lo hi c x.
Proof.
  destruct x as [s|s| |[|] m e]; cbn [float_within float_between];
    try contradiction; [tauto|].
  intros [He H]. rewrite (Z.max_r 0 (c - e)), (Z.max_l 0 (e - c)) by lia.
  change (2 ^ 0) with 1. cbn [signed_mantissa]. lia.
Qed.

Lemma iter_xO_pow2 (p d : positive) :
  Zpos (Pos.iter xO p d) = Zpos p * 2 ^ Zpos d.
Proof.
  induction d as [|d IH] using Pos.peano_ind.
  - change (Pos.iter xO p 1) with (p~0)%positive. change (2 ^ 1) with 2. lia.
  - rewrite Pos.iter_succ, Pos2Z.inj_succ, Z.pow_succ_r by lia.
    change (Z.pos (Pos.iter xO p d)~0) with (2 * Z.pos (Pos.iter xO p d)).
    rewrite IH. ring.
Qed.

(** The mantissa shifted to a lower exponent. *)
Lemma shl_align_spec (m : positive) e e' :
  let ez := snd (shl_align m e e') in
  ez = Z.min e e' /\ Zpos (fst (shl_align m e e')) = Zpos m * 2 ^ (e - ez).
Proof.
  unfold shl_align. destruct (e' - e) as [|d|d] eqn:E; cbn [fst snd].
  - split; [lia|]. rewrite Z.sub_diag. cbn. lia.
  - split; [lia|]. rewrite Z.sub_diag. cbn. lia.
  - split; [lia|]. rewrite iter_xO_pow2. f_equal. f_equal. lia.
Qed.

(** The rounding of an integer multiple of [2^e] between two points of
    the grid. *)
Lemma normalize_between M e c lo hi szero :
  -1074 <= c <= 971 -> - 2 ^ 53 < lo -> hi < 2 ^ 53 ->
  lo * 2 ^ Z.max 0 (c - e) <= M * 2 ^ Z.max 0 (e - c) <= hi * 2 ^ Z.max 0 (c - e) ->
  float_between lo hi c (binary_normalize prec emax M e szero).
Proof.
  assert (Hpos : forall (p : positive) lo hi,
            0 <= lo -> hi < 2 ^ 53 -> -1074 <= c <= 971 ->
            lo * 2 ^ Z.max 0 (c - e) <= Zpos p * 2 ^ Z.max 0 (e - c)
              <= hi * 2 ^ Z.max 0 (c - e) ->
            float_within lo hi c (binary_round prec emax false p e)).
  { clear. intros p lo hi Hlo Hhi Hc Hb. unfold binary_round.
    pose proof (shl_align_spec p e (fexp prec emax (Z.pos (digits2_pos p) + e)))
      as Hs.
    destruct (shl_align p e _) as [mz ez]. cbn [fst snd] in Hs.
    destruct Hs as [Hez Hmz].
    assert (Hezc : ez <= c).
    { destruct (Z_le_gt_dec e c) as [Hle|Hgt]; [lia|].
      rewrite (Z.max_l 0 (c - e)), (Z.max_r 0 (e - c)) in Hb by lia.
      change (2 ^ 0) with 1 in Hb. rewrite !Z.mul_1_r in Hb.
      assert (Hd : 2 ^ (Zdigits2 (Zpos p) - 1) <= Zpos p)
        by (apply Zdigits2_lower; lia).
      assert (Hdp : 1 <= Zdigits2 (Zpos p)) by (cbn [Zdigits2]; lia).
      assert (H2 : 2 ^ (Zdigits2 (Zpos p) - 1 + (e - c)) < 2 ^ 53).
      { rewrite pow2_add by lia.
        apply Z.le_lt_trans with (Zpos p * 2 ^ (e - c)); [|lia].
        apply Z.mul_le_mono_nonneg_r; [apply Z.pow_nonneg; lia|assumption]. }
      apply pow2_lt_exp in H2; [|lia|lia].
      cbn [Zdigits2] in H2.
      pose proof (fexp_le (Z.pos (digits2_pos p) + e) c ltac:(lia) ltac:(lia)).
      lia. }
    apply round_within; try assumption; try lia.
    - apply (between_units lo hi c (Zpos p) e ez Hezc ltac:(lia)) in Hb.
      rewrite Hmz. exact Hb.
    - left. reflexivity. }
  intros Hc Hlo Hhi Hb. destruct M as [|p|p]; cbn [binary_normalize].
  - cbn [float_between].
    assert (0 < 2 ^ Z.max 0 (c - e)) by (apply pow2_gt0; lia).
    rewrite Z.mul_0_l in Hb. split; nia.
  - apply float_within_between.
    assert (Hw : float_within (Z.max 0 lo) hi c (binary_round prec emax false p e)).
    { assert (0 < 2 ^ Z.max 0 (c - e)) by (apply pow2_gt0; lia).
      assert (0 <= Zpos p * 2 ^ Z.max 0 (e - c))
        by (apply Z.mul_nonneg_nonneg; [lia|apply Z.pow_nonneg; lia]).
      apply Hpos; [lia|assumption|assumption|].
      split; [|apply Hb].
      destruct (Z.max_spec 0 lo) as [[_ ->]|[_ ->]]; [apply Hb|lia]. }
    destruct (binary_round prec emax false p e) as [s|s| |[|] m e'];
      cbn [float_within] in Hw |- *; try contradiction; [lia|].
    destruct Hw as [He [H1 H2]]. split; [exact He|]. split; [|exact H2].
    apply Z.le_trans with (Z.max 0 lo * 2 ^ (c - e')); [|exact H1].
    apply Z.mul_le_mono_nonneg_r; [apply Z.pow_nonneg; lia|lia].
  - assert (Hopp : binary_round prec emax true p e
                   = SFopp (binary_round prec emax false p e)).
    { unfold binary_round. destruct (shl_align p e _) as [mz ez].
      apply binary_round_aux_opp. }
    rewrite Hopp.
    replace lo with (- - lo) by lia. replace hi with (- - hi) by lia.
    apply float_between_opp. apply float_within_between.
    assert (Hw : float_within (Z.max 0 (- hi)) (- lo) c
                   (binary_round prec emax false p e)).
    { assert (0 < 2 ^ Z.max 0 (c - e)) by (apply pow2_gt0; lia).
      assert (0 <= Zpos p * 2 ^ Z.max 0 (e - c))
        by (apply Z.mul_nonneg_nonneg; [lia|apply Z.pow_nonneg; lia]).
      change (Z.neg p) with (- Zpos p) in Hb.
      apply Hpos; [lia|lia|assumption|].
      split; [|lia].
      destruct (Z.max_spec 0 (- hi)) as [[_ ->]|[_ ->]]; lia. }
    destruct (binary_round prec emax false p e) as [s|s| |[|] m e'];
      cbn [float_within] in Hw |- *; try contradiction; [lia|].
    destruct Hw as [He [H1 H2]]. split; [exact He|]. split; [|exact H2].
    apply Z.le_trans with (Z.max 0 (- hi) * 2 ^ (c - e')); [|exact H1].
    apply Z.mul_le_mono_nonneg_r; [apply Z.pow_nonneg; lia|lia].
Qed.

(** The sum of two floats between points of the grid. *)
Lemma fadd_between lx hx ly hy c x y :
  -1074 <= c <= 971 ->
  float_between lx hx c x -> float_between ly hy c y ->
  - 2 ^ 53 < lx + ly -> hx + hy < 2 ^ 53 ->
  float_between (lx + ly) (hx + hy) c (fadd x y).
Proof.
  intros Hc Hx Hy Hlo Hhi.
  destruct x as [sx|sx| |sx mx ex]; cbn [float_between] in Hx; try contradiction;
    destruct y as [sy|sy| |sy my ey]; cbn [float_between] in Hy;
    try contradiction.
  - assert (E : exists s, fadd (S754_zero sx) (S754_zero sy) = S754_zero s)
      by (destruct sx, sy; eexists; reflexivity).
    destruct E as [s ->]. cbn [float_between]. lia.
  - change (fadd (S754_zero sx) (S754_finite sy my ey)) with (S754_finite sy my ey).
    apply (float_between_weaken ly hy); [exact Hy|lia|lia].
  - change (fadd (S754_finite sx mx ex) (S754_zero sy)) with (S754_finite sx mx ex).
    apply (float_between_weaken lx hx); [exact Hx|lia|lia].
  - unfold fadd, SFadd. cbv zeta. set (ez := Z.min ex ey).
    pose proof (shl_align_spec mx ex ez) as [Eex Emx].
    pose proof (shl_align_spec my ey ez) as [Eey Emy].
    cbv zeta in Eex, Emx, Eey, Emy.
    rewrite Eex in Emx. rewrite Eey in Emy.
    replace (Z.min ex ez) with ez in Emx by (subst ez; lia).
    replace (Z.min ey ez) with ez in Emy by (subst ez; lia).
    assert (Ex : cond_Zopp sx (Z.pos (fst (shl_align mx ex ez)))
                 = signed_mantissa sx mx * 2 ^ (ex - ez)).
    { unfold cond_Zopp, signed_mantissa. rewrite Emx.
      destruct sx; [change (Z.neg mx) with (- Z.pos mx)|]; ring. }
    assert (Ey : cond_Zopp sy (Z.pos (fst (shl_align my ey ez)))
                 = signed_mantissa sy my * 2 ^ (ey - ez)).
    { unfold cond_Zopp, signed_mantissa. rewrite Emy.
      destruct sy; [change (Z.neg my) with (- Z.pos my)|]; ring. }
    rewrite Ex, Ey. set (g := Z.min c ez).
    apply normalize_between; try assumption.
    apply (between_units _ _ c _ ez g ltac:(subst g; lia) ltac:(subst g; lia)).
    apply (between_units _ _ c _ ex g ltac:(subst g ez; lia) ltac:(subst g ez; lia))
      in Hx.
    apply (between_units _ _ c _ ey g ltac:(subst g ez; lia) ltac:(subst g ez; lia))
      in Hy.
    assert (EM : (signed_mantissa sx mx * 2 ^ (ex - ez)
                  + signed_mantissa sy my * 2 ^ (ey - ez)) * 2 ^ (ez - g)
                 = signed_mantissa sx mx * 2 ^ (ex - g)
                   + signed_mantissa sy my * 2 ^ (ey - g)).
    { replace (ex - g) with ((ex - ez) + (ez - g)) by lia.
      replace (ey - g) with ((ey - ez) + (ez - g)) by lia.
      rewrite !pow2_add by (subst g ez; lia). ring. }
    rewrite EM. lia.
Qed.

(** The difference of two floats between points of the grid. *)
Lemma fsub_between lx hx ly hy c x y :
  -1074 <= c <= 971 ->
  float_between lx hx c x -> float_between ly hy c y ->
  - 2 ^ 53 < lx - hy -> hx - ly < 2 ^ 53 ->
  float_between (lx - hy) (hx - ly) c (fsub x y).
Proof.
  intros Hc Hx Hy Hlo Hhi.
  destruct x as [sx|sx| |sx mx ex]; cbn [float_between] in Hx; try contradiction;
    destruct y as [sy|sy| |sy my ey]; cbn [float_between] in Hy;
    try contradiction.
  - assert (E : exists s, fsub (S754_zero sx) (S754_zero sy) = S754_zero s)
      by (destruct sx, sy; eexists; reflexivity).
    destruct E as [s ->]. cbn [float_between]. lia.
  - change (fsub (S754_zero sx) (S754_finite sy my ey))
      with (SFopp (S754_finite sy my ey)).
    apply (float_between_weaken (- hy) (- ly)); [|lia|lia].
    apply float_between_opp. exact Hy.
  - change (fsub (S754_finite sx mx ex) (S754_zero sy)) with (S754_finite sx mx ex).
    apply (float_between_weaken lx hx); [exact Hx|lia|lia].
  - unfold fsub, SFsub. cbv zeta. set (ez := Z.min ex ey).
    pose proof (shl_align_spec mx ex ez) as [Eex Emx].
    pose proof (shl_align_spec my ey ez) as [Eey Emy].
    cbv zeta in Eex, Emx, Eey, Emy.
    rewrite Eex in Emx. rewrite Eey in Emy.
    replace (Z.min ex ez) with ez in Emx by (subst ez; lia).
    replace (Z.min ey ez) with ez in Emy by (subst ez; lia).
    assert (Ex : cond_Zopp sx (Z.pos (fst (shl_align mx ex ez)))
                 = signed_mantissa sx mx * 2 ^ (ex - ez)).
    { unfold cond_Zopp, signed_mantissa. rewrite Emx.
      destruct sx; [change (Z.neg mx) with (- Z.pos mx)|]; ring. }
    assert (Ey : cond_Zopp sy (Z.pos (fst (shl_align my ey ez)))
                 = signed_mantissa sy my * 2 ^ (ey - ez)).
    { unfold cond_Zopp, signed_mantissa. rewrite Emy.
      destruct sy; [change (Z.neg my) with (- Z.pos my)|]; ring. }
    rewrite Ex, Ey. set (g := Z.min c ez).
    apply normalize_between; try assumption.
    apply (between_units _ _ c _ ez g ltac:(subst g; lia) ltac:(subst g; lia)).
    apply (between_units _ _ c _ ex g ltac:(subst g ez; lia) ltac:(subst g ez; lia))
      in Hx.
    apply (between_units _ _ c _ ey g ltac:(subst g ez; lia) ltac:(subst g ez; lia))
      in Hy.
    assert (EM : (signed_mantissa sx mx * 2 ^ (ex - ez)
                  - signed_mantissa sy my * 2 ^ (ey - ez)) * 2 ^ (ez - g)
                 = signed_mantissa sx mx * 2 ^ (ex - g)
                   - signed_mantissa sy my * 2 ^ (ey - g)).
    { replace (ex - g) with ((ex - ez) + (ez - g)) by lia.
      replace (ey - g) with ((ey - ez) + (ez - g)) by lia.
      rewrite !pow2_add by (subst g ez; lia). ring. }
    rewrite EM. lia.
Qed.

(** The bounds of a float between them are in order. *)
Lemma float_between_order lo hi c x : float_between lo hi c x -> lo <= hi.
Proof.
  destruct x as [s|s| |s m e]; cbn [float_between]; try contradiction; [lia|].
  intros [H1 H2].
  assert (0 < 2 ^ Z.max 0 (c - e)) by (apply pow2_gt0; lia).
  apply (Z.mul_le_mono_pos_r _ _ (2 ^ Z.max 0 (c - e))); lia.
Qed.

(** A float between its two neighbours of the grid. *)
Lemma grid_between c x : is_number x = true ->
  float_between (grid_floor c x) (grid_ceil c x) c x
  /\ grid_ceil c x - grid_floor c x <= 1.
Proof.
  destruct x as [s|s| |s m e]; cbn [is_number]; try discriminate; intros _.
  - cbn. lia.
  - unfold grid_ceil. cbn [SFopp grid_floor float_between].
    assert (Hs : signed_mantissa (negb s) m = - signed_mantissa s m)
      by (destruct s; reflexivity).
    rewrite Hs. set (S0 := signed_mantissa s m).
    destruct (Z.leb_spec e c) as [Hle|Hgt].
    + rewrite (Z.max_r 0 (c - e)), (Z.max_l 0 (e - c)) by lia.
      change (2 ^ 0) with 1. rewrite Z.mul_1_r.
      assert (HP : 0 < 2 ^ (c - e)) by (apply pow2_gt0; lia).
      set (P := 2 ^ (c - e)) in *.
      pose proof (Z.div_mod S0 P ltac:(lia)).
      pose proof (Z.mod_pos_bound S0 P HP).
      pose proof (Z.div_mod (- S0) P ltac:(lia)).
      pose proof (Z.mod_pos_bound (- S0) P HP).
      split; [split; nia|nia].
    + rewrite (Z.max_l 0 (c - e)), (Z.max_r 0 (e - c)) by lia.
      change (2 ^ 0) with 1. split; [split; lia|lia].
Qed.

Lemma grid_floor_nonneg c x : is_nonneg x = true -> 0 <= grid_floor c x.
Proof.
  destruct x as [[|]|[|]| |[|] m e]; cbn [is_nonneg grid_floor]; try discriminate;
    intros _; try lia.
  cbn [signed_mantissa]. destruct (e <=? c).
  - apply Z_div_nonneg_nonneg; [lia|apply Z.pow_nonneg; lia].
  - apply Z.mul_nonneg_nonneg; [lia|apply Z.pow_nonneg; lia].
Qed.

(** ** Sums of floats between the sums of their bounds *)

Section SumBetween.
Context {A : Type}.
Variable v : A -> float.
Variables F G : A -> Z.
Variable c : Z.
Hypothesis Hc : -1074 <= c <= 971.

Lemma bounds_nonneg items :
  Forall (fun a => float_between (F a) (G a) c (v a) /\ 0 <= F a) items ->
  0 <= zsum (map F items) <= zsum (map G items).
Proof.
  induction 1 as [|a items [Ha H0] _ IH]; cbn [map zsum]; [lia|].
  apply float_between_order in Ha. lia.
Qed.

(** The sum from the left. *)
Lemma fold_fadd_between items :
  Forall (fun a => float_between (F a) (G a) c (v a) /\ 0 <= F a) items ->
  forall acc La Ha, float_between La Ha c acc -> 0 <= La ->
  Ha + zsum (map G items) < 2 ^ 53 ->
  float_between (La + zsum (map F items)) (Ha + zsum (map G items)) c
    (fold_left fadd (map v items) acc).
Proof.
  induction 1 as [|a items [Ha H0] Hitems IH]; intros acc La Hacc Hf HLa Hsum;
    cbn [map zsum fold_left] in *.
  - rewrite !Z.add_0_r. exact Hf.
  - pose proof (bounds_nonneg items Hitems) as Hnn.
    pose proof (float_between_order _ _ _ _ Ha) as Hord.
    replace (La + (F a + zsum (map F items)))
      with ((La + F a) + zsum (map F items)) by lia.
    replace (Hacc + (G a + zsum (map G items)))
      with ((Hacc + G a) + zsum (map G items)) by lia.
    apply IH; [|lia|lia].
    apply fadd_between; try assumption; [|lia].
    assert (0 < 2 ^ 53) by (apply pow2_gt0; lia). lia.
Qed.

(** The compensated sum: the running sum is between the sums of the
    bounds, and the compensation grows with each item by at most the
    width of the bounds. *)
Lemma compensated_between items :
  Forall (fun a => float_between (F a) (G a) c (v a) /\ 0 <= F a) items ->
  forall f c0 Lf Hf C,
  float_between Lf Hf c f -> 0 <= Lf -> float_between (- C) C c c0 ->
  Hf + zsum (map G items) + C
  + len items * (Hf - Lf + (zsum (map G items) - zsum (map F items))) < 2 ^ 53 ->
  float_between
    (Lf + zsum (map F items) - C
     - len items * (Hf - Lf + (zsum (map G items) - zsum (map F items))))
    (Hf + zsum (map G items) + C
     + len items * (Hf - Lf + (zsum (map G items) - zsum (map F items))))
    c (compensated (map v items) f c0).
Proof.
  assert (H53 : 0 < 2 ^ 53) by (apply pow2_gt0; lia).
  induction 1 as [|a items [Ha H0] Hitems IH]; intros f c0 Lf Hf C Hff HLf Hc0 Hsum;
    cbn [map zsum compensated] in *.
  - pose proof (float_between_order _ _ _ _ Hff).
    pose proof (float_between_order _ _ _ _ Hc0).
    change (len (@nil A)) with 0 in *. cbn [Z.mul] in *.
    rewrite ?Z.add_0_r, ?Z.sub_0_r in *.
    destruct (nonzero_finite c0).
    + replace (Lf - C) with (Lf + - C) by lia.
      apply fadd_between; try assumption; lia.
    + apply (float_between_weaken Lf Hf); [assumption|lia|lia].
  - pose proof (bounds_nonneg items Hitems) as Hnn.
    pose proof (float_between_order _ _ _ _ Ha) as Hord.
    pose proof (float_between_order _ _ _ _ Hff) as Hordf.
    pose proof (float_between_order _ _ _ _ Hc0) as HC.
    rewrite len_cons in *.
    set (SF := zsum (map F items)) in *. set (SG := zsum (map G items)) in *.
    set (n := len items) in *.
    assert (Hn : 0 <= n) by (subst n; unfold len; lia).
    set (W := Hf - Lf + (G a + SG - (F a + SF))) in *.
    assert (HW : 0 <= W) by (subst W; lia).
    assert (HnW : 0 <= n * W) by (apply Z.mul_nonneg_nonneg; assumption).
    replace ((1 + n) * W) with (W + n * W) in * by ring.
    set (t := fadd f (v a)).
    assert (Ht : float_between (Lf + F a) (Hf + G a) c t)
      by (apply fadd_between; try assumption; lia).
    set (w := Hf - Lf + (G a - F a)).
    assert (Hw : 0 <= w <= W) by (subst w W; lia).
    (* the next compensation *)
    assert (Hc' : float_between (- (C + w)) (C + w) c
                    (if fge (fabs f) (fabs (v a))
                     then fadd c0 (fadd (fsub f t) (v a))
                     else fadd c0 (fadd (fsub (v a) t) f))).
    { destruct (fge (fabs f) (fabs (v a))).
      - replace (- (C + w)) with (- C + - w) by lia.
        apply fadd_between; try assumption; try lia.
        replace (- w) with ((Lf - (Hf + G a)) + F a) by (subst w; lia).
        replace w with ((Hf - (Lf + F a)) + G a) by (subst w; lia).
        apply fadd_between; try assumption; try lia.
        apply fsub_between; try assumption; lia.
      - replace (- (C + w)) with (- C + - w) by lia.
        apply fadd_between; try assumption; try lia.
        replace (- w) with ((F a - (Hf + G a)) + Lf) by (subst w; lia).
        replace w with ((G a - (Lf + F a)) + Hf) by (subst w; lia).
        apply fadd_between; try assumption; try lia.
        apply fsub_between; try assumption; lia. }
    specialize (IH t _ (Lf + F a) (Hf + G a) (C + w) Ht ltac:(lia) Hc').
    replace (Hf + G a - (Lf + F a) + (SG - SF)) with W in IH by (subst W; lia).
    eapply float_between_weaken; [apply IH; lia|lia|lia].
Qed.

(** The builtin [sum] of floats that are not negative. *)
Lemma py_sum_between alg items :
  Forall (fun a => float_between (F a) (G a) c (v a) /\ 0 <= F a) items ->
  let slack :=
    match alg with
    | LeftToRight => 0
    | Compensated =>
        len items * (zsum (map G items) - zsum (map F items))
    end in
  zsum (map G items) + slack < 2 ^ 53 ->
  float_between (zsum (map F items) - slack) (zsum (map G items) + slack) c
    (py_sum alg (map v items)).
Proof.
  assert (H53 : 0 < 2 ^ 53) by (apply pow2_gt0; lia).
  intros Hitems slack Hsum. subst slack.
  destruct items as [|a items]; cbn [map py_sum].
  - cbn [zsum float_between]. destruct alg; cbn; lia.
  - inversion Hitems as [|? ? [Ha H0] Hrest]; subst.
    pose proof (bounds_nonneg items Hrest) as Hnn.
    pose proof (float_between_order _ _ _ _ Ha) as Hord.
    assert (Hfirst : float_between (F a) (G a) c (fadd of_int_zero (v a))).
    { replace (F a) with (0 + F a) by lia. replace (G a) with (0 + G a) by lia.
      apply fadd_between; try assumption; try (cbn [zsum map] in Hsum).
      - cbn. lia.
      - lia.
      - assert (0 <= len (a :: items)
                     * (G a + zsum (map G items) - (F a + zsum (map F items)))).
        { apply Z.mul_nonneg_nonneg; [unfold len; lia|lia]. }
        destruct alg; lia. }
    cbn [zsum map] in Hsum |- *. destruct alg.
    + rewrite Z.sub_0_r, Z.add_0_r in *.
      apply fold_fadd_between; assumption.
    + rewrite len_cons in *.
      set (W := G a + zsum (map G items) - (F a + zsum (map F items))) in *.
      assert (HW : 0 <= W) by (subst W; lia).
      assert (Hn : 0 <= len items) by (unfold len; lia).
      assert (HnW : 0 <= len items * W) by (apply Z.mul_nonneg_nonneg; assumption).
      replace ((1 + len items) * W) with (W + len items * W) in * by ring.
      pose proof (compensated_between items Hrest (fadd of_int_zero (v a)) fzero
                    (F a) (G a) 0 Hfirst H0) as Hcomp.
      replace (G a - F a + (zsum (map G items) - zsum (map F items))) with W
        in Hcomp by (subst W; lia).
      eapply float_between_weaken; [apply Hcomp|lia|lia].
      * cbn. lia.
      * lia.
Qed.

End SumBetween.

(** ** The costs of a summary on a grid *)

Lemma traverse_map_known {A B} (f : A -> option B) (g : B -> Z) l bs :
  traverse f l = Some bs ->
  map g bs = map (fun a => match f a with Some b => g b | None => 0 end) l.
Proof.
  revert bs. induction l as [|a l IH]; cbn [traverse map]; intros bs H.
  - inversion H. reflexivity.
  - destruct (f a) as [b|]; cbn [bind] in H; [|discriminate].
    destruct (traverse f l) as [bs'|]; cbn [bind] in H; [|discriminate].
    inversion H; subst bs. cbn [map]. rewrite (IH bs' eq_refl). reflexivity.
Qed.

Lemma traverse_Forall {A B} (f : A -> option B) (P : B -> Prop) l bs :
  traverse f l = Some bs ->
  (forall a b, In a l -> f a = Some b -> P b) -> Forall P bs.
Proof.
  revert bs. induction l as [|a l IH]; cbn [traverse]; intros bs H HP.
  - inversion H. constructor.
  - destruct (f a) as [b|] eqn:E; cbn [bind] in H; [|discriminate].
    destruct (traverse f l) as [bs'|]; cbn [bind] in H; [|discriminate].
    inversion H; subst bs. constructor.
    + apply (HP a b); [left; reflexivity|assumption].
    + apply IH; [reflexivity|]. intros a' b' Hin. apply HP. right. assumption.
Qed.

Lemma traverse_known {A B} (f : A -> option B) (P : B -> Prop) l bs :
  traverse f l = Some bs -> Forall P bs ->
  forall a b, In a l -> f a = Some b -> P b.
Proof.
  revert bs. induction l as [|a l IH]; cbn [traverse]; intros bs H HP a' b' Hin Hf.
  - destruct Hin.
  - destruct (f a) as [b|] eqn:E; cbn [bind] in H; [|discriminate].
    destruct (traverse f l) as [bs'|]; cbn [bind] in H; [|discriminate].
    inversion H; subst bs. inversion HP; subst.
    destruct Hin as [->|Hin]; [congruence|].
    apply (IH bs' eq_refl) with (a := a'); assumption.
Qed.

Lemma zsum_map_add {A} (f g : A -> Z) l :
  zsum (map (fun a => f a + g a) l) = zsum (map f l) + zsum (map g l).
Proof. induction l as [|a l IH]; cbn [map zsum]; lia. Qed.

Lemma zsum_map_ext {A} (f g : A -> Z) l :
  (forall a, f a = g a) -> zsum (map f l) = zsum (map g l).
Proof. intros H. induction l as [|a l IH]; cbn [map zsum]; [reflexivity|]. rewrite H, IH. reflexivity. Qed.

Lemma zsum_map_zero {A} (l : list A) : zsum (map (fun _ => 0) l) = 0.
Proof. induction l as [|a l IH]; cbn [map zsum]; lia. Qed.

(** One key of a list without duplicates. *)
Lemma zsum_one_key m x keys : NoDup keys -> In m keys ->
  zsum (map (fun k => if String.eqb m k then x else 0) keys) = x.
Proof.
  induction 1 as [|k keys Hk Hnd IH]; cbn [In map zsum]; [intros []|].
  intros [->|Hin].
  - rewrite String.eqb_refl.
    assert (Hz : zsum (map (fun k => if String.eqb m k then x else 0) keys) = 0).
    { clear IH Hnd. induction keys as [|k keys IH]; cbn [map zsum]; [reflexivity|].
      destruct (String.eqb m k) eqn:E.
      - apply String.eqb_eq in E. subst k. contradiction Hk. left. reflexivity.
      - rewrite IH; [reflexivity|]. intros H. apply Hk. right. assumption. }
    lia.
  - destruct (String.eqb m k) eqn:E.
    + apply String.eqb_eq in E. subst k. contradiction.
    + rewrite (IH Hin). lia.
Qed.

(** The records of the models, taken together, are the records. *)
Lemma zsum_by_model (g : UsageRecord -> Z) keys data :
  NoDup keys -> (forall r, In r data -> In (model r) keys) ->
  zsum (map (fun k => zsum (map g (by_model k data))) keys) = zsum (map g data).
Proof.
  intros Hnd. induction data as [|r data IH]; intros Hin.
  - cbn [by_model filter map zsum]. apply zsum_map_zero.
  - cbn [map zsum]. rewrite <- IH by (intros r' Hr'; apply Hin; right; assumption).
    rewrite <- (zsum_one_key (model r) (g r) keys Hnd)
      by (apply Hin; left; reflexivity).
    rewrite <- zsum_map_add. apply zsum_map_ext. intros k.
    unfold by_model. cbn [filter].
    destruct (String.eqb (model r) k); cbn [map zsum]; lia.
Qed.

Lemma In_dict_get {V} (d : dict V) k v :
  NoDup (dict_keys d) -> In (k, v) d -> dict_get k d = Some v.
Proof.
  unfold dict_keys. induction d as [|[k' v'] d IH]; cbn [map In dict_get fst];
    intros Hnd Hin; [destruct Hin|].
  inversion Hnd as [|? ? Hk Hnd']; subst.
  destruct Hin as [E|Hin].
  - inversion E; subst. rewrite String.eqb_refl. reflexivity.
  - destruct (String.eqb k k') eqn:E.
    + apply String.eqb_eq in E. subst k'. contradiction Hk.
      apply (in_map fst) in Hin. exact Hin.
    + apply IH; assumption.
Qed.

Section CostGrid.
Variable c : Z.
Hypothesis Hc : -1074 <= c <= 971.

(** The floats of a list between their cut down and their cut up. *)
Lemma grid_items cs :
  Forall (fun x => is_number x = true) cs ->
  Forall (fun x => is_nonneg x = true) cs ->
  Forall (fun x => float_between (grid_floor c x) (grid_ceil c x) c (id x)
                   /\ 0 <= grid_floor c x) cs.
Proof.
  intros Hnum Hnn. rewrite Forall_forall in *. intros x Hx. split.
  - apply grid_between. apply Hnum. assumption.
  - apply grid_floor_nonneg. apply Hnn. assumption.
Qed.

Lemma grid_width cs : Forall (fun x => is_number x = true) cs ->
  0 <= zsum (map (grid_ceil c) cs) - zsum (map (grid_floor c) cs) <= len cs.
Proof.
  induction 1 as [|x cs Hx _ IH]; cbn [map zsum]; [unfold len; cbn; lia|].
  rewrite len_cons. destruct (grid_between c x Hx) as [Hb Hw].
  apply float_between_order in Hb. lia.
Qed.

Lemma left_sum_between cs :
  Forall (fun x => is_number x = true) cs ->
  Forall (fun x => is_nonneg x = true) cs ->
  zsum (map (grid_ceil c) cs) < 2 ^ 53 ->
  float_between (zsum (map (grid_floor c) cs)) (zsum (map (grid_ceil c) cs)) c
    (left_sum cs).
Proof.
  intros Hnum Hnn Hsum. unfold left_sum. rewrite <- (map_id cs) at 3.
  pose proof (fold_fadd_between id (grid_floor c) (grid_ceil c) c Hc cs
                (grid_items cs Hnum Hnn) of_int_zero 0 0) as H.
  cbn [Z.add] in H. apply H; [cbn; lia|lia|assumption].
Qed.

Lemma py_sum_costs_between alg cs :
  Forall (fun x => is_number x = true) cs ->
  Forall (fun x => is_nonneg x = true) cs ->
  let low := zsum (map (grid_floor c) cs) in
  let high := zsum (map (grid_ceil c) cs) in
  high + len cs * (high - low) < 2 ^ 53 ->
  float_between (low - sum_slack alg (len cs) (high - low))
    (high + sum_slack alg (len cs) (high - low)) c (py_sum alg cs).
Proof.
  intros Hnum Hnn low high Hsum.
  pose proof (grid_width cs Hnum) as Hw. fold low high in Hw.
  assert (Hn : 0 <= len cs) by (unfold len; lia).
  assert (Hs : 0 <= len cs * (high - low)) by (apply Z.mul_nonneg_nonneg; lia).
  replace (py_sum alg cs) with (py_sum alg (map id cs))
    by (rewrite map_id; reflexivity).
  pose proof (py_sum_between id (grid_floor c) (grid_ceil c) c Hc alg cs
                (grid_items cs Hnum Hnn)) as H.
  cbv zeta in H. fold low high in H.
  destruct alg; cbn [sum_slack]; apply H; lia.
Qed.

(** The per-model costs of a summary, each between the sums of the bounds
    of the costs of the records of its model. *)
Lemma model_costs_between data costs d :
  traverse calculate_cost data = Some costs ->
  count_entries [] data = Some d ->
  Forall nonneg_counts data ->
  Forall (fun x => is_number x = true) costs ->
  zsum (map (grid_ceil c) costs) < 2 ^ 53 ->
  exists F G : string * ModelStats -> Z,
    Forall (fun it => float_between (F it) (G it) c (cost (snd it)) /\ 0 <= F it) d
    /\ zsum (map F d) = zsum (map (grid_floor c) costs)
    /\ zsum (map G d) = zsum (map (grid_ceil c) costs)
    /\ len d <= len data.
Proof.
  intros Ec Ed Hnn Hnum Hsum.
  set (hF := fun r => match calculate_cost r with
                      | Some x => grid_floor c x
                      | None => 0
                      end).
  set (hG := fun r => match calculate_cost r with
                      | Some x => grid_ceil c x
                      | None => 0
                      end).
  rewrite (traverse_map_known calculate_cost (grid_floor c) data costs Ec).
  rewrite (traverse_map_known calculate_cost (grid_ceil c) data costs Ec) in Hsum |- *.
  fold hF hG in Hsum |- *.
  assert (Hknown : forall r x, In r data -> calculate_cost r = Some x ->
                     is_number x = true /\ is_nonneg x = true).
  { intros r x Hin Hx. split.
    - exact (traverse_known calculate_cost _ data costs Ec Hnum r x Hin Hx).
    - apply (calculate_cost_nonneg r); [|assumption].
      rewrite Forall_forall in Hnn. apply Hnn. assumption. }
  assert (HhF : Forall (fun r => 0 <= hF r) data).
  { apply Forall_forall. intros r Hin. unfold hF.
    destruct (calculate_cost r) as [x|] eqn:E; [|lia].
    apply grid_floor_nonneg. apply (Hknown r x Hin E). }
  assert (HhG : Forall (fun r => 0 <= hG r) data).
  { apply Forall_forall. intros r Hin. unfold hG.
    destruct (calculate_cost r) as [x|] eqn:E; [|lia].
    destruct (Hknown r x Hin E) as [Hn Hp].
    pose proof (grid_floor_nonneg c x Hp).
    destruct (grid_between c x Hn) as [Hb _]. apply float_between_order in Hb. lia. }
  assert (Hnd : NoDup (dict_keys d))
    by (apply (count_entries_NoDup data [] d Ed); constructor).
  assert (Hget : forall m,
             dict_get m d = match by_model m data with
                            | [] => None
                            | rs => model_tally rs
                            end).
  { intros m. rewrite (count_entries_get _ _ _ Ed m). cbn [dict_get].
    destruct (by_model m data); [reflexivity|]. apply tally_onto_new. }
  exists (fun it => zsum (map hF (by_model (fst it) data))),
         (fun it => zsum (map hG (by_model (fst it) data))).
  split; [|split; [|split]].
  - apply Forall_forall. intros [m st] Hin. cbn [fst snd].
    pose proof (In_dict_get d m st Hnd Hin) as Hm. rewrite Hget in Hm.
    destruct (by_model m data) as [|u rs] eqn:E; [discriminate|].
    rewrite <- E in *. clear E u rs.
    unfold model_tally in Hm.
    destruct (traverse calculate_cost (by_model m data)) as [cs|] eqn:Ecs;
      cbn [bind] in Hm; [|discriminate].
    inversion Hm; subst st. cbn [cost].
    pose proof (zsum_filter_le hF (fun r => String.eqb (model r) m) data HhF) as HF.
    pose proof (zsum_filter_le hG (fun r => String.eqb (model r) m) data HhG) as HG.
    fold (by_model m data) in HF, HG.
    unfold hF, hG in *.
    rewrite <- (traverse_map_known calculate_cost (grid_floor c) _ cs Ecs) in HF |- *.
    rewrite <- (traverse_map_known calculate_cost (grid_ceil c) _ cs Ecs) in HG |- *.
    split; [|lia].
    assert (Hcs : forall r x, In r (by_model m data) -> calculate_cost r = Some x ->
                    is_number x = true /\ is_nonneg x = true).
    { intros r x Hr. apply Hknown. unfold by_model in Hr.
      apply filter_In in Hr. apply Hr. }
    apply left_sum_between.
    + apply (traverse_Forall calculate_cost _ _ cs Ecs).
      intros r x Hr Hx. apply (Hcs r x Hr Hx).
    + apply (traverse_Forall calculate_cost _ _ cs Ecs).
      intros r x Hr Hx. apply (Hcs r x Hr Hx).
    + lia.
  - rewrite <- (map_map fst (fun k => zsum (map hF (by_model k data)))).
    apply zsum_by_model; [exact Hnd|].
    intros r Hr. apply dict_get_In. rewrite Hget.
    destruct (by_model (model r) data) as [|u rs] eqn:E.
    + assert (Hf : In r (by_model (model r) data)).
      { unfold by_model. apply filter_In. split; [assumption|apply String.eqb_refl]. }
      rewrite E in Hf. destruct Hf.
    + rewrite <- E. unfold model_tally.
      destruct (traverse_filter calculate_cost
                  (fun r' => String.eqb (model r') (model r)) data costs Ec)
        as [cs Ecs].
      fold (by_model (model r) data) in Ecs. rewrite Ecs. discriminate.
  - rewrite <- (map_map fst (fun k => zsum (map hG (by_model k data)))).
    apply zsum_by_model; [exact Hnd|].
    intros r Hr. apply dict_get_In. rewrite Hget.
    destruct (by_model (model r) data) as [|u rs] eqn:E.
    + assert (Hf : In r (by_model (model r) data)).
      { unfold by_model. apply filter_In. split; [assumption|apply String.eqb_refl]. }
      rewrite E in Hf. destruct Hf.
    + rewrite <- E. unfold model_tally.
      destruct (traverse_filter calculate_cost
                  (fun r' => String.eqb (model r') (model r)) data costs Ec)
        as [cs Ecs].
      fold (by_model (model r) data) in Ecs. rewrite Ecs. discriminate.
  - assert (Hincl : incl (dict_keys d) (map model data)).
    { intros k Hk. apply dict_get_In in Hk. rewrite Hget in Hk.
      destruct (by_model k data) as [|u rs] eqn:E; [contradiction Hk; reflexivity|].
      assert (Hu : In u (by_model k data)) by (rewrite E; left; reflexivity).
      unfold by_model in Hu. apply filter_In in Hu. destruct Hu as [Hu Hm].
      apply String.eqb_eq in Hm. subst k. apply in_map. assumption. }
    pose proof (NoDup_incl_length Hnd Hincl) as Hlen.
    unfold dict_keys in Hlen. rewrite !length_map in Hlen. unfold len. lia.
Qed.

End CostGrid.

(** ** Consistency of the per-model map with the totals *)

(** C10, as the code has it.  In a summary that [summarize] returns, the
    per-model request counts add up to [total_requests] and each of the
    four per-model token fields adds up to the corresponding total; the
    cost under a model is the left-to-right float sum of the costs of the
    records of that model, and [total_cost] is the builtin [sum] of the
    costs of all the records.  The per-model costs add up to [total_cost]
    up to rounding, in this sense: when no count is negative and the
    costs of the records are finite, take any grid of step [2^c], cut
    every record cost down and up to the grid, and let [low] and [high]
    be the two sums of these, in steps.  As long as [high], with a margin
    of the number of records times [high - low], is under [2^53] steps,
    [total_cost] and the sum of the per-model costs, with either
    algorithm of [sum], both lie between [low] and [high] steps, widened
    for the compensated algorithm by that margin. *)
Theorem models_consistent (alg : sum_algorithm) (data : list UsageRecord)
    (s : SummaryStats) (Hs : summarize alg data = Some s) :
  isum (map requests (dict_values (models s))) = total_requests s
  /\ isum (map m_input_tokens (dict_values (models s))) = total_input s
  /\ isum (map m_output_tokens (dict_values (models s))) = total_output s
  /\ isum (map m_cache_creation_input_tokens (dict_values (models s)))
     = total_cache_creation s
  /\ isum (map m_cache_read_input_tokens (dict_values (models s)))
     = total_cache_read s
  /\ (forall m st, dict_get m (models s) = Some st ->
        exists costs,
          traverse calculate_cost (by_model m data) = Some costs
          /\ cost st = left_sum costs)
  /\ exists costs,
       traverse calculate_cost data = Some costs
       /\ total_cost s = py_sum alg costs
       /\ forall (c : Z) (alg' : sum_algorithm),
            -1074 <= c <= 971 ->
            Forall nonneg_counts data ->
            Forall (fun x => is_number x = true) costs ->
            let low := zsum (map (grid_floor c) costs) in
            let high := zsum (map (grid_ceil c) costs) in
            let width := high - low in
            high + len data * width < 2 ^ 53 ->
            float_between (low - sum_slack alg (len data) width)
              (high + sum_slack alg (len data) width) c (total_cost s)
            /\ float_between (low - sum_slack alg' (len data) width)
                 (high + sum_slack alg' (len data) width) c
                 (py_sum alg' (map cost (dict_values (models s)))).
Proof.
  destruct (traverse calculate_cost data) as [costs|] eqn:Ec.
  2:{ rewrite (summarize_none alg data Ec) in Hs. discriminate. }
  destruct (summarize_some alg data costs Ec) as (d & Ed & Hs').
  rewrite Hs' in Hs. inversion Hs; subst s. clear Hs.
  cbn [total_requests total_input total_output total_cache_creation
       total_cache_read total_cost models].
  rewrite !isum_zsum.
  rewrite (count_entries_zsum requests (fun _ => 1) eq_refl
             (fun _ _ _ => eq_refl) _ _ _ Ed).
  rewrite (count_entries_zsum m_input_tokens input_tokens eq_refl
             (fun _ _ _ => eq_refl) _ _ _ Ed).
  rewrite (count_entries_zsum m_output_tokens output_tokens eq_refl
             (fun _ _ _ => eq_refl) _ _ _ Ed).
  rewrite (count_entries_zsum m_cache_creation_input_tokens
             cache_creation_input_tokens eq_refl (fun _ _ _ => eq_refl) _ _ _ Ed).
  rewrite (count_entries_zsum m_cache_read_input_tokens
             cache_read_input_tokens eq_refl (fun _ _ _ => eq_refl) _ _ _ Ed).
  rewrite zsum_ones. cbn [dict_values map zsum].
  do 5 (split; [lia|]). split.
  { intros m st Hget. rewrite (count_entries_get _ _ _ Ed m) in Hget.
    cbn [dict_get] in Hget.
    destruct (by_model m data) as [|u rs] eqn:E; [discriminate|].
    rewrite tally_onto_new in Hget. unfold model_tally in Hget.
    destruct (traverse calculate_cost (u :: rs)) as [cs|]; cbn [bind] in Hget;
      [|discriminate].
    inversion Hget; subst st. exists cs. split; reflexivity. }
  exists costs. split; [reflexivity|]. split; [reflexivity|].
  intros c alg' Hc Hnn Hnum.
  set (low := zsum (map (grid_floor c) costs)).
  set (high := zsum (map (grid_ceil c) costs)).
  set (width := high - low). intros Hsum.
  assert (Hlen : len costs = len data)
    by (unfold len; rewrite (traverse_length _ _ _ Ec); reflexivity).
  assert (Hpos : Forall (fun x => is_nonneg x = true) costs).
  { apply (traverse_Forall calculate_cost _ data costs Ec).
    intros r x Hr Hx. apply (calculate_cost_nonneg r); [|assumption].
    rewrite Forall_forall in Hnn. apply Hnn. assumption. }
  pose proof (grid_width c costs Hnum) as Hw. fold low high width in Hw.
  assert (Hn : 0 <= len data) by (unfold len; lia).
  assert (Hm : 0 <= len data * width) by (apply Z.mul_nonneg_nonneg; lia).
  split.
  - pose proof (py_sum_costs_between c Hc alg costs Hnum Hpos) as H.
    cbv zeta in H. fold low high width in H. rewrite Hlen in H. apply H. exact Hsum.
  - destruct (model_costs_between c Hc data costs d Ec Ed Hnn Hnum ltac:(fold high; lia))
      as (F & G & Hitems & HF & HG & Hd).
    fold low in HF. fold high in HG.
    pose proof (py_sum_between (fun it : string * ModelStats => cost (snd it))
                  F G c Hc alg' d Hitems) as H.
    cbv zeta in H. rewrite HF, HG in H. fold width in H.
    unfold dict_values. rewrite map_map.
    assert (Hk : 0 <= len d) by (unfold len; lia).
    assert (Hkw : 0 <= len d * width <= len data * width).
    { split; [apply Z.mul_nonneg_nonneg; lia|].
      apply Z.mul_le_mono_nonneg_r; lia. }
    destruct alg'; cbn [sum_slack].
    + apply H. lia.
    + eapply float_between_weaken; [apply H; lia|lia|lia].
Qed.

Lemma models_consistent_witness :
  (isum (map requests (dict_values (models mixed_summary)))
   = total_requests mixed_summary
   /\ isum (map m_input_tokens (dict_values (models mixed_summary)))
      = total_input mixed_summary
   /\ isum (map m_output_tokens (dict_values (models mixed_summary)))
      = total_output mixed_summary
   /\ isum (map m_cache_creation_input_tokens (dict_values (models mixed_summary)))
      = total_cache_creation mixed_summary
   /\ isum (map m_cache_read_input_tokens (dict_values (models mixed_summary)))
      = total_cache_read mixed_summary
   /\ (forall m st, dict_get m (models mixed_summary) = Some st ->
         exists costs,
           traverse calculate_cost (by_model m mixed_models) = Some costs
           /\ cost st = left_sum costs))
  /\ exists costs,
       traverse calculate_cost mixed_models = Some costs
       /\ total_cost mixed_summary = py_sum LeftToRight costs
       /\ let low := zsum (map (grid_floor (-60)) costs) in
          let high := zsum (map (grid_ceil (-60)) costs) in
          high - low = 2
          /\ float_between low high (-60) (total_cost mixed_summary)
          /\ float_between low high (-60)
               (py_sum LeftToRight (map cost (dict_values (models mixed_summary))))
          /\ float_between (low - 6) (high + 6) (-60)
               (py_sum Compensated (map cost (dict_values (models mixed_summary)))).
Proof.
  assert (Hs : summarize LeftToRight mixed_models = Some mixed_summary)
    by (vm_compute; reflexivity).
  destruct (models_consistent LeftToRight mixed_models mixed_summary Hs)
    as (H1 & H2 & H3 & H4 & H5 & H6 & costs & Ec & Et & Hgrid).
  split; [repeat split; assumption|].
  exists costs. split; [exact Ec|]. split; [exact Et|].
  assert (Hnn : Forall nonneg_counts mixed_models)
    by (repeat constructor; simpl; lia).
  assert (Hc : -1074 <= -60 <= 971) by lia.
  assert (Hnum : Forall (fun x => is_number x = true) costs).
  { vm_compute in Ec. apply some_inj in Ec. subst costs. repeat constructor. }
  pose proof (Hgrid (-60) LeftToRight Hc Hnn Hnum) as HL.
  pose proof (Hgrid (-60) Compensated Hc Hnn Hnum) as HC.
  cbv zeta in HL, HC |- *.
  cbn [sum_slack] in HL, HC.
  assert (Hw : zsum (map (grid_ceil (-60)) costs)
               - zsum (map (grid_floor (-60)) costs) = 2).
  { vm_compute in Ec. apply some_inj in Ec. subst costs. vm_compute. reflexivity. }
  rewrite Hw in HL, HC.
  assert (Hb : zsum (map (grid_ceil (-60)) costs) + len mixed_models * 2 < 2 ^ 53).
  { vm_compute in Ec. apply some_inj in Ec. subst costs. vm_compute. reflexivity. }
  specialize (HL Hb). specialize (HC Hb).
  rewrite Z.sub_0_r, Z.add_0_r in HL.
  change (len mixed_models * 2) with 6 in HC.
  destruct HL as [HL1 HL2]. destruct HC as [_ HC2].
  split; [exact Hw|]. split; [exact HL1|]. split; [exact HL2|exact HC2].
Defined.

(** ** The metrics without a title *)

Lemma forallb_zero {A} (g : A -> Z) l :
  forallb (fun r => g r =? 0) l = true <-> Forall (fun r => g r = 0) l.
Proof.
  rewrite forallb_forall, Forall_forall. split; intros H r Hr.
  - apply Z.eqb_eq. apply H. assumption.
  - apply Z.eqb_eq. apply H. assumption.
Qed.

Section UntitledMetric.
Variable fromisoformat : string -> option tz_datetime.
Variable astimezone : tz_datetime -> option tz_datetime.
Variable style : year_style.

(** A metric that is an integer field of the buckets and has no title:
    the field of a bucket is the sum of [g] over its records. *)
Lemma graph_int_field now days data metric
    (fb : SeriesStats -> Z) (g : UsageRecord -> Z) :
  valid_datetime now -> valid_datetime (now - days * US_PER_DAY) ->
  (forall b, series_field metric b = Some (NInt (fb b))) ->
  (forall rs, fb (series_tally rs) = zsum (map g rs)) ->
  chart_title metric days = None ->
  Forall (fun r => 0 <= g r) data ->
  generate_graph fromisoformat astimezone style now data days metric =
    match filter (since fromisoformat astimezone (now - days * US_PER_DAY)) data with
    | [] => Some NO_DATA
    | window =>
        if forallb (fun r => g r =? 0) window then Some NO_ACTIVITY else None
    end.
Proof.
  intros Hnow Hcut Hfield Htally Htitle Hnonneg.
  set (fmt := if days <=? 2 then HOURLY_FORMAT else DAILY_FORMAT).
  set (cutoff := now - days * US_PER_DAY) in *.
  set (window := filter (since fromisoformat astimezone cutoff) data).
  set (ts := fold_left (series_entry fromisoformat astimezone style days fmt cutoff)
               data []).
  assert (Hrec : forall r, In r window -> 0 <= g r).
  { intros r Hr. apply filter_In in Hr. destruct Hr as [Hr _].
    exact (proj1 (Forall_forall _ _) Hnonneg r Hr). }
  assert (Hbucket : forall k b, In (k, b) ts ->
            0 <= fb b
            /\ (fb b = 0 <->
                Forall (fun r => g r = 0)
                  (series_records fromisoformat astimezone style days fmt cutoff k
                     data))).
  { intros k b Hin. apply series_fold_pair in Hin. destruct Hin as [_ ->].
    rewrite Htally.
    assert (Hnn : Forall (fun v => 0 <= v)
                    (map g (series_records fromisoformat astimezone style days fmt
                              cutoff k data))).
    { apply Forall_forall. intros v Hv. apply in_map_iff in Hv.
      destruct Hv as [r [<- Hr]]. apply Hrec.
      apply (series_records_in_window fromisoformat astimezone style days fmt
               cutoff k). exact Hr. }
    split; [apply zsum_nonneg; exact Hnn|].
    rewrite (zsum_zero _ Hnn). rewrite Forall_map. reflexivity. }
  assert (Hall : Forall (fun kv => fb (snd kv) = 0) ts
                 <-> Forall (fun r => g r = 0) window).
  { rewrite !Forall_forall. split.
    - intros H r Hr.
      destruct (series_records_window fromisoformat astimezone style days fmt
                  cutoff r data Hr) as [k Hk].
      assert (Hin : In (k, series_tally
                             (series_records fromisoformat astimezone style days
                                fmt cutoff k data)) ts).
      { apply series_fold_pair. split; [|reflexivity]. intros E. rewrite E in Hk.
        destruct Hk. }
      pose proof (H _ Hin) as H0. cbn [snd] in H0.
      apply (proj1 (proj2 (Hbucket _ _ Hin))) in H0.
      exact (proj1 (Forall_forall _ _) H0 r Hk).
    - intros H [k b] Hin. cbn [snd]. apply (Hbucket k b Hin).
      apply Forall_forall. intros r Hr. apply H.
      apply (series_records_in_window fromisoformat astimezone style days fmt
               cutoff k). exact Hr. }
  rewrite graph_runs by assumption. cbv zeta. fold fmt cutoff ts.
  pose proof (series_fold_nil fromisoformat astimezone style days fmt cutoff data)
    as Hnil.
  fold ts window in Hnil |- *.
  destruct ts as [|kv ts'] eqn:Ets.
  { rewrite (proj1 Hnil eq_refl). reflexivity. }
  assert (Hwin : window <> []) by (intros E; apply Hnil in E; discriminate).
  destruct window as [|w0 window'] eqn:Ew; [contradiction Hwin; reflexivity|].
  pose proof (sorted_items_perm (kv :: ts')) as Hperm.
  destruct (sorted_items (kv :: ts')) as [|item items] eqn:Es.
  { apply Permutation_nil in Hperm. discriminate. }
  assert (Hvalues : forall l : list (string * SeriesStats),
            traverse (fun it => series_field metric (snd it)) l
            = Some (map NInt (map (fun it => fb (snd it)) l))).
  { induction l as [|it l IH]; cbn [traverse map]; [reflexivity|].
    rewrite Hfield, IH. reflexivity. }
  rewrite Hvalues. cbn [bind map].
  rewrite py_max_ints. unfold number_eq at 1. cbn [compare_numbers].
  assert (Hnn : Forall (fun kv0 : string * SeriesStats => 0 <= fb (snd kv0))
                  (item :: items)).
  { apply Forall_forall. intros [k b] Hin. cbn [snd].
    apply (Hbucket k b). apply (Permutation_in _ Hperm). exact Hin. }
  inversion Hnn as [|? ? Hitem Hitems]; subst.
  pose proof (max_zero (map (fun kv0 : string * SeriesStats => fb (snd kv0)) items)
                (fb (snd item)) Hitem
                (proj2 (Forall_map _ _ _) Hitems)) as Hmax.
  assert (Hzero : Forall (fun r => g r = 0) (w0 :: window')
                  <-> fold_left Z.max
                        (map (fun kv0 : string * SeriesStats => fb (snd kv0)) items)
                        (fb (snd item)) = 0).
  { rewrite <- Hall, Hmax. rewrite Forall_map.
    rewrite <- (Forall_cons_iff (fun kv0 : string * SeriesStats => fb (snd kv0) = 0)).
    split; intros H; rewrite Forall_forall in *; intros x Hx; apply H.
    - apply (Permutation_in _ Hperm). exact Hx.
    - apply (Permutation_in _ (Permutation_sym Hperm)). exact Hx. }
  destruct (forallb (fun r => g r =? 0) (w0 :: window')) eqn:Eall.
  - apply forallb_zero in Eall. apply Hzero in Eall. rewrite Eall. reflexivity.
  - assert (Hne : fold_left Z.max
                    (map (fun kv0 : string * SeriesStats => fb (snd kv0)) items)
                    (fb (snd item)) <> 0).
    { intros E. apply Hzero in E. apply forallb_zero in E. congruence. }
    destruct (fold_left Z.max _ _ ?= 0) eqn:E;
      [apply Z.compare_eq in E; contradiction| |];
      (destruct (traverse (scaled_value _) _); cbn [bind]; [|reflexivity]);
      rewrite Htitle; reflexivity.
Qed.

(** A metric that is no field of the buckets. *)
Lemma graph_no_field now days data metric :
  valid_datetime now -> valid_datetime (now - days * US_PER_DAY) ->
  (forall b, series_field metric b = None) ->
  generate_graph fromisoformat astimezone style now data days metric =
    match filter (since fromisoformat astimezone (now - days * US_PER_DAY)) data with
    | [] => Some NO_DATA
    | _ :: _ => None
    end.
Proof.
  intros Hnow Hcut Hfield.
  set (fmt := if days <=? 2 then HOURLY_FORMAT else DAILY_FORMAT).
  set (cutoff := now - days * US_PER_DAY) in *.
  rewrite graph_runs by assumption. cbv zeta. fold fmt cutoff.
  pose proof (series_fold_nil fromisoformat astimezone style days fmt cutoff data)
    as Hnil.
  destruct (fold_left (series_entry fromisoformat astimezone style days fmt cutoff)
              data []) as [|kv ts'] eqn:Ets.
  { rewrite (proj1 Hnil eq_refl). reflexivity. }
  destruct (filter (since fromisoformat astimezone cutoff) data)
    as [|w0 window'] eqn:Ew.
  { pose proof (proj2 Hnil eq_refl). discriminate. }
  pose proof (sorted_items_perm (kv :: ts')) as Hperm.
  destruct (sorted_items (kv :: ts')) as [|item items] eqn:Es.
  { apply Permutation_nil in Hperm. discriminate. }
  cbn [traverse]. rewrite Hfield. reflexivity.
Qed.

(** X12.  [generate_graph] for a metric other than ['total_tokens'],
    ['cost'] and ['requests'], on records with counts that are not
    negative.  With no record in the window it returns the text that
    there is no data.  Otherwise, for ['input_tokens'] (and likewise
    ['output_tokens']), which are fields of the buckets: when every
    record in the window has 0 input tokens it returns the text that
    there is no activity, whatever the other counts are, and when some
    record in the window has input tokens the call raises, at the latest
    where the title is used, which is not bound for these metrics; for
    any other metric the call raises, the buckets having no such field. *)
Theorem generate_graph_untitled_metric (now : datetime) (days : Z)
    (usage_data : list UsageRecord) (metric : string)
    (Hnow : valid_datetime now)
    (Hcutoff : valid_datetime (now - days * US_PER_DAY))
    (Hnonneg : Forall nonneg_counts usage_data)
    (Hmetric : titled_metric metric = false) :
  generate_graph fromisoformat astimezone style now usage_data days metric =
    match filter (since fromisoformat astimezone (now - days * US_PER_DAY))
            usage_data with
    | [] => Some NO_DATA
    | window =>
        if String.eqb metric "input_tokens"
        then if forallb (fun r => input_tokens r =? 0) window
             then Some NO_ACTIVITY else None
        else if String.eqb metric "output_tokens"
        then if forallb (fun r => output_tokens r =? 0) window
             then Some NO_ACTIVITY else None
        else None
    end.
Proof.
  unfold titled_metric in Hmetric.
  apply orb_false_iff in Hmetric. destruct Hmetric as [Hmetric Hr].
  apply orb_false_iff in Hmetric. destruct Hmetric as [Ht Hc].
  destruct (String.eqb metric "input_tokens") eqn:Ei;
    [|destruct (String.eqb metric "output_tokens") eqn:Eo].
  - apply String.eqb_eq in Ei. subst metric.
    rewrite (graph_int_field now days usage_data "input_tokens"
               s_input_tokens input_tokens Hnow Hcutoff).
    + destruct (filter _ usage_data); reflexivity.
    + intros b. reflexivity.
    + intros rs. reflexivity.
    + reflexivity.
    + apply (Forall_impl _ (P := nonneg_counts)); [|assumption].
      intros r Hn. apply Hn.
  - apply String.eqb_eq in Eo. subst metric.
    rewrite (graph_int_field now days usage_data "output_tokens"
               s_output_tokens output_tokens Hnow Hcutoff).
    + destruct (filter _ usage_data); reflexivity.
    + intros b. reflexivity.
    + intros rs. reflexivity.
    + reflexivity.
    + apply (Forall_impl _ (P := nonneg_counts)); [|assumption].
      intros r Hn. apply Hn.
  - rewrite (graph_no_field now days usage_data metric Hnow Hcutoff).
    + destruct (filter _ usage_data); reflexivity.
    + intros b. unfold series_field. rewrite Ei, Eo, Ht, Hc, Hr. reflexivity.
Qed.

End UntitledMetric.

Lemma generate_graph_untitled_metric_witness :
  generate_graph ExampleClock.fromisoformat ExampleClock.utc PlainYear
    noon_next_day output_only 7 "input_tokens" = Some NO_ACTIVITY
  /\ generate_graph ExampleClock.fromisoformat ExampleClock.utc PlainYear
       noon_next_day output_only 7 "output_tokens" = None
  /\ generate_graph ExampleClock.fromisoformat ExampleClock.utc PlainYear
       noon_next_day output_only 7 "tokens" = None
  /\ generate_graph ExampleClock.fromisoformat ExampleClock.utc PlainYear
       noon_next_day [] 7 "tokens" = Some NO_DATA.
Proof.
  assert (Hnow : valid_datetime noon_next_day)
    by (vm_compute; split; [discriminate|reflexivity]).
  assert (Hcut : valid_datetime (noon_next_day - 7 * US_PER_DAY))
    by (vm_compute; split; [discriminate|reflexivity]).
  assert (Hnn : Forall nonneg_counts output_only)
    by (repeat constructor; vm_compute; discriminate).
  split; [|split; [|split]].
  - rewrite (generate_graph_untitled_metric ExampleClock.fromisoformat
               ExampleClock.utc PlainYear noon_next_day 7 output_only
               "input_tokens" Hnow Hcut Hnn eq_refl).
    vm_compute. reflexivity.
  - rewrite (generate_graph_untitled_metric ExampleClock.fromisoformat
               ExampleClock.utc PlainYear noon_next_day 7 output_only
               "output_tokens" Hnow Hcut Hnn eq_refl).
    vm_compute. reflexivity.
  - rewrite (generate_graph_untitled_metric ExampleClock.fromisoformat
               ExampleClock.utc PlainYear noon_next_day 7 output_only
               "tokens" Hnow Hcut Hnn eq_refl).
    vm_compute. reflexivity.
  - rewrite (generate_graph_untitled_metric ExampleClock.fromisoformat
               ExampleClock.utc PlainYear noon_next_day 7 []
               "tokens" Hnow Hcut (Forall_nil _) eq_refl).
    vm_compute. reflexivity.
Defined.

(** ** White space outside ASCII *)

(** [strip] removes U+00A0, U+3000 and U+0085 like the space and the
    line feed, and leaves U+2003 between two letters, the letter U+00E0,
    whose second byte is that of U+00A0, and U+200B, which is no white
    space. *)
Example strip_white_space :
  strip (utf8 [194; 160; 32; 97; 226; 128; 131; 98; 227; 128; 128; 194; 133; 10]%nat)
  = utf8 [97; 226; 128; 131; 98]%nat
  /\ strip (utf8 [195; 160]%nat) = utf8 [195; 160]%nat
  /\ strip (utf8 [226; 128; 139; 32]%nat) = utf8 [226; 128; 139]%nat
  /\ strip (utf8 [226; 128; 168; 9; 225; 154; 128]%nat) = EmptyString.
Proof. vm_compute. repeat split; reflexivity. Qed.

(** A reading that a chunk that does not decode ends before the first
    line gives no entry, where the reading of the file before the bytes
    were appended gave one. *)
Example parse_undecodable_chunk :
  parse_jsonl_file BasicJson.json_loads
    (mkFile "project" (Some (mkText [] UnicodeDecodeError))) = []
  /\ parse_jsonl_file BasicJson.json_loads
       (mkFile "project" (Some (mkText [usage_line] EndOfFile))) = [usage_entry]
  /\ parse_jsonl_file BasicJson.json_loads
       (mkFile "project" (Some (mkText [usage_line] UnicodeDecodeError)))
     = [usage_entry].
Proof. vm_compute. repeat split; reflexivity. Qed.
